(* ===== verification/_CoqProject ===== *)
-Q . S2P
Prelude.v
Bits.v
Registers.v
CSRegister.v
Traps.v
Instruction.v
Parser.v
ParserSpec.v
Encode.v
XStatus.v
XStatusSpec.v
CSRegisters.v
CSRegistersSpec.v
HartState.v
HartStateSpec.v
Bus.v
BusSpec.v
AddressTranslation.v
AddressTranslationSpec.v
TranslationCache.v
TranslationCacheSpec.v
IntInstr.v
IntInstrSpec.v
MachineCore.v
MachineCoreSpec.v
CoreInstr.v
Float.v
FloatSpec.v
RunInstr.v
RunInstrSpec.v
CoreInstrSpec.v
InstructionCache.v
InstructionCacheSpec.v
BlockCache.v
MachineState.v
BlockCacheSpec.v
BlockCacheSound.v
StepSpec.v
StepWf.v
HandleSpec.v
Sbi.v
SbiSpec.v
Pvm.v
PvmSpec.v
Program.v
ProgramSpec.v
Boot.v
BootSpec.v
Stepper.v
StepperSpec.v
TestStepper.v
TestStepperSpec.v
Hash.v
HashSpec.v
Merkle.v
MerkleSpec.v
Storage.v
StorageSpec.v
NodeStorage.v
Path.v
PathSpec.v
DurableStore.v
DurableStoreSpec.v
DurableStoreTidy.v
Runtime.v
RuntimeSpec.v
Transactions.v
TransactionsSpec.v
Dac.v
DacSpec.v
CertificateSpec.v
Outbox.v
OutboxSpec.v
MockHost.v
MockHostSpec.v
Installer.v
InstallerSpec.v
InstallerConfig.v
InstallerConfigSpec.v
