(* ===== verification/Prelude.v ===== *)
(** * The RISC-V machine of the smart rollup PVM

    A model of the interpreter under [src/riscv/lib/src] (the crate
    [octez-riscv]) and the theorems that make it correct.  The machine executes
    RV64IMAFDC with the Zicsr and Zifencei extensions, three privilege modes
    and paged virtual memory.  It is the machine whose every step a rollup
    dispute may replay, so the state it leaves, in success and in failure, and
    the number of steps it counts, are what matters.  Around the machine are
    modelled the PVM of the rollup node, its storage and proofs, and the
    storage that the kernels running on the machine use ([src/kernel_sdk]).

    ** Parts, and the files that model them

    Data of the hart.
    - [Bits]: masks and bit ranges ([bits.rs]).
    - [Registers]: integer and floating-point registers
      ([machine_state/registers.rs]).
    - [CSRegister]: modes, names of the control and status registers, their
      shadows and roots ([machine_state/mode.rs], [csregisters.rs],
      [csregisters/root.rs]).
    - [XStatus], [XStatusSpec]: [mstatus], [sstatus], [satp] as bit fields
      ([csregisters/bits.rs], [xstatus.rs], [satp.rs], [values/mstatus.rs]).
    - [CSRegisters], [CSRegistersSpec]: reading and writing registers, legal
      values, access checks, trap delegation ([csregisters.rs],
      [csregisters/values.rs]).
    - [Traps]: exceptions, interrupts, causes, handler addresses ([traps.rs]).
    - [HartState], [HartStateSpec]: the hart, trap entry and return, CSR
      instructions, the reservation set ([hart_state.rs],
      [reservation_set.rs], [interpreter/rv64priv.rs], [rv64zicsr.rs]).

    Instructions.
    - [Instruction], [Parser], [ParserSpec], [Encode]: the instruction type
      ([parser/instruction.rs]), the decoder ([parser.rs]) and a reference
      encoder.
    - [IntInstr], [IntInstrSpec]: RV64IMC on registers ([interpreter/rv32i.rs],
      [rv64i.rs], [rv32m.rs], [rv64m.rs], [rv32c.rs], [rv64c.rs]).
    - [CoreInstr], [CoreInstrSpec]: loads, stores, atomics, fences
      ([atomics.rs], [rv32a.rs], [rv64a.rs], [rv64priv.rs]).
    - [Float], [FloatSpec]: F and D ([float.rs], [rv64f.rs], [rv64d.rs],
      [rv64dc.rs]).
    - [RunInstr], [RunInstrSpec]: the dispatch [run_instr_cacheable] and the
      handling of its result ([machine_state.rs]).

    Memory.
    - [Bus], [BusSpec]: address spaces, main memory, devices
      ([machine_state/bus.rs], [bus/main_memory.rs], [bus/devices.rs]).
    - [AddressTranslation], [AddressTranslationSpec]: the page-table walk
      ([address_translation.rs], [pte.rs], [virtual_address.rs],
      [physical_address.rs]).
    - [TranslationCache], [TranslationCacheSpec]: the cache of translations
      ([translation_cache.rs], [cache_utils.rs]).
    - [MachineCore], [MachineCoreSpec]: hart, bus and cache together
      ([MachineCoreState] of [machine_state.rs], [common_memory.rs]).

    The machine.
    - [InstructionCache], [InstructionCacheSpec] ([instruction_cache.rs]).
    - [BlockCache], [BlockCacheSpec], [BlockCacheSound]: blocks of
      instructions, running them whole or partially ([block_cache.rs]).
    - [MachineState], [StepSpec], [StepWf], [HandleSpec]: fetch, [step], [step_max],
      [step_max_handle] ([machine_state.rs], [range_utils.rs],
      [cache_layouts.rs], [rv64zifencei.rs]).

    The PVM around the machine.
    - [Sbi], [SbiSpec]: environment calls, input and metadata ([pvm/sbi.rs],
      and the constants of [src/kernel_sdk/constants]).
    - [Pvm], [PvmSpec]: evaluation and the PVM of the rollup node
      ([pvm/common.rs], [pvm/node_pvm.rs]).
    - [Program], [ProgramSpec]: segments and the ELF loader ([program.rs],
      [kernel_loader.rs]).
    - [Boot], [BootSpec]: the device tree and [setup_boot] ([devicetree.rs],
      [machine_state.rs]).
    - [Stepper], [StepperSpec]: the stepper that feeds a PVM from an inbox
      ([stepper.rs], [stepper/pvm.rs], [src/kernel_sdk/utils/src/inbox.rs]).
    - [TestStepper], [TestStepperSpec]: the stepper for test programs and the
      environment they exit through ([stepper/test.rs], [stepper/test/posix.rs]).

    Hashes, proofs and storage of the state.
    - [Hash], [HashSpec]: hashes of data and Merkle hashes
      ([state_backend/hash.rs], [region.rs]).
    - [Merkle], [MerkleSpec]: Merkle trees, proofs and their encoding
      ([state_backend/proof_backend]).
    - [Storage], [StorageSpec]: the content-addressed store, commits and
      snapshots over a file system that may fail ([storage.rs],
      [storage/chunked_io.rs], [storage/binary.rs]).
    - [NodeStorage]: boot sector and repository of the node's PVM
      ([pvm/node_pvm.rs]).

    The storage of the kernels that run on the machine ([src/kernel_sdk]).
    - [Path], [PathSpec]: paths of the storage ([host/src/path.rs]).
    - [DurableStore], [DurableStoreSpec], [DurableStoreTidy]: the in-memory tree
      of values and the host functions over it ([mock/src/state/store.rs],
      [mock/src/state/in_memory_store.rs]).  [SmartRollupCore] is the interface
      of a host, [StoreLaws] what a host promises.
    - [Runtime], [RuntimeSpec]: reading and writing values of any size over a
      host ([host/src/runtime.rs]).
    - [Transactions], [TransactionsSpec]: nested transactions over the runtime
      ([storage/src]).
    - [Dac], [DacSpec], [CertificateSpec]: payloads as trees of pages that are
      revealed by their hashes, and certificates over them
      ([encoding/src/dac]).
    - [Outbox], [OutboxSpec]: the queue of outbox messages ([sdk/src/outbox.rs]).
    - [MockHost], [MockHostSpec]: input and reveals, and the host
      that runs kernels outside of a rollup ([host/src/runtime.rs],
      [metadata.rs], [dal_parameters.rs], [mock/src], [encoding/src/inbox.rs]).
    - [Installer], [InstallerSpec]: the kernel that installs
      another one, the instructions it evaluates and their format
      ([installer-kernel/src], [installer-config/src/binary]).
    - [InstallerConfig], [InstallerConfigSpec]: the client that makes such a
      kernel ([installer-client/src], [installer-config/src/yaml]).


    ** How the code is represented

    A struct of cells is a record of values; [&mut self] is state passing.  A
    method that returns [Result] is a computation of [stM]: state in, result
    and state out, so what an error path has already written stays visible.
    An integer of [w] bits is a [Z] in its range ([is_u w], [is_i w]) and
    arithmetic wraps explicitly ([wrap], [swrap], [⊞]), as it does in a
    release build; [debug_assert!] is not part of the model.  A match arm that
    is [unreachable!] in the source is [None], with a lemma that it is not
    reached; a panic of the host that can be reached is an outcome
    ([Panicked], [None]).  A loop that is not structural takes fuel, and
    [OutOfFuel] or [None] says that it was used up.  Arrays that the code
    indexes with a mask are functions on the index; memory is a finite map of
    bytes, absent bytes being zero.  Macros are parametrised definitions.

    Code that is not in this repository is an interface: [ApFloat] for
    rustc_apfloat and ieee-apsqrt, with the laws [ApFloatLaws] that hold by
    their documentation and an instance that satisfies them; [ArbitraryInt]
    for arbitrary-int; [TezosCrypto] and [Blake2b] for signatures and digests;
    [FdtWriter] for vm-fdt, an argument for the goblin parser; [Bincode] and
    [StorageCodec] for serialisation and hexadecimal names, with the round trips
    that they document as laws.  The size of memory
    ([MainMemoryLayout]) and of the caches ([CacheLayouts]) are parameters, as
    they are type parameters of the source.

    ** What the theorems show

    - Stepping ([StepSpec], [StepWf]): running [n] steps at once is running
      them one at a time, interrupted runs resume where they stopped, and the
      machine keeps its invariant; [n] units of fuel, one per iteration of a
      loop, are enough for [n] steps.  Fuel runs out only when the program
      counter is at an empty block, which exists at address zero only.
    - Caches ([InstructionCacheSpec], [BlockCacheSound],
      [TranslationCacheSpec], [MachineCoreSpec]): each cache refines an
      abstract one that a fence empties, although the code compares wrapping
      32-bit counters; cached translation is translation.
    - Memory ([BusSpec], [AddressTranslationSpec], [CoreInstrSpec]): exact
      bounds, what is written is read, the walk finds the leaf the tables
      define, store-conditional succeeds once per reservation.
    - Hart ([HartStateSpec], [CSRegistersSpec], [XStatusSpec]): trap entry and
      return, access checks, shadows, legal values, reset.
    - Instructions ([IntInstrSpec], [FloatSpec], [CoreInstrSpec],
      [RunInstrSpec]): results on every operand, overflow and division by zero
      included, error paths, and that registers hold 64-bit values.
    - Decoder ([ParserSpec], [Encode]): decoding inverts a reference encoder,
      and operands are in range.
    - PVM ([SbiSpec], [PvmSpec], [StepperSpec]): every environment call and
      its errors, computing many steps is computing single ones, calls
      included, input reaches the buffers that were asked for, the node keeps
      its invariant; the stepper is single steps and deliveries.  More than
      [n] units of fuel are enough for [n] steps, and [n + 2] turns for the
      stepper's loop.
    - Loading ([ProgramSpec], [BootSpec]): what a write does to the bytes of a
      program; after booting, program, ramdisk and device tree are in memory
      where the registers and the device tree say.
    - Hashes and proofs ([HashSpec], [MerkleSpec]): the hash of the memory is
      total, independent of how it is written, and binds the contents; the
      check of a Merkle tree recomputes every hash; the encoding of a proof is
      decoded by the structure of the state alone.  Binding is stated for the
      byte sequences that are really hashed: if these do not collide, equal
      roots mean equal data.  Loops need one unit of fuel per byte, leaf or
      node.
    - Storage ([StorageSpec]): what is committed is checked
      out, later and from snapshots too, when the disk does not fail; what a
      failing write leaves behind.
    - Handlers ([HandleSpec], [TestStepperSpec]): a run whose environment calls
      a handler serves is single steps, whatever the handler; a test program
      exits once, from its exit mode, with the code its registers ask for.
    - Kernel storage ([PathSpec], [DurableStoreSpec], [DurableStoreTidy],
      [RuntimeSpec], [TransactionsSpec]): paths are exactly those of the
      documented grammar; each host function acts on the values as documented,
      and what the storage says about existence is true unless single values
      were deleted; a value that is written whole is read whole; transactions
      refine a stack of contents.  The theorems on the runtime and on
      transactions hold for every host that keeps the laws.
    - Pages ([DacSpec], [CertificateSpec]): what is split into pages is
      revealed again, depth first with enough levels, and breadth first into
      the storage up to the documented size.  As much fuel as there are bytes
      is enough to build the tree; the loops that reveal it need none beyond
      the bounds of the source.
    - Outbox ([OutboxSpec]): the queue refines a list of messages, in order and
      without loss; one unit of fuel per queued message is enough.
    - Mock host ([MockHostSpec]): it keeps the laws of storage and outbox, and
      its input, reveals and reboots are as documented.
    - Installer ([InstallerSpec], [InstallerConfigSpec]): it
      evaluates exactly the program that was appended to it, one unit of fuel
      per instruction being enough; a kernel that goes through the client, its
      preimage files and the installer is the one that boots; what the client
      converts always fits the installer.


    Some theorems state behaviour that departs from the ISA manual or from a
    comment: the reservation set rounds up ([reservation_spec]), translations
    go stale when [MPRV] changes ([stale_translation_after_mprv]), reserved
    shifts decode ([reserved_shifts_decode]), an atomic operation writes [rd]
    before a store that may fault ([amo_outcome]), and the machine loops at
    address zero ([step_at_zero_diverges]).  A write into a program drops bytes
    behind it ([write_bytes_spec]), a guest can panic its host with an
    oversized buffer ([oversized_buffer_panics]), an interrupted write of the
    store is never repaired ([interrupted_store]), and the stepper goes one
    step over its bound ([stepper_exceeds_bound]).

    ** Not modelled

    The types that fix how the state is laid out, allocated, cloned and
    serialised ([state_backend.rs], [state_backend/layout.rs]), whose cells
    appear here as record fields, and with them the hash of the whole state and
    what [PvmStorage] writes for it when it commits;
    the conversion of a Merkle tree to a proof, which the source leaves
    unimplemented; text output (disassembly, formatting, debugging); the OCaml
    bindings and the sandbox, which are glue.  Of the kernel SDK, the encodings
    of outbox messages and Michelson data, which macros derive for the most
    part, are left out.  The other programs of the repository (MIR, the
    Etherlink kernel, vendored Wasmer) are separate. *)
From Stdlib Require Export ZArith Lia Bool.
From stdpp Require Export base decidable option list numbers gmap.

#[global] Open Scope Z_scope.

Declare Scope machine_scope.
Delimit Scope machine_scope with machine.
#[global] Open Scope machine_scope.

(** ** Results and the state/exception monad

    [Result<A, E>] of the source, and the shape of a method
    [fn(&mut self) -> Result<A, E>]: the state that is left behind when an
    error is returned is kept, as it is in the source. *)

Inductive result (A E : Type) : Type :=
| Ok (a : A)
| Err (e : E).
Arguments Ok {A E} _.
Arguments Err {A E} _.

Definition result_map {A B E} (f : A -> B) (r : result A E) : result B E :=
  match r with Ok a => Ok (f a) | Err e => Err e end.

Definition result_map_err {A E F} (f : E -> F) (r : result A E) : result A F :=
  match r with Ok a => Ok a | Err e => Err (f e) end.

Definition stM (S E A : Type) : Type := S -> result A E * S.

Definition st_ret {S E A} (a : A) : stM S E A := fun s => (Ok a, s).
Definition st_bind {S E A B} (m : stM S E A) (k : A -> stM S E B) : stM S E B := fun s =>
  match m s with
  | (Ok a, s') => k a s'
  | (Err e, s') => (Err e, s')
  end.

Definition result_bind {A B E} (r : result A E) (k : A -> result B E) : result B E :=
  match r with Ok a => k a | Err e => Err e end.

Notation "'let!' x := m 'in' k" := (st_bind m (fun x => k))
  (at level 10, x pattern, m at level 100, k at level 200) : machine_scope.
Notation "'let?' x := m 'in' k" := (result_bind m (fun x => k))
  (at level 10, x pattern, m at level 100, k at level 200) : machine_scope.

Definition throw {S E A} (e : E) : stM S E A := fun s => (Err e, s).
Definition gets {S E A} (f : S -> A) : stM S E A := fun s => (Ok (f s), s).
Definition modify {S E} (f : S -> S) : stM S E unit := fun s => (Ok tt, f s).
Definition lift_result {S E A} (r : result A E) : stM S E A := fun s => (r, s).

(** ** Outcomes

    How an operation ends: with a value, in a panic, or out of fuel. *)

Inductive outcome (A : Type) : Type := Done (a : A) | Panicked | OutOfFuel.
Arguments Done {A} _.
Arguments Panicked {A}.
Arguments OutOfFuel {A}.

Definition outcome_map {A B} (f : A -> B) (o : outcome A) : outcome B :=
  match o with Done a => Done (f a) | Panicked => Panicked | OutOfFuel => OutOfFuel end.

(** [None] stands for a panic. *)
Definition of_option {A} (o : option A) : outcome A :=
  match o with Some a => Done a | None => Panicked end.

(** ** Invariants of computations

    [keeps Q m]: whatever [m] returns, it leaves a state that satisfies [Q] when
    it is started in one. *)

Definition keeps {S E A} (Q : S -> Prop) (m : stM S E A) : Prop := forall s, Q s -> Q (m s).2.

Create HintDb keeps.

Section keeps.
Context {S E : Type} (Q : S -> Prop).

Lemma keeps_ret {A} (a : A) : keeps (E := E) Q (st_ret a).
Proof. by intros s H. Qed.

Lemma keeps_bind {A B} (m : stM S E A) (k : A -> stM S E B) :
  keeps Q m -> (forall a, keeps Q (k a)) -> keeps Q (st_bind m k).
Proof.
  intros M K s H. unfold st_bind. specialize (M s H).
  destruct (m s) as [[a|e] s']; [by apply K|done].
Qed.

Lemma keeps_throw {A} (e : E) : keeps (A := A) Q (throw e).
Proof. by intros s H. Qed.

Lemma keeps_gets {A} (f : S -> A) : keeps (E := E) Q (gets f).
Proof. by intros s H. Qed.

Lemma keeps_lift {A} (r : result A E) : keeps Q (lift_result r).
Proof. by intros s H. Qed.

Lemma keeps_modify (f : S -> S) : (forall s, Q s -> Q (f s)) -> keeps (E := E) Q (modify f).
Proof. intros F s H. by apply F. Qed.

Lemma keeps_if {A} (b : bool) (m m' : stM S E A) : keeps Q m -> keeps Q m' -> keeps Q (if b then m else m').
Proof. by destruct b. Qed.

(** [yields Q P m]: moreover a value that [m] returns satisfies [P]. *)
Definition yields {A} (P : A -> Prop) (m : stM S E A) : Prop :=
  forall s, Q s -> Q (m s).2 /\ forall a, (m s).1 = Ok a -> P a.

Lemma yields_keeps {A} (P : A -> Prop) (m : stM S E A) : yields P m -> keeps Q m.
Proof. intros Y s H. by apply Y. Qed.

Lemma yields_bind {A B} (P : A -> Prop) (R : B -> Prop) (m : stM S E A) (k : A -> stM S E B) :
  yields P m -> (forall a, P a -> yields R (k a)) -> yields R (st_bind m k).
Proof.
  intros M K s H. unfold st_bind. specialize (M s H) as [M1 M2].
  destruct (m s) as [[a|e] s']; simpl in M1, M2; [|done]. apply K; [by apply M2|done].
Qed.

Lemma keeps_bind_val {A B} (P : A -> Prop) (m : stM S E A) (k : A -> stM S E B) :
  yields P m -> (forall a, P a -> keeps Q (k a)) -> keeps Q (st_bind m k).
Proof.
  intros M K s H. unfold st_bind. specialize (M s H) as [M1 M2].
  destruct (m s) as [[a|e] s']; simpl in M1, M2; [|done]. apply K; [by apply M2|done].
Qed.

Lemma yields_ret {A} (P : A -> Prop) (a : A) : P a -> yields P (st_ret a).
Proof. intros H s Qs. split; [done|]. by intros b [= <-]. Qed.

Lemma yields_gets {A} (P : A -> Prop) (f : S -> A) : (forall s, Q s -> P (f s)) -> yields P (gets f).
Proof. intros F s H. split; [done|]. intros a [= <-]. by apply F. Qed.

Lemma yields_throw {A} (P : A -> Prop) (e : E) : yields P (throw e).
Proof. by intros s H. Qed.

Lemma keeps_yields {A} (m : stM S E A) : keeps Q m -> yields (fun _ => True) m.
Proof. intros K s H. split; [by apply K|done]. Qed.
End keeps.

#[export] Hint Resolve keeps_ret keeps_throw keeps_gets keeps_lift keeps_if : keeps.
#[export] Hint Extern 2 (keeps _ (st_bind _ _)) => apply keeps_bind; [|intros ?] : keeps.

(** ** Machine integers

    A value of type [uN] is a [Z] in [0, 2^N); a value of type [iN] is a [Z]
    in [-2^(N-1), 2^(N-1)).  [wrap N] is the cast [as uN], [swrap N] the cast
    [as iN]; shifts mask the shift amount, which is what the release build
    of the source does. *)

Definition wrap (w z : Z) : Z := z mod 2 ^ w.
Definition swrap (w z : Z) : Z :=
  let m := z mod 2 ^ w in if m <? 2 ^ (w - 1) then m else m - 2 ^ w.

Abbreviation as_u8 := (wrap 8).
Abbreviation as_u16 := (wrap 16).
Abbreviation as_u32 := (wrap 32).
Abbreviation as_u64 := (wrap 64).
Abbreviation as_u128 := (wrap 128).
Abbreviation as_i8 := (swrap 8).
Abbreviation as_i16 := (swrap 16).
Abbreviation as_i32 := (swrap 32).
Abbreviation as_i64 := (swrap 64).
Abbreviation as_i128 := (swrap 128).

Definition wrapping_add (w a b : Z) : Z := wrap w (a + b).
Definition wrapping_sub (w a b : Z) : Z := wrap w (a - b).
Definition wrapping_mul (w a b : Z) : Z := wrap w (a * b).
Definition not_u (w a : Z) : Z := wrap w (Z.lnot a).
Definition shl_u (w a s : Z) : Z := wrap w (Z.shiftl a (s mod w)).
Definition shr_u (w a s : Z) : Z := Z.shiftr a (s mod w).
Definition sshl (w a s : Z) : Z := swrap w (Z.shiftl a (s mod w)).
Definition sshr (w a s : Z) : Z := Z.shiftr a (s mod w).
Definition saturating_sub (a b : Z) : Z := Z.max 0 (a - b).

Infix "⊞" := (wrapping_add 64) (at level 50, left associativity) : machine_scope.
Infix "⊟" := (wrapping_sub 64) (at level 50, left associativity) : machine_scope.
Infix "&" := Z.land (at level 40, left associativity) : machine_scope.
Infix "|:" := Z.lor (at level 45, left associativity) : machine_scope.
Infix "^:" := Z.lxor (at level 42, left associativity) : machine_scope.

Definition U64_MAX : Z := 2 ^ 64 - 1.

Definition is_u (w z : Z) : Prop := 0 <= z < 2 ^ w.
Definition is_i (w z : Z) : Prop := - 2 ^ (w - 1) <= z < 2 ^ (w - 1).

#[export] Instance is_u_dec w z : Decision (is_u w z).
Proof. unfold is_u; apply _. Defined.
#[export] Instance is_i_dec w z : Decision (is_i w z).
Proof. unfold is_i; apply _. Defined.

(** ** Tactics of the development *)

(** Splits on every boolean comparison of the goal and hypotheses and turns it
    into the proposition it decides. *)
Ltac bool_cases :=
  repeat match goal with
  | |- context [Z.eqb ?a ?b] => destruct (Z.eqb_spec a b)
  | |- context [Z.ltb ?a ?b] => destruct (Z.ltb_spec a b)
  | |- context [Z.leb ?a ?b] => destruct (Z.leb_spec a b)
  | H : context [Z.eqb ?a ?b] |- _ => destruct (Z.eqb_spec a b)
  | H : context [Z.ltb ?a ?b] |- _ => destruct (Z.ltb_spec a b)
  | H : context [Z.leb ?a ?b] |- _ => destruct (Z.leb_spec a b)
  end.

(** Evaluates the powers of two with literal exponents. *)
Ltac pow2 :=
  repeat match goal with
  | |- context [2 ^ Zpos ?n] =>
      let v := eval vm_compute in (2 ^ Zpos n) in change (2 ^ Zpos n) with v
  | H : context [2 ^ Zpos ?n] |- _ =>
      let v := eval vm_compute in (2 ^ Zpos n) in change (2 ^ Zpos n) with v in H
  end.

(** ** Lemmas on machine integers *)

Lemma pow2_pos w : 0 <= w -> 0 < 2 ^ w.
Proof. intros; apply Z.pow_pos_nonneg; lia. Qed.

Lemma pow2_split w : 0 < w -> 2 ^ w = 2 * 2 ^ (w - 1).
Proof. intros. replace w with (Z.succ (w - 1)) at 1 by lia. rewrite Z.pow_succ_r; lia. Qed.

Lemma wrap_range w z : 0 <= w -> is_u w (wrap w z).
Proof. intros. unfold is_u, wrap. apply Z.mod_pos_bound, pow2_pos; lia. Qed.

Lemma wrap_small w z : is_u w z -> wrap w z = z.
Proof. unfold is_u, wrap. intros. apply Z.mod_small; lia. Qed.

Lemma swrap_range w z : 0 < w -> is_i w (swrap w z).
Proof.
  intros. unfold is_i, swrap. pose proof (pow2_split w ltac:(lia)).
  pose proof (Z.mod_pos_bound z (2 ^ w) (pow2_pos w ltac:(lia))). bool_cases; lia.
Qed.

Lemma swrap_small w z : 0 < w -> is_i w z -> swrap w z = z.
Proof.
  intros Hw Hz. unfold is_i, swrap in *. pose proof (pow2_split w ltac:(lia)).
  destruct (Z.ltb_spec z 0).
  - replace (z mod 2 ^ w) with (z + 2 ^ w); [bool_cases; lia|].
    rewrite <- (Z.mod_small (z + 2 ^ w) (2 ^ w)) by lia.
    replace (z + 2 ^ w) with (z + 1 * 2 ^ w) by lia. apply Z_mod_plus_full.
  - rewrite Z.mod_small by lia. bool_cases; lia.
Qed.

Lemma swrap_mod w z : 0 < w -> swrap w z mod 2 ^ w = z mod 2 ^ w.
Proof.
  intros. unfold swrap. pose proof (pow2_pos w ltac:(lia)). bool_cases.
  - apply Z.mod_mod; lia.
  - replace (z mod 2 ^ w - 2 ^ w) with (z mod 2 ^ w + (-1) * 2 ^ w) by lia.
    rewrite Z_mod_plus_full. apply Z.mod_mod; lia.
Qed.

Lemma wrap_swrap w z : 0 < w -> wrap w (swrap w z) = wrap w z.
Proof. apply swrap_mod. Qed.

Lemma swrap_wrap w z : 0 < w -> swrap w (wrap w z) = swrap w z.
Proof. intros. unfold swrap, wrap. rewrite Z.mod_mod by (pose proof (pow2_pos w); lia). done. Qed.

Lemma wrap_wrap_le w v z : 0 <= v <= w -> wrap v (wrap w z) = wrap v z.
Proof.
  intros. unfold wrap. apply Z.mod_mod_divide.
  exists (2 ^ (w - v)). rewrite <- Z.pow_add_r by lia. f_equal; lia.
Qed.

Lemma wrapping_add_u64 a b : is_u 64 (a ⊞ b).
Proof. apply wrap_range; lia. Qed.

(** The signed and the unsigned reading of a register value determine each
    other. *)
Lemma wrap_as_i64 z : is_u 64 z -> wrap 64 (swrap 64 z) = z.
Proof. intros. rewrite wrap_swrap by lia. by apply wrap_small. Qed.

(** ** Bits *)

Lemma testbit_wrap w z i :
  0 <= w -> Z.testbit (wrap w z) i = (i <? w) && Z.testbit z i.
Proof.
  intros. unfold wrap. destruct (Z.ltb_spec i w); simpl.
  - destruct (Z.ltb_spec i 0).
    + by rewrite !Z.testbit_neg_r by lia.
    + by rewrite Z.mod_pow2_bits_low by lia.
  - by rewrite Z.mod_pow2_bits_high by lia.
Qed.

Lemma testbit_above w z i : is_u w z -> w <= i -> Z.testbit z i = false.
Proof.
  intros Hz ?. unfold is_u in Hz. destruct (Z.ltb_spec w 0).
  - rewrite Z.pow_neg_r in Hz by lia. lia.
  - rewrite <- (wrap_small w z) by done. rewrite testbit_wrap by lia. bool_cases; [lia|done].
Qed.

Lemma testbit_swrap w z i :
  0 < w -> 0 <= i -> Z.testbit (swrap w z) i = Z.testbit z (Z.min i (w - 1)).
Proof.
  intros Hw Hi. unfold swrap. pose proof (pow2_split w Hw) as E.
  pose proof (Z.mod_pos_bound z (2 ^ w) (pow2_pos w ltac:(lia))) as B.
  assert (Htop : Z.testbit z (w - 1) = negb (z mod 2 ^ w <? 2 ^ (w - 1))).
  { rewrite <- (Z.mod_pow2_bits_low z w (w - 1)) by lia.
    rewrite Z.testbit_odd, Z.shiftr_div_pow2 by lia.
    destruct (Z.ltb_spec (z mod 2 ^ w) (2 ^ (w - 1))).
    - rewrite Z.div_small by lia. done.
    - replace (z mod 2 ^ w / 2 ^ (w - 1)) with 1; [done|].
      apply Z.div_unique with (z mod 2 ^ w - 2 ^ (w - 1)); lia. }
  destruct (Z.ltb_spec (z mod 2 ^ w) (2 ^ (w - 1))) as [L|L]; simpl in Htop.
  - destruct (Z.leb_spec i (w - 1)).
    + rewrite Z.min_l by lia. by rewrite Z.mod_pow2_bits_low by lia.
    + rewrite Z.min_r by lia. rewrite Htop. by apply Z.mod_pow2_bits_high; lia.
  - assert (Hlow : forall j, Z.testbit (z mod 2 ^ w - 2 ^ w) j =
                    if j <? w then Z.testbit z j else (0 <=? j)).
    { intros j. replace (z mod 2 ^ w - 2 ^ w) with (Z.lnot (2 ^ w - 1 - z mod 2 ^ w))
        by (unfold Z.lnot; lia).
      destruct (Z.ltb_spec j 0).
      { rewrite !Z.testbit_neg_r by lia. bool_cases; [done|lia..]. }
      rewrite Z.lnot_spec by lia.
      replace (2 ^ w - 1 - z mod 2 ^ w) with (Z.ldiff (Z.ones w) (z mod 2 ^ w)).
      2:{ rewrite <- Z.sub_nocarry_ldiff.
          - rewrite Z.ones_equiv. lia.
          - apply Z.bits_inj'; intros k Hk. rewrite Z.ldiff_spec, Z.bits_0.
            destruct (Z.ltb_spec k w).
            + rewrite Z.ones_spec_low by lia. apply andb_false_r.
            + rewrite Z.mod_pow2_bits_high by lia. done. }
      rewrite Z.ldiff_spec.
      destruct (Z.ltb_spec j w).
      - rewrite Z.ones_spec_low, Z.mod_pow2_bits_low by lia. simpl. apply negb_involutive.
      - rewrite Z.ones_spec_high by lia. bool_cases; [done|lia]. }
    rewrite Hlow. bool_cases; try lia.
    + by rewrite Z.min_l by lia.
    + rewrite Z.min_r by lia. done.
Qed.

Lemma swrap_ext w a b :
  0 < w -> (forall i, 0 <= i < w -> Z.testbit a i = Z.testbit b i) -> swrap w a = swrap w b.
Proof.
  intros Hw H. apply Z.bits_inj'. intros i Hi. rewrite !testbit_swrap by done. apply H. lia.
Qed.

Lemma testbit_not_u w z i :
  0 <= w -> 0 <= i -> Z.testbit (not_u w z) i = (i <? w) && negb (Z.testbit z i).
Proof. intros. unfold not_u. rewrite testbit_wrap, Z.lnot_spec by lia. done. Qed.

Lemma testbit_ones' n i : 0 <= n -> Z.testbit (Z.ones n) i = (0 <=? i) && (i <? n).
Proof. intros. by rewrite Z.testbit_ones by lia. Qed.

Lemma is_u_bits w z :
  0 <= w -> 0 <= z -> (forall i, w <= i -> Z.testbit z i = false) -> is_u w z.
Proof.
  intros Hw Hz H. split; [done|].
  destruct (Z.lt_ge_cases z (2 ^ w)); [done|exfalso].
  assert (0 < z) by (pose proof (pow2_pos w Hw); lia).
  assert (w <= Z.log2 z) by (apply Z.log2_le_pow2; lia).
  pose proof (Z.bit_log2 z ltac:(done)) as B. rewrite H in B by done. done.
Qed.

Lemma testbit_land a b i : Z.testbit (Z.land a b) i = Z.testbit a i && Z.testbit b i.
Proof. apply Z.land_spec. Qed.

Lemma testbit_lor a b i : Z.testbit (Z.lor a b) i = Z.testbit a i || Z.testbit b i.
Proof. apply Z.lor_spec. Qed.

Lemma testbit_shiftl a n i : 0 <= i -> Z.testbit (Z.shiftl a n) i = Z.testbit a (i - n).
Proof. apply Z.shiftl_spec. Qed.

Lemma testbit_shiftr a n i : 0 <= i -> Z.testbit (Z.shiftr a n) i = Z.testbit a (i + n).
Proof. apply Z.shiftr_spec. Qed.

Lemma testbit_pow2 n i : 0 <= n -> Z.testbit (2 ^ n) i = (i =? n).
Proof.
  intros. destruct (Z.eqb_spec i n) as [->|?].
  - by apply Z.pow2_bits_true.
  - by apply Z.pow2_bits_false.
Qed.

Lemma testbit_one i : Z.testbit 1 i = (i =? 0).
Proof. apply (testbit_pow2 0). lia. Qed.

Lemma testbit_bool (b : bool) i : Z.testbit (if b then 1 else 0) i = b && (i =? 0).
Proof. destruct b; [apply testbit_one|apply Z.bits_0]. Qed.

(** Clearing the low [k] bits of a word rounds it down to a multiple of [2^k]. *)
Lemma land_not_ones w v k :
  0 <= k <= w -> is_u w v -> (v & not_u w (Z.ones k)) = 2 ^ k * (v / 2 ^ k).
Proof.
  intros Hk Hv. rewrite Z.mul_comm, <- Z.shiftr_div_pow2, <- Z.shiftl_mul_pow2 by lia.
  apply Z.bits_inj'. intros i Hi.
  rewrite testbit_land, testbit_not_u, testbit_ones', testbit_shiftl by lia.
  destruct (Z.ltb_spec i k).
  - rewrite (Z.testbit_neg_r _ (i - k)) by lia. bool_cases; simpl; try lia; by rewrite ?andb_false_r, ?andb_true_r.
  - rewrite testbit_shiftr, Z.sub_add by lia. destruct (Z.ltb_spec i w).
    + bool_cases; simpl; try lia. apply andb_true_r.
    + rewrite (testbit_above w v) by (done || lia). done.
Qed.

(** Ranges of the bitwise operations. *)
Lemma land_is_u w a b : 0 <= w -> is_u w a -> is_u w (a & b).
Proof.
  intros Hw Ha. apply is_u_bits; [done| |].
  - apply Z.land_nonneg. left. apply Ha.
  - intros. by rewrite testbit_land, (testbit_above w a).
Qed.

Lemma land_is_u_r w a b : 0 <= w -> is_u w b -> is_u w (a & b).
Proof. intros. rewrite Z.land_comm. by apply land_is_u. Qed.

Lemma lor_is_u w a b : 0 <= w -> is_u w a -> is_u w b -> is_u w (a |: b).
Proof.
  intros Hw Ha Hb. apply is_u_bits; [done| |].
  - apply Z.lor_nonneg. split; [apply Ha|apply Hb].
  - intros. by rewrite testbit_lor, (testbit_above w a), (testbit_above w b).
Qed.

Lemma lxor_is_u w a b : 0 <= w -> is_u w a -> is_u w b -> is_u w (a ^: b).
Proof.
  intros Hw Ha Hb. apply is_u_bits; [done| |].
  - apply Z.lxor_nonneg. split; intros; [apply Hb|apply Ha].
  - intros. by rewrite Z.lxor_spec, (testbit_above w a), (testbit_above w b).
Qed.

Lemma shr_is_u w a n : 0 <= w -> 0 <= n -> is_u w a -> is_u w (Z.shiftr a n).
Proof.
  intros Hw Hn Ha. apply is_u_bits; [done| |].
  - apply Z.shiftr_nonneg. apply Ha.
  - intros. rewrite testbit_shiftr by lia. apply (testbit_above w); [done|lia].
Qed.

Lemma is_u_mono v w z : 0 <= v <= w -> is_u v z -> is_u w z.
Proof. intros ? [? ?]. split; [done|]. pose proof (Z.pow_le_mono_r 2 v w). lia. Qed.

Lemma is_u_bool w (b : bool) : 0 < w -> is_u w (if b then 1 else 0).
Proof. intros. unfold is_u. pose proof (pow2_split w). pose proof (pow2_pos (w - 1)). destruct b; lia. Qed.

(** Proof by exhaustion over the values of a small machine type: the check is
    a boolean computation. *)
Lemma is_u_forallb w (f : Z -> bool) :
  forallb f (seqZ 0 (2 ^ w)) = true -> forall z, is_u w z -> f z = true.
Proof.
  rewrite forallb_forall. intros H z [? ?]. apply H, list_elem_of_In, elem_of_seqZ. lia.
Qed.

Create Rewrite HintDb bits.
#[export] Hint Rewrite testbit_land testbit_lor Z.lxor_spec Z.bits_0 testbit_one testbit_bool
  Z.bits_m1 : bits.
#[export] Hint Rewrite testbit_wrap testbit_not_u testbit_ones' testbit_shiftl testbit_shiftr
  testbit_pow2 testbit_swrap Z.lnot_spec using lia : bits.

Create HintDb ranges discriminated.
#[export] Hint Resolve wrap_range swrap_range land_is_u lor_is_u lxor_is_u shr_is_u
  wrapping_add_u64 is_u_bool : ranges.
#[export] Hint Extern 1 (_ <= _) => lia : ranges.
#[export] Hint Extern 1 (_ < _) => lia : ranges.

Lemma seqZ_forall n (P : Z -> Prop) : Forall P (seqZ 0 n) -> forall i, 0 <= i < n -> P i.
Proof. rewrite Forall_forall. intros H i ?. apply H, elem_of_seqZ. lia. Qed.

(** Case analysis on a bit position [i] below the literal [n]. *)
Ltac enum_bits i n :=
  pattern i; apply (seqZ_forall n);
    [ let l := eval vm_compute in (seqZ 0 n) in change (seqZ 0 n) with l;
      repeat (apply Forall_cons; split; [cbv beta|]); [..|apply Forall_nil; exact I]
    | lia].

(** Evaluates the operations on literals that enumeration leaves behind. *)
Ltac is_Zlit t :=
  lazymatch t with
  | Z0 => idtac
  | Zpos ?p => is_poslit p
  | Zneg ?p => is_poslit p
  end
with is_poslit p :=
  lazymatch p with
  | xH => idtac
  | xO ?q => is_poslit q
  | xI ?q => is_poslit q
  end.

Ltac eval_lit t := let v := eval vm_compute in t in change t with v.

Ltac ground_eval :=
  repeat match goal with
  | |- context [Z.testbit ?a ?b] => is_Zlit a; is_Zlit b; eval_lit (Z.testbit a b)
  | |- context [Z.min ?a ?b] => is_Zlit a; is_Zlit b; eval_lit (Z.min a b)
  | |- context [Z.add ?a ?b] => is_Zlit a; is_Zlit b; eval_lit (Z.add a b)
  | |- context [Z.sub ?a ?b] => is_Zlit a; is_Zlit b; eval_lit (Z.sub a b)
  | |- context [Z.ltb ?a ?b] => is_Zlit a; is_Zlit b; eval_lit (Z.ltb a b)
  | |- context [Z.leb ?a ?b] => is_Zlit a; is_Zlit b; eval_lit (Z.leb a b)
  | |- context [Z.eqb ?a ?b] => is_Zlit a; is_Zlit b; eval_lit (Z.eqb a b)
  end.

Ltac bool_simpl :=
  cbn [andb orb negb];
  rewrite ?andb_true_r, ?andb_false_r, ?orb_false_r, ?orb_true_r; cbn [andb orb negb].

Ltac neg_bits :=
  repeat match goal with |- context [Z.testbit ?a (Zneg ?p)] =>
    rewrite (Z.testbit_neg_r a (Zneg p)) by lia end.

(** Proves an equation between machine words bit by bit. *)
Ltac bits_eq :=
  apply Z.bits_inj'; intros ?i ?Hi; autorewrite with bits.

(** Decides what is left of a bitwise goal: comparisons of bit positions and
    boolean identities. *)
Ltac bits_cases :=
  bool_cases; simpl; rewrite ?andb_true_r, ?andb_false_r, ?orb_false_r, ?orb_true_r; simpl;
  try lia; try done; try (f_equal; lia).
