(* ===== verification/Bits.v ===== *)
(** Bit-level helpers of the PVM: [src/riscv/lib/src/bits.rs].

    The macro [bits_builtin!] is instantiated for [u16] and [u64]; the
    definitions take the width as their first argument.  [Bits64] is the
    class of the types that have a binary representation. *)
From S2P Require Import Prelude.

(* bits.rs:14-20 mask_subset *)
Definition mask_subset (size start end_ : Z) : Z :=
  let top := shl_u size 1 (1 + start - end_) in
  shl_u size (top - 1) end_.

(* bits.rs:24-30 mask *)
Definition mask (size start end_ : Z) : Z :=
  if (start =? size - 1) && (end_ =? 0) then 2 ^ size - 1 else mask_subset size start end_.

(* bits.rs:34-36 bit *)
Definition bit (size v b : Z) : bool := negb ((shr_u size v b & 1) =? 0).

(* bits.rs:41-43 bits_subset *)
Definition bits_subset (size v start end_ : Z) : Z :=
  shr_u size (v & mask_subset size start end_) end_.

(* bits.rs:47-50 set_bit *)
Definition set_bit (size v b : Z) (value : bool) : Z :=
  let mask := shl_u size 1 b in
  (v & not_u size mask) |: shl_u size (if value then 1 else 0) b.

(* bits.rs:56-59 replace_subset *)
Definition replace_subset (size v start end_ bits : Z) : Z :=
  let mask := mask_subset size start end_ in
  (v & not_u size mask) |: (shl_u size bits end_ & mask).

(** [trait Bits64]. *)
(* bits.rs:68-76 Bits64 *)
Class Bits64 (A : Type) := {
  WIDTH : Z;
  from_bits : Z -> A;
  to_bits : A -> Z;
}.
Arguments WIDTH A {_}.

(* bits.rs:78-94 impl Bits64 for bool *)
#[export] Instance Bits64_bool : Bits64 bool := {|
  WIDTH := 1;
  from_bits value := bit 64 value 0;
  to_bits b := if b then 1 else 0;
|}.

(** [bits64_builtin!]: the unsigned and the signed machine integers. *)
(* bits.rs:96-117 bits64_builtin *)
Definition Bits64_uint (w : Z) : Bits64 Z := {|
  WIDTH := w;
  from_bits value := wrap w value;
  to_bits v := wrap 64 v;
|}.

(* bits.rs:96-122 bits64_builtin *)
Definition Bits64_sint (w : Z) : Bits64 Z := {|
  WIDTH := w;
  from_bits value := swrap w value;
  to_bits v := wrap 64 v;
|}.

(** [ConstantBits<WIDTH, VALUE>]. *)
(* bits.rs:124-138 ConstantBits *)
Definition ConstantBits (width value : Z) : Bits64 unit := {|
  WIDTH := width;
  from_bits _ := tt;
  to_bits _ := value;
|}.

(** [FixedWidthBits<WIDTH>]. *)
(* bits.rs:146-160 FixedWidthBits *)
Definition FixedWidthBits (width : Z) : Bits64 Z := {|
  WIDTH := width;
  from_bits value := bits_subset 64 value (width - 1) 0;
  to_bits v := bits_subset 64 v (width - 1) 0;
|}.

(* bits.rs:162-170 ones *)
Definition ones (n : Z) : Z :=
  let sh_amt := saturating_sub 64 n in
  if n =? 0 then 0 else shr_u 64 U64_MAX sh_amt.

(** ** Specification

    A range of bits is valid when the (release-mode disabled) assertions of
    [mask_subset] hold. *)
Definition valid_range (size start end_ : Z) : Prop :=
  0 <= end_ <= start /\ start < size /\ ~ (start = size - 1 /\ end_ = 0).

#[export] Instance valid_range_dec size s e : Decision (valid_range size s e).
Proof. unfold valid_range; apply _. Defined.

Lemma mask_subset_ones size s e :
  valid_range size s e -> mask_subset size s e = Z.shiftl (Z.ones (1 + s - e)) e.
Proof.
  intros (? & ? & ?). unfold mask_subset, shl_u.
  assert (1 + s - e < size) by lia.
  rewrite !(Z.mod_small _ size) by lia.
  rewrite (wrap_small size (Z.shiftl 1 (1 + s - e))).
  2:{ rewrite Z.shiftl_1_l. split; [apply Z.pow_nonneg; lia|apply Z.pow_lt_mono_r; lia]. }
  replace (Z.shiftl 1 (1 + s - e) - 1) with (Z.ones (1 + s - e))
    by (rewrite Z.ones_equiv, Z.shiftl_1_l; lia).
  bits_eq. bits_cases.
Qed.

Lemma testbit_mask_subset size s e i :
  valid_range size s e -> Z.testbit (mask_subset size s e) i = (e <=? i) && (i <=? s).
Proof.
  intros V. rewrite mask_subset_ones by done. destruct V as (? & ? & ?).
  destruct (Z.ltb_spec i 0); [rewrite Z.testbit_neg_r by lia; bits_cases|].
  autorewrite with bits. bits_cases.
Qed.

Lemma testbit_bits_subset size v s e i :
  valid_range size s e ->
  Z.testbit (bits_subset size v s e) i = (0 <=? i) && (i <=? s - e) && Z.testbit v (i + e).
Proof.
  intros V. pose proof V as (? & ? & ?). unfold bits_subset, shr_u.
  rewrite Z.mod_small by lia.
  destruct (Z.ltb_spec i 0); [rewrite Z.testbit_neg_r by lia; bits_cases|].
  autorewrite with bits. rewrite testbit_mask_subset by done. bits_cases.
Qed.

Lemma testbit_replace_subset_low size v s e b i :
  valid_range size s e -> i < size ->
  Z.testbit (replace_subset size v s e b) i =
    if (e <=? i) && (i <=? s) then Z.testbit b (i - e) else Z.testbit v i.
Proof.
  intros V Hi. pose proof V as (? & ? & ?). unfold replace_subset, shl_u.
  rewrite Z.mod_small by lia.
  destruct (Z.ltb_spec i 0); [rewrite !(Z.testbit_neg_r _ i) by lia; bits_cases|].
  autorewrite with bits. rewrite testbit_mask_subset by done. bits_cases.
Qed.

Lemma testbit_replace_subset size v s e b i :
  valid_range size s e -> is_u size v ->
  Z.testbit (replace_subset size v s e b) i =
    if (e <=? i) && (i <=? s) then Z.testbit b (i - e) else Z.testbit v i.
Proof.
  intros V U. destruct (Z.ltb_spec i size); [by apply testbit_replace_subset_low|].
  pose proof V as (? & ? & ?). unfold replace_subset. autorewrite with bits.
  rewrite testbit_mask_subset by done. rewrite (testbit_above size v) by done. bits_cases.
Qed.

Lemma bits_subset_spec size v s e :
  valid_range size s e -> bits_subset size v s e = (v / 2 ^ e) mod 2 ^ (1 + s - e).
Proof.
  intros V. apply Z.bits_inj'; intros i Hi. rewrite testbit_bits_subset by done.
  destruct V as (? & ? & ?). rewrite <- Z.shiftr_div_pow2 by lia.
  change (?x mod 2 ^ ?w) with (wrap w x). autorewrite with bits. bits_cases.
Qed.

Lemma bits_subset_range size v s e :
  valid_range size s e -> is_u (1 + s - e) (bits_subset size v s e).
Proof. intros V. rewrite bits_subset_spec by done. apply wrap_range. destruct V; lia. Qed.

Lemma replace_subset_range size v s e b :
  valid_range size s e -> is_u size v -> is_u size (replace_subset size v s e b).
Proof.
  intros V U. pose proof V as (? & ? & ?).
  apply is_u_bits; [lia| |].
  - unfold replace_subset. apply Z.lor_nonneg. split; apply Z.land_nonneg.
    + left. apply U.
    + right. rewrite mask_subset_ones by done.
      apply Z.shiftl_nonneg. rewrite Z.ones_equiv. pose proof (pow2_pos (1 + s - e)). lia.
  - intros. rewrite testbit_replace_subset by done. bits_cases. apply (testbit_above size); done.
Qed.

#[export] Hint Rewrite testbit_mask_subset testbit_bits_subset using done : bits.
#[export] Hint Resolve bits_subset_range replace_subset_range : ranges.

Lemma bit_testbit size v b : 0 <= b < size -> bit size v b = Z.testbit v b.
Proof.
  intros. unfold bit, shr_u. rewrite Z.mod_small by lia.
  replace (Z.shiftr v b & 1) with (Z.b2z (Z.testbit v b)); [by destruct (Z.testbit v b)|].
  change 1 with (Z.ones 1). rewrite Z.land_ones by lia. change (2 ^ 1) with 2.
  rewrite <- Z.bit0_mod, Z.shiftr_spec by lia. done.
Qed.

Lemma testbit_set_bit size v b x i :
  0 <= b < size -> is_u size v ->
  Z.testbit (set_bit size v b x) i = if i =? b then x else Z.testbit v i.
Proof.
  intros. unfold set_bit, shl_u. rewrite Z.mod_small by lia.
  destruct (Z.ltb_spec i 0); [rewrite !(Z.testbit_neg_r _ i) by lia; bits_cases|].
  autorewrite with bits.
  destruct (Z.leb_spec size i); [rewrite (testbit_above size v) by done|]; bits_cases.
Qed.

(** Reading a range of bits back after replacing it gives the low bits
    of the value that was written, and every disjoint range is unchanged. *)
Theorem replace_subset_get size v s e b s' e' :
  valid_range size s e -> valid_range size s' e' -> is_u size v ->
  bits_subset size (replace_subset size v s e b) s e = b mod 2 ^ (1 + s - e) /\
  (s' < e \/ s < e' -> bits_subset size (replace_subset size v s e b) s' e' =
                       bits_subset size v s' e').
Proof.
  intros V V' U. pose proof V as (? & ? & ?). split; [|intros D].
  - change (b mod 2 ^ (1 + s - e)) with (wrap (1 + s - e) b).
    bits_eq. rewrite testbit_replace_subset by done. bits_cases.
  - bits_eq. rewrite testbit_replace_subset by done. bits_cases.
Qed.

Lemma replace_subset_get_witness :
  bits_subset 64 (replace_subset 64 255 12 11 7) 12 11 = 7 mod 4 /\
  (7 < 11 \/ 12 < 3 -> bits_subset 64 (replace_subset 64 255 12 11 7) 7 3 =
                       bits_subset 64 255 7 3).
Proof. apply (replace_subset_get 64 255 12 11 7 7 3); vm_compute; intuition congruence. Defined.

Lemma ones_spec n : 0 <= n <= 64 -> ones n = 2 ^ n - 1.
Proof.
  intros. unfold ones, saturating_sub, shr_u. destruct (Z.eqb_spec n 0) as [->|?]; [done|].
  rewrite Z.max_r, Z.mod_small by lia.
  replace U64_MAX with (Z.ones 64) by done.
  replace (2 ^ n - 1) with (Z.ones n) by (rewrite Z.ones_equiv; lia).
  bits_eq. bits_cases.
Qed.
