(* ===== verification/Registers.v ===== *)
(** Integer and floating-point registers:
    [src/riscv/lib/src/machine_state/registers.rs].

    The 31 cells of [XRegisters] and the 32 cells of [FRegisters] are lists;
    the enumerations carry the representation the source indexes with ([x0]
    has the dummy index [u8::MAX]). *)
From S2P Require Import Prelude.

(* machine_state/registers.rs:19-56 XRegister *)
Inductive XRegister : Set :=
  | x0 | x1 | x2 | x3 | x4 | x5 | x6 | x7
  | x8 | x9 | x10 | x11 | x12 | x13 | x14 | x15
  | x16 | x17 | x18 | x19 | x20 | x21 | x22 | x23
  | x24 | x25 | x26 | x27 | x28 | x29 | x30 | x31.

#[export] Instance XRegister_eq_dec : EqDecision XRegister.
Proof. solve_decision. Defined.

(** The [u8] representation of the constructors. *)
(* machine_state/registers.rs:24-55 XRegister *)
Definition XRegister_repr (r : XRegister) : Z :=
  match r with
  | x0 => 255
  | x1 => 0 | x2 => 1 | x3 => 2 | x4 => 3 | x5 => 4 | x6 => 5
  | x7 => 6 | x8 => 7 | x9 => 8 | x10 => 9 | x11 => 10 | x12 => 11
  | x13 => 12 | x14 => 13 | x15 => 14 | x16 => 15 | x17 => 16 | x18 => 17
  | x19 => 18 | x20 => 19 | x21 => 20 | x22 => 21 | x23 => 22 | x24 => 23
  | x25 => 24 | x26 => 25 | x27 => 26 | x28 => 27 | x29 => 28 | x30 => 29
  | x31 => 30
  end.

Definition XRegister_all : list XRegister :=
  [x0; x1; x2; x3; x4; x5; x6; x7; x8; x9; x10; x11; x12; x13; x14; x15;
   x16; x17; x18; x19; x20; x21; x22; x23; x24; x25; x26; x27; x28; x29; x30; x31].

(** What [transmute] does on a valid representation. *)
Definition XRegister_of_repr (z : Z) : option XRegister :=
  List.find (fun r => XRegister_repr r =? z) XRegister_all.

(** [r] is a [u5]; the [transmute] of an invalid representation, which is
    undefined behaviour in the source, is given an arbitrary result here
    and [parse_xregister_valid] shows that it does not happen. *)
(* machine_state/registers.rs:97-104 parse_xregister *)
Definition parse_xregister (r : Z) : XRegister :=
  let r := wrapping_sub 8 r 1 in
  default x0 (XRegister_of_repr r).

(* machine_state/registers.rs:146-151 is_zero *)
Definition XRegister_is_zero (r : XRegister) : bool := bool_decide (r = x0).

(* machine_state/registers.rs:153-162 XRegisters *)
Record XRegisters : Type := { xcells : list Z }.

(** [Cells::read] and [Cells::write]; both panic in the source when the index
    is out of range. *)
Definition cells_read (l : list Z) (i : Z) : Z := default 0 (l !! Z.to_nat i).
Definition cells_write (l : list Z) (i v : Z) : list Z := <[Z.to_nat i := v]> l.

(* machine_state/registers.rs:175-186 XRegisters::read *)
Definition XRegisters_read (s : XRegisters) (reg : XRegister) : Z :=
  if XRegister_is_zero reg then 0 else cells_read s.(xcells) (XRegister_repr reg).

(* machine_state/registers.rs:188-199 XRegisters::write *)
Definition XRegisters_write (s : XRegisters) (reg : XRegister) (val : Z) : XRegisters :=
  if XRegister_is_zero reg then s
  else {| xcells := cells_write s.(xcells) (XRegister_repr reg) val |}.

(* machine_state/registers.rs:201-209 XRegisters::reset *)
Definition XRegisters_reset (s : XRegisters) : XRegisters :=
  {| xcells := fold_left (fun l i => cells_write l i 0) (seqZ 0 31) s.(xcells) |}.

(* machine_state/registers.rs:236-269 FRegister *)
Inductive FRegister : Set :=
  | f0 | f1 | f2 | f3 | f4 | f5 | f6 | f7
  | f8 | f9 | f10 | f11 | f12 | f13 | f14 | f15
  | f16 | f17 | f18 | f19 | f20 | f21 | f22 | f23
  | f24 | f25 | f26 | f27 | f28 | f29 | f30 | f31.

#[export] Instance FRegister_eq_dec : EqDecision FRegister.
Proof. solve_decision. Defined.

(* machine_state/registers.rs:236-269 FRegister *)
Definition FRegister_repr (r : FRegister) : Z :=
  match r with
  | f0 => 0 | f1 => 1 | f2 => 2 | f3 => 3 | f4 => 4 | f5 => 5
  | f6 => 6 | f7 => 7 | f8 => 8 | f9 => 9 | f10 => 10 | f11 => 11
  | f12 => 12 | f13 => 13 | f14 => 14 | f15 => 15 | f16 => 16 | f17 => 17
  | f18 => 18 | f19 => 19 | f20 => 20 | f21 => 21 | f22 => 22 | f23 => 23
  | f24 => 24 | f25 => 25 | f26 => 26 | f27 => 27 | f28 => 28 | f29 => 29
  | f30 => 30 | f31 => 31
  end.

Definition FRegister_all : list FRegister :=
  [f0; f1; f2; f3; f4; f5; f6; f7; f8; f9; f10; f11; f12; f13; f14; f15;
   f16; f17; f18; f19; f20; f21; f22; f23; f24; f25; f26; f27; f28; f29; f30; f31].

Definition FRegister_of_repr (z : Z) : option FRegister :=
  List.find (fun r => FRegister_repr r =? z) FRegister_all.

(* machine_state/registers.rs:272-278 parse_fregister *)
Definition parse_fregister (r : Z) : FRegister := default f0 (FRegister_of_repr r).

(* machine_state/registers.rs:397-403 FRegisters *)
Record FRegisters : Type := { fcells : list Z }.

(* machine_state/registers.rs:416-424 FRegisters::reset *)
Definition FRegisters_reset (s : FRegisters) : FRegisters :=
  {| fcells := fold_left (fun l i => cells_write l i 0) (seqZ 0 32) s.(fcells) |}.

(* machine_state/registers.rs:426-433 FRegisters::read *)
Definition FRegisters_read (s : FRegisters) (reg : FRegister) : Z :=
  cells_read s.(fcells) (FRegister_repr reg).

(* machine_state/registers.rs:435-442 FRegisters::write *)
Definition FRegisters_write (s : FRegisters) (reg : FRegister) (val : Z) : FRegisters :=
  {| fcells := cells_write s.(fcells) (FRegister_repr reg) val |}.

(** ** Well-formedness: the number of cells, and [u64] values in them. *)

Definition XRegisters_wf (s : XRegisters) : Prop :=
  length s.(xcells) = 31%nat /\ Forall (is_u 64) s.(xcells).

Definition FRegisters_wf (s : FRegisters) : Prop :=
  length s.(fcells) = 32%nat /\ Forall (is_u 64) s.(fcells).

Lemma XRegister_repr_inj r r' : XRegister_repr r = XRegister_repr r' -> r = r'.
Proof. by destruct r, r'. Qed.

Lemma XRegister_repr_bound r : r <> x0 -> 0 <= XRegister_repr r < 31.
Proof. destruct r; simpl; intros; try lia; done. Qed.

Lemma FRegister_repr_bound r : 0 <= FRegister_repr r < 32.
Proof. destruct r; simpl; lia. Qed.

Lemma FRegister_repr_inj r r' : FRegister_repr r = FRegister_repr r' -> r = r'.
Proof. by destruct r, r'. Qed.

Lemma parse_xregister_valid r :
  is_u 5 r -> XRegister_of_repr (wrapping_sub 8 r 1) = Some (parse_xregister r).
Proof.
  intros H. apply (bool_decide_eq_true_1 (_ = _)). revert r H.
  apply (is_u_forallb 5 (fun r => bool_decide
    (XRegister_of_repr (wrapping_sub 8 r 1) = Some (parse_xregister r)))). by vm_compute.
Qed.

Lemma cells_read_write_eq l i v :
  0 <= i < Z.of_nat (length l) -> cells_read (cells_write l i v) i = v.
Proof.
  intros. unfold cells_read, cells_write. rewrite list_lookup_insert_eq by lia. done.
Qed.

Lemma cells_read_write_ne l i j v :
  0 <= i -> 0 <= j -> i <> j -> cells_read (cells_write l i v) j = cells_read l j.
Proof. intros. unfold cells_read, cells_write. rewrite list_lookup_insert_ne by lia. done. Qed.

Lemma cells_read_u64 l i : Forall (is_u 64) l -> is_u 64 (cells_read l i).
Proof.
  intros F. unfold cells_read. destruct (l !! Z.to_nat i) eqn:E; simpl.
  - by eapply Forall_lookup_1.
  - unfold is_u; lia.
Qed.

Lemma cells_write_length l i v : length (cells_write l i v) = length l.
Proof. apply length_insert. Qed.

Lemma cells_write_u64 l i v :
  Forall (is_u 64) l -> is_u 64 v -> Forall (is_u 64) (cells_write l i v).
Proof. intros. by apply Forall_insert. Qed.
#[export] Hint Resolve cells_read_u64 cells_write_u64 : ranges.

Lemma XRegisters_read_write_eq s r v :
  XRegisters_wf s -> r <> x0 -> XRegisters_read (XRegisters_write s r v) r = v.
Proof.
  intros [Hl _] Hr. unfold XRegisters_read, XRegisters_write, XRegister_is_zero.
  rewrite bool_decide_false by done. simpl. apply cells_read_write_eq.
  pose proof (XRegister_repr_bound r Hr). lia.
Qed.

Lemma XRegisters_read_write_ne s r r' v :
  r <> r' -> XRegisters_read (XRegisters_write s r v) r' = XRegisters_read s r'.
Proof.
  intros Hr. unfold XRegisters_read, XRegisters_write, XRegister_is_zero.
  case_bool_decide; [done|]. case_bool_decide; [done|]. simpl.
  pose proof (XRegister_repr_bound r ltac:(done)). pose proof (XRegister_repr_bound r' ltac:(done)).
  apply cells_read_write_ne; try lia. intros E. by apply Hr, XRegister_repr_inj.
Qed.

Lemma XRegisters_read_u64 s r : XRegisters_wf s -> is_u 64 (XRegisters_read s r).
Proof.
  intros [_ F]. unfold XRegisters_read. case_match; [unfold is_u; lia|auto with ranges].
Qed.

Lemma XRegisters_write_wf s r v :
  XRegisters_wf s -> is_u 64 v -> XRegisters_wf (XRegisters_write s r v).
Proof.
  intros [L F] ?. unfold XRegisters_write. case_match; [done|].
  split; simpl; [by rewrite cells_write_length|auto with ranges].
Qed.

Lemma FRegisters_write_wf s r v :
  FRegisters_wf s -> is_u 64 v -> FRegisters_wf (FRegisters_write s r v).
Proof.
  intros [L F] ?. split; simpl; [by rewrite cells_write_length|auto with ranges].
Qed.

Lemma FRegisters_read_u64 s r : FRegisters_wf s -> is_u 64 (FRegisters_read s r).
Proof. intros [_ F]. unfold FRegisters_read. auto with ranges. Qed.
#[export] Hint Resolve XRegisters_read_u64 XRegisters_write_wf FRegisters_write_wf
  FRegisters_read_u64 : ranges.

(** The registers implement the function from register names to values that
    sends [x0] to [0]: a write changes its own register only, and nothing
    when the register is [x0]. *)
Theorem XRegisters_read_write s r r' v :
  XRegisters_wf s ->
  XRegisters_read (XRegisters_write s r v) r' =
    if bool_decide (r' = x0) then 0
    else if bool_decide (r' = r) then v else XRegisters_read s r'.
Proof.
  intros W. case_bool_decide as H0; [by subst|].
  case_bool_decide; [subst; by apply XRegisters_read_write_eq|].
  by apply XRegisters_read_write_ne.
Qed.

Definition XRegisters_default : XRegisters := {| xcells := replicate 31 0 |}.
Definition FRegisters_default : FRegisters := {| fcells := replicate 32 0 |}.

Lemma XRegisters_default_wf : XRegisters_wf XRegisters_default.
Proof. split; [done|]. apply Forall_replicate. by vm_compute. Qed.

Lemma FRegisters_default_wf : FRegisters_wf FRegisters_default.
Proof. split; [done|]. apply Forall_replicate. by vm_compute. Qed.

Lemma XRegisters_read_write_witness :
  XRegisters_read (XRegisters_write XRegisters_default x5 77) x5 = 77.
Proof. apply (XRegisters_read_write _ x5 x5 77 XRegisters_default_wf). Defined.

Lemma XRegisters_reset_eq s :
  length s.(xcells) = 31%nat -> XRegisters_reset s = XRegisters_default.
Proof.
  destruct s as [l]; simpl. intros L. unfold XRegisters_reset, XRegisters_default; simpl.
  do 31 (destruct l as [|? l]; [done|]). destruct l; [done|done].
Qed.

Lemma FRegisters_reset_eq s :
  length s.(fcells) = 32%nat -> FRegisters_reset s = FRegisters_default.
Proof.
  destruct s as [l]; simpl. intros L. unfold FRegisters_reset, FRegisters_default; simpl.
  do 32 (destruct l as [|? l]; [done|]). destruct l; [done|done].
Qed.
