(* ===== verification/CSRegister.v ===== *)
(** CSR names, addresses, privileges, and the root registers that back them:
    [src/riscv/lib/src/machine_state/csregisters.rs],
    [src/riscv/lib/src/machine_state/csregisters/root.rs],
    [src/riscv/lib/src/machine_state/mode.rs]. *)
From S2P Require Import Prelude.

(* machine_state/csregisters.rs:34-39 Privilege *)
Inductive Privilege : Set := Unprivileged | PSupervisor | Hypervisor | PMachine.

(** The discriminants, which the derived ordering compares. *)
(* machine_state/csregisters.rs:34-39 Privilege *)
Definition Privilege_repr (p : Privilege) : Z :=
  match p with Unprivileged => 0 | PSupervisor => 1 | Hypervisor => 2 | PMachine => 3 end.

(* machine_state/mode.rs:19-23 Mode *)
Inductive Mode : Set := User | Supervisor | Machine.

#[export] Instance Mode_eq_dec : EqDecision Mode.
Proof. solve_decision. Defined.

(** [PartialOrd] of [Mode] and the cast [From<Mode> for u8]. *)
(* machine_state/mode.rs:40-45 From<Mode> *)
Definition Mode_repr (m : Mode) : Z :=
  match m with User => 0 | Supervisor => 1 | Machine => 2 end.

(* machine_state/mode.rs:25-34 Mode::privilege *)
Definition Mode_privilege (m : Mode) : Privilege :=
  match m with
  | User => Unprivileged
  | Supervisor => PSupervisor
  | Machine => PMachine
  end.

(* machine_state/mode.rs:36-38 ConstDefault *)
Definition Mode_default : Mode := Machine.

(* machine_state/mode.rs:48-52 TrapMode *)
Inductive TrapMode : Set := TSupervisor | TMachine.

(* machine_state/mode.rs:54-62 TrapMode::as_mode *)
Definition as_mode (t : TrapMode) : Mode :=
  match t with TSupervisor => Supervisor | TMachine => Machine end.

Module CSR.
(* machine_state/csregisters.rs:59-352 CSRegister *)
Inductive CSRegister : Set :=
  | fflags | frm | fcsr | cycle | time | instret | hpmcounter3 | hpmcounter4 | hpmcounter5
  | hpmcounter6 | hpmcounter7 | hpmcounter8 | hpmcounter9 | hpmcounter10 | hpmcounter11
  | hpmcounter12 | hpmcounter13 | hpmcounter14 | hpmcounter15 | hpmcounter16 | hpmcounter17
  | hpmcounter18 | hpmcounter19 | hpmcounter20 | hpmcounter21 | hpmcounter22 | hpmcounter23
  | hpmcounter24 | hpmcounter25 | hpmcounter26 | hpmcounter27 | hpmcounter28 | hpmcounter29
  | hpmcounter30 | hpmcounter31 | sstatus | sie | stvec | scounteren | senvcfg | sscratch
  | sepc | scause | stval | sip | satp | scontext | hstatus | hedeleg | hideleg | hie
  | hcounteren | hgeie | htval | hip | hvip | htinst | hgeip | henvcfg | hgatp | hcontext
  | htimedelta | vsstatus | vsie | vstvec | vsscratch | vsepc | vscause | vstval | vsip | vsatp
  | mvendorid | marchid | mimpid | mhartid | mconfigptr | mstatus | misa | medeleg | mideleg
  | mie | mtvec | mcounteren | mscratch | mepc | mcause | mtval | mip | mtinst | mtval2
  | menvcfg | mseccfg | pmpcfg0 | pmpcfg2 | pmpcfg4 | pmpcfg6 | pmpcfg8 | pmpcfg10 | pmpcfg12
  | pmpcfg14 | pmpaddr0 | pmpaddr1 | pmpaddr2 | pmpaddr3 | pmpaddr4 | pmpaddr5 | pmpaddr6
  | pmpaddr7 | pmpaddr8 | pmpaddr9 | pmpaddr10 | pmpaddr11 | pmpaddr12 | pmpaddr13 | pmpaddr14
  | pmpaddr15 | pmpaddr16 | pmpaddr17 | pmpaddr18 | pmpaddr19 | pmpaddr20 | pmpaddr21
  | pmpaddr22 | pmpaddr23 | pmpaddr24 | pmpaddr25 | pmpaddr26 | pmpaddr27 | pmpaddr28
  | pmpaddr29 | pmpaddr30 | pmpaddr31 | pmpaddr32 | pmpaddr33 | pmpaddr34 | pmpaddr35
  | pmpaddr36 | pmpaddr37 | pmpaddr38 | pmpaddr39 | pmpaddr40 | pmpaddr41 | pmpaddr42
  | pmpaddr43 | pmpaddr44 | pmpaddr45 | pmpaddr46 | pmpaddr47 | pmpaddr48 | pmpaddr49
  | pmpaddr50 | pmpaddr51 | pmpaddr52 | pmpaddr53 | pmpaddr54 | pmpaddr55 | pmpaddr56
  | pmpaddr57 | pmpaddr58 | pmpaddr59 | pmpaddr60 | pmpaddr61 | pmpaddr62 | pmpaddr63
  | mnscratch | mnepc | mncause | mnstatus | mcycle | minstret | mhpmcounter3 | mhpmcounter4
  | mhpmcounter5 | mhpmcounter6 | mhpmcounter7 | mhpmcounter8 | mhpmcounter9 | mhpmcounter10
  | mhpmcounter11 | mhpmcounter12 | mhpmcounter13 | mhpmcounter14 | mhpmcounter15
  | mhpmcounter16 | mhpmcounter17 | mhpmcounter18 | mhpmcounter19 | mhpmcounter20
  | mhpmcounter21 | mhpmcounter22 | mhpmcounter23 | mhpmcounter24 | mhpmcounter25
  | mhpmcounter26 | mhpmcounter27 | mhpmcounter28 | mhpmcounter29 | mhpmcounter30
  | mhpmcounter31 | mcountinhibit | mhpmevent3 | mhpmevent4 | mhpmevent5 | mhpmevent6
  | mhpmevent7 | mhpmevent8 | mhpmevent9 | mhpmevent10 | mhpmevent11 | mhpmevent12
  | mhpmevent13 | mhpmevent14 | mhpmevent15 | mhpmevent16 | mhpmevent17 | mhpmevent18
  | mhpmevent19 | mhpmevent20 | mhpmevent21 | mhpmevent22 | mhpmevent23 | mhpmevent24
  | mhpmevent25 | mhpmevent26 | mhpmevent27 | mhpmevent28 | mhpmevent29 | mhpmevent30
  | mhpmevent31 | tselect | tdata1 | tdata2 | tdata3 | tcontrol | mcontext | dcsr | dpc
  | dscratch0 | dscratch1.
End CSR.

(** The discriminant of a register: its address in the CSR space. *)
(* machine_state/csregisters.rs:59-352 CSRegister *)
Definition CSRegister_repr (r : CSR.CSRegister) : Z :=
  match r with
  | CSR.fflags => 0x001 | CSR.frm => 0x002 | CSR.fcsr => 0x003 | CSR.cycle => 0xC00
  | CSR.time => 0xC01 | CSR.instret => 0xC02 | CSR.hpmcounter3 => 0xC03
  | CSR.hpmcounter4 => 0xC04 | CSR.hpmcounter5 => 0xC05 | CSR.hpmcounter6 => 0xC06
  | CSR.hpmcounter7 => 0xC07 | CSR.hpmcounter8 => 0xC08 | CSR.hpmcounter9 => 0xC09
  | CSR.hpmcounter10 => 0xC0A | CSR.hpmcounter11 => 0xC0B | CSR.hpmcounter12 => 0xC0C
  | CSR.hpmcounter13 => 0xC0D | CSR.hpmcounter14 => 0xC0E | CSR.hpmcounter15 => 0xC0F
  | CSR.hpmcounter16 => 0xC10 | CSR.hpmcounter17 => 0xC11 | CSR.hpmcounter18 => 0xC12
  | CSR.hpmcounter19 => 0xC13 | CSR.hpmcounter20 => 0xC14 | CSR.hpmcounter21 => 0xC15
  | CSR.hpmcounter22 => 0xC16 | CSR.hpmcounter23 => 0xC17 | CSR.hpmcounter24 => 0xC18
  | CSR.hpmcounter25 => 0xC19 | CSR.hpmcounter26 => 0xC1A | CSR.hpmcounter27 => 0xC1B
  | CSR.hpmcounter28 => 0xC1C | CSR.hpmcounter29 => 0xC1D | CSR.hpmcounter30 => 0xC1E
  | CSR.hpmcounter31 => 0xC1F | CSR.sstatus => 0x100 | CSR.sie => 0x104 | CSR.stvec => 0x105
  | CSR.scounteren => 0x106 | CSR.senvcfg => 0x10A | CSR.sscratch => 0x140 | CSR.sepc => 0x141
  | CSR.scause => 0x142 | CSR.stval => 0x143 | CSR.sip => 0x144 | CSR.satp => 0x180
  | CSR.scontext => 0x5A8 | CSR.hstatus => 0x600 | CSR.hedeleg => 0x602 | CSR.hideleg => 0x603
  | CSR.hie => 0x604 | CSR.hcounteren => 0x606 | CSR.hgeie => 0x607 | CSR.htval => 0x643
  | CSR.hip => 0x644 | CSR.hvip => 0x645 | CSR.htinst => 0x64A | CSR.hgeip => 0xE12
  | CSR.henvcfg => 0x60A | CSR.hgatp => 0x680 | CSR.hcontext => 0x6A8 | CSR.htimedelta => 0x605
  | CSR.vsstatus => 0x200 | CSR.vsie => 0x204 | CSR.vstvec => 0x205 | CSR.vsscratch => 0x240
  | CSR.vsepc => 0x241 | CSR.vscause => 0x242 | CSR.vstval => 0x243 | CSR.vsip => 0x244
  | CSR.vsatp => 0x280 | CSR.mvendorid => 0xF11 | CSR.marchid => 0xF12 | CSR.mimpid => 0xF13
  | CSR.mhartid => 0xF14 | CSR.mconfigptr => 0xF15 | CSR.mstatus => 0x300 | CSR.misa => 0x301
  | CSR.medeleg => 0x302 | CSR.mideleg => 0x303 | CSR.mie => 0x304 | CSR.mtvec => 0x305
  | CSR.mcounteren => 0x306 | CSR.mscratch => 0x340 | CSR.mepc => 0x341 | CSR.mcause => 0x342
  | CSR.mtval => 0x343 | CSR.mip => 0x344 | CSR.mtinst => 0x34A | CSR.mtval2 => 0x34B
  | CSR.menvcfg => 0x30A | CSR.mseccfg => 0x747 | CSR.pmpcfg0 => 0x3A0 | CSR.pmpcfg2 => 0x3A2
  | CSR.pmpcfg4 => 0x3A4 | CSR.pmpcfg6 => 0x3A6 | CSR.pmpcfg8 => 0x3A8 | CSR.pmpcfg10 => 0x3AA
  | CSR.pmpcfg12 => 0x3AC | CSR.pmpcfg14 => 0x3AE | CSR.pmpaddr0 => 0x3B0
  | CSR.pmpaddr1 => 0x3B1 | CSR.pmpaddr2 => 0x3B2 | CSR.pmpaddr3 => 0x3B3
  | CSR.pmpaddr4 => 0x3B4 | CSR.pmpaddr5 => 0x3B5 | CSR.pmpaddr6 => 0x3B6
  | CSR.pmpaddr7 => 0x3B7 | CSR.pmpaddr8 => 0x3B8 | CSR.pmpaddr9 => 0x3B9
  | CSR.pmpaddr10 => 0x3BA | CSR.pmpaddr11 => 0x3BB | CSR.pmpaddr12 => 0x3BC
  | CSR.pmpaddr13 => 0x3BD | CSR.pmpaddr14 => 0x3BE | CSR.pmpaddr15 => 0x3BF
  | CSR.pmpaddr16 => 0x3C0 | CSR.pmpaddr17 => 0x3C1 | CSR.pmpaddr18 => 0x3C2
  | CSR.pmpaddr19 => 0x3C3 | CSR.pmpaddr20 => 0x3C4 | CSR.pmpaddr21 => 0x3C5
  | CSR.pmpaddr22 => 0x3C6 | CSR.pmpaddr23 => 0x3C7 | CSR.pmpaddr24 => 0x3C8
  | CSR.pmpaddr25 => 0x3C9 | CSR.pmpaddr26 => 0x3CA | CSR.pmpaddr27 => 0x3CB
  | CSR.pmpaddr28 => 0x3CC | CSR.pmpaddr29 => 0x3CD | CSR.pmpaddr30 => 0x3CE
  | CSR.pmpaddr31 => 0x3CF | CSR.pmpaddr32 => 0x3D0 | CSR.pmpaddr33 => 0x3D1
  | CSR.pmpaddr34 => 0x3D2 | CSR.pmpaddr35 => 0x3D3 | CSR.pmpaddr36 => 0x3D4
  | CSR.pmpaddr37 => 0x3D5 | CSR.pmpaddr38 => 0x3D6 | CSR.pmpaddr39 => 0x3D7
  | CSR.pmpaddr40 => 0x3D8 | CSR.pmpaddr41 => 0x3D9 | CSR.pmpaddr42 => 0x3DA
  | CSR.pmpaddr43 => 0x3DB | CSR.pmpaddr44 => 0x3DC | CSR.pmpaddr45 => 0x3DD
  | CSR.pmpaddr46 => 0x3DE | CSR.pmpaddr47 => 0x3DF | CSR.pmpaddr48 => 0x3E0
  | CSR.pmpaddr49 => 0x3E1 | CSR.pmpaddr50 => 0x3E2 | CSR.pmpaddr51 => 0x3E3
  | CSR.pmpaddr52 => 0x3E4 | CSR.pmpaddr53 => 0x3E5 | CSR.pmpaddr54 => 0x3E6
  | CSR.pmpaddr55 => 0x3E7 | CSR.pmpaddr56 => 0x3E8 | CSR.pmpaddr57 => 0x3E9
  | CSR.pmpaddr58 => 0x3EA | CSR.pmpaddr59 => 0x3EB | CSR.pmpaddr60 => 0x3EC
  | CSR.pmpaddr61 => 0x3ED | CSR.pmpaddr62 => 0x3EE | CSR.pmpaddr63 => 0x3EF
  | CSR.mnscratch => 0x740 | CSR.mnepc => 0x741 | CSR.mncause => 0x742 | CSR.mnstatus => 0x744
  | CSR.mcycle => 0xB00 | CSR.minstret => 0xB02 | CSR.mhpmcounter3 => 0xB03
  | CSR.mhpmcounter4 => 0xB04 | CSR.mhpmcounter5 => 0xB05 | CSR.mhpmcounter6 => 0xB06
  | CSR.mhpmcounter7 => 0xB07 | CSR.mhpmcounter8 => 0xB08 | CSR.mhpmcounter9 => 0xB09
  | CSR.mhpmcounter10 => 0xB0A | CSR.mhpmcounter11 => 0xB0B | CSR.mhpmcounter12 => 0xB0C
  | CSR.mhpmcounter13 => 0xB0D | CSR.mhpmcounter14 => 0xB0E | CSR.mhpmcounter15 => 0xB0F
  | CSR.mhpmcounter16 => 0xB10 | CSR.mhpmcounter17 => 0xB11 | CSR.mhpmcounter18 => 0xB12
  | CSR.mhpmcounter19 => 0xB13 | CSR.mhpmcounter20 => 0xB14 | CSR.mhpmcounter21 => 0xB15
  | CSR.mhpmcounter22 => 0xB16 | CSR.mhpmcounter23 => 0xB17 | CSR.mhpmcounter24 => 0xB18
  | CSR.mhpmcounter25 => 0xB19 | CSR.mhpmcounter26 => 0xB1A | CSR.mhpmcounter27 => 0xB1B
  | CSR.mhpmcounter28 => 0xB1C | CSR.mhpmcounter29 => 0xB1D | CSR.mhpmcounter30 => 0xB1E
  | CSR.mhpmcounter31 => 0xB1F | CSR.mcountinhibit => 0x320 | CSR.mhpmevent3 => 0x323
  | CSR.mhpmevent4 => 0x324 | CSR.mhpmevent5 => 0x325 | CSR.mhpmevent6 => 0x326
  | CSR.mhpmevent7 => 0x327 | CSR.mhpmevent8 => 0x328 | CSR.mhpmevent9 => 0x329
  | CSR.mhpmevent10 => 0x32A | CSR.mhpmevent11 => 0x32B | CSR.mhpmevent12 => 0x32C
  | CSR.mhpmevent13 => 0x32D | CSR.mhpmevent14 => 0x32E | CSR.mhpmevent15 => 0x32F
  | CSR.mhpmevent16 => 0x330 | CSR.mhpmevent17 => 0x331 | CSR.mhpmevent18 => 0x332
  | CSR.mhpmevent19 => 0x333 | CSR.mhpmevent20 => 0x334 | CSR.mhpmevent21 => 0x335
  | CSR.mhpmevent22 => 0x336 | CSR.mhpmevent23 => 0x337 | CSR.mhpmevent24 => 0x338
  | CSR.mhpmevent25 => 0x339 | CSR.mhpmevent26 => 0x33A | CSR.mhpmevent27 => 0x33B
  | CSR.mhpmevent28 => 0x33C | CSR.mhpmevent29 => 0x33D | CSR.mhpmevent30 => 0x33E
  | CSR.mhpmevent31 => 0x33F | CSR.tselect => 0x7A0 | CSR.tdata1 => 0x7A1 | CSR.tdata2 => 0x7A2
  | CSR.tdata3 => 0x7A3 | CSR.tcontrol => 0x7A5 | CSR.mcontext => 0x7A8 | CSR.dcsr => 0x7B0
  | CSR.dpc => 0x7B1 | CSR.dscratch0 => 0x7B2 | CSR.dscratch1 => 0x7B3
  end.

(* machine_state/csregisters.rs:993-1288 try_parse *)
Definition try_parse (r : Z) : option CSR.CSRegister :=
  match r with
  | 0x001 => Some CSR.fflags | 0x002 => Some CSR.frm | 0x003 => Some CSR.fcsr
  | 0xC00 => Some CSR.cycle | 0xC01 => Some CSR.time | 0xC02 => Some CSR.instret
  | 0xC03 => Some CSR.hpmcounter3 | 0xC04 => Some CSR.hpmcounter4
  | 0xC05 => Some CSR.hpmcounter5 | 0xC06 => Some CSR.hpmcounter6
  | 0xC07 => Some CSR.hpmcounter7 | 0xC08 => Some CSR.hpmcounter8
  | 0xC09 => Some CSR.hpmcounter9 | 0xC0A => Some CSR.hpmcounter10
  | 0xC0B => Some CSR.hpmcounter11 | 0xC0C => Some CSR.hpmcounter12
  | 0xC0D => Some CSR.hpmcounter13 | 0xC0E => Some CSR.hpmcounter14
  | 0xC0F => Some CSR.hpmcounter15 | 0xC10 => Some CSR.hpmcounter16
  | 0xC11 => Some CSR.hpmcounter17 | 0xC12 => Some CSR.hpmcounter18
  | 0xC13 => Some CSR.hpmcounter19 | 0xC14 => Some CSR.hpmcounter20
  | 0xC15 => Some CSR.hpmcounter21 | 0xC16 => Some CSR.hpmcounter22
  | 0xC17 => Some CSR.hpmcounter23 | 0xC18 => Some CSR.hpmcounter24
  | 0xC19 => Some CSR.hpmcounter25 | 0xC1A => Some CSR.hpmcounter26
  | 0xC1B => Some CSR.hpmcounter27 | 0xC1C => Some CSR.hpmcounter28
  | 0xC1D => Some CSR.hpmcounter29 | 0xC1E => Some CSR.hpmcounter30
  | 0xC1F => Some CSR.hpmcounter31 | 0x100 => Some CSR.sstatus | 0x104 => Some CSR.sie
  | 0x105 => Some CSR.stvec | 0x106 => Some CSR.scounteren | 0x10A => Some CSR.senvcfg
  | 0x140 => Some CSR.sscratch | 0x141 => Some CSR.sepc | 0x142 => Some CSR.scause
  | 0x143 => Some CSR.stval | 0x144 => Some CSR.sip | 0x180 => Some CSR.satp
  | 0x5A8 => Some CSR.scontext | 0x600 => Some CSR.hstatus | 0x602 => Some CSR.hedeleg
  | 0x603 => Some CSR.hideleg | 0x604 => Some CSR.hie | 0x606 => Some CSR.hcounteren
  | 0x607 => Some CSR.hgeie | 0x643 => Some CSR.htval | 0x644 => Some CSR.hip
  | 0x645 => Some CSR.hvip | 0x64A => Some CSR.htinst | 0xE12 => Some CSR.hgeip
  | 0x60A => Some CSR.henvcfg | 0x680 => Some CSR.hgatp | 0x6A8 => Some CSR.hcontext
  | 0x605 => Some CSR.htimedelta | 0x200 => Some CSR.vsstatus | 0x204 => Some CSR.vsie
  | 0x205 => Some CSR.vstvec | 0x240 => Some CSR.vsscratch | 0x241 => Some CSR.vsepc
  | 0x242 => Some CSR.vscause | 0x243 => Some CSR.vstval | 0x244 => Some CSR.vsip
  | 0x280 => Some CSR.vsatp | 0xF11 => Some CSR.mvendorid | 0xF12 => Some CSR.marchid
  | 0xF13 => Some CSR.mimpid | 0xF14 => Some CSR.mhartid | 0xF15 => Some CSR.mconfigptr
  | 0x300 => Some CSR.mstatus | 0x301 => Some CSR.misa | 0x302 => Some CSR.medeleg
  | 0x303 => Some CSR.mideleg | 0x304 => Some CSR.mie | 0x305 => Some CSR.mtvec
  | 0x306 => Some CSR.mcounteren | 0x340 => Some CSR.mscratch | 0x341 => Some CSR.mepc
  | 0x342 => Some CSR.mcause | 0x343 => Some CSR.mtval | 0x344 => Some CSR.mip
  | 0x34A => Some CSR.mtinst | 0x34B => Some CSR.mtval2 | 0x30A => Some CSR.menvcfg
  | 0x747 => Some CSR.mseccfg | 0x3A0 => Some CSR.pmpcfg0 | 0x3A2 => Some CSR.pmpcfg2
  | 0x3A4 => Some CSR.pmpcfg4 | 0x3A6 => Some CSR.pmpcfg6 | 0x3A8 => Some CSR.pmpcfg8
  | 0x3AA => Some CSR.pmpcfg10 | 0x3AC => Some CSR.pmpcfg12 | 0x3AE => Some CSR.pmpcfg14
  | 0x3B0 => Some CSR.pmpaddr0 | 0x3B1 => Some CSR.pmpaddr1 | 0x3B2 => Some CSR.pmpaddr2
  | 0x3B3 => Some CSR.pmpaddr3 | 0x3B4 => Some CSR.pmpaddr4 | 0x3B5 => Some CSR.pmpaddr5
  | 0x3B6 => Some CSR.pmpaddr6 | 0x3B7 => Some CSR.pmpaddr7 | 0x3B8 => Some CSR.pmpaddr8
  | 0x3B9 => Some CSR.pmpaddr9 | 0x3BA => Some CSR.pmpaddr10 | 0x3BB => Some CSR.pmpaddr11
  | 0x3BC => Some CSR.pmpaddr12 | 0x3BD => Some CSR.pmpaddr13 | 0x3BE => Some CSR.pmpaddr14
  | 0x3BF => Some CSR.pmpaddr15 | 0x3C0 => Some CSR.pmpaddr16 | 0x3C1 => Some CSR.pmpaddr17
  | 0x3C2 => Some CSR.pmpaddr18 | 0x3C3 => Some CSR.pmpaddr19 | 0x3C4 => Some CSR.pmpaddr20
  | 0x3C5 => Some CSR.pmpaddr21 | 0x3C6 => Some CSR.pmpaddr22 | 0x3C7 => Some CSR.pmpaddr23
  | 0x3C8 => Some CSR.pmpaddr24 | 0x3C9 => Some CSR.pmpaddr25 | 0x3CA => Some CSR.pmpaddr26
  | 0x3CB => Some CSR.pmpaddr27 | 0x3CC => Some CSR.pmpaddr28 | 0x3CD => Some CSR.pmpaddr29
  | 0x3CE => Some CSR.pmpaddr30 | 0x3CF => Some CSR.pmpaddr31 | 0x3D0 => Some CSR.pmpaddr32
  | 0x3D1 => Some CSR.pmpaddr33 | 0x3D2 => Some CSR.pmpaddr34 | 0x3D3 => Some CSR.pmpaddr35
  | 0x3D4 => Some CSR.pmpaddr36 | 0x3D5 => Some CSR.pmpaddr37 | 0x3D6 => Some CSR.pmpaddr38
  | 0x3D7 => Some CSR.pmpaddr39 | 0x3D8 => Some CSR.pmpaddr40 | 0x3D9 => Some CSR.pmpaddr41
  | 0x3DA => Some CSR.pmpaddr42 | 0x3DB => Some CSR.pmpaddr43 | 0x3DC => Some CSR.pmpaddr44
  | 0x3DD => Some CSR.pmpaddr45 | 0x3DE => Some CSR.pmpaddr46 | 0x3DF => Some CSR.pmpaddr47
  | 0x3E0 => Some CSR.pmpaddr48 | 0x3E1 => Some CSR.pmpaddr49 | 0x3E2 => Some CSR.pmpaddr50
  | 0x3E3 => Some CSR.pmpaddr51 | 0x3E4 => Some CSR.pmpaddr52 | 0x3E5 => Some CSR.pmpaddr53
  | 0x3E6 => Some CSR.pmpaddr54 | 0x3E7 => Some CSR.pmpaddr55 | 0x3E8 => Some CSR.pmpaddr56
  | 0x3E9 => Some CSR.pmpaddr57 | 0x3EA => Some CSR.pmpaddr58 | 0x3EB => Some CSR.pmpaddr59
  | 0x3EC => Some CSR.pmpaddr60 | 0x3ED => Some CSR.pmpaddr61 | 0x3EE => Some CSR.pmpaddr62
  | 0x3EF => Some CSR.pmpaddr63 | 0x740 => Some CSR.mnscratch | 0x741 => Some CSR.mnepc
  | 0x742 => Some CSR.mncause | 0x744 => Some CSR.mnstatus | 0xB00 => Some CSR.mcycle
  | 0xB02 => Some CSR.minstret | 0xB03 => Some CSR.mhpmcounter3
  | 0xB04 => Some CSR.mhpmcounter4 | 0xB05 => Some CSR.mhpmcounter5
  | 0xB06 => Some CSR.mhpmcounter6 | 0xB07 => Some CSR.mhpmcounter7
  | 0xB08 => Some CSR.mhpmcounter8 | 0xB09 => Some CSR.mhpmcounter9
  | 0xB0A => Some CSR.mhpmcounter10 | 0xB0B => Some CSR.mhpmcounter11
  | 0xB0C => Some CSR.mhpmcounter12 | 0xB0D => Some CSR.mhpmcounter13
  | 0xB0E => Some CSR.mhpmcounter14 | 0xB0F => Some CSR.mhpmcounter15
  | 0xB10 => Some CSR.mhpmcounter16 | 0xB11 => Some CSR.mhpmcounter17
  | 0xB12 => Some CSR.mhpmcounter18 | 0xB13 => Some CSR.mhpmcounter19
  | 0xB14 => Some CSR.mhpmcounter20 | 0xB15 => Some CSR.mhpmcounter21
  | 0xB16 => Some CSR.mhpmcounter22 | 0xB17 => Some CSR.mhpmcounter23
  | 0xB18 => Some CSR.mhpmcounter24 | 0xB19 => Some CSR.mhpmcounter25
  | 0xB1A => Some CSR.mhpmcounter26 | 0xB1B => Some CSR.mhpmcounter27
  | 0xB1C => Some CSR.mhpmcounter28 | 0xB1D => Some CSR.mhpmcounter29
  | 0xB1E => Some CSR.mhpmcounter30 | 0xB1F => Some CSR.mhpmcounter31
  | 0x320 => Some CSR.mcountinhibit | 0x323 => Some CSR.mhpmevent3
  | 0x324 => Some CSR.mhpmevent4 | 0x325 => Some CSR.mhpmevent5 | 0x326 => Some CSR.mhpmevent6
  | 0x327 => Some CSR.mhpmevent7 | 0x328 => Some CSR.mhpmevent8 | 0x329 => Some CSR.mhpmevent9
  | 0x32A => Some CSR.mhpmevent10 | 0x32B => Some CSR.mhpmevent11
  | 0x32C => Some CSR.mhpmevent12 | 0x32D => Some CSR.mhpmevent13
  | 0x32E => Some CSR.mhpmevent14 | 0x32F => Some CSR.mhpmevent15
  | 0x330 => Some CSR.mhpmevent16 | 0x331 => Some CSR.mhpmevent17
  | 0x332 => Some CSR.mhpmevent18 | 0x333 => Some CSR.mhpmevent19
  | 0x334 => Some CSR.mhpmevent20 | 0x335 => Some CSR.mhpmevent21
  | 0x336 => Some CSR.mhpmevent22 | 0x337 => Some CSR.mhpmevent23
  | 0x338 => Some CSR.mhpmevent24 | 0x339 => Some CSR.mhpmevent25
  | 0x33A => Some CSR.mhpmevent26 | 0x33B => Some CSR.mhpmevent27
  | 0x33C => Some CSR.mhpmevent28 | 0x33D => Some CSR.mhpmevent29
  | 0x33E => Some CSR.mhpmevent30 | 0x33F => Some CSR.mhpmevent31 | 0x7A0 => Some CSR.tselect
  | 0x7A1 => Some CSR.tdata1 | 0x7A2 => Some CSR.tdata2 | 0x7A3 => Some CSR.tdata3
  | 0x7A5 => Some CSR.tcontrol | 0x7A8 => Some CSR.mcontext | 0x7B0 => Some CSR.dcsr
  | 0x7B1 => Some CSR.dpc | 0x7B2 => Some CSR.dscratch0 | 0x7B3 => Some CSR.dscratch1
  | _ => None
  end.

Definition in_range (lo hi reg : Z) : bool := (lo <=? reg) && (reg <=? hi).

(** The [match] of [CSRegister::privilege] on the address; [None] is its
    [unreachable!] arm. *)
(* machine_state/csregisters.rs:364-410 privilege *)
Definition privilege_of_address (reg : Z) : option Privilege :=
  if in_range 0x000 0x0FF reg
     || in_range 0x400 0x4FF reg
     || in_range 0x800 0x8FF reg
     || in_range 0xC00 0xC7F reg
     || in_range 0xC80 0xCBF reg
     || in_range 0xCC0 0xCFF reg
  then Some Unprivileged
  else   if in_range 0x100 0x1FF reg
     || in_range 0x500 0x57F reg
     || in_range 0x580 0x5BF reg
     || in_range 0x5C0 0x5FF reg
     || in_range 0x900 0x97F reg
     || in_range 0x980 0x9BF reg
     || in_range 0x9C0 0x9FF reg
     || in_range 0xD00 0xD7F reg
     || in_range 0xD80 0xDBF reg
     || in_range 0xDC0 0xDFF reg
  then Some PSupervisor
  else   if in_range 0x200 0x2FF reg
     || in_range 0x600 0x67F reg
     || in_range 0x680 0x6BF reg
     || in_range 0x6C0 0x6FF reg
     || in_range 0xA00 0xA7F reg
     || in_range 0xA80 0xABF reg
     || in_range 0xAC0 0xAFF reg
     || in_range 0xE00 0xE7F reg
     || in_range 0xE80 0xEBF reg
     || in_range 0xEC0 0xEFF reg
  then Some Hypervisor
  else   if in_range 0x300 0x3FF reg
     || in_range 0x700 0x77F reg
     || in_range 0x780 0x79F reg
     || in_range 0x7A0 0x7AF reg
     || in_range 0x7B0 0x7BF reg
     || in_range 0x7C0 0x7FF reg
     || in_range 0xB00 0xB7F reg
     || in_range 0xB80 0xBBF reg
     || in_range 0xBC0 0xBFF reg
     || in_range 0xF00 0xF7F reg
     || in_range 0xF80 0xFBF reg
     || in_range 0xFC0 0xFFF reg
  then Some PMachine
  else None.

(* machine_state/csregisters.rs:362-410 privilege *)
Definition CSRegister_privilege (r : CSR.CSRegister) : Privilege :=
  default PMachine (privilege_of_address (CSRegister_repr r)).

(* machine_state/csregisters.rs:414-417 is_read_only *)
Definition is_read_only (r : CSR.CSRegister) : bool :=
  (shr_u 64 (CSRegister_repr r) 10 & 3) =? 3.

Module Root.
(* machine_state/csregisters/root.rs:14-299 RootCSRegister *)
Inductive RootCSRegister : Set :=
  | fcsr | cycle | time | instret | hpmcounter3 | hpmcounter4 | hpmcounter5 | hpmcounter6
  | hpmcounter7 | hpmcounter8 | hpmcounter9 | hpmcounter10 | hpmcounter11 | hpmcounter12
  | hpmcounter13 | hpmcounter14 | hpmcounter15 | hpmcounter16 | hpmcounter17 | hpmcounter18
  | hpmcounter19 | hpmcounter20 | hpmcounter21 | hpmcounter22 | hpmcounter23 | hpmcounter24
  | hpmcounter25 | hpmcounter26 | hpmcounter27 | hpmcounter28 | hpmcounter29 | hpmcounter30
  | hpmcounter31 | stvec | scounteren | senvcfg | sscratch | sepc | scause | stval | satp
  | scontext | hstatus | hedeleg | hideleg | hie | hcounteren | hgeie | htval | hip | hvip
  | htinst | hgeip | henvcfg | hgatp | hcontext | htimedelta | vsstatus | vsie | vstvec
  | vsscratch | vsepc | vscause | vstval | vsip | vsatp | mvendorid | marchid | mimpid
  | mhartid | mconfigptr | mstatus | misa | medeleg | mideleg | mie | mtvec | mcounteren
  | mscratch | mepc | mcause | mtval | mip | mtinst | mtval2 | menvcfg | mseccfg | pmpcfg0
  | pmpcfg2 | pmpcfg4 | pmpcfg6 | pmpcfg8 | pmpcfg10 | pmpcfg12 | pmpcfg14 | pmpaddr0
  | pmpaddr1 | pmpaddr2 | pmpaddr3 | pmpaddr4 | pmpaddr5 | pmpaddr6 | pmpaddr7 | pmpaddr8
  | pmpaddr9 | pmpaddr10 | pmpaddr11 | pmpaddr12 | pmpaddr13 | pmpaddr14 | pmpaddr15
  | pmpaddr16 | pmpaddr17 | pmpaddr18 | pmpaddr19 | pmpaddr20 | pmpaddr21 | pmpaddr22
  | pmpaddr23 | pmpaddr24 | pmpaddr25 | pmpaddr26 | pmpaddr27 | pmpaddr28 | pmpaddr29
  | pmpaddr30 | pmpaddr31 | pmpaddr32 | pmpaddr33 | pmpaddr34 | pmpaddr35 | pmpaddr36
  | pmpaddr37 | pmpaddr38 | pmpaddr39 | pmpaddr40 | pmpaddr41 | pmpaddr42 | pmpaddr43
  | pmpaddr44 | pmpaddr45 | pmpaddr46 | pmpaddr47 | pmpaddr48 | pmpaddr49 | pmpaddr50
  | pmpaddr51 | pmpaddr52 | pmpaddr53 | pmpaddr54 | pmpaddr55 | pmpaddr56 | pmpaddr57
  | pmpaddr58 | pmpaddr59 | pmpaddr60 | pmpaddr61 | pmpaddr62 | pmpaddr63 | mnscratch | mnepc
  | mncause | mnstatus | mcycle | minstret | mhpmcounter3 | mhpmcounter4 | mhpmcounter5
  | mhpmcounter6 | mhpmcounter7 | mhpmcounter8 | mhpmcounter9 | mhpmcounter10 | mhpmcounter11
  | mhpmcounter12 | mhpmcounter13 | mhpmcounter14 | mhpmcounter15 | mhpmcounter16
  | mhpmcounter17 | mhpmcounter18 | mhpmcounter19 | mhpmcounter20 | mhpmcounter21
  | mhpmcounter22 | mhpmcounter23 | mhpmcounter24 | mhpmcounter25 | mhpmcounter26
  | mhpmcounter27 | mhpmcounter28 | mhpmcounter29 | mhpmcounter30 | mhpmcounter31
  | mcountinhibit | mhpmevent3 | mhpmevent4 | mhpmevent5 | mhpmevent6 | mhpmevent7 | mhpmevent8
  | mhpmevent9 | mhpmevent10 | mhpmevent11 | mhpmevent12 | mhpmevent13 | mhpmevent14
  | mhpmevent15 | mhpmevent16 | mhpmevent17 | mhpmevent18 | mhpmevent19 | mhpmevent20
  | mhpmevent21 | mhpmevent22 | mhpmevent23 | mhpmevent24 | mhpmevent25 | mhpmevent26
  | mhpmevent27 | mhpmevent28 | mhpmevent29 | mhpmevent30 | mhpmevent31 | tselect | tdata1
  | tdata2 | tdata3 | tcontrol | mcontext | dcsr | dpc | dscratch0 | dscratch1.
End Root.

(* machine_state/csregisters/root.rs:301-551 From<CSRegister> *)
Definition RootCSRegister_from (value : CSR.CSRegister) : Root.RootCSRegister :=
  match value with
  | CSR.fflags => Root.fcsr | CSR.frm => Root.fcsr | CSR.fcsr => Root.fcsr
  | CSR.cycle => Root.cycle | CSR.time => Root.time | CSR.instret => Root.instret
  | CSR.hpmcounter3 => Root.hpmcounter3 | CSR.hpmcounter4 => Root.hpmcounter4
  | CSR.hpmcounter5 => Root.hpmcounter5 | CSR.hpmcounter6 => Root.hpmcounter6
  | CSR.hpmcounter7 => Root.hpmcounter7 | CSR.hpmcounter8 => Root.hpmcounter8
  | CSR.hpmcounter9 => Root.hpmcounter9 | CSR.hpmcounter10 => Root.hpmcounter10
  | CSR.hpmcounter11 => Root.hpmcounter11 | CSR.hpmcounter12 => Root.hpmcounter12
  | CSR.hpmcounter13 => Root.hpmcounter13 | CSR.hpmcounter14 => Root.hpmcounter14
  | CSR.hpmcounter15 => Root.hpmcounter15 | CSR.hpmcounter16 => Root.hpmcounter16
  | CSR.hpmcounter17 => Root.hpmcounter17 | CSR.hpmcounter18 => Root.hpmcounter18
  | CSR.hpmcounter19 => Root.hpmcounter19 | CSR.hpmcounter20 => Root.hpmcounter20
  | CSR.hpmcounter21 => Root.hpmcounter21 | CSR.hpmcounter22 => Root.hpmcounter22
  | CSR.hpmcounter23 => Root.hpmcounter23 | CSR.hpmcounter24 => Root.hpmcounter24
  | CSR.hpmcounter25 => Root.hpmcounter25 | CSR.hpmcounter26 => Root.hpmcounter26
  | CSR.hpmcounter27 => Root.hpmcounter27 | CSR.hpmcounter28 => Root.hpmcounter28
  | CSR.hpmcounter29 => Root.hpmcounter29 | CSR.hpmcounter30 => Root.hpmcounter30
  | CSR.hpmcounter31 => Root.hpmcounter31 | CSR.sstatus => Root.mstatus | CSR.sie => Root.mie
  | CSR.stvec => Root.stvec | CSR.scounteren => Root.scounteren | CSR.senvcfg => Root.senvcfg
  | CSR.sscratch => Root.sscratch | CSR.sepc => Root.sepc | CSR.scause => Root.scause
  | CSR.stval => Root.stval | CSR.sip => Root.mip | CSR.satp => Root.satp
  | CSR.scontext => Root.scontext | CSR.hstatus => Root.hstatus | CSR.hedeleg => Root.hedeleg
  | CSR.hideleg => Root.hideleg | CSR.hie => Root.hie | CSR.hcounteren => Root.hcounteren
  | CSR.hgeie => Root.hgeie | CSR.htval => Root.htval | CSR.hip => Root.hip
  | CSR.hvip => Root.hvip | CSR.htinst => Root.htinst | CSR.hgeip => Root.hgeip
  | CSR.henvcfg => Root.henvcfg | CSR.hgatp => Root.hgatp | CSR.hcontext => Root.hcontext
  | CSR.htimedelta => Root.htimedelta | CSR.vsstatus => Root.vsstatus | CSR.vsie => Root.vsie
  | CSR.vstvec => Root.vstvec | CSR.vsscratch => Root.vsscratch | CSR.vsepc => Root.vsepc
  | CSR.vscause => Root.vscause | CSR.vstval => Root.vstval | CSR.vsip => Root.vsip
  | CSR.vsatp => Root.vsatp | CSR.mvendorid => Root.mvendorid | CSR.marchid => Root.marchid
  | CSR.mimpid => Root.mimpid | CSR.mhartid => Root.mhartid | CSR.mconfigptr => Root.mconfigptr
  | CSR.mstatus => Root.mstatus | CSR.misa => Root.misa | CSR.medeleg => Root.medeleg
  | CSR.mideleg => Root.mideleg | CSR.mie => Root.mie | CSR.mtvec => Root.mtvec
  | CSR.mcounteren => Root.mcounteren | CSR.mscratch => Root.mscratch | CSR.mepc => Root.mepc
  | CSR.mcause => Root.mcause | CSR.mtval => Root.mtval | CSR.mip => Root.mip
  | CSR.mtinst => Root.mtinst | CSR.mtval2 => Root.mtval2 | CSR.menvcfg => Root.menvcfg
  | CSR.mseccfg => Root.mseccfg | CSR.pmpcfg0 => Root.pmpcfg0 | CSR.pmpcfg2 => Root.pmpcfg2
  | CSR.pmpcfg4 => Root.pmpcfg4 | CSR.pmpcfg6 => Root.pmpcfg6 | CSR.pmpcfg8 => Root.pmpcfg8
  | CSR.pmpcfg10 => Root.pmpcfg10 | CSR.pmpcfg12 => Root.pmpcfg12
  | CSR.pmpcfg14 => Root.pmpcfg14 | CSR.pmpaddr0 => Root.pmpaddr0
  | CSR.pmpaddr1 => Root.pmpaddr1 | CSR.pmpaddr2 => Root.pmpaddr2
  | CSR.pmpaddr3 => Root.pmpaddr3 | CSR.pmpaddr4 => Root.pmpaddr4
  | CSR.pmpaddr5 => Root.pmpaddr5 | CSR.pmpaddr6 => Root.pmpaddr6
  | CSR.pmpaddr7 => Root.pmpaddr7 | CSR.pmpaddr8 => Root.pmpaddr8
  | CSR.pmpaddr9 => Root.pmpaddr9 | CSR.pmpaddr10 => Root.pmpaddr10
  | CSR.pmpaddr11 => Root.pmpaddr11 | CSR.pmpaddr12 => Root.pmpaddr12
  | CSR.pmpaddr13 => Root.pmpaddr13 | CSR.pmpaddr14 => Root.pmpaddr14
  | CSR.pmpaddr15 => Root.pmpaddr15 | CSR.pmpaddr16 => Root.pmpaddr16
  | CSR.pmpaddr17 => Root.pmpaddr17 | CSR.pmpaddr18 => Root.pmpaddr18
  | CSR.pmpaddr19 => Root.pmpaddr19 | CSR.pmpaddr20 => Root.pmpaddr20
  | CSR.pmpaddr21 => Root.pmpaddr21 | CSR.pmpaddr22 => Root.pmpaddr22
  | CSR.pmpaddr23 => Root.pmpaddr23 | CSR.pmpaddr24 => Root.pmpaddr24
  | CSR.pmpaddr25 => Root.pmpaddr25 | CSR.pmpaddr26 => Root.pmpaddr26
  | CSR.pmpaddr27 => Root.pmpaddr27 | CSR.pmpaddr28 => Root.pmpaddr28
  | CSR.pmpaddr29 => Root.pmpaddr29 | CSR.pmpaddr30 => Root.pmpaddr30
  | CSR.pmpaddr31 => Root.pmpaddr31 | CSR.pmpaddr32 => Root.pmpaddr32
  | CSR.pmpaddr33 => Root.pmpaddr33 | CSR.pmpaddr34 => Root.pmpaddr34
  | CSR.pmpaddr35 => Root.pmpaddr35 | CSR.pmpaddr36 => Root.pmpaddr36
  | CSR.pmpaddr37 => Root.pmpaddr37 | CSR.pmpaddr38 => Root.pmpaddr38
  | CSR.pmpaddr39 => Root.pmpaddr39 | CSR.pmpaddr40 => Root.pmpaddr40
  | CSR.pmpaddr41 => Root.pmpaddr41 | CSR.pmpaddr42 => Root.pmpaddr42
  | CSR.pmpaddr43 => Root.pmpaddr43 | CSR.pmpaddr44 => Root.pmpaddr44
  | CSR.pmpaddr45 => Root.pmpaddr45 | CSR.pmpaddr46 => Root.pmpaddr46
  | CSR.pmpaddr47 => Root.pmpaddr47 | CSR.pmpaddr48 => Root.pmpaddr48
  | CSR.pmpaddr49 => Root.pmpaddr49 | CSR.pmpaddr50 => Root.pmpaddr50
  | CSR.pmpaddr51 => Root.pmpaddr51 | CSR.pmpaddr52 => Root.pmpaddr52
  | CSR.pmpaddr53 => Root.pmpaddr53 | CSR.pmpaddr54 => Root.pmpaddr54
  | CSR.pmpaddr55 => Root.pmpaddr55 | CSR.pmpaddr56 => Root.pmpaddr56
  | CSR.pmpaddr57 => Root.pmpaddr57 | CSR.pmpaddr58 => Root.pmpaddr58
  | CSR.pmpaddr59 => Root.pmpaddr59 | CSR.pmpaddr60 => Root.pmpaddr60
  | CSR.pmpaddr61 => Root.pmpaddr61 | CSR.pmpaddr62 => Root.pmpaddr62
  | CSR.pmpaddr63 => Root.pmpaddr63 | CSR.mnscratch => Root.mnscratch | CSR.mnepc => Root.mnepc
  | CSR.mncause => Root.mncause | CSR.mnstatus => Root.mnstatus | CSR.mcycle => Root.mcycle
  | CSR.minstret => Root.minstret | CSR.mhpmcounter3 => Root.mhpmcounter3
  | CSR.mhpmcounter4 => Root.mhpmcounter4 | CSR.mhpmcounter5 => Root.mhpmcounter5
  | CSR.mhpmcounter6 => Root.mhpmcounter6 | CSR.mhpmcounter7 => Root.mhpmcounter7
  | CSR.mhpmcounter8 => Root.mhpmcounter8 | CSR.mhpmcounter9 => Root.mhpmcounter9
  | CSR.mhpmcounter10 => Root.mhpmcounter10 | CSR.mhpmcounter11 => Root.mhpmcounter11
  | CSR.mhpmcounter12 => Root.mhpmcounter12 | CSR.mhpmcounter13 => Root.mhpmcounter13
  | CSR.mhpmcounter14 => Root.mhpmcounter14 | CSR.mhpmcounter15 => Root.mhpmcounter15
  | CSR.mhpmcounter16 => Root.mhpmcounter16 | CSR.mhpmcounter17 => Root.mhpmcounter17
  | CSR.mhpmcounter18 => Root.mhpmcounter18 | CSR.mhpmcounter19 => Root.mhpmcounter19
  | CSR.mhpmcounter20 => Root.mhpmcounter20 | CSR.mhpmcounter21 => Root.mhpmcounter21
  | CSR.mhpmcounter22 => Root.mhpmcounter22 | CSR.mhpmcounter23 => Root.mhpmcounter23
  | CSR.mhpmcounter24 => Root.mhpmcounter24 | CSR.mhpmcounter25 => Root.mhpmcounter25
  | CSR.mhpmcounter26 => Root.mhpmcounter26 | CSR.mhpmcounter27 => Root.mhpmcounter27
  | CSR.mhpmcounter28 => Root.mhpmcounter28 | CSR.mhpmcounter29 => Root.mhpmcounter29
  | CSR.mhpmcounter30 => Root.mhpmcounter30 | CSR.mhpmcounter31 => Root.mhpmcounter31
  | CSR.mcountinhibit => Root.mcountinhibit | CSR.mhpmevent3 => Root.mhpmevent3
  | CSR.mhpmevent4 => Root.mhpmevent4 | CSR.mhpmevent5 => Root.mhpmevent5
  | CSR.mhpmevent6 => Root.mhpmevent6 | CSR.mhpmevent7 => Root.mhpmevent7
  | CSR.mhpmevent8 => Root.mhpmevent8 | CSR.mhpmevent9 => Root.mhpmevent9
  | CSR.mhpmevent10 => Root.mhpmevent10 | CSR.mhpmevent11 => Root.mhpmevent11
  | CSR.mhpmevent12 => Root.mhpmevent12 | CSR.mhpmevent13 => Root.mhpmevent13
  | CSR.mhpmevent14 => Root.mhpmevent14 | CSR.mhpmevent15 => Root.mhpmevent15
  | CSR.mhpmevent16 => Root.mhpmevent16 | CSR.mhpmevent17 => Root.mhpmevent17
  | CSR.mhpmevent18 => Root.mhpmevent18 | CSR.mhpmevent19 => Root.mhpmevent19
  | CSR.mhpmevent20 => Root.mhpmevent20 | CSR.mhpmevent21 => Root.mhpmevent21
  | CSR.mhpmevent22 => Root.mhpmevent22 | CSR.mhpmevent23 => Root.mhpmevent23
  | CSR.mhpmevent24 => Root.mhpmevent24 | CSR.mhpmevent25 => Root.mhpmevent25
  | CSR.mhpmevent26 => Root.mhpmevent26 | CSR.mhpmevent27 => Root.mhpmevent27
  | CSR.mhpmevent28 => Root.mhpmevent28 | CSR.mhpmevent29 => Root.mhpmevent29
  | CSR.mhpmevent30 => Root.mhpmevent30 | CSR.mhpmevent31 => Root.mhpmevent31
  | CSR.tselect => Root.tselect | CSR.tdata1 => Root.tdata1 | CSR.tdata2 => Root.tdata2
  | CSR.tdata3 => Root.tdata3 | CSR.tcontrol => Root.tcontrol | CSR.mcontext => Root.mcontext
  | CSR.dcsr => Root.dcsr | CSR.dpc => Root.dpc | CSR.dscratch0 => Root.dscratch0
  | CSR.dscratch1 => Root.dscratch1
  end.

(** A root register read as a CSR: the inverse of [RootCSRegister_from] on the
    registers that are not shadows. *)
Definition Root_csr (r : Root.RootCSRegister) : CSR.CSRegister :=
  match r with
  | Root.fcsr => CSR.fcsr | Root.cycle => CSR.cycle | Root.time => CSR.time
  | Root.instret => CSR.instret | Root.hpmcounter3 => CSR.hpmcounter3
  | Root.hpmcounter4 => CSR.hpmcounter4 | Root.hpmcounter5 => CSR.hpmcounter5
  | Root.hpmcounter6 => CSR.hpmcounter6 | Root.hpmcounter7 => CSR.hpmcounter7
  | Root.hpmcounter8 => CSR.hpmcounter8 | Root.hpmcounter9 => CSR.hpmcounter9
  | Root.hpmcounter10 => CSR.hpmcounter10 | Root.hpmcounter11 => CSR.hpmcounter11
  | Root.hpmcounter12 => CSR.hpmcounter12 | Root.hpmcounter13 => CSR.hpmcounter13
  | Root.hpmcounter14 => CSR.hpmcounter14 | Root.hpmcounter15 => CSR.hpmcounter15
  | Root.hpmcounter16 => CSR.hpmcounter16 | Root.hpmcounter17 => CSR.hpmcounter17
  | Root.hpmcounter18 => CSR.hpmcounter18 | Root.hpmcounter19 => CSR.hpmcounter19
  | Root.hpmcounter20 => CSR.hpmcounter20 | Root.hpmcounter21 => CSR.hpmcounter21
  | Root.hpmcounter22 => CSR.hpmcounter22 | Root.hpmcounter23 => CSR.hpmcounter23
  | Root.hpmcounter24 => CSR.hpmcounter24 | Root.hpmcounter25 => CSR.hpmcounter25
  | Root.hpmcounter26 => CSR.hpmcounter26 | Root.hpmcounter27 => CSR.hpmcounter27
  | Root.hpmcounter28 => CSR.hpmcounter28 | Root.hpmcounter29 => CSR.hpmcounter29
  | Root.hpmcounter30 => CSR.hpmcounter30 | Root.hpmcounter31 => CSR.hpmcounter31
  | Root.stvec => CSR.stvec | Root.scounteren => CSR.scounteren | Root.senvcfg => CSR.senvcfg
  | Root.sscratch => CSR.sscratch | Root.sepc => CSR.sepc | Root.scause => CSR.scause
  | Root.stval => CSR.stval | Root.satp => CSR.satp | Root.scontext => CSR.scontext
  | Root.hstatus => CSR.hstatus | Root.hedeleg => CSR.hedeleg | Root.hideleg => CSR.hideleg
  | Root.hie => CSR.hie | Root.hcounteren => CSR.hcounteren | Root.hgeie => CSR.hgeie
  | Root.htval => CSR.htval | Root.hip => CSR.hip | Root.hvip => CSR.hvip
  | Root.htinst => CSR.htinst | Root.hgeip => CSR.hgeip | Root.henvcfg => CSR.henvcfg
  | Root.hgatp => CSR.hgatp | Root.hcontext => CSR.hcontext | Root.htimedelta => CSR.htimedelta
  | Root.vsstatus => CSR.vsstatus | Root.vsie => CSR.vsie | Root.vstvec => CSR.vstvec
  | Root.vsscratch => CSR.vsscratch | Root.vsepc => CSR.vsepc | Root.vscause => CSR.vscause
  | Root.vstval => CSR.vstval | Root.vsip => CSR.vsip | Root.vsatp => CSR.vsatp
  | Root.mvendorid => CSR.mvendorid | Root.marchid => CSR.marchid | Root.mimpid => CSR.mimpid
  | Root.mhartid => CSR.mhartid | Root.mconfigptr => CSR.mconfigptr
  | Root.mstatus => CSR.mstatus | Root.misa => CSR.misa | Root.medeleg => CSR.medeleg
  | Root.mideleg => CSR.mideleg | Root.mie => CSR.mie | Root.mtvec => CSR.mtvec
  | Root.mcounteren => CSR.mcounteren | Root.mscratch => CSR.mscratch | Root.mepc => CSR.mepc
  | Root.mcause => CSR.mcause | Root.mtval => CSR.mtval | Root.mip => CSR.mip
  | Root.mtinst => CSR.mtinst | Root.mtval2 => CSR.mtval2 | Root.menvcfg => CSR.menvcfg
  | Root.mseccfg => CSR.mseccfg | Root.pmpcfg0 => CSR.pmpcfg0 | Root.pmpcfg2 => CSR.pmpcfg2
  | Root.pmpcfg4 => CSR.pmpcfg4 | Root.pmpcfg6 => CSR.pmpcfg6 | Root.pmpcfg8 => CSR.pmpcfg8
  | Root.pmpcfg10 => CSR.pmpcfg10 | Root.pmpcfg12 => CSR.pmpcfg12
  | Root.pmpcfg14 => CSR.pmpcfg14 | Root.pmpaddr0 => CSR.pmpaddr0
  | Root.pmpaddr1 => CSR.pmpaddr1 | Root.pmpaddr2 => CSR.pmpaddr2
  | Root.pmpaddr3 => CSR.pmpaddr3 | Root.pmpaddr4 => CSR.pmpaddr4
  | Root.pmpaddr5 => CSR.pmpaddr5 | Root.pmpaddr6 => CSR.pmpaddr6
  | Root.pmpaddr7 => CSR.pmpaddr7 | Root.pmpaddr8 => CSR.pmpaddr8
  | Root.pmpaddr9 => CSR.pmpaddr9 | Root.pmpaddr10 => CSR.pmpaddr10
  | Root.pmpaddr11 => CSR.pmpaddr11 | Root.pmpaddr12 => CSR.pmpaddr12
  | Root.pmpaddr13 => CSR.pmpaddr13 | Root.pmpaddr14 => CSR.pmpaddr14
  | Root.pmpaddr15 => CSR.pmpaddr15 | Root.pmpaddr16 => CSR.pmpaddr16
  | Root.pmpaddr17 => CSR.pmpaddr17 | Root.pmpaddr18 => CSR.pmpaddr18
  | Root.pmpaddr19 => CSR.pmpaddr19 | Root.pmpaddr20 => CSR.pmpaddr20
  | Root.pmpaddr21 => CSR.pmpaddr21 | Root.pmpaddr22 => CSR.pmpaddr22
  | Root.pmpaddr23 => CSR.pmpaddr23 | Root.pmpaddr24 => CSR.pmpaddr24
  | Root.pmpaddr25 => CSR.pmpaddr25 | Root.pmpaddr26 => CSR.pmpaddr26
  | Root.pmpaddr27 => CSR.pmpaddr27 | Root.pmpaddr28 => CSR.pmpaddr28
  | Root.pmpaddr29 => CSR.pmpaddr29 | Root.pmpaddr30 => CSR.pmpaddr30
  | Root.pmpaddr31 => CSR.pmpaddr31 | Root.pmpaddr32 => CSR.pmpaddr32
  | Root.pmpaddr33 => CSR.pmpaddr33 | Root.pmpaddr34 => CSR.pmpaddr34
  | Root.pmpaddr35 => CSR.pmpaddr35 | Root.pmpaddr36 => CSR.pmpaddr36
  | Root.pmpaddr37 => CSR.pmpaddr37 | Root.pmpaddr38 => CSR.pmpaddr38
  | Root.pmpaddr39 => CSR.pmpaddr39 | Root.pmpaddr40 => CSR.pmpaddr40
  | Root.pmpaddr41 => CSR.pmpaddr41 | Root.pmpaddr42 => CSR.pmpaddr42
  | Root.pmpaddr43 => CSR.pmpaddr43 | Root.pmpaddr44 => CSR.pmpaddr44
  | Root.pmpaddr45 => CSR.pmpaddr45 | Root.pmpaddr46 => CSR.pmpaddr46
  | Root.pmpaddr47 => CSR.pmpaddr47 | Root.pmpaddr48 => CSR.pmpaddr48
  | Root.pmpaddr49 => CSR.pmpaddr49 | Root.pmpaddr50 => CSR.pmpaddr50
  | Root.pmpaddr51 => CSR.pmpaddr51 | Root.pmpaddr52 => CSR.pmpaddr52
  | Root.pmpaddr53 => CSR.pmpaddr53 | Root.pmpaddr54 => CSR.pmpaddr54
  | Root.pmpaddr55 => CSR.pmpaddr55 | Root.pmpaddr56 => CSR.pmpaddr56
  | Root.pmpaddr57 => CSR.pmpaddr57 | Root.pmpaddr58 => CSR.pmpaddr58
  | Root.pmpaddr59 => CSR.pmpaddr59 | Root.pmpaddr60 => CSR.pmpaddr60
  | Root.pmpaddr61 => CSR.pmpaddr61 | Root.pmpaddr62 => CSR.pmpaddr62
  | Root.pmpaddr63 => CSR.pmpaddr63 | Root.mnscratch => CSR.mnscratch | Root.mnepc => CSR.mnepc
  | Root.mncause => CSR.mncause | Root.mnstatus => CSR.mnstatus | Root.mcycle => CSR.mcycle
  | Root.minstret => CSR.minstret | Root.mhpmcounter3 => CSR.mhpmcounter3
  | Root.mhpmcounter4 => CSR.mhpmcounter4 | Root.mhpmcounter5 => CSR.mhpmcounter5
  | Root.mhpmcounter6 => CSR.mhpmcounter6 | Root.mhpmcounter7 => CSR.mhpmcounter7
  | Root.mhpmcounter8 => CSR.mhpmcounter8 | Root.mhpmcounter9 => CSR.mhpmcounter9
  | Root.mhpmcounter10 => CSR.mhpmcounter10 | Root.mhpmcounter11 => CSR.mhpmcounter11
  | Root.mhpmcounter12 => CSR.mhpmcounter12 | Root.mhpmcounter13 => CSR.mhpmcounter13
  | Root.mhpmcounter14 => CSR.mhpmcounter14 | Root.mhpmcounter15 => CSR.mhpmcounter15
  | Root.mhpmcounter16 => CSR.mhpmcounter16 | Root.mhpmcounter17 => CSR.mhpmcounter17
  | Root.mhpmcounter18 => CSR.mhpmcounter18 | Root.mhpmcounter19 => CSR.mhpmcounter19
  | Root.mhpmcounter20 => CSR.mhpmcounter20 | Root.mhpmcounter21 => CSR.mhpmcounter21
  | Root.mhpmcounter22 => CSR.mhpmcounter22 | Root.mhpmcounter23 => CSR.mhpmcounter23
  | Root.mhpmcounter24 => CSR.mhpmcounter24 | Root.mhpmcounter25 => CSR.mhpmcounter25
  | Root.mhpmcounter26 => CSR.mhpmcounter26 | Root.mhpmcounter27 => CSR.mhpmcounter27
  | Root.mhpmcounter28 => CSR.mhpmcounter28 | Root.mhpmcounter29 => CSR.mhpmcounter29
  | Root.mhpmcounter30 => CSR.mhpmcounter30 | Root.mhpmcounter31 => CSR.mhpmcounter31
  | Root.mcountinhibit => CSR.mcountinhibit | Root.mhpmevent3 => CSR.mhpmevent3
  | Root.mhpmevent4 => CSR.mhpmevent4 | Root.mhpmevent5 => CSR.mhpmevent5
  | Root.mhpmevent6 => CSR.mhpmevent6 | Root.mhpmevent7 => CSR.mhpmevent7
  | Root.mhpmevent8 => CSR.mhpmevent8 | Root.mhpmevent9 => CSR.mhpmevent9
  | Root.mhpmevent10 => CSR.mhpmevent10 | Root.mhpmevent11 => CSR.mhpmevent11
  | Root.mhpmevent12 => CSR.mhpmevent12 | Root.mhpmevent13 => CSR.mhpmevent13
  | Root.mhpmevent14 => CSR.mhpmevent14 | Root.mhpmevent15 => CSR.mhpmevent15
  | Root.mhpmevent16 => CSR.mhpmevent16 | Root.mhpmevent17 => CSR.mhpmevent17
  | Root.mhpmevent18 => CSR.mhpmevent18 | Root.mhpmevent19 => CSR.mhpmevent19
  | Root.mhpmevent20 => CSR.mhpmevent20 | Root.mhpmevent21 => CSR.mhpmevent21
  | Root.mhpmevent22 => CSR.mhpmevent22 | Root.mhpmevent23 => CSR.mhpmevent23
  | Root.mhpmevent24 => CSR.mhpmevent24 | Root.mhpmevent25 => CSR.mhpmevent25
  | Root.mhpmevent26 => CSR.mhpmevent26 | Root.mhpmevent27 => CSR.mhpmevent27
  | Root.mhpmevent28 => CSR.mhpmevent28 | Root.mhpmevent29 => CSR.mhpmevent29
  | Root.mhpmevent30 => CSR.mhpmevent30 | Root.mhpmevent31 => CSR.mhpmevent31
  | Root.tselect => CSR.tselect | Root.tdata1 => CSR.tdata1 | Root.tdata2 => CSR.tdata2
  | Root.tdata3 => CSR.tdata3 | Root.tcontrol => CSR.tcontrol | Root.mcontext => CSR.mcontext
  | Root.dcsr => CSR.dcsr | Root.dpc => CSR.dpc | Root.dscratch0 => CSR.dscratch0
  | Root.dscratch1 => CSR.dscratch1
  end.

(** [RootCSRegister::iter()]: every register once, in declaration order. *)
(* machine_state/csregisters/root.rs:13-299 EnumIter *)
Definition RootCSRegister_iter : list Root.RootCSRegister :=
 [Root.fcsr; Root.cycle; Root.time; Root.instret; Root.hpmcounter3; Root.hpmcounter4;
  Root.hpmcounter5; Root.hpmcounter6; Root.hpmcounter7; Root.hpmcounter8; Root.hpmcounter9;
  Root.hpmcounter10; Root.hpmcounter11; Root.hpmcounter12; Root.hpmcounter13;
  Root.hpmcounter14; Root.hpmcounter15; Root.hpmcounter16; Root.hpmcounter17;
  Root.hpmcounter18; Root.hpmcounter19; Root.hpmcounter20; Root.hpmcounter21;
  Root.hpmcounter22; Root.hpmcounter23; Root.hpmcounter24; Root.hpmcounter25;
  Root.hpmcounter26; Root.hpmcounter27; Root.hpmcounter28; Root.hpmcounter29;
  Root.hpmcounter30; Root.hpmcounter31; Root.stvec; Root.scounteren; Root.senvcfg;
  Root.sscratch; Root.sepc; Root.scause; Root.stval; Root.satp; Root.scontext; Root.hstatus;
  Root.hedeleg; Root.hideleg; Root.hie; Root.hcounteren; Root.hgeie; Root.htval; Root.hip;
  Root.hvip; Root.htinst; Root.hgeip; Root.henvcfg; Root.hgatp; Root.hcontext; Root.htimedelta;
  Root.vsstatus; Root.vsie; Root.vstvec; Root.vsscratch; Root.vsepc; Root.vscause; Root.vstval;
  Root.vsip; Root.vsatp; Root.mvendorid; Root.marchid; Root.mimpid; Root.mhartid;
  Root.mconfigptr; Root.mstatus; Root.misa; Root.medeleg; Root.mideleg; Root.mie; Root.mtvec;
  Root.mcounteren; Root.mscratch; Root.mepc; Root.mcause; Root.mtval; Root.mip; Root.mtinst;
  Root.mtval2; Root.menvcfg; Root.mseccfg; Root.pmpcfg0; Root.pmpcfg2; Root.pmpcfg4;
  Root.pmpcfg6; Root.pmpcfg8; Root.pmpcfg10; Root.pmpcfg12; Root.pmpcfg14; Root.pmpaddr0;
  Root.pmpaddr1; Root.pmpaddr2; Root.pmpaddr3; Root.pmpaddr4; Root.pmpaddr5; Root.pmpaddr6;
  Root.pmpaddr7; Root.pmpaddr8; Root.pmpaddr9; Root.pmpaddr10; Root.pmpaddr11; Root.pmpaddr12;
  Root.pmpaddr13; Root.pmpaddr14; Root.pmpaddr15; Root.pmpaddr16; Root.pmpaddr17;
  Root.pmpaddr18; Root.pmpaddr19; Root.pmpaddr20; Root.pmpaddr21; Root.pmpaddr22;
  Root.pmpaddr23; Root.pmpaddr24; Root.pmpaddr25; Root.pmpaddr26; Root.pmpaddr27;
  Root.pmpaddr28; Root.pmpaddr29; Root.pmpaddr30; Root.pmpaddr31; Root.pmpaddr32;
  Root.pmpaddr33; Root.pmpaddr34; Root.pmpaddr35; Root.pmpaddr36; Root.pmpaddr37;
  Root.pmpaddr38; Root.pmpaddr39; Root.pmpaddr40; Root.pmpaddr41; Root.pmpaddr42;
  Root.pmpaddr43; Root.pmpaddr44; Root.pmpaddr45; Root.pmpaddr46; Root.pmpaddr47;
  Root.pmpaddr48; Root.pmpaddr49; Root.pmpaddr50; Root.pmpaddr51; Root.pmpaddr52;
  Root.pmpaddr53; Root.pmpaddr54; Root.pmpaddr55; Root.pmpaddr56; Root.pmpaddr57;
  Root.pmpaddr58; Root.pmpaddr59; Root.pmpaddr60; Root.pmpaddr61; Root.pmpaddr62;
  Root.pmpaddr63; Root.mnscratch; Root.mnepc; Root.mncause; Root.mnstatus; Root.mcycle;
  Root.minstret; Root.mhpmcounter3; Root.mhpmcounter4; Root.mhpmcounter5; Root.mhpmcounter6;
  Root.mhpmcounter7; Root.mhpmcounter8; Root.mhpmcounter9; Root.mhpmcounter10;
  Root.mhpmcounter11; Root.mhpmcounter12; Root.mhpmcounter13; Root.mhpmcounter14;
  Root.mhpmcounter15; Root.mhpmcounter16; Root.mhpmcounter17; Root.mhpmcounter18;
  Root.mhpmcounter19; Root.mhpmcounter20; Root.mhpmcounter21; Root.mhpmcounter22;
  Root.mhpmcounter23; Root.mhpmcounter24; Root.mhpmcounter25; Root.mhpmcounter26;
  Root.mhpmcounter27; Root.mhpmcounter28; Root.mhpmcounter29; Root.mhpmcounter30;
  Root.mhpmcounter31; Root.mcountinhibit; Root.mhpmevent3; Root.mhpmevent4; Root.mhpmevent5;
  Root.mhpmevent6; Root.mhpmevent7; Root.mhpmevent8; Root.mhpmevent9; Root.mhpmevent10;
  Root.mhpmevent11; Root.mhpmevent12; Root.mhpmevent13; Root.mhpmevent14; Root.mhpmevent15;
  Root.mhpmevent16; Root.mhpmevent17; Root.mhpmevent18; Root.mhpmevent19; Root.mhpmevent20;
  Root.mhpmevent21; Root.mhpmevent22; Root.mhpmevent23; Root.mhpmevent24; Root.mhpmevent25;
  Root.mhpmevent26; Root.mhpmevent27; Root.mhpmevent28; Root.mhpmevent29; Root.mhpmevent30;
  Root.mhpmevent31; Root.tselect; Root.tdata1; Root.tdata2; Root.tdata3; Root.tcontrol;
  Root.mcontext; Root.dcsr; Root.dpc; Root.dscratch0; Root.dscratch1].

(** ** The address map *)

Lemma try_parse_repr r : try_parse (CSRegister_repr r) = Some r.
Proof. by destruct r. Qed.

Lemma CSRegister_repr_inj r r' : CSRegister_repr r = CSRegister_repr r' -> r = r'.
Proof.
  intros E. pose proof (try_parse_repr r) as A. rewrite E, try_parse_repr in A. congruence.
Qed.

#[export] Instance CSRegister_eq_dec : EqDecision CSR.CSRegister.
Proof.
  refine (fun r r' =>
    match Z.eq_dec (CSRegister_repr r) (CSRegister_repr r') with
    | left E => left (CSRegister_repr_inj _ _ E)
    | right N => right _
    end).
  abstract congruence.
Defined.

Lemma RootCSRegister_from_csr r : RootCSRegister_from (Root_csr r) = r.
Proof. by destruct r. Qed.

#[export] Instance RootCSRegister_eq_dec : EqDecision Root.RootCSRegister.
Proof.
  refine (fun r r' =>
    match decide (Root_csr r = Root_csr r') with
    | left E => left _
    | right N => right _
    end).
  - abstract (by rewrite <- (RootCSRegister_from_csr r), E, RootCSRegister_from_csr).
  - abstract congruence.
Defined.

Lemma RootCSRegister_iter_spec r : r ∈ RootCSRegister_iter.
Proof.
  apply (bool_decide_eq_true_1 (r ∈ RootCSRegister_iter)). by destruct r; vm_compute.
Qed.

Lemma CSRegister_repr_u12 r : is_u 12 (CSRegister_repr r).
Proof. destruct r; by vm_compute. Qed.

Lemma privilege_of_address_total z :
  is_u 12 z -> exists p, privilege_of_address z = Some p /\ Privilege_repr p = (z / 256) mod 4.
Proof.
  intros H.
  pose proof (is_u_forallb 12 (fun z => match privilege_of_address z with
    | Some p => Privilege_repr p =? (z / 256) mod 4 | None => false end)
    ltac:(by vm_compute) z H) as E. simpl in E.
  destruct (privilege_of_address z) as [p|]; [|done]. exists p. split; [done|].
  by apply Z.eqb_eq.
Qed.

(** Addresses and registers determine each other ([try_parse] inverts the
    discriminant and accepts no other 12-bit address), the [unreachable!] arm
    of [privilege] is never taken, and the privilege of a register and its
    read-only flag are the bits [9:8] and [11:10] of its address. *)
Theorem try_parse_spec z r :
  is_u 12 z ->
  (try_parse z = Some r <-> CSRegister_repr r = z) /\
  privilege_of_address (CSRegister_repr r) = Some (CSRegister_privilege r) /\
  Privilege_repr (CSRegister_privilege r) = (CSRegister_repr r / 256) mod 4 /\
  (is_read_only r = true <-> (CSRegister_repr r / 1024) mod 4 = 3).
Proof.
  intros Hz. split; [split|].
  - intros E. pose proof (is_u_forallb 12 (fun z => match try_parse z with
      | Some r => CSRegister_repr r =? z | None => true end) ltac:(by vm_compute) z Hz) as B.
    simpl in B. rewrite E in B. by apply Z.eqb_eq.
  - intros <-. apply try_parse_repr.
  - destruct (privilege_of_address_total _ (CSRegister_repr_u12 r)) as (p & Hp & Hb).
    unfold CSRegister_privilege. rewrite Hp. simpl. split; [done|]. split; [done|].
    destruct r; vm_compute; intuition congruence.
Qed.

Lemma try_parse_spec_witness : try_parse 0x180 = Some CSR.satp /\ is_u 12 0x180.
Proof.
  assert (H : is_u 12 0x180) by (vm_compute; intuition congruence).
  split; [|exact H]. apply (try_parse_spec 0x180 CSR.satp H). reflexivity.
Defined.
