(* ===== verification/Traps.v ===== *)
(** Exceptions, interrupts and what trap handling needs of them:
    [src/riscv/lib/src/traps.rs].

    [TrapContext] is the interface between the sources of traps and the hart's
    trap entry: the CSR file and the hart are verified against it. *)
From S2P Require Import Prelude CSRegister.

(** [Address] is a [u64]. *)
(* traps.rs:74-91 Exception *)
Inductive Exception : Set :=
| InstructionAccessFault (addr : Z)
| IllegalInstruction
| Breakpoint
| LoadAccessFault (addr : Z)
| StoreAMOAccessFault (addr : Z)
| EnvCallFromUMode
| EnvCallFromSMode
| EnvCallFromMMode
| InstructionPageFault (addr : Z)
| LoadPageFault (addr : Z)
| StoreAMOPageFault (addr : Z).

#[export] Instance Exception_eq_dec : EqDecision Exception.
Proof. solve_decision. Defined.

Module Environ.
(* traps.rs:28-34 EnvironException *)
Inductive EnvironException : Set := EnvCallFromUMode | EnvCallFromSMode | EnvCallFromMMode.
End Environ.

(* traps.rs:36-50 as_exception *)
Definition as_exception (e : Environ.EnvironException) : Exception :=
  match e with
  | Environ.EnvCallFromUMode => EnvCallFromUMode
  | Environ.EnvCallFromSMode => EnvCallFromSMode
  | Environ.EnvCallFromMMode => EnvCallFromMMode
  end.

(** [TryFrom<&Exception>]; the error is a fixed message. *)
(* traps.rs:52-72 TryFrom<&Exception> *)
Definition EnvironException_try_from (value : Exception) : option Environ.EnvironException :=
  match value with
  | EnvCallFromUMode => Some Environ.EnvCallFromUMode
  | EnvCallFromSMode => Some Environ.EnvCallFromSMode
  | EnvCallFromMMode => Some Environ.EnvCallFromMMode
  | Breakpoint | IllegalInstruction | InstructionAccessFault _ | LoadAccessFault _
  | StoreAMOAccessFault _ | InstructionPageFault _ | LoadPageFault _ | StoreAMOPageFault _ => None
  end.

(* traps.rs:123-132 Interrupt *)
Inductive Interrupt : Set :=
| SupervisorSoftware | MachineSoftware | SupervisorTimer
| MachineTimer | SupervisorExternal | MachineExternal.

(* traps.rs:134-164 exception_code_const *)
Definition exception_code_const (i : Interrupt) : Z :=
  match i with
  | SupervisorSoftware => 1
  | MachineSoftware => 3
  | SupervisorTimer => 5
  | MachineTimer => 7
  | SupervisorExternal => 9
  | MachineExternal => 11
  end.

(* traps.rs:142-146 SUPERVISOR_BIT_MASK *)
Definition SUPERVISOR_BIT_MASK : Z :=
  shl_u 64 1 (exception_code_const SupervisorSoftware)
  |: shl_u 64 1 (exception_code_const SupervisorTimer)
  |: shl_u 64 1 (exception_code_const SupervisorExternal).

(* traps.rs:148-151 MACHINE_BIT_MASK *)
Definition MACHINE_BIT_MASK : Z :=
  shl_u 64 1 (exception_code_const MachineSoftware)
  |: shl_u 64 1 (exception_code_const MachineTimer)
  |: shl_u 64 1 (exception_code_const MachineExternal).

(* traps.rs:166-170 TrapKind *)
Inductive TrapKind : Set := KInterrupt | KException.

(* traps.rs:172-191 TrapContext *)
Class TrapContext (TC : Type) := {
  xtval : TC -> Z;
  exception_code : TC -> Z;
  xcause : TC -> Z;
  trap_handler_address : TC -> Z -> Z;
  kind : TrapKind;
}.
Arguments kind TC {_}.

(* traps.rs:194-208 exception_code *)
Definition Exception_exception_code (e : Exception) : Z :=
  match e with
  | InstructionAccessFault _ => 1
  | IllegalInstruction => 2
  | Breakpoint => 3
  | LoadAccessFault _ => 5
  | StoreAMOAccessFault _ => 7
  | EnvCallFromUMode => 8
  | EnvCallFromSMode => 9
  | EnvCallFromMMode => 11
  | InstructionPageFault _ => 12
  | LoadPageFault _ => 13
  | StoreAMOPageFault _ => 15
  end.

(* traps.rs:214-228 xtval *)
Definition Exception_xtval (e : Exception) : Z :=
  match e with
  | IllegalInstruction | Breakpoint | EnvCallFromUMode | EnvCallFromSMode
  | EnvCallFromMMode => 0
  | InstructionAccessFault addr | LoadAccessFault addr | StoreAMOAccessFault addr
  | InstructionPageFault addr | LoadPageFault addr | StoreAMOPageFault addr => addr
  end.

(* traps.rs:193-239 TrapContext *)
#[export] Instance TrapContext_Exception : TrapContext Exception := {|
  xtval := Exception_xtval;
  exception_code := Exception_exception_code;
  xcause := Exception_exception_code;
  trap_handler_address _ xtvec_val := xtvec_val & not_u 64 3;
  kind := KException;
|}.

(* traps.rs:255-268 trap_handler_address *)
Definition Interrupt_trap_handler_address (i : Interrupt) (xtvec_val : Z) : Z :=
  let xtvec_mode := xtvec_val & 3 in
  let xtvec_base := xtvec_val & not_u 64 3 in
  let handler_offset := if xtvec_mode =? 1 then 4 * exception_code_const i else 0 in
  xtvec_base ⊞ handler_offset.

(* traps.rs:241-273 TrapContext *)
#[export] Instance TrapContext_Interrupt : TrapContext Interrupt := {|
  xtval _ := 0;
  exception_code := exception_code_const;
  xcause i := shl_u 64 1 (64 - 1) |: exception_code_const i;
  trap_handler_address := Interrupt_trap_handler_address;
  kind := KInterrupt;
|}.

(** ** What trap entry relies on

    Every trap source has a code below 16, a cause that distinguishes
    interrupts from exceptions by its top bit, and a handler address inside
    the vector table of [xtvec] when that table does not wrap around. *)
Class TrapContextLaws (TC : Type) `{TrapContext TC} : Prop := {
  exception_code_u4 : forall t : TC, is_u 4 (exception_code t);
  xcause_spec : forall t : TC,
    xcause t = exception_code t + match kind TC with KInterrupt => 2 ^ 63 | KException => 0 end;
  trap_handler_address_spec : forall (t : TC) xtvec,
    is_u 64 xtvec -> xtvec <= 2 ^ 64 - 64 ->
    trap_handler_address t xtvec =
      4 * (xtvec / 4) +
      match kind TC with
      | KInterrupt => if xtvec mod 4 =? 1 then 4 * exception_code t else 0
      | KException => 0
      end;
}.

Lemma xtvec_base v : is_u 64 v -> (v & not_u 64 3) = 4 * (v / 4).
Proof.
  intros. change 3 with (Z.ones 2). change 4 with (2 ^ 2). apply land_not_ones; [lia|done].
Qed.

Lemma land_3 v : (v & 3) = v mod 4.
Proof. change 3 with (Z.ones 2). by rewrite Z.land_ones by lia. Qed.

#[export] Instance TrapContextLaws_Exception : TrapContextLaws Exception.
Proof.
  split.
  - intros []; vm_compute; intuition congruence.
  - intros []; reflexivity.
  - intros t v ? _. simpl. rewrite xtvec_base by done. lia.
Qed.

#[export] Instance TrapContextLaws_Interrupt : TrapContextLaws Interrupt.
Proof.
  split.
  - intros []; vm_compute; intuition congruence.
  - intros []; reflexivity.
  - intros t v ? ?. simpl. unfold Interrupt_trap_handler_address.
    rewrite xtvec_base, land_3 by done. unfold wrapping_add. apply wrap_small.
    assert (0 <= exception_code_const t < 16) by (destruct t; simpl; lia).
    unfold is_u in *. pose proof (Z.mul_div_le v 4). pose proof (Z.div_pos v 4).
    destruct (v mod 4 =? 1); lia.
Qed.

Lemma EnvironException_try_from_spec e ee :
  EnvironException_try_from e = Some ee <-> as_exception ee = e.
Proof. destruct e, ee; simpl; split; congruence. Qed.
