(* ===== verification/Instruction.v ===== *)
(** Parsed instructions: [src/riscv/lib/src/parser/instruction.rs] (data and
    widths; the [Display] implementations are not modelled) and the rounding
    modes of [src/riscv/lib/src/interpreter/float.rs]. *)
From S2P Require Import Prelude Registers CSRegister Traps.

(* interpreter/float.rs:527-538 RoundingMode *)
Inductive RoundingMode : Set := RNE | RTZ | RDN | RUP | RMM.

#[export] Instance RoundingMode_eq_dec : EqDecision RoundingMode.
Proof. solve_decision. Defined.

(* interpreter/float.rs:540-551 from_csrrepr *)
Definition from_csrrepr (value : Z) : result RoundingMode Exception :=
  match value with
  | 0 => Ok RNE
  | 1 => Ok RTZ
  | 2 => Ok RDN
  | 3 => Ok RUP
  | 4 => Ok RMM
  | _ => Err IllegalInstruction
  end.

(* parser/instruction.rs:114-117 InstrRoundingMode *)
Inductive InstrRoundingMode : Set := Dynamic | Static (rm : RoundingMode).

#[export] Instance InstrRoundingMode_eq_dec : EqDecision InstrRoundingMode.
Proof. solve_decision. Defined.

(* parser/instruction.rs:121-130 from_rm *)
Definition from_rm (rm : Z) : option InstrRoundingMode :=
  if rm =? 7 then Some Dynamic
  else match from_csrrepr rm with
       | Ok rm => Some (Static rm)
       | Err _ => None
       end.

(* parser/instruction.rs:18-22 RTypeArgs *)
Record RTypeArgs : Set := { r_rd : XRegister; r_rs1 : XRegister; r_rs2 : XRegister }.
#[export] Instance RTypeArgs_eq_dec : EqDecision RTypeArgs.
Proof. solve_decision. Defined.

(* parser/instruction.rs:25-29 ITypeArgs *)
Record ITypeArgs : Set := { i_rd : XRegister; i_rs1 : XRegister; i_imm : Z }.
#[export] Instance ITypeArgs_eq_dec : EqDecision ITypeArgs.
Proof. solve_decision. Defined.

(* parser/instruction.rs:32-36 SBTypeArgs *)
Record SBTypeArgs : Set := { sb_rs1 : XRegister; sb_rs2 : XRegister; sb_imm : Z }.
#[export] Instance SBTypeArgs_eq_dec : EqDecision SBTypeArgs.
Proof. solve_decision. Defined.

(* parser/instruction.rs:39-42 UJTypeArgs *)
Record UJTypeArgs : Set := { uj_rd : XRegister; uj_imm : Z }.
#[export] Instance UJTypeArgs_eq_dec : EqDecision UJTypeArgs.
Proof. solve_decision. Defined.

(* parser/instruction.rs:45-49 CsrArgs *)
Record CsrArgs : Set := { cs_rd : XRegister; cs_rs1 : XRegister; cs_csr : CSR.CSRegister }.
#[export] Instance CsrArgs_eq_dec : EqDecision CsrArgs.
Proof. solve_decision. Defined.

(* parser/instruction.rs:52-56 CsriArgs *)
Record CsriArgs : Set := { csi_rd : XRegister; csi_imm : Z; csi_csr : CSR.CSRegister }.
#[export] Instance CsriArgs_eq_dec : EqDecision CsriArgs.
Proof. solve_decision. Defined.

(* parser/instruction.rs:59-64 FenceSet *)
Record FenceSet : Set := { fs_i : bool; fs_o : bool; fs_r : bool; fs_w : bool }.
#[export] Instance FenceSet_eq_dec : EqDecision FenceSet.
Proof. solve_decision. Defined.

(* parser/instruction.rs:67-70 FenceArgs *)
Record FenceArgs : Set := { fa_pred : FenceSet; fa_succ : FenceSet }.
#[export] Instance FenceArgs_eq_dec : EqDecision FenceArgs.
Proof. solve_decision. Defined.

(* parser/instruction.rs:73-76 FRegToXRegArgs *)
Record FRegToXRegArgs : Set := { fx_rd : XRegister; fx_rs1 : FRegister }.
#[export] Instance FRegToXRegArgs_eq_dec : EqDecision FRegToXRegArgs.
Proof. solve_decision. Defined.

(* parser/instruction.rs:79-82 XRegToFRegArgs *)
Record XRegToFRegArgs : Set := { xf_rd : FRegister; xf_rs1 : XRegister }.
#[export] Instance XRegToFRegArgs_eq_dec : EqDecision XRegToFRegArgs.
Proof. solve_decision. Defined.

(* parser/instruction.rs:85-89 XRegToFRegArgsWithRounding *)
Record XRegToFRegArgsWithRounding : Set := { xfr_rd : FRegister; xfr_rs1 : XRegister; xfr_rm : InstrRoundingMode }.
#[export] Instance XRegToFRegArgsWithRounding_eq_dec : EqDecision XRegToFRegArgsWithRounding.
Proof. solve_decision. Defined.

(* parser/instruction.rs:92-96 FRegToXRegArgsWithRounding *)
Record FRegToXRegArgsWithRounding : Set := { fxr_rd : XRegister; fxr_rs1 : FRegister; fxr_rm : InstrRoundingMode }.
#[export] Instance FRegToXRegArgsWithRounding_eq_dec : EqDecision FRegToXRegArgsWithRounding.
Proof. solve_decision. Defined.

(* parser/instruction.rs:99-103 FCmpArgs *)
Record FCmpArgs : Set := { fc_rs1 : FRegister; fc_rs2 : FRegister; fc_rd : XRegister }.
#[export] Instance FCmpArgs_eq_dec : EqDecision FCmpArgs.
Proof. solve_decision. Defined.

(* parser/instruction.rs:106-110 FRArgs *)
Record FRArgs : Set := { fr_rs1 : FRegister; fr_rs2 : FRegister; fr_rd : FRegister }.
#[export] Instance FRArgs_eq_dec : EqDecision FRArgs.
Proof. solve_decision. Defined.

(* parser/instruction.rs:136-140 FR1ArgWithRounding *)
Record FR1ArgWithRounding : Set := { fr1_rs1 : FRegister; fr1_rm : InstrRoundingMode; fr1_rd : FRegister }.
#[export] Instance FR1ArgWithRounding_eq_dec : EqDecision FR1ArgWithRounding.
Proof. solve_decision. Defined.

(* parser/instruction.rs:145-150 FR2ArgsWithRounding *)
Record FR2ArgsWithRounding : Set := { fr2_rs1 : FRegister; fr2_rs2 : FRegister; fr2_rm : InstrRoundingMode; fr2_rd : FRegister }.
#[export] Instance FR2ArgsWithRounding_eq_dec : EqDecision FR2ArgsWithRounding.
Proof. solve_decision. Defined.

(* parser/instruction.rs:155-161 FR3ArgsWithRounding *)
Record FR3ArgsWithRounding : Set := { fr3_rs1 : FRegister; fr3_rs2 : FRegister; fr3_rs3 : FRegister; fr3_rm : InstrRoundingMode; fr3_rd : FRegister }.
#[export] Instance FR3ArgsWithRounding_eq_dec : EqDecision FR3ArgsWithRounding.
Proof. solve_decision. Defined.

(* parser/instruction.rs:164-168 FStoreArgs *)
Record FStoreArgs : Set := { fst_rs1 : XRegister; fst_rs2 : FRegister; fst_imm : Z }.
#[export] Instance FStoreArgs_eq_dec : EqDecision FStoreArgs.
Proof. solve_decision. Defined.

(* parser/instruction.rs:171-175 FLoadArgs *)
Record FLoadArgs : Set := { fld_rs1 : XRegister; fld_rd : FRegister; fld_imm : Z }.
#[export] Instance FLoadArgs_eq_dec : EqDecision FLoadArgs.
Proof. solve_decision. Defined.

(* parser/instruction.rs:180-186 AmoArgs *)
Record AmoArgs : Set := { amo_rd : XRegister; amo_rs1 : XRegister; amo_rs2 : XRegister; amo_aq : bool; amo_rl : bool }.
#[export] Instance AmoArgs_eq_dec : EqDecision AmoArgs.
Proof. solve_decision. Defined.

(* parser/instruction.rs:191-194 CRTypeArgs *)
Record CRTypeArgs : Set := { cr_rd_rs1 : XRegister; cr_rs2 : XRegister }.
#[export] Instance CRTypeArgs_eq_dec : EqDecision CRTypeArgs.
Proof. solve_decision. Defined.

(* parser/instruction.rs:197-199 CRJTypeArgs *)
Record CRJTypeArgs : Set := { crj_rs1 : XRegister }.
#[export] Instance CRJTypeArgs_eq_dec : EqDecision CRJTypeArgs.
Proof. solve_decision. Defined.

(* parser/instruction.rs:202-204 CJTypeArgs *)
Record CJTypeArgs : Set := { cj_imm : Z }.
#[export] Instance CJTypeArgs_eq_dec : EqDecision CJTypeArgs.
Proof. solve_decision. Defined.

(* parser/instruction.rs:207-210 CIBTypeArgs *)
Record CIBTypeArgs : Set := { cib_rd_rs1 : XRegister; cib_imm : Z }.
#[export] Instance CIBTypeArgs_eq_dec : EqDecision CIBTypeArgs.
Proof. solve_decision. Defined.

(* parser/instruction.rs:213-216 CIBDTypeArgs *)
Record CIBDTypeArgs : Set := { cibd_rd_rs1 : FRegister; cibd_imm : Z }.
#[export] Instance CIBDTypeArgs_eq_dec : EqDecision CIBDTypeArgs.
Proof. solve_decision. Defined.

(* parser/instruction.rs:219-222 CSSTypeArgs *)
Record CSSTypeArgs : Set := { css_rs2 : XRegister; css_imm : Z }.
#[export] Instance CSSTypeArgs_eq_dec : EqDecision CSSTypeArgs.
Proof. solve_decision. Defined.

(* parser/instruction.rs:225-228 CSSDTypeArgs *)
Record CSSDTypeArgs : Set := { cssd_rs2 : FRegister; cssd_imm : Z }.
#[export] Instance CSSDTypeArgs_eq_dec : EqDecision CSSDTypeArgs.
Proof. solve_decision. Defined.

(* parser/instruction.rs:236-455 InstrCacheable *)
Inductive InstrCacheable : Set :=
  | Add (args : RTypeArgs) | Sub (args : RTypeArgs) | Xor (args : RTypeArgs)
  | Or (args : RTypeArgs) | And (args : RTypeArgs) | Sll (args : RTypeArgs)
  | Srl (args : RTypeArgs) | Sra (args : RTypeArgs) | Slt (args : RTypeArgs)
  | Sltu (args : RTypeArgs) | Addw (args : RTypeArgs) | Subw (args : RTypeArgs)
  | Sllw (args : RTypeArgs) | Srlw (args : RTypeArgs) | Sraw (args : RTypeArgs)
  | Addi (args : ITypeArgs) | Addiw (args : ITypeArgs) | Xori (args : ITypeArgs)
  | Ori (args : ITypeArgs) | Andi (args : ITypeArgs) | Slli (args : ITypeArgs)
  | Srli (args : ITypeArgs) | Srai (args : ITypeArgs) | Slliw (args : ITypeArgs)
  | Srliw (args : ITypeArgs) | Sraiw (args : ITypeArgs) | Slti (args : ITypeArgs)
  | Sltiu (args : ITypeArgs) | Lb (args : ITypeArgs) | Lh (args : ITypeArgs)
  | Lw (args : ITypeArgs) | Lbu (args : ITypeArgs) | Lhu (args : ITypeArgs)
  | Lwu (args : ITypeArgs) | Ld (args : ITypeArgs) | Sb (args : SBTypeArgs)
  | Sh (args : SBTypeArgs) | Sw (args : SBTypeArgs) | Sd (args : SBTypeArgs)
  | Beq (args : SBTypeArgs) | Bne (args : SBTypeArgs) | Blt (args : SBTypeArgs)
  | Bge (args : SBTypeArgs) | Bltu (args : SBTypeArgs) | Bgeu (args : SBTypeArgs)
  | Lui (args : UJTypeArgs) | Auipc (args : UJTypeArgs) | Jal (args : UJTypeArgs)
  | Jalr (args : ITypeArgs) | Lrw (args : AmoArgs) | Scw (args : AmoArgs)
  | Amoswapw (args : AmoArgs) | Amoaddw (args : AmoArgs) | Amoxorw (args : AmoArgs)
  | Amoandw (args : AmoArgs) | Amoorw (args : AmoArgs) | Amominw (args : AmoArgs)
  | Amomaxw (args : AmoArgs) | Amominuw (args : AmoArgs) | Amomaxuw (args : AmoArgs)
  | Lrd (args : AmoArgs) | Scd (args : AmoArgs) | Amoswapd (args : AmoArgs)
  | Amoaddd (args : AmoArgs) | Amoxord (args : AmoArgs) | Amoandd (args : AmoArgs)
  | Amoord (args : AmoArgs) | Amomind (args : AmoArgs) | Amomaxd (args : AmoArgs)
  | Amominud (args : AmoArgs) | Amomaxud (args : AmoArgs) | Rem (args : RTypeArgs)
  | Remu (args : RTypeArgs) | Remw (args : RTypeArgs) | Remuw (args : RTypeArgs)
  | Div (args : RTypeArgs) | Divu (args : RTypeArgs) | Divw (args : RTypeArgs)
  | Divuw (args : RTypeArgs) | Mul (args : RTypeArgs) | Mulh (args : RTypeArgs)
  | Mulhsu (args : RTypeArgs) | Mulhu (args : RTypeArgs) | Mulw (args : RTypeArgs)
  | FclassS (args : FRegToXRegArgs) | Feqs (args : FCmpArgs) | Fles (args : FCmpArgs)
  | Flts (args : FCmpArgs) | Fadds (args : FR2ArgsWithRounding)
  | Fsubs (args : FR2ArgsWithRounding) | Fmuls (args : FR2ArgsWithRounding)
  | Fdivs (args : FR2ArgsWithRounding) | Fsqrts (args : FR1ArgWithRounding)
  | Fmins (args : FRArgs) | Fmaxs (args : FRArgs) | Fmadds (args : FR3ArgsWithRounding)
  | Fmsubs (args : FR3ArgsWithRounding) | Fnmsubs (args : FR3ArgsWithRounding)
  | Fnmadds (args : FR3ArgsWithRounding) | Flw (args : FLoadArgs) | Fsw (args : FStoreArgs)
  | Fcvtsw (args : XRegToFRegArgsWithRounding) | Fcvtswu (args : XRegToFRegArgsWithRounding)
  | Fcvtsl (args : XRegToFRegArgsWithRounding) | Fcvtslu (args : XRegToFRegArgsWithRounding)
  | Fcvtws (args : FRegToXRegArgsWithRounding) | Fcvtwus (args : FRegToXRegArgsWithRounding)
  | Fcvtls (args : FRegToXRegArgsWithRounding) | Fcvtlus (args : FRegToXRegArgsWithRounding)
  | Fsgnjs (args : FRArgs) | Fsgnjns (args : FRArgs) | Fsgnjxs (args : FRArgs)
  | FmvXW (args : FRegToXRegArgs) | FmvWX (args : XRegToFRegArgs)
  | FclassD (args : FRegToXRegArgs) | Feqd (args : FCmpArgs) | Fled (args : FCmpArgs)
  | Fltd (args : FCmpArgs) | Faddd (args : FR2ArgsWithRounding)
  | Fsubd (args : FR2ArgsWithRounding) | Fmuld (args : FR2ArgsWithRounding)
  | Fdivd (args : FR2ArgsWithRounding) | Fsqrtd (args : FR1ArgWithRounding)
  | Fmind (args : FRArgs) | Fmaxd (args : FRArgs) | Fmaddd (args : FR3ArgsWithRounding)
  | Fmsubd (args : FR3ArgsWithRounding) | Fnmsubd (args : FR3ArgsWithRounding)
  | Fnmaddd (args : FR3ArgsWithRounding) | Fld (args : FLoadArgs) | Fsd (args : FStoreArgs)
  | Fcvtdw (args : XRegToFRegArgsWithRounding) | Fcvtdwu (args : XRegToFRegArgsWithRounding)
  | Fcvtdl (args : XRegToFRegArgsWithRounding) | Fcvtdlu (args : XRegToFRegArgsWithRounding)
  | Fcvtds (args : FR1ArgWithRounding) | Fcvtsd (args : FR1ArgWithRounding)
  | Fcvtwd (args : FRegToXRegArgsWithRounding) | Fcvtwud (args : FRegToXRegArgsWithRounding)
  | Fcvtld (args : FRegToXRegArgsWithRounding) | Fcvtlud (args : FRegToXRegArgsWithRounding)
  | Fsgnjd (args : FRArgs) | Fsgnjnd (args : FRArgs) | Fsgnjxd (args : FRArgs)
  | FmvXD (args : FRegToXRegArgs) | FmvDX (args : XRegToFRegArgs) | Csrrw (args : CsrArgs)
  | Csrrs (args : CsrArgs) | Csrrc (args : CsrArgs) | Csrrwi (args : CsriArgs)
  | Csrrsi (args : CsriArgs) | Csrrci (args : CsriArgs) | CLw (args : ITypeArgs)
  | CLwsp (args : CIBTypeArgs) | CSw (args : SBTypeArgs) | CSwsp (args : CSSTypeArgs)
  | CJ (args : CJTypeArgs) | CJr (args : CRJTypeArgs) | CJalr (args : CRJTypeArgs)
  | CBeqz (args : CIBTypeArgs) | CBnez (args : CIBTypeArgs) | CLi (args : CIBTypeArgs)
  | CLui (args : CIBTypeArgs) | CAddi (args : CIBTypeArgs) | CAddi16sp (args : CJTypeArgs)
  | CAddi4spn (args : CIBTypeArgs) | CSlli (args : CIBTypeArgs) | CSrli (args : CIBTypeArgs)
  | CSrai (args : CIBTypeArgs) | CAndi (args : CIBTypeArgs) | CMv (args : CRTypeArgs)
  | CAdd (args : CRTypeArgs) | CAnd (args : CRTypeArgs) | COr (args : CRTypeArgs)
  | CXor (args : CRTypeArgs) | CSub (args : CRTypeArgs) | CAddw (args : CRTypeArgs)
  | CSubw (args : CRTypeArgs) | CNop | CLd (args : ITypeArgs) | CLdsp (args : CIBTypeArgs)
  | CSd (args : SBTypeArgs) | CSdsp (args : CSSTypeArgs) | CAddiw (args : CIBTypeArgs)
  | CFld (args : FLoadArgs) | CFldsp (args : CIBDTypeArgs) | CFsd (args : FStoreArgs)
  | CFsdsp (args : CSSDTypeArgs) | Unknown (instr : Z) | UnknownCompressed (instr : Z).

(* parser/instruction.rs:473-494 InstrUncacheable *)
Inductive InstrUncacheable : Set :=
  | Fence (args : FenceArgs) | FenceTso (args : FenceArgs) | Ecall | Ebreak | CEbreak | FenceI
  | Mret | Sret | Mnret | Wfi | SFenceVma (asid : XRegister) (vaddr : XRegister).

(* parser/instruction.rs:505-508 Instr *)
Inductive Instr : Set :=
| Cacheable (c : InstrCacheable)
| Uncacheable (u : InstrUncacheable).

(* parser/instruction.rs:516-519 InstrWidth *)
Inductive InstrWidth : Set := Compressed | Uncompressed.

(* parser/instruction.rs:516-519 InstrWidth *)
Definition InstrWidth_repr (w : InstrWidth) : Z :=
  match w with Compressed => 2 | Uncompressed => 4 end.

(* parser/instruction.rs:524-721 InstrCacheable::width *)
Definition InstrCacheable_width (i : InstrCacheable) : InstrWidth :=
  match i with
  | Add _ | Sub _ | Xor _ | Or _ | And _ | Sll _ | Srl _ | Sra _ | Slt _ | Sltu _ | Addw _
  | Subw _ | Sllw _ | Srlw _ | Sraw _ | Addi _ | Addiw _ | Xori _ | Ori _ | Andi _ | Slli _
  | Srli _ | Srai _ | Slliw _ | Srliw _ | Sraiw _ | Slti _ | Sltiu _ | Lb _ | Lh _ | Lw _ | Lbu _
  | Lhu _ | Lwu _ | Ld _ | Sb _ | Sh _ | Sw _ | Sd _ | Beq _ | Bne _ | Blt _ | Bge _ | Bltu _
  | Bgeu _ | Lui _ | Auipc _ | Jal _ | Jalr _ | Lrw _ | Scw _ | Amoswapw _ | Amoaddw _
  | Amoxorw _ | Amoandw _ | Amoorw _ | Amominw _ | Amomaxw _ | Amominuw _ | Amomaxuw _ | Lrd _
  | Scd _ | Amoswapd _ | Amoaddd _ | Amoxord _ | Amoandd _ | Amoord _ | Amomind _ | Amomaxd _
  | Amominud _ | Amomaxud _ | Rem _ | Remu _ | Remw _ | Remuw _ | Div _ | Divu _ | Divw _
  | Divuw _ | Mul _ | Mulh _ | Mulhsu _ | Mulhu _ | Mulw _ | FmvXW _ | FmvWX _ | Fcvtsw _
  | Fcvtswu _ | Fcvtsl _ | Fcvtslu _ | Fcvtws _ | Fcvtwus _ | Fcvtls _ | Fcvtlus _ | Fsgnjs _
  | Fsgnjns _ | Fsgnjxs _ | FclassS _ | Feqs _ | Fles _ | Flts _ | Fadds _ | Fsubs _ | Fmuls _
  | Fdivs _ | Fsqrts _ | Fmins _ | Fmaxs _ | Fmadds _ | Fmsubs _ | Fnmsubs _ | Fnmadds _ | Flw _
  | Fsw _ | FmvXD _ | FmvDX _ | Fcvtdw _ | Fcvtdwu _ | Fcvtdl _ | Fcvtdlu _ | Fcvtds _ | Fcvtsd _
  | Fcvtwd _ | Fcvtwud _ | Fcvtld _ | Fcvtlud _ | Fsgnjd _ | Fsgnjnd _ | Fsgnjxd _ | FclassD _
  | Feqd _ | Fled _ | Fltd _ | Faddd _ | Fsubd _ | Fmuld _ | Fdivd _ | Fsqrtd _ | Fmind _
  | Fmaxd _ | Fmaddd _ | Fmsubd _ | Fnmsubd _ | Fnmaddd _ | Fld _ | Fsd _ | Csrrw _ | Csrrs _
  | Csrrc _ | Csrrwi _ | Csrrsi _ | Csrrci _ | Unknown _ => Uncompressed
  | CLw _ | CLwsp _ | CSw _ | CSwsp _ | CJ _ | CJr _ | CJalr _ | CBeqz _ | CBnez _ | CLi _
  | CLui _ | CAddi _ | CAddi16sp _ | CAddi4spn _ | CSlli _ | CSrli _ | CSrai _ | CAndi _ | CMv _
  | CAdd _ | CAnd _ | COr _ | CXor _ | CSub _ | CAddw _ | CSubw _ | CNop | CLd _ | CLdsp _
  | CSd _ | CSdsp _ | CAddiw _ | CFld _ | CFldsp _ | CFsd _ | CFsdsp _ | UnknownCompressed _ => Compressed
  end.

(* parser/instruction.rs:727-743 InstrUncacheable::width *)
Definition InstrUncacheable_width (i : InstrUncacheable) : InstrWidth :=
  match i with
  | FenceI | Fence _ | FenceTso _ | Ecall | Ebreak | Mret | Sret | Mnret | Wfi
  | SFenceVma _ _ => Uncompressed
  | CEbreak => Compressed
  end.

(* parser/instruction.rs:749-755 Instr::width *)
Definition Instr_width (i : Instr) : InstrWidth :=
  match i with
  | Cacheable c => InstrCacheable_width c
  | Uncacheable u => InstrUncacheable_width u
  end.

(* parser/instruction.rs:457-459 ConstDefault *)
Definition InstrCacheable_default : InstrCacheable := Unknown 0.
