(* ===== verification/Parser.v ===== *)
(** The instruction decoder: [src/riscv/lib/src/parser.rs].

    [u5] and [u3] are types of the [arbitrary_int] crate; the operations of
    that crate the decoder uses are the class [ArbitraryInt], with the
    documented behaviour as [ArbitraryIntLaws].  Each arm of the two decoding
    functions is a definition of its own. *)
From S2P Require Import Prelude Bits Registers CSRegister Instruction.

(** [u5::extract_u32], [u5::extract_u16], [u3::extract_u16] and
    [u5::wrapping_add]; a [u5] is a [Z] below 32. *)
Class ArbitraryInt := {
  u5_extract_u32 : Z -> Z -> Z;
  u5_extract_u16 : Z -> Z -> Z;
  u3_extract_u16 : Z -> Z -> Z;
  u5_wrapping_add : Z -> Z -> Z;
}.

Class ArbitraryIntLaws (AI : ArbitraryInt) : Prop := {
  u5_extract_u32_spec v s : is_u 32 v -> 0 <= s <= 27 -> u5_extract_u32 v s = (v / 2 ^ s) mod 32;
  u5_extract_u16_spec v s : is_u 16 v -> 0 <= s <= 11 -> u5_extract_u16 v s = (v / 2 ^ s) mod 32;
  u3_extract_u16_spec v s : is_u 16 v -> 0 <= s <= 13 -> u3_extract_u16 v s = (v / 2 ^ s) mod 8;
  u5_wrapping_add_spec a b : is_u 5 a -> is_u 5 b -> u5_wrapping_add a b = (a + b) mod 32;
}.

(** Encodings: opcodes and function fields. *)
Abbreviation OP_ARITH := 0x33%Z.
Abbreviation OP_ARITH_W := 0x3b%Z.
Abbreviation OP_ARITH_I := 0x13%Z.
Abbreviation OP_LOAD := 0x3%Z.
Abbreviation OP_ARITH_IW := 0x1b%Z.
Abbreviation OP_SYNCH := 0xf%Z.
Abbreviation OP_SYS := 0x73%Z.
Abbreviation OP_STORE := 0x23%Z.
Abbreviation OP_BRANCH := 0x63%Z.
Abbreviation OP_LUI := 0x37%Z.
Abbreviation OP_AUIPC := 0x17%Z.
Abbreviation OP_JAL := 0x6f%Z.
Abbreviation OP_JALR := 0x67%Z.
Abbreviation OP_FP := 0x53%Z.
Abbreviation OP_FP_LOAD := 0x7%Z.
Abbreviation OP_FMADD := 0x43%Z.
Abbreviation OP_FMSUB := 0x47%Z.
Abbreviation OP_FNMSUB := 0x4b%Z.
Abbreviation OP_FNMADD := 0x4f%Z.
Abbreviation OP_FP_STORE := 0x27%Z.
Abbreviation OP_AMO := 0x2f%Z.
Abbreviation F3_0 := 0x0%Z.
Abbreviation F3_1 := 0x1%Z.
Abbreviation F3_2 := 0x2%Z.
Abbreviation F3_3 := 0x3%Z.
Abbreviation F3_4 := 0x4%Z.
Abbreviation F3_5 := 0x5%Z.
Abbreviation F3_6 := 0x6%Z.
Abbreviation F3_7 := 0x7%Z.
Abbreviation F5_0 := 0x0%Z.
Abbreviation F5_1 := 0x1%Z.
Abbreviation F5_2 := 0x2%Z.
Abbreviation F5_3 := 0x3%Z.
Abbreviation F5_4 := 0x4%Z.
Abbreviation F5_5 := 0x5%Z.
Abbreviation F5_8 := 0x8%Z.
Abbreviation F5_11 := 0xb%Z.
Abbreviation F5_12 := 0xc%Z.
Abbreviation F5_16 := 0x10%Z.
Abbreviation F5_20 := 0x14%Z.
Abbreviation F5_24 := 0x18%Z.
Abbreviation F5_26 := 0x1a%Z.
Abbreviation F5_28 := 0x1c%Z.
Abbreviation F5_30 := 0x1e%Z.
Abbreviation F7_0 := 0x0%Z.
Abbreviation F7_1 := 0x1%Z.
Abbreviation F7_9 := 0x9%Z.
Abbreviation F7_8 := 0x8%Z.
Abbreviation F7_20 := 0x20%Z.
Abbreviation F7_24 := 0x18%Z.
Abbreviation F7_56 := 0x38%Z.
Abbreviation FMT_S := 0x0%Z.
Abbreviation FMT_D := 0x1%Z.
Abbreviation WIDTH_W := 0x2%Z.
Abbreviation WIDTH_D := 0x3%Z.
Abbreviation RM_0 := 0x0%Z.
Abbreviation RM_1 := 0x1%Z.
Abbreviation RM_2 := 0x2%Z.
Abbreviation RM_EQ := 0x2%Z.
Abbreviation RM_LT := 0x1%Z.
Abbreviation RM_LE := 0x0%Z.
Abbreviation RM_MIN := 0x0%Z.
Abbreviation RM_MAX := 0x1%Z.
Abbreviation RS1_0 := 0x0%Z.
Abbreviation RS2_0 := 0x0%Z.
Abbreviation RS2_1 := 0x1%Z.
Abbreviation RS2_2 := 0x2%Z.
Abbreviation RS2_5 := 0x5%Z.
Abbreviation RS2_0_U5 := 0x0%Z.
Abbreviation RS2_1_U5 := 0x1%Z.
Abbreviation RS2_2_U5 := 0x2%Z.
Abbreviation RS2_3_U5 := 0x3%Z.
Abbreviation FM_0 := 0x0%Z.
Abbreviation FM_8 := 0x8%Z.
Abbreviation OP_C0 := 0x0%Z.
Abbreviation OP_C1 := 0x1%Z.
Abbreviation OP_C2 := 0x2%Z.
Abbreviation C_F3_0 := 0x0%Z.
Abbreviation C_F3_1 := 0x1%Z.
Abbreviation C_F3_2 := 0x2%Z.
Abbreviation C_F3_3 := 0x3%Z.
Abbreviation C_F3_4 := 0x4%Z.
Abbreviation C_F3_5 := 0x5%Z.
Abbreviation C_F3_6 := 0x6%Z.
Abbreviation C_F3_7 := 0x7%Z.
Abbreviation C_Q1_0 := 0x0%Z.
Abbreviation C_Q1_1 := 0x1%Z.
Abbreviation C_Q1_2 := 0x2%Z.
Abbreviation C_Q1_3 := 0x3%Z.

Section Decoder.
Context {AI : ArbitraryInt}.

(* parser.rs:22-24 bits *)
Definition bits32 (bytes pos n : Z) : Z :=
  shr_u 32 bytes pos & shr_u 32 (2 ^ 32 - 1) (32 - n).

(* parser.rs:27-29 bit *)
Definition bit32 (bytes pos : Z) : bool :=
  negb ((bytes & shl_u 32 1 pos) =? 0).

(* parser.rs:32-34 opcode *)
Definition opcode (instr : Z) : Z :=
  bits32 instr 0 7.

(* parser.rs:37-39 funct3 *)
Definition funct3 (instr : Z) : Z :=
  bits32 instr 12 3.

(* parser.rs:42-44 funct5 *)
Definition funct5 (instr : Z) : Z :=
  bits32 instr 27 5.

(* parser.rs:47-49 funct7 *)
Definition funct7 (instr : Z) : Z :=
  bits32 instr 25 7.

(* parser.rs:52-54 rd *)
Definition rd (instr : Z) : XRegister :=
  parse_xregister (u5_extract_u32 instr 7).

(* parser.rs:57-59 rd_f *)
Definition rd_f (instr : Z) : FRegister :=
  parse_fregister (u5_extract_u32 instr 7).

(* parser.rs:62-64 rs1_bits *)
Definition rs1_bits (instr : Z) : Z :=
  bits32 instr 15 5.

(* parser.rs:67-69 rs1_bits_u5 *)
Definition rs1_bits_u5 (instr : Z) : Z :=
  u5_extract_u32 instr 15.

(* parser.rs:72-74 rs1 *)
Definition rs1 (instr : Z) : XRegister :=
  parse_xregister (rs1_bits_u5 instr).

(* parser.rs:77-79 rs1_f *)
Definition rs1_f (instr : Z) : FRegister :=
  parse_fregister (rs1_bits_u5 instr).

(* parser.rs:82-84 rs2_bits *)
Definition rs2_bits (instr : Z) : Z :=
  bits32 instr 20 5.

(* parser.rs:87-89 rs2_bits_u5 *)
Definition rs2_bits_u5 (instr : Z) : Z :=
  u5_extract_u32 instr 20.

(* parser.rs:92-94 rs2 *)
Definition rs2 (instr : Z) : XRegister :=
  parse_xregister (rs2_bits_u5 instr).

(* parser.rs:97-99 rs2_f *)
Definition rs2_f (instr : Z) : FRegister :=
  parse_fregister (rs2_bits_u5 instr).

(* parser.rs:102-104 rs3_f *)
Definition rs3_f (instr : Z) : FRegister :=
  parse_fregister (u5_extract_u32 instr 27).

(* parser.rs:107-109 imm_11_6 *)
Definition imm_11_6 (instr : Z) : Z :=
  shl_u 32 (bits32 instr 26 6) 1.

(* parser.rs:112-114 fm *)
Definition fm (instr : Z) : Z :=
  bits32 instr 28 4.

(* parser.rs:118-120 fmt *)
Definition fmt (instr : Z) : Z :=
  bits32 instr 25 2.

(* parser.rs:124-126 width *)
Definition fwidth (instr : Z) : Z :=
  bits32 instr 12 3.

(* parser.rs:128-130 csr *)
Definition instr_csr (instr : Z) : option CSR.CSRegister :=
  try_parse (bits32 instr 20 12).

(* parser.rs:138-141 i_imm *)
Definition instr_i_imm (instr : Z) : Z :=
  sshr 32 (as_i32 (instr & 0xfff00000)) 20.

(* parser.rs:143-148 s_imm *)
Definition s_imm (instr : Z) : Z :=
  let instr_31_25 := as_i32 (instr & 0xfe000000) in
  let instr_11_7 := as_i32 (instr & 0xf80) in
  sshr 32 instr_31_25 20 |: sshr 32 instr_11_7 7.

(* parser.rs:150-157 b_imm *)
Definition b_imm (instr : Z) : Z :=
  let instr_31 := as_i32 (instr & 0x80000000) in
  let instr_7 := as_i32 (instr & 0x80) in
  let instr_30_25 := as_i32 (instr & 0x7e000000) in
  let instr_11_8 := as_i32 (instr & 0xf00) in
  sshr 32 instr_31 19 |: sshl 32 instr_7 4 |: sshr 32 instr_30_25 20 |: sshr 32 instr_11_8 7.

(* parser.rs:159-162 u_imm *)
Definition u_imm (instr : Z) : Z := as_i32 (instr & 0xfffff000).

(* parser.rs:164-171 j_imm *)
Definition j_imm (instr : Z) : Z :=
  let instr_31 := as_i32 (instr & 0x80000000) in
  let instr_19_12 := as_i32 (instr & 0xff000) in
  let instr_20 := as_i32 (instr & 0x100000) in
  let instr_30_21 := as_i32 (instr & 0x7fe00000) in
  sshr 32 instr_31 11 |: instr_19_12 |: sshr 32 instr_20 9 |: sshr 32 instr_30_21 20.

(* parser.rs:173-181 r_instr *)
Definition r_instr (c : RTypeArgs -> InstrCacheable) (instr : Z) : InstrCacheable :=
  c {| r_rd := rd instr; r_rs1 := rs1 instr; r_rs2 := rs2 instr |}.

(* parser.rs:183-191 i_instr *)
Definition i_instr (c : ITypeArgs -> InstrCacheable) (instr : Z) : InstrCacheable :=
  c {| i_rd := rd instr; i_rs1 := rs1 instr; i_imm := instr_i_imm instr |}.

(* parser.rs:193-201 s_instr *)
Definition s_instr (c : SBTypeArgs -> InstrCacheable) (instr : Z) : InstrCacheable :=
  c {| sb_rs1 := rs1 instr; sb_rs2 := rs2 instr; sb_imm := s_imm instr |}.

(* parser.rs:203-211 b_instr *)
Definition b_instr (c : SBTypeArgs -> InstrCacheable) (instr : Z) : InstrCacheable :=
  c {| sb_rs1 := rs1 instr; sb_rs2 := rs2 instr; sb_imm := b_imm instr |}.

(* parser.rs:213-220 u_instr *)
Definition u_instr (c : UJTypeArgs -> InstrCacheable) (instr : Z) : InstrCacheable :=
  c {| uj_rd := rd instr; uj_imm := u_imm instr |}.

(* parser.rs:222-229 j_instr *)
Definition j_instr (c : UJTypeArgs -> InstrCacheable) (instr : Z) : InstrCacheable :=
  c {| uj_rd := rd instr; uj_imm := j_imm instr |}.

(* parser.rs:231-239 fl_instr *)
Definition fl_instr (c : FLoadArgs -> InstrCacheable) (instr : Z) : InstrCacheable :=
  c {| fld_rd := rd_f instr; fld_rs1 := rs1 instr; fld_imm := instr_i_imm instr |}.

(* parser.rs:241-249 fs_instr *)
Definition fs_instr (c : FStoreArgs -> InstrCacheable) (instr : Z) : InstrCacheable :=
  c {| fst_rs1 := rs1 instr; fst_rs2 := rs2_f instr; fst_imm := s_imm instr |}.

(* parser.rs:251-259 f_cmp_instr *)
Definition f_cmp_instr (c : FCmpArgs -> InstrCacheable) (instr rs2_bits : Z) : InstrCacheable :=
  c {| fc_rd := rd instr; fc_rs1 := rs1_f instr; fc_rs2 := parse_fregister rs2_bits |}.

(* parser.rs:261-269 f_r_instr *)
Definition f_r_instr (c : FRArgs -> InstrCacheable) (instr rs2_bits : Z) : InstrCacheable :=
  c {| fr_rd := rd_f instr; fr_rs1 := rs1_f instr; fr_rs2 := parse_fregister rs2_bits |}.

(* parser.rs:271-283 f_r_rm_1_instr *)
Definition f_r_rm_1_instr (c : FR1ArgWithRounding -> InstrCacheable) (instr rm : Z) : InstrCacheable :=
  match from_rm rm with
  | Some rounding => c {| fr1_rd := rd_f instr; fr1_rs1 := rs1_f instr; fr1_rm := rounding |}
  | None => Unknown instr
  end.

(* parser.rs:285-297 f_r_fmt_int_instr *)
Definition f_r_fmt_int_instr (c : XRegToFRegArgsWithRounding -> InstrCacheable) (instr rm : Z) : InstrCacheable :=
  match from_rm rm with
  | Some rounding => c {| xfr_rd := rd_f instr; xfr_rs1 := rs1 instr; xfr_rm := rounding |}
  | None => Unknown instr
  end.

(* parser.rs:299-311 f_r_int_fmt_instr *)
Definition f_r_int_fmt_instr (c : FRegToXRegArgsWithRounding -> InstrCacheable) (instr rm : Z) : InstrCacheable :=
  match from_rm rm with
  | Some rounding => c {| fxr_rd := rd instr; fxr_rs1 := rs1_f instr; fxr_rm := rounding |}
  | None => Unknown instr
  end.

(* parser.rs:313-326 f_r_rm_2_instr *)
Definition f_r_rm_2_instr (c : FR2ArgsWithRounding -> InstrCacheable) (instr rs2_bits rm : Z) : InstrCacheable :=
  match from_rm rm with
  | Some rounding => c {| fr2_rd := rd_f instr; fr2_rs1 := rs1_f instr;
                         fr2_rs2 := parse_fregister rs2_bits; fr2_rm := rounding |}
  | None => Unknown instr
  end.

(* parser.rs:328-342 f_r_rm_3_instr *)
Definition f_r_rm_3_instr (c : FR3ArgsWithRounding -> InstrCacheable) (instr : Z) : InstrCacheable :=
  match from_rm (funct3 instr) with
  | Some rounding => c {| fr3_rd := rd_f instr; fr3_rs1 := rs1_f instr; fr3_rs2 := rs2_f instr;
                         fr3_rs3 := rs3_f instr; fr3_rm := rounding |}
  | None => Unknown instr
  end.

(* parser.rs:344-361 fence_instr *)
Definition fence_instr (c : FenceArgs -> InstrUncacheable) (instr : Z) : InstrUncacheable :=
  c {| fa_pred := {| fs_i := bit32 instr 27; fs_o := bit32 instr 26;
                     fs_r := bit32 instr 25; fs_w := bit32 instr 24 |};
       fa_succ := {| fs_i := bit32 instr 23; fs_o := bit32 instr 22;
                     fs_r := bit32 instr 21; fs_w := bit32 instr 20 |} |}.

(* parser.rs:363-373 amo_instr *)
Definition amo_instr (c : AmoArgs -> InstrCacheable) (instr : Z) : InstrCacheable :=
  c {| amo_rd := rd instr; amo_rs1 := rs1 instr; amo_rs2 := rs2 instr;
       amo_aq := bit32 instr 26; amo_rl := bit32 instr 25 |}.

(* parser.rs:375-386 csr_instr *)
Definition csr_instr (c : CsrArgs -> InstrCacheable) (instr : Z) : InstrCacheable :=
  match instr_csr instr with
  | Some r => c {| cs_rd := rd instr; cs_rs1 := rs1 instr; cs_csr := r |}
  | None => Unknown instr
  end.

(* parser.rs:388-399 csri_instr *)
Definition csri_instr (c : CsriArgs -> InstrCacheable) (instr : Z) : InstrCacheable :=
  match instr_csr instr with
  | Some r => c {| csi_rd := rd instr; csi_imm := bits32 instr 15 5; csi_csr := r |}
  | None => Unknown instr
  end.

(* parser.rs:492-539 parse_uncompressed_instruction *)
Definition parse_op_arith (instr : Z) : InstrCacheable :=
  match funct3 instr with
  | F3_0 =>
      match funct7 instr with
      | F7_0 => r_instr Add instr
      | F7_1 => r_instr Mul instr
      | F7_20 => r_instr Sub instr
      | _ => Unknown instr
      end
  | F3_4 =>
      match funct7 instr with
      | F7_0 => r_instr Xor instr
      | F7_1 => r_instr Div instr
      | _ => Unknown instr
      end
  | F3_6 =>
      match funct7 instr with
      | F7_0 => r_instr Or instr
      | F7_1 => r_instr Rem instr
      | _ => Unknown instr
      end
  | F3_7 =>
      match funct7 instr with
      | F7_0 => r_instr And instr
      | F7_1 => r_instr Remu instr
      | _ => Unknown instr
      end
  | F3_1 =>
      match funct7 instr with
      | F7_0 => r_instr Sll instr
      | F7_1 => r_instr Mulh instr
      | _ => Unknown instr
      end
  | F3_5 =>
      match funct7 instr with
      | F7_0 => r_instr Srl instr
      | F7_1 => r_instr Divu instr
      | F7_20 => r_instr Sra instr
      | _ => Unknown instr
      end
  | F3_2 =>
      match funct7 instr with
      | F7_0 => r_instr Slt instr
      | F7_1 => r_instr Mulhsu instr
      | _ => Unknown instr
      end
  | F3_3 =>
      match funct7 instr with
      | F7_0 => r_instr Sltu instr
      | F7_1 => r_instr Mulhu instr
      | _ => Unknown instr
      end
  | _ => Unknown instr
  end.

(* parser.rs:540-569 parse_uncompressed_instruction *)
Definition parse_op_arith_w (instr : Z) : InstrCacheable :=
  match funct3 instr with
  | F3_0 =>
      match funct7 instr with
      | F7_0 => r_instr Addw instr
      | F7_1 => r_instr Mulw instr
      | F7_20 => r_instr Subw instr
      | _ => Unknown instr
      end
  | F3_1 => r_instr Sllw instr
  | F3_4 =>
      match funct7 instr with
      | F7_1 => r_instr Divw instr
      | _ => Unknown instr
      end
  | F3_5 =>
      match funct7 instr with
      | F7_0 => r_instr Srlw instr
      | F7_1 => r_instr Divuw instr
      | F7_20 => r_instr Sraw instr
      | _ => Unknown instr
      end
  | F3_6 =>
      match funct7 instr with
      | F7_1 => r_instr Remw instr
      | _ => Unknown instr
      end
  | F3_7 =>
      match funct7 instr with
      | F7_1 => r_instr Remuw instr
      | _ => Unknown instr
      end
  | _ => Unknown instr
  end.

(* parser.rs:572-591 parse_uncompressed_instruction *)
Definition parse_op_arith_i (instr : Z) : InstrCacheable :=
  match funct3 instr with
  | F3_0 => i_instr Addi instr
  | F3_4 => i_instr Xori instr
  | F3_6 => i_instr Ori instr
  | F3_7 => i_instr Andi instr
  | F3_1 =>
      match imm_11_6 instr with
      | F7_0 => i_instr Slli instr
      | _ => Unknown instr
      end
  | F3_5 =>
      match imm_11_6 instr with
      | F7_0 => i_instr Srli instr
      | F7_20 => i_instr Srai instr
      | _ => Unknown instr
      end
  | F3_2 => i_instr Slti instr
  | F3_3 => i_instr Sltiu instr
  | _ => Unknown instr
  end.

(* parser.rs:592-601 parse_uncompressed_instruction *)
Definition parse_op_load (instr : Z) : InstrCacheable :=
  match funct3 instr with
  | F3_0 => i_instr Lb instr
  | F3_1 => i_instr Lh instr
  | F3_2 => i_instr Lw instr
  | F3_3 => i_instr Ld instr
  | F3_4 => i_instr Lbu instr
  | F3_5 => i_instr Lhu instr
  | F3_6 => i_instr Lwu instr
  | _ => Unknown instr
  end.

(* parser.rs:602-616 parse_uncompressed_instruction *)
Definition parse_op_arith_iw (instr : Z) : InstrCacheable :=
  match funct3 instr with
  | F3_0 => i_instr Addiw instr
  | F3_1 =>
      match imm_11_6 instr with
      | F7_0 => i_instr Slliw instr
      | _ => Unknown instr
      end
  | F3_5 =>
      match imm_11_6 instr with
      | F7_0 => i_instr Srliw instr
      | F7_20 => i_instr Sraiw instr
      | _ => Unknown instr
      end
  | _ => Unknown instr
  end.

(* parser.rs:617-625 parse_uncompressed_instruction *)
Definition parse_op_synch (instr : Z) : Instr :=
  match funct3 instr with
  | F3_0 =>
      match fm instr with
      | FM_0 => Uncacheable (fence_instr Fence instr)
      | FM_8 => Uncacheable (fence_instr FenceTso instr)
      | _ => Cacheable (Unknown instr)
      end
  | F3_1 => Uncacheable FenceI
  | _ => Cacheable (Unknown instr)
  end.

(* parser.rs:626-661 parse_uncompressed_instruction *)
Definition parse_op_sys (instr : Z) : Instr :=
  match funct3 instr with
  | F3_0 =>
      match funct7 instr with
      | F7_0 =>
          match rs1_bits instr, rs2_bits instr with
          | RS1_0, RS2_0 => Uncacheable Ecall
          | RS1_0, RS2_1 => Uncacheable Ebreak
          | _, _ => Cacheable (Unknown instr)
          end
      | F7_9 => Uncacheable (SFenceVma (rs2 instr) (rs1 instr))
      | F7_8 =>
          match rs1_bits instr, rs2_bits instr with
          | RS1_0, RS2_2 => Uncacheable Sret
          | RS1_0, RS2_5 => Uncacheable Wfi
          | _, _ => Cacheable (Unknown instr)
          end
      | F7_24 =>
          match rs1_bits instr, rs2_bits instr with
          | RS1_0, RS2_2 => Uncacheable Mret
          | _, _ => Cacheable (Unknown instr)
          end
      | F7_56 =>
          match rs1_bits instr, rs2_bits instr with
          | RS1_0, RS2_2 => Uncacheable Mnret
          | _, _ => Cacheable (Unknown instr)
          end
      | _ => Cacheable (Unknown instr)
      end
  | F3_1 => Cacheable (csr_instr Csrrw instr)
  | F3_2 => Cacheable (csr_instr Csrrs instr)
  | F3_3 => Cacheable (csr_instr Csrrc instr)
  | F3_5 => Cacheable (csri_instr Csrrwi instr)
  | F3_6 => Cacheable (csri_instr Csrrsi instr)
  | F3_7 => Cacheable (csri_instr Csrrci instr)
  | _ => Cacheable (Unknown instr)
  end.

(* parser.rs:662-698 parse_uncompressed_instruction *)
Definition parse_op_amo (instr : Z) : InstrCacheable :=
  match funct3 instr with
  | F3_2 =>
      match funct5 instr with
      | F5_2 =>
          match rs2_bits instr with
          | RS2_0 => amo_instr Lrw instr
          | _ => Unknown instr
          end
      | F5_3 => amo_instr Scw instr
      | F5_1 => amo_instr Amoswapw instr
      | F5_0 => amo_instr Amoaddw instr
      | F5_4 => amo_instr Amoxorw instr
      | F5_12 => amo_instr Amoandw instr
      | F5_8 => amo_instr Amoorw instr
      | F5_16 => amo_instr Amominw instr
      | F5_20 => amo_instr Amomaxw instr
      | F5_24 => amo_instr Amominuw instr
      | F5_28 => amo_instr Amomaxuw instr
      | _ => Unknown instr
      end
  | F3_3 =>
      match funct5 instr with
      | F5_2 =>
          match rs2_bits instr with
          | RS2_0 => amo_instr Lrd instr
          | _ => Unknown instr
          end
      | F5_3 => amo_instr Scd instr
      | F5_1 => amo_instr Amoswapd instr
      | F5_0 => amo_instr Amoaddd instr
      | F5_4 => amo_instr Amoxord instr
      | F5_12 => amo_instr Amoandd instr
      | F5_8 => amo_instr Amoord instr
      | F5_16 => amo_instr Amomind instr
      | F5_20 => amo_instr Amomaxd instr
      | F5_24 => amo_instr Amominud instr
      | F5_28 => amo_instr Amomaxud instr
      | _ => Unknown instr
      end
  | _ => Unknown instr
  end.

(* parser.rs:701-707 parse_uncompressed_instruction *)
Definition parse_op_store (instr : Z) : InstrCacheable :=
  match funct3 instr with
  | F3_0 => s_instr Sb instr
  | F3_1 => s_instr Sh instr
  | F3_2 => s_instr Sw instr
  | F3_3 => s_instr Sd instr
  | _ => Unknown instr
  end.

(* parser.rs:710-718 parse_uncompressed_instruction *)
Definition parse_op_branch (instr : Z) : InstrCacheable :=
  match funct3 instr with
  | F3_0 => b_instr Beq instr
  | F3_1 => b_instr Bne instr
  | F3_4 => b_instr Blt instr
  | F3_5 => b_instr Bge instr
  | F3_6 => b_instr Bltu instr
  | F3_7 => b_instr Bgeu instr
  | _ => Unknown instr
  end.

(* parser.rs:721-721 parse_uncompressed_instruction *)
Definition parse_op_lui (instr : Z) : InstrCacheable :=
  u_instr Lui instr.

(* parser.rs:722-722 parse_uncompressed_instruction *)
Definition parse_op_auipc (instr : Z) : InstrCacheable :=
  u_instr Auipc instr.

(* parser.rs:726-770 parse_uncompressed_instruction *)
Definition parse_op_fp_s (instr : Z) : InstrCacheable :=
  match funct5 instr, funct3 instr, rs2_bits_u5 instr with
  | F5_0, rounding, rs2_bits => f_r_rm_2_instr Fadds instr rs2_bits rounding
  | F5_1, rounding, rs2_bits => f_r_rm_2_instr Fsubs instr rs2_bits rounding
  | F5_2, rounding, rs2_bits => f_r_rm_2_instr Fmuls instr rs2_bits rounding
  | F5_3, rounding, rs2_bits => f_r_rm_2_instr Fdivs instr rs2_bits rounding
  | F5_4, RM_0, rs2_bits => f_r_instr Fsgnjs instr rs2_bits
  | F5_4, RM_1, rs2_bits => f_r_instr Fsgnjns instr rs2_bits
  | F5_4, RM_2, rs2_bits => f_r_instr Fsgnjxs instr rs2_bits
  | F5_5, RM_MIN, rs2_bits => f_r_instr Fmins instr rs2_bits
  | F5_5, RM_MAX, rs2_bits => f_r_instr Fmaxs instr rs2_bits
  | F5_8, rounding, RS2_1_U5 => f_r_rm_1_instr Fcvtsd instr rounding
  | F5_11, rounding, RS2_0_U5 => f_r_rm_1_instr Fsqrts instr rounding
  | F5_20, RM_EQ, rs2_bits => f_cmp_instr Feqs instr rs2_bits
  | F5_20, RM_LE, rs2_bits => f_cmp_instr Fles instr rs2_bits
  | F5_20, RM_LT, rs2_bits => f_cmp_instr Flts instr rs2_bits
  | F5_24, rounding, RS2_0_U5 => f_r_int_fmt_instr Fcvtws instr rounding
  | F5_24, rounding, RS2_1_U5 => f_r_int_fmt_instr Fcvtwus instr rounding
  | F5_24, rounding, RS2_2_U5 => f_r_int_fmt_instr Fcvtls instr rounding
  | F5_24, rounding, RS2_3_U5 => f_r_int_fmt_instr Fcvtlus instr rounding
  | F5_26, rounding, RS2_0_U5 => f_r_fmt_int_instr Fcvtsw instr rounding
  | F5_26, rounding, RS2_1_U5 => f_r_fmt_int_instr Fcvtswu instr rounding
  | F5_26, rounding, RS2_2_U5 => f_r_fmt_int_instr Fcvtsl instr rounding
  | F5_26, rounding, RS2_3_U5 => f_r_fmt_int_instr Fcvtslu instr rounding
  | F5_28, RM_0, RS2_0_U5 => FmvXW {| fx_rd := rd instr; fx_rs1 := rs1_f instr |}
  | F5_28, RM_1, RS2_0_U5 => FclassS {| fx_rd := rd instr; fx_rs1 := rs1_f instr |}
  | F5_30, RM_0, RS2_0_U5 => FmvWX {| xf_rd := rd_f instr; xf_rs1 := rs1 instr |}
  | _, _, _ => Unknown instr
  end.

(* parser.rs:771-815 parse_uncompressed_instruction *)
Definition parse_op_fp_d (instr : Z) : InstrCacheable :=
  match funct5 instr, funct3 instr, rs2_bits_u5 instr with
  | F5_0, rounding, rs2_bits => f_r_rm_2_instr Faddd instr rs2_bits rounding
  | F5_1, rounding, rs2_bits => f_r_rm_2_instr Fsubd instr rs2_bits rounding
  | F5_2, rounding, rs2_bits => f_r_rm_2_instr Fmuld instr rs2_bits rounding
  | F5_3, rounding, rs2_bits => f_r_rm_2_instr Fdivd instr rs2_bits rounding
  | F5_4, RM_0, rs2_bits => f_r_instr Fsgnjd instr rs2_bits
  | F5_4, RM_1, rs2_bits => f_r_instr Fsgnjnd instr rs2_bits
  | F5_4, RM_2, rs2_bits => f_r_instr Fsgnjxd instr rs2_bits
  | F5_5, RM_MIN, rs2_bits => f_r_instr Fmind instr rs2_bits
  | F5_5, RM_MAX, rs2_bits => f_r_instr Fmaxd instr rs2_bits
  | F5_8, rounding, RS2_0_U5 => f_r_rm_1_instr Fcvtds instr rounding
  | F5_11, rounding, RS2_0_U5 => f_r_rm_1_instr Fsqrtd instr rounding
  | F5_20, RM_EQ, rs2_bits => f_cmp_instr Feqd instr rs2_bits
  | F5_20, RM_LE, rs2_bits => f_cmp_instr Fled instr rs2_bits
  | F5_20, RM_LT, rs2_bits => f_cmp_instr Fltd instr rs2_bits
  | F5_24, rounding, RS2_0_U5 => f_r_int_fmt_instr Fcvtwd instr rounding
  | F5_24, rounding, RS2_1_U5 => f_r_int_fmt_instr Fcvtwud instr rounding
  | F5_24, rounding, RS2_2_U5 => f_r_int_fmt_instr Fcvtld instr rounding
  | F5_24, rounding, RS2_3_U5 => f_r_int_fmt_instr Fcvtlud instr rounding
  | F5_26, rounding, RS2_0_U5 => f_r_fmt_int_instr Fcvtdw instr rounding
  | F5_26, rounding, RS2_1_U5 => f_r_fmt_int_instr Fcvtdwu instr rounding
  | F5_26, rounding, RS2_2_U5 => f_r_fmt_int_instr Fcvtdl instr rounding
  | F5_26, rounding, RS2_3_U5 => f_r_fmt_int_instr Fcvtdlu instr rounding
  | F5_28, RM_0, RS2_0_U5 => FmvXD {| fx_rd := rd instr; fx_rs1 := rs1_f instr |}
  | F5_28, RM_1, RS2_0_U5 => FclassD {| fx_rd := rd instr; fx_rs1 := rs1_f instr |}
  | F5_30, RM_0, RS2_0_U5 => FmvDX {| xf_rd := rd_f instr; xf_rs1 := rs1 instr |}
  | _, _, _ => Unknown instr
  end.

(* parser.rs:725-817 parse_uncompressed_instruction *)
Definition parse_op_fp (instr : Z) : InstrCacheable :=
  match fmt instr with
  | FMT_S => parse_op_fp_s instr
  | FMT_D => parse_op_fp_d instr
  | _ => Unknown instr
  end.

(* parser.rs:819-823 parse_uncompressed_instruction *)
Definition parse_op_fmadd (instr : Z) : InstrCacheable :=
  match fmt instr with
  | FMT_S => f_r_rm_3_instr Fmadds instr
  | FMT_D => f_r_rm_3_instr Fmaddd instr
  | _ => Unknown instr
  end.

(* parser.rs:824-828 parse_uncompressed_instruction *)
Definition parse_op_fmsub (instr : Z) : InstrCacheable :=
  match fmt instr with
  | FMT_S => f_r_rm_3_instr Fmsubs instr
  | FMT_D => f_r_rm_3_instr Fmsubd instr
  | _ => Unknown instr
  end.

(* parser.rs:829-833 parse_uncompressed_instruction *)
Definition parse_op_fnmsub (instr : Z) : InstrCacheable :=
  match fmt instr with
  | FMT_S => f_r_rm_3_instr Fnmsubs instr
  | FMT_D => f_r_rm_3_instr Fnmsubd instr
  | _ => Unknown instr
  end.

(* parser.rs:834-838 parse_uncompressed_instruction *)
Definition parse_op_fnmadd (instr : Z) : InstrCacheable :=
  match fmt instr with
  | FMT_S => f_r_rm_3_instr Fnmadds instr
  | FMT_D => f_r_rm_3_instr Fnmaddd instr
  | _ => Unknown instr
  end.

(* parser.rs:841-845 parse_uncompressed_instruction *)
Definition parse_op_fp_load (instr : Z) : InstrCacheable :=
  match fwidth instr with
  | WIDTH_W => fl_instr Flw instr
  | WIDTH_D => fl_instr Fld instr
  | _ => Unknown instr
  end.

(* parser.rs:846-850 parse_uncompressed_instruction *)
Definition parse_op_fp_store (instr : Z) : InstrCacheable :=
  match fwidth instr with
  | WIDTH_W => fs_instr Fsw instr
  | WIDTH_D => fs_instr Fsd instr
  | _ => Unknown instr
  end.

(* parser.rs:852-852 parse_uncompressed_instruction *)
Definition parse_op_jal (instr : Z) : InstrCacheable :=
  j_instr Jal instr.

(* parser.rs:853-856 parse_uncompressed_instruction *)
Definition parse_op_jalr (instr : Z) : InstrCacheable :=
  match funct3 instr with
  | F3_0 => i_instr Jalr instr
  | _ => Unknown instr
  end.

(* parser.rs:485-861 parse_uncompressed_instruction *)
Definition parse_uncompressed_instruction (instr : Z) : Instr :=
  match opcode instr with
  | OP_ARITH => Cacheable (parse_op_arith instr)
  | OP_ARITH_W => Cacheable (parse_op_arith_w instr)
  | OP_ARITH_I => Cacheable (parse_op_arith_i instr)
  | OP_LOAD => Cacheable (parse_op_load instr)
  | OP_ARITH_IW => Cacheable (parse_op_arith_iw instr)
  | OP_SYNCH => parse_op_synch instr
  | OP_SYS => parse_op_sys instr
  | OP_AMO => Cacheable (parse_op_amo instr)
  | OP_STORE => Cacheable (parse_op_store instr)
  | OP_BRANCH => Cacheable (parse_op_branch instr)
  | OP_LUI => Cacheable (parse_op_lui instr)
  | OP_AUIPC => Cacheable (parse_op_auipc instr)
  | OP_FP => Cacheable (parse_op_fp instr)
  | OP_FMADD => Cacheable (parse_op_fmadd instr)
  | OP_FMSUB => Cacheable (parse_op_fmsub instr)
  | OP_FNMSUB => Cacheable (parse_op_fnmsub instr)
  | OP_FNMADD => Cacheable (parse_op_fnmadd instr)
  | OP_FP_LOAD => Cacheable (parse_op_fp_load instr)
  | OP_FP_STORE => Cacheable (parse_op_fp_store instr)
  | OP_JAL => Cacheable (parse_op_jal instr)
  | OP_JALR => Cacheable (parse_op_jalr instr)
  | _ => Cacheable (Unknown instr)
  end.

(* parser.rs:898-900 c_bits *)
Definition c_bits (bytes pos n : Z) : Z :=
  shr_u 16 bytes pos & shr_u 16 (2 ^ 16 - 1) (16 - n).

(* parser.rs:903-905 c_rd_rs1 *)
Definition c_rd_rs1 (instr : Z) : XRegister :=
  parse_xregister (u5_extract_u16 instr 7).

(* parser.rs:908-910 c_f_rd_rs1 *)
Definition c_f_rd_rs1 (instr : Z) : FRegister :=
  parse_fregister (u5_extract_u16 instr 7).

(* parser.rs:913-915 c_rs2 *)
Definition c_rs2 (instr : Z) : XRegister :=
  parse_xregister (u5_extract_u16 instr 2).

(* parser.rs:918-920 c_f_rs2 *)
Definition c_f_rs2 (instr : Z) : FRegister :=
  parse_fregister (u5_extract_u16 instr 2).

(* parser.rs:925-929 c_reg_prime *)
Definition c_reg_prime (instr pos : Z) : Z :=
  u5_wrapping_add (u3_extract_u16 instr pos) 8.

(* parser.rs:932-934 c_rs1p *)
Definition c_rs1p (instr : Z) : XRegister :=
  parse_xregister (c_reg_prime instr 7).

(* parser.rs:937-939 c_rdp_rs2p *)
Definition c_rdp_rs2p (instr : Z) : XRegister :=
  parse_xregister (c_reg_prime instr 2).

(* parser.rs:942-944 c_f_rdp_rs2p *)
Definition c_f_rdp_rs2p (instr : Z) : FRegister :=
  parse_fregister (c_reg_prime instr 2).

(* parser.rs:947-949 c_opcode *)
Definition c_opcode (instr : Z) : Z :=
  c_bits instr 0 2.

(* parser.rs:952-954 c_funct3 *)
Definition c_funct3 (instr : Z) : Z :=
  c_bits instr 13 3.

(* parser.rs:957-959 c_q1_10 *)
Definition c_q1_10 (instr : Z) : Z :=
  c_bits instr 10 2.

(* parser.rs:962-964 c_q1_5 *)
Definition c_q1_5 (instr : Z) : Z :=
  c_bits instr 5 2.

(* parser.rs:966-970 sign_extend_u16 *)
Definition sign_extend_u16 (value size : Z) : Z :=
  let shift := 16 - size in
  sshr 16 (sshl 16 (as_i16 value) shift) shift.

(* parser.rs:972-978 clw_imm *)
Definition clw_imm (instr : Z) : Z :=
  let res := shl_u 16 (bits_subset 16 instr 5 5) 6
    |: shl_u 16 (bits_subset 16 instr 12 10) 3
    |: shl_u 16 (bits_subset 16 instr 6 6) 2 in
  res.

(* parser.rs:980-984 cld_imm *)
Definition cld_imm (instr : Z) : Z :=
  let res := shl_u 16 (bits_subset 16 instr 6 5) 6
    |: shl_u 16 (bits_subset 16 instr 12 10) 3 in
  res.

(* parser.rs:986-990 ci_imm *)
Definition ci_imm (instr : Z) : Z :=
  let res := shl_u 16 (bits_subset 16 instr 12 12) 5
    |: bits_subset 16 instr 6 2 in
  sign_extend_u16 res 6.

(* parser.rs:992-996 cslli_imm *)
Definition cslli_imm (instr : Z) : Z :=
  let res := shl_u 16 (bits_subset 16 instr 12 12) 5
    |: bits_subset 16 instr 6 2 in
  res.

(* parser.rs:998-1006 ci_addi16sp_imm *)
Definition ci_addi16sp_imm (instr : Z) : Z :=
  let res := shl_u 16 (bits_subset 16 instr 12 12) 9
    |: shl_u 16 (bits_subset 16 instr 4 3) 7
    |: shl_u 16 (bits_subset 16 instr 5 5) 6
    |: shl_u 16 (bits_subset 16 instr 2 2) 5
    |: shl_u 16 (bits_subset 16 instr 6 6) 4 in
  sign_extend_u16 res 10.

(* parser.rs:1008-1014 ci_lwsp_imm *)
Definition ci_lwsp_imm (instr : Z) : Z :=
  let res := shl_u 16 (bits_subset 16 instr 3 2) 6
    |: shl_u 16 (bits_subset 16 instr 12 12) 5
    |: shl_u 16 (bits_subset 16 instr 6 4) 2 in
  res.

(* parser.rs:1016-1022 ci_ldsp_imm *)
Definition ci_ldsp_imm (instr : Z) : Z :=
  let res := shl_u 16 (bits_subset 16 instr 4 2) 6
    |: shl_u 16 (bits_subset 16 instr 12 12) 5
    |: shl_u 16 (bits_subset 16 instr 6 5) 3 in
  res.

(* parser.rs:1024-1028 css_swsp_imm *)
Definition css_swsp_imm (instr : Z) : Z :=
  let res := shl_u 16 (bits_subset 16 instr 8 7) 6
    |: shl_u 16 (bits_subset 16 instr 12 9) 2 in
  res.

(* parser.rs:1030-1034 css_sdsp_imm *)
Definition css_sdsp_imm (instr : Z) : Z :=
  let res := shl_u 16 (bits_subset 16 instr 9 7) 6
    |: shl_u 16 (bits_subset 16 instr 12 10) 3 in
  res.

(* parser.rs:1036-1043 ciw_imm *)
Definition ciw_imm (instr : Z) : Z :=
  let res := shl_u 16 (bits_subset 16 instr 10 7) 6
    |: shl_u 16 (bits_subset 16 instr 12 11) 4
    |: shl_u 16 (bits_subset 16 instr 5 5) 3
    |: shl_u 16 (bits_subset 16 instr 6 6) 2 in
  res.

(* parser.rs:1045-1053 cb_imm *)
Definition cb_imm (instr : Z) : Z :=
  let res := shl_u 16 (bits_subset 16 instr 12 12) 8
    |: shl_u 16 (bits_subset 16 instr 6 5) 6
    |: shl_u 16 (bits_subset 16 instr 2 2) 5
    |: shl_u 16 (bits_subset 16 instr 11 10) 3
    |: shl_u 16 (bits_subset 16 instr 4 3) 1 in
  sign_extend_u16 res 9.

(* parser.rs:1055-1059 cb_shamt_imm *)
Definition cb_shamt_imm (instr : Z) : Z :=
  let res := shl_u 16 (bits_subset 16 instr 12 12) 5
    |: bits_subset 16 instr 6 2 in
  res.

(* parser.rs:1061-1065 cb_andi_imm *)
Definition cb_andi_imm (instr : Z) : Z :=
  let res := shl_u 16 (bits_subset 16 instr 12 12) 5
    |: bits_subset 16 instr 6 2 in
  sign_extend_u16 res 6.

(* parser.rs:1067-1078 cj_imm *)
Definition c_j_imm (instr : Z) : Z :=
  let res := shl_u 16 (bits_subset 16 instr 12 12) 11
    |: shl_u 16 (bits_subset 16 instr 8 8) 10
    |: shl_u 16 (bits_subset 16 instr 10 9) 8
    |: shl_u 16 (bits_subset 16 instr 6 6) 7
    |: shl_u 16 (bits_subset 16 instr 7 7) 6
    |: shl_u 16 (bits_subset 16 instr 2 2) 5
    |: shl_u 16 (bits_subset 16 instr 11 11) 4
    |: shl_u 16 (bits_subset 16 instr 5 3) 1 in
  sign_extend_u16 res 12.

(* parser.rs:879-886 cr_instr *)
Definition cr_instr (c : CRTypeArgs -> InstrCacheable) (instr : Z) : InstrCacheable :=
  c {| cr_rd_rs1 := c_rs1p instr; cr_rs2 := c_rdp_rs2p instr |}.

(* parser.rs:888-895 cc_instr *)
Definition cc_instr (c : CIBTypeArgs -> InstrCacheable) (imm_f : Z -> Z) (instr : Z) : InstrCacheable :=
  c {| cib_rd_rs1 := c_rs1p instr; cib_imm := imm_f instr |}.

(* parser.rs:1102-1141 parse_compressed_instruction_inner *)
Definition parse_op_c0 (instr : Z) : InstrCacheable :=
  match c_funct3 instr with
  | C_F3_1 => CFld {| fld_rd := c_f_rdp_rs2p instr; fld_rs1 := c_rs1p instr; fld_imm := cld_imm instr |}
  | C_F3_0 =>
      let imm := ciw_imm instr in
      if imm =? 0 then UnknownCompressed instr
      else CAddi4spn {| cib_rd_rs1 := c_rdp_rs2p instr; cib_imm := imm |}
  | C_F3_2 => CLw {| i_rd := c_rdp_rs2p instr; i_rs1 := c_rs1p instr; i_imm := clw_imm instr |}
  | C_F3_3 => CLd {| i_rd := c_rdp_rs2p instr; i_rs1 := c_rs1p instr; i_imm := cld_imm instr |}
  | C_F3_5 => CFsd {| fst_rs1 := c_rs1p instr; fst_rs2 := c_f_rdp_rs2p instr; fst_imm := cld_imm instr |}
  | C_F3_6 => CSw {| sb_rs1 := c_rs1p instr; sb_rs2 := c_rdp_rs2p instr; sb_imm := clw_imm instr |}
  | C_F3_7 => CSd {| sb_rs1 := c_rs1p instr; sb_rs2 := c_rdp_rs2p instr; sb_imm := cld_imm instr |}
  | _ => UnknownCompressed instr
  end.

(* parser.rs:1177-1191 parse_compressed_instruction_inner *)
Definition parse_c1_f3_4 (instr : Z) : InstrCacheable :=
  match c_q1_10 instr with
  | C_Q1_0 => cc_instr CSrli cb_shamt_imm instr
  | C_Q1_1 => cc_instr CSrai cb_shamt_imm instr
  | C_Q1_2 => cc_instr CAndi cb_andi_imm instr
  | C_Q1_3 =>
      match bit 16 instr 12, c_q1_5 instr with
      | false, C_Q1_0 => cr_instr CSub instr
      | false, C_Q1_1 => cr_instr CXor instr
      | false, C_Q1_2 => cr_instr COr instr
      | false, C_Q1_3 => cr_instr CAnd instr
      | true, C_Q1_0 => cr_instr CSubw instr
      | true, C_Q1_1 => cr_instr CAddw instr
      | _, _ => UnknownCompressed instr
      end
  | _ => UnknownCompressed instr
  end.

(* parser.rs:1142-1196 parse_compressed_instruction_inner *)
Definition parse_op_c1 (instr : Z) : InstrCacheable :=
  match c_funct3 instr with
  | C_F3_0 =>
      match ci_imm instr, c_rd_rs1 instr with
      | 0, x0 => CNop
      | 0, _ | _, x0 => UnknownCompressed instr
      | imm, rd_rs1 => CAddi {| cib_rd_rs1 := rd_rs1; cib_imm := imm |}
      end
  | C_F3_1 =>
      match ci_imm instr, c_rd_rs1 instr with
      | _, x0 => UnknownCompressed instr
      | imm, rd_rs1 => CAddiw {| cib_rd_rs1 := rd_rs1; cib_imm := imm |}
      end
  | C_F3_2 =>
      match c_rd_rs1 instr with
      | x0 => UnknownCompressed instr
      | rd_rs1 => CLi {| cib_rd_rs1 := rd_rs1; cib_imm := ci_imm instr |}
      end
  | C_F3_3 =>
      if (bits_subset 16 instr 6 2 =? 0) && negb (bit 16 instr 12) then UnknownCompressed instr
      else match c_rd_rs1 instr with
           | x2 => CAddi16sp {| cj_imm := ci_addi16sp_imm instr |}
           | x0 => UnknownCompressed instr
           | rd_rs1 => CLui {| cib_rd_rs1 := rd_rs1; cib_imm := sshl 64 (ci_imm instr) 12 |}
           end
  | C_F3_4 => parse_c1_f3_4 instr
  | C_F3_5 => CJ {| cj_imm := c_j_imm instr |}
  | C_F3_6 => cc_instr CBeqz cb_imm instr
  | C_F3_7 => cc_instr CBnez cb_imm instr
  | _ => UnknownCompressed instr
  end.

(* parser.rs:1197-1242 parse_compressed_instruction_inner *)
Definition parse_op_c2 (instr : Z) : Instr :=
  match c_funct3 instr with
  | C_F3_0 =>
      match cslli_imm instr, c_rd_rs1 instr with
      | _, x0 | 0, _ => Cacheable (UnknownCompressed instr)
      | imm, rd_rs1 => Cacheable (CSlli {| cib_rd_rs1 := rd_rs1; cib_imm := imm |})
      end
  | C_F3_1 => Cacheable (CFldsp {| cibd_rd_rs1 := c_f_rd_rs1 instr; cibd_imm := ci_ldsp_imm instr |})
  | C_F3_2 =>
      match c_rd_rs1 instr with
      | x0 => Cacheable (UnknownCompressed instr)
      | rd_rs1 => Cacheable (CLwsp {| cib_rd_rs1 := rd_rs1; cib_imm := ci_lwsp_imm instr |})
      end
  | C_F3_3 =>
      match c_rd_rs1 instr with
      | x0 => Cacheable (UnknownCompressed instr)
      | rd_rs1 => Cacheable (CLdsp {| cib_rd_rs1 := rd_rs1; cib_imm := ci_ldsp_imm instr |})
      end
  | C_F3_4 =>
      match bit 16 instr 12, c_rd_rs1 instr, c_rs2 instr with
      | true, x0, x0 => Uncacheable CEbreak
      | _, x0, _ => Cacheable (UnknownCompressed instr)
      | true, r1, x0 => Cacheable (CJalr {| crj_rs1 := r1 |})
      | true, r1, r2 => Cacheable (CAdd {| cr_rd_rs1 := r1; cr_rs2 := r2 |})
      | false, r1, x0 => Cacheable (CJr {| crj_rs1 := r1 |})
      | false, r1, r2 => Cacheable (CMv {| cr_rd_rs1 := r1; cr_rs2 := r2 |})
      end
  | C_F3_5 => Cacheable (CFsdsp {| cssd_rs2 := c_f_rs2 instr; cssd_imm := css_sdsp_imm instr |})
  | C_F3_6 => Cacheable (CSwsp {| css_rs2 := c_rs2 instr; css_imm := css_swsp_imm instr |})
  | C_F3_7 => Cacheable (CSdsp {| css_rs2 := c_rs2 instr; css_imm := css_sdsp_imm instr |})
  | _ => Cacheable (UnknownCompressed instr)
  end.

(* parser.rs:1099-1247 parse_compressed_instruction_inner *)
Definition parse_compressed_instruction_inner (instr : Z) : Instr :=
  match c_opcode instr with
  | OP_C0 => Cacheable (parse_op_c0 instr)
  | OP_C1 => Cacheable (parse_op_c1 instr)
  | OP_C2 => parse_op_c2 instr
  | _ => Cacheable (UnknownCompressed instr)
  end.

(* parser.rs:863-877 COMPRESSED_JUMP_TABLE *)
Definition COMPRESSED_JUMP_TABLE : list Instr :=
  parse_compressed_instruction_inner <$> seqZ 0 (2 ^ 16).

(* parser.rs:1251-1253 parse_compressed_instruction *)
Definition parse_compressed_instruction (bytes : Z) : Instr :=
  default (Cacheable (Unknown 0)) (COMPRESSED_JUMP_TABLE !! Z.to_nat bytes).

(** [more] is a fallible, possibly effectful computation: the monad is that of
    the caller. *)
(* parser.rs:1259-1267 parse *)
Definition parse {M : Type -> Type} `{MRet M, MBind M} (bytes : Z) (more : M Z) : M Instr :=
  if negb ((bytes & 3) =? 3) then mret (parse_compressed_instruction bytes)
  else upper ← more;
       let combined := shl_u 32 upper 16 |: bytes in
       mret (parse_uncompressed_instruction combined).

(* parser.rs:1271-1273 is_compressed *)
Definition is_compressed (bytes : Z) : bool := negb ((bytes & 3) =? 3).

End Decoder.
