(* ===== verification/ParserSpec.v ===== *)
(** Properties of the decoder of [Parser]: field extraction, immediates, the
    compressed table, instruction widths. *)
From S2P Require Import Prelude Bits Registers CSRegister Instruction Parser.

(** The reference implementation of the [arbitrary_int] operations. *)
Definition ArbitraryInt_ref : ArbitraryInt := {|
  u5_extract_u32 v s := (v / 2 ^ s) mod 32;
  u5_extract_u16 v s := (v / 2 ^ s) mod 32;
  u3_extract_u16 v s := (v / 2 ^ s) mod 8;
  u5_wrapping_add a b := (a + b) mod 32;
|}.

#[export] Instance ArbitraryIntLaws_ref : ArbitraryIntLaws ArbitraryInt_ref.
Proof. by split. Qed.

Section Spec.
Context {AI : ArbitraryInt} {AIL : ArbitraryIntLaws AI}.

(** ** Field extraction *)

Lemma bits32_spec v pos n :
  0 <= pos -> 0 < n -> pos + n <= 32 -> bits32 v pos n = (v / 2 ^ pos) mod 2 ^ n.
Proof.
  intros. unfold bits32, shr_u. rewrite !(Z.mod_small _ 32) by lia.
  replace (Z.shiftr (2 ^ 32 - 1) (32 - n)) with (Z.ones n).
  - rewrite Z.land_ones, Z.shiftr_div_pow2 by lia. done.
  - change (2 ^ 32 - 1) with (Z.ones 32). bits_eq. bits_cases.
Qed.

Lemma bit32_spec v pos : 0 <= pos < 32 -> bit32 v pos = Z.testbit v pos.
Proof.
  intros. unfold bit32, shl_u. rewrite Z.mod_small, Z.shiftl_1_l by lia.
  rewrite wrap_small.
  2:{ split; [apply Z.pow_nonneg; lia|apply Z.pow_lt_mono_r; lia]. }
  destruct (Z.testbit v pos) eqn:E.
  - destruct (Z.eqb_spec (v & 2 ^ pos) 0) as [H0|]; [|done].
    assert (Z.testbit (v & 2 ^ pos) pos = true) as B.
    { rewrite testbit_land, E, testbit_pow2, Z.eqb_refl by lia. done. }
    rewrite H0, Z.bits_0 in B. done.
  - replace (v & 2 ^ pos) with 0; [done|]. bits_eq.
    destruct (Z.eqb_spec i pos) as [->|]; [by rewrite E|by rewrite andb_false_r].
Qed.

(** ** Immediates

    Each immediate is the sign extension of the bit sequence that the comment
    in the source gives. *)

Ltac tail_mins :=
  repeat match goal with |- context [Z.min ?a ?b] => rewrite (Z.min_r a b) by lia end.

Ltac imm_bits w :=
  apply Z.bits_inj'; intros ?i ?Hi; rewrite (testbit_swrap w _ i) by lia;
  destruct (Z.ltb_spec i 32);
    [enum_bits i 32 | replace (Z.min i (w - 1)) with (w - 1) by lia];
    ground_eval;
    repeat (progress (autorewrite with bits; neg_bits; ground_eval; tail_mins));
    bool_simpl; try done.

Lemma i_imm_spec instr : is_u 32 instr -> instr_i_imm instr = swrap 12 (Z.shiftr instr 20).
Proof. intros. unfold instr_i_imm, sshr. rewrite Z.mod_small by lia. imm_bits 12. Qed.

Lemma s_imm_spec instr :
  is_u 32 instr ->
  s_imm instr = swrap 12 (Z.shiftl (wrap 7 (Z.shiftr instr 25)) 5 |: wrap 5 (Z.shiftr instr 7)).
Proof. intros. unfold s_imm, sshr. rewrite !Z.mod_small by lia. imm_bits 12. Qed.

Lemma b_imm_spec instr :
  is_u 32 instr ->
  b_imm instr = swrap 13 (Z.shiftl (wrap 1 (Z.shiftr instr 31)) 12
                          |: Z.shiftl (wrap 1 (Z.shiftr instr 7)) 11
                          |: Z.shiftl (wrap 6 (Z.shiftr instr 25)) 5
                          |: Z.shiftl (wrap 4 (Z.shiftr instr 8)) 1).
Proof. intros. unfold b_imm, sshr, sshl. rewrite !Z.mod_small by lia. imm_bits 13. Qed.

Lemma u_imm_spec instr :
  is_u 32 instr -> u_imm instr = swrap 32 (Z.shiftl (Z.shiftr instr 12) 12).
Proof. intros. unfold u_imm. imm_bits 32. Qed.

Lemma j_imm_spec instr :
  is_u 32 instr ->
  j_imm instr = swrap 21 (Z.shiftl (wrap 1 (Z.shiftr instr 31)) 20
                          |: Z.shiftl (wrap 8 (Z.shiftr instr 12)) 12
                          |: Z.shiftl (wrap 1 (Z.shiftr instr 20)) 11
                          |: Z.shiftl (wrap 10 (Z.shiftr instr 21)) 1).
Proof. intros. unfold j_imm, sshr, sshl. rewrite !Z.mod_small by lia. imm_bits 21. Qed.

(** ** Immediates of compressed instructions

    They are put together from ranges of bits: [field w k z] says that [z] is
    a [w]-bit number with its low [k] bits clear. *)
Definition field (w k z : Z) : Prop := is_u w z /\ z mod 2 ^ k = 0.

Lemma mod_pow2_0_bits k z :
  0 <= k -> z mod 2 ^ k = 0 <-> (forall i, 0 <= i < k -> Z.testbit z i = false).
Proof.
  intros Hk. split.
  - intros E i Hi. rewrite <- (Z.mod_pow2_bits_low z k i) by lia. by rewrite E, Z.bits_0.
  - intros E. change (wrap k z = 0). bits_eq. bool_cases; [|done]. simpl. apply E. lia.
Qed.

Lemma field_shl a b s w k v :
  valid_range 16 a b -> 0 <= k <= s -> s + (1 + a - b) <= w -> w <= 16 ->
  field w k (shl_u 16 (bits_subset 16 v a b) s).
Proof.
  intros V Hs Hw Hw16. pose proof V as (? & ? & ?). unfold shl_u. rewrite Z.mod_small by lia.
  pose proof (wrap_range 16 (Z.shiftl (bits_subset 16 v a b) s)) as R.
  split.
  - apply is_u_bits; [lia|apply R; lia|]. intros. autorewrite with bits. bits_cases.
  - apply mod_pow2_0_bits; [lia|]. intros. autorewrite with bits. bits_cases.
Qed.

Lemma field_bits a b w v :
  valid_range 16 a b -> 1 + a - b <= w -> field w 0 (bits_subset 16 v a b).
Proof.
  intros V ?. pose proof V as (? & ? & ?). split; [|apply Z.mod_1_r].
  eapply (is_u_mono (1 + a - b)); [lia|]. by apply bits_subset_range.
Qed.

Lemma field_lor w k x y : 0 <= w -> 0 <= k -> field w k x -> field w k y -> field w k (x |: y).
Proof.
  intros Hw Hk [? X] [? Y]. split; [by apply lor_is_u|].
  apply mod_pow2_0_bits; [done|]. intros. rewrite testbit_lor.
  by rewrite (proj1 (mod_pow2_0_bits k x Hk) X), (proj1 (mod_pow2_0_bits k y Hk) Y).
Qed.

Ltac field_solve :=
  repeat (apply field_lor; [lia|lia| |]);
  try (apply field_shl; [vm_compute; intuition congruence|lia..]);
  try (apply field_bits; [vm_compute; intuition congruence|lia..]).

Lemma sign_extend_u16_spec v n : 0 < n < 16 -> sign_extend_u16 v n = swrap n v.
Proof.
  intros. unfold sign_extend_u16, sshr, sshl. rewrite Z.mod_small by lia. bits_eq. f_equal. lia.
Qed.

Lemma sign_extend_range w v : 0 < w < 16 -> is_i w (sign_extend_u16 v w).
Proof. intros. rewrite sign_extend_u16_spec by lia. apply swrap_range. lia. Qed.

Lemma sign_extend_mod w k v :
  0 < w < 16 -> 0 <= k < w -> field w k v -> sign_extend_u16 v w mod 2 ^ k = 0.
Proof.
  intros Hw Hk [U M]. rewrite sign_extend_u16_spec by lia.
  apply mod_pow2_0_bits; [lia|]. intros. rewrite testbit_swrap, Z.min_l by lia.
  by apply (proj1 (mod_pow2_0_bits k v ltac:(lia)) M).
Qed.

Lemma sign_extend_0 w v : 0 < w < 16 -> field w 0 v -> sign_extend_u16 v w = 0 -> v = 0.
Proof.
  intros Hw [U _] E. rewrite sign_extend_u16_spec in E by lia.
  rewrite <- (wrap_small w v), <- (wrap_swrap w v), E by (done || lia). done.
Qed.

Lemma shl_bits_0 a b s v :
  valid_range 16 a b -> 0 <= s -> s + (1 + a - b) <= 16 ->
  shl_u 16 (bits_subset 16 v a b) s = 0 -> bits_subset 16 v a b = 0.
Proof.
  intros V ? ? E. pose proof V as (? & ? & ?). pose proof (bits_subset_range 16 v a b V) as [? ?].
  unfold shl_u in E. rewrite Z.mod_small in E by lia.
  rewrite wrap_small in E; [by apply Z.shiftl_eq_0_iff in E; lia|].
  rewrite Z.shiftl_mul_pow2 by lia. unfold is_u. split; [nia|].
  assert (2 ^ (1 + a - b) * 2 ^ s <= 2 ^ 16).
  { rewrite <- Z.pow_add_r by lia. apply Z.pow_le_mono_r; lia. }
  nia.
Qed.

(** ** The compressed table *)

Lemma parse_compressed_instruction_eq b :
  is_u 16 b -> parse_compressed_instruction b = parse_compressed_instruction_inner b.
Proof.
  intros [? ?]. unfold parse_compressed_instruction, COMPRESSED_JUMP_TABLE.
  rewrite list_lookup_fmap, lookup_seqZ_lt by lia. simpl. f_equal. lia.
Qed.

Lemma c_reg_prime_spec b s :
  is_u 16 b -> 0 <= s <= 13 -> c_reg_prime b s = (b / 2 ^ s) mod 8 + 8.
Proof.
  intros. unfold c_reg_prime. rewrite u3_extract_u16_spec by done.
  pose proof (Z.mod_pos_bound (b / 2 ^ s) 8 ltac:(lia)).
  rewrite u5_wrapping_add_spec by (unfold is_u; lia). apply Z.mod_small. lia.
Qed.

(** On 16-bit inputs the decoder does not depend on which implementation of
    the [arbitrary_int] operations it is given. *)
Lemma parse_compressed_inner_ref b :
  is_u 16 b ->
  parse_compressed_instruction_inner b =
  @parse_compressed_instruction_inner ArbitraryInt_ref b.
Proof.
  intros H.
  assert (E1 : forall s, 0 <= s <= 13 -> c_reg_prime b s = @c_reg_prime ArbitraryInt_ref b s).
  { intros. rewrite c_reg_prime_spec by done. unfold c_reg_prime; simpl.
    pose proof (Z.mod_pos_bound (b / 2 ^ s) 8 ltac:(lia)). symmetry. apply Z.mod_small. lia. }
  unfold parse_compressed_instruction_inner, parse_op_c0, parse_op_c1, parse_op_c2, parse_c1_f3_4,
    cr_instr, cc_instr, c_rs1p, c_rdp_rs2p, c_f_rdp_rs2p, c_rd_rs1, c_f_rd_rs1, c_rs2, c_f_rs2.
  rewrite !E1, !u5_extract_u16_spec by (done || lia). done.
Qed.

(** ** Operands of compressed instructions

    What the interpreter's [debug_assert!]s and the ISA ask of the operands
    of a decoded compressed instruction: registers that must not be [x0],
    immediates that must not be zero, scaled and in range. *)
Definition c_operands_ok (i : Instr) : bool :=
  match i with
  | Cacheable (CAddi a) =>
      negb (XRegister_is_zero a.(cib_rd_rs1)) && negb (a.(cib_imm) =? 0)
      && bool_decide (is_i 6 a.(cib_imm))
  | Cacheable (CAddiw a) | Cacheable (CLi a) =>
      negb (XRegister_is_zero a.(cib_rd_rs1)) && bool_decide (is_i 6 a.(cib_imm))
  | Cacheable (CAndi a) => bool_decide (is_i 6 a.(cib_imm))
  | Cacheable (CLui a) =>
      negb (XRegister_is_zero a.(cib_rd_rs1)) && bool_decide (a.(cib_rd_rs1) <> x2)
      && negb (a.(cib_imm) =? 0) && (a.(cib_imm) mod 4096 =? 0)
      && bool_decide (is_i 18 a.(cib_imm))
  | Cacheable (CAddi16sp a) =>
      negb (a.(cj_imm) =? 0) && (a.(cj_imm) mod 16 =? 0) && bool_decide (is_i 10 a.(cj_imm))
  | Cacheable (CAddi4spn a) =>
      negb (a.(cib_imm) =? 0) && (a.(cib_imm) mod 4 =? 0) && bool_decide (is_u 10 a.(cib_imm))
  | Cacheable (CSlli a) =>
      negb (XRegister_is_zero a.(cib_rd_rs1)) && negb (a.(cib_imm) =? 0)
      && bool_decide (is_u 6 a.(cib_imm))
  | Cacheable (CSrli a) | Cacheable (CSrai a) => bool_decide (is_u 6 a.(cib_imm))
  | Cacheable (CLwsp a) =>
      negb (XRegister_is_zero a.(cib_rd_rs1)) && (a.(cib_imm) mod 4 =? 0)
      && bool_decide (is_u 8 a.(cib_imm))
  | Cacheable (CLdsp a) =>
      negb (XRegister_is_zero a.(cib_rd_rs1)) && (a.(cib_imm) mod 8 =? 0)
      && bool_decide (is_u 9 a.(cib_imm))
  | Cacheable (CJr a) | Cacheable (CJalr a) => negb (XRegister_is_zero a.(crj_rs1))
  | Cacheable (CMv a) | Cacheable (CAdd a) =>
      negb (XRegister_is_zero a.(cr_rd_rs1)) && negb (XRegister_is_zero a.(cr_rs2))
  | Cacheable (CJ a) => (a.(cj_imm) mod 2 =? 0) && bool_decide (is_i 12 a.(cj_imm))
  | Cacheable (CBeqz a) | Cacheable (CBnez a) =>
      (a.(cib_imm) mod 2 =? 0) && bool_decide (is_i 9 a.(cib_imm))
  | Cacheable (CLw a) => (a.(i_imm) mod 4 =? 0) && bool_decide (is_u 7 a.(i_imm))
  | Cacheable (CSw a) => (a.(sb_imm) mod 4 =? 0) && bool_decide (is_u 7 a.(sb_imm))
  | Cacheable (CLd a) => (a.(i_imm) mod 8 =? 0) && bool_decide (is_u 8 a.(i_imm))
  | Cacheable (CSd a) => (a.(sb_imm) mod 8 =? 0) && bool_decide (is_u 8 a.(sb_imm))
  | Cacheable (CFld a) => (a.(fld_imm) mod 8 =? 0) && bool_decide (is_u 8 a.(fld_imm))
  | Cacheable (CFsd a) => (a.(fst_imm) mod 8 =? 0) && bool_decide (is_u 8 a.(fst_imm))
  | Cacheable (CFldsp a) => (a.(cibd_imm) mod 8 =? 0) && bool_decide (is_u 9 a.(cibd_imm))
  | Cacheable (CSwsp a) => (a.(css_imm) mod 4 =? 0) && bool_decide (is_u 8 a.(css_imm))
  | Cacheable (CSdsp a) => (a.(css_imm) mod 8 =? 0) && bool_decide (is_u 9 a.(css_imm))
  | Cacheable (CFsdsp a) => (a.(cssd_imm) mod 8 =? 0) && bool_decide (is_u 9 a.(cssd_imm))
  | _ => true
  end.


Ltac imm_fields := unfold clw_imm, cld_imm, cslli_imm, ci_lwsp_imm, ci_ldsp_imm, css_swsp_imm,
  css_sdsp_imm, ciw_imm, cb_shamt_imm, ci_imm, ci_addi16sp_imm, cb_imm, cb_andi_imm, c_j_imm;
  cbv zeta.

(** The range and alignment of each immediate. *)
Lemma unsigned_imms b :
  field 7 2 (clw_imm b) /\ field 8 3 (cld_imm b) /\ field 6 0 (cslli_imm b) /\
  field 8 2 (ci_lwsp_imm b) /\ field 9 3 (ci_ldsp_imm b) /\ field 8 2 (css_swsp_imm b) /\
  field 9 3 (css_sdsp_imm b) /\ field 10 2 (ciw_imm b) /\ field 6 0 (cb_shamt_imm b).
Proof. imm_fields. repeat split_and; field_solve. Qed.

Lemma signed_imms b :
  is_i 6 (ci_imm b) /\ is_i 6 (cb_andi_imm b) /\ is_i 10 (ci_addi16sp_imm b) /\
  ci_addi16sp_imm b mod 2 ^ 4 = 0 /\ is_i 9 (cb_imm b) /\ cb_imm b mod 2 ^ 1 = 0 /\
  is_i 12 (c_j_imm b) /\ c_j_imm b mod 2 ^ 1 = 0.
Proof.
  imm_fields. repeat split_and; try (apply sign_extend_range; lia);
    (eapply sign_extend_mod; [lia|lia|field_solve]).
Qed.

(** A zero immediate means that all the bits it is made of are zero. *)
Lemma bits_subset_0 b hi lo i :
  valid_range 16 hi lo -> bits_subset 16 b hi lo = 0 -> lo <= i <= hi -> Z.testbit b i = false.
Proof.
  intros V E Hi. pose proof V as (? & ? & ?).
  assert (Z.testbit (bits_subset 16 b hi lo) (i - lo) = false) as T by by rewrite E, Z.bits_0.
  rewrite testbit_bits_subset in T by done. revert T. rewrite Z.sub_add. bits_cases.
Qed.

Ltac split_zero H :=
  repeat (apply Z.lor_eq_0_iff in H as [H ?H]);
  repeat match goal with E : shl_u 16 (bits_subset 16 _ _ _) _ = 0 |- _ =>
    apply shl_bits_0 in E; [|vm_compute; intuition congruence|lia|lia] end.

Lemma bits_6_2_0 b :
  (forall i, 2 <= i <= 6 -> Z.testbit b i = false) -> bits_subset 16 b 6 2 = 0.
Proof.
  intros H. apply Z.bits_inj'; intros i Hi. rewrite Z.bits_0, testbit_bits_subset.
  - bool_cases; simpl; try done. apply H. lia.
  - vm_compute; intuition congruence.
Qed.

Lemma ci_imm_0 b :
  ci_imm b = 0 \/ ci_addi16sp_imm b = 0 ->
  (bits_subset 16 b 6 2 =? 0) && negb (bit 16 b 12) = true.
Proof.
  intros H. rewrite bit_testbit by lia.
  assert (forall i, 2 <= i <= 6 \/ i = 12 -> Z.testbit b i = false) as B.
  { destruct H as [H|H]; unfold ci_imm, ci_addi16sp_imm in H;
      [apply (sign_extend_0 6) in H; [|lia|field_solve]
      |apply (sign_extend_0 10) in H; [|lia|field_solve]]; split_zero H;
      intros i Hi; (assert (i = 2 \/ i = 3 \/ i = 4 \/ i = 5 \/ i = 6 \/ i = 12) as C by lia);
      destruct_or! C; subst i;
      match goal with |- Z.testbit b ?i = false =>
        match goal with E : bits_subset 16 b ?hi ?lo = 0 |- _ =>
          apply (bits_subset_0 b hi lo); [vm_compute; intuition congruence|done|lia] end end. }
  rewrite bits_6_2_0 by auto. rewrite B by auto. done.
Qed.

Lemma clui_imm_ok b :
  (bits_subset 16 b 6 2 =? 0) && negb (bit 16 b 12) = false ->
  sshl 64 (ci_imm b) 12 <> 0 /\ sshl 64 (ci_imm b) 12 mod 4096 = 0 /\
  is_i 18 (sshl 64 (ci_imm b) 12).
Proof.
  intros H. pose proof (signed_imms b) as ([? ?] & _).
  assert (sshl 64 (ci_imm b) 12 = ci_imm b * 4096) as ->.
  { unfold sshl. rewrite Z.mod_small, Z.shiftl_mul_pow2 by lia.
    apply swrap_small; [lia|]. unfold is_i in *. pow2. lia. }
  split_and!.
  - intros E. rewrite ci_imm_0 in H; [done|]. left. lia.
  - apply Z.mod_mul. lia.
  - unfold is_i in *. pow2. lia.
Qed.

Lemma addi16sp_imm_ok b :
  (bits_subset 16 b 6 2 =? 0) && negb (bit 16 b 12) = false -> ci_addi16sp_imm b <> 0.
Proof. intros H E. rewrite ci_imm_0 in H; [done|]. by right. Qed.

(** Closes a condition of [c_operands_ok] from the facts on the immediates. *)
Ltac operand_cond :=
  repeat (apply andb_true_intro; split); try reflexivity;
  rewrite ?negb_true_iff, ?Z.eqb_eq, ?Z.eqb_neq, ?bool_decide_eq_true;
  try done; unfold field, is_i, is_u in *; pow2; (lia || intuition congruence).

Lemma parse_op_c0_ok b :
  c_operands_ok (Cacheable (parse_op_c0 b)) = true /\
  InstrCacheable_width (parse_op_c0 b) = Compressed.
Proof.
  pose proof (unsigned_imms b) as U. destruct_and! U.
  unfold parse_op_c0. split; repeat case_match; try done; cbn; operand_cond.
Qed.

Lemma parse_c1_f3_4_ok b :
  c_operands_ok (Cacheable (parse_c1_f3_4 b)) = true /\
  InstrCacheable_width (parse_c1_f3_4 b) = Compressed.
Proof.
  pose proof (unsigned_imms b) as U. destruct_and! U.
  pose proof (signed_imms b) as S. destruct_and! S.
  unfold parse_c1_f3_4, cc_instr, cr_instr.
  split; repeat case_match; try done; cbn; operand_cond.
Qed.

Lemma parse_op_c1_ok b :
  c_operands_ok (Cacheable (parse_op_c1 b)) = true /\
  InstrCacheable_width (parse_op_c1 b) = Compressed.
Proof.
  pose proof (signed_imms b) as S. destruct_and! S.
  pose proof (parse_c1_f3_4_ok b) as [? ?].
  pose proof (clui_imm_ok b) as L. pose proof (addi16sp_imm_ok b) as A.
  unfold parse_op_c1, cc_instr. split; repeat case_match; try done; cbn;
    try (destruct L as (? & ? & ?); [done|]); try (specialize (A ltac:(done))); operand_cond.
Qed.

Lemma parse_op_c2_ok b :
  c_operands_ok (parse_op_c2 b) = true /\ Instr_width (parse_op_c2 b) = Compressed.
Proof.
  pose proof (unsigned_imms b) as U. destruct_and! U.
  unfold parse_op_c2. split; repeat case_match; try done; cbn; operand_cond.
Qed.

Lemma parse_compressed_width b :
  is_u 16 b -> Instr_width (parse_compressed_instruction b) = Compressed.
Proof.
  intros H. rewrite parse_compressed_instruction_eq by done.
  unfold parse_compressed_instruction_inner.
  pose proof (parse_op_c0_ok b) as [? ?]. pose proof (parse_op_c1_ok b) as [? ?].
  pose proof (parse_op_c2_ok b) as [? ?]. repeat case_match; done.
Qed.

(** Every one of the 65536 halfwords decodes to an instruction of width 2
    whose operands are in range: register numbers that the ISA reserves
    (and the interpreter asserts) not to be [x0] are not, non-zero
    immediates are not zero, offsets are scaled and within their field. *)
Theorem parse_compressed_operands b :
  is_u 16 b ->
  Instr_width (parse_compressed_instruction b) = Compressed /\
  c_operands_ok (parse_compressed_instruction b) = true.
Proof.
  intros H. split; [by apply parse_compressed_width|].
  rewrite parse_compressed_instruction_eq by done. unfold parse_compressed_instruction_inner.
  pose proof (parse_op_c0_ok b) as [? ?]. pose proof (parse_op_c1_ok b) as [? ?].
  pose proof (parse_op_c2_ok b) as [? ?]. repeat case_match; done.
Qed.

(** ** Widths of uncompressed instructions *)

Ltac match_width :=
  intros; repeat (match goal with |- context [match ?x with _ => _ end] => destruct x end;
                  try reflexivity); try reflexivity.

Lemma parse_op_fp_width instr :
  InstrCacheable_width (parse_op_fp_s instr) = Uncompressed /\
  InstrCacheable_width (parse_op_fp_d instr) = Uncompressed.
Proof.
  unfold parse_op_fp_s, parse_op_fp_d, f_r_rm_2_instr, f_r_rm_1_instr, f_r_int_fmt_instr,
    f_r_fmt_int_instr.
  split; match_width.
Qed.

Lemma parse_op_int_width instr :
  InstrCacheable_width (parse_op_arith instr) = Uncompressed /\
  InstrCacheable_width (parse_op_arith_w instr) = Uncompressed /\
  InstrCacheable_width (parse_op_arith_i instr) = Uncompressed /\
  InstrCacheable_width (parse_op_arith_iw instr) = Uncompressed /\
  InstrCacheable_width (parse_op_amo instr) = Uncompressed /\
  Instr_width (parse_op_sys instr) = Uncompressed.
Proof.
  unfold parse_op_arith, parse_op_arith_w, parse_op_arith_i, parse_op_arith_iw, parse_op_amo,
    parse_op_sys, csr_instr, csri_instr. split_and!; match_width.
Qed.

Lemma parse_uncompressed_width instr :
  Instr_width (parse_uncompressed_instruction instr) = Uncompressed.
Proof.
  pose proof (parse_op_fp_width instr) as [? ?].
  pose proof (parse_op_int_width instr) as (? & ? & ? & ? & ? & ?).
  assert (forall c, (forall a, InstrCacheable_width (c a) = Uncompressed) ->
    InstrCacheable_width (f_r_rm_3_instr c instr) = Uncompressed) as R3.
  { intros c Hc. unfold f_r_rm_3_instr. case_match; [apply Hc|done]. }
  unfold parse_uncompressed_instruction.
  match_width; first [assumption | cbn; unfold parse_op_load, parse_op_synch, parse_op_store,
    parse_op_branch, parse_op_fp, parse_op_fmadd, parse_op_fmsub, parse_op_fnmsub, parse_op_fnmadd,
    parse_op_fp_load, parse_op_fp_store, parse_op_jalr; repeat case_match;
    (done || (apply R3; done))].
Qed.

(** What [parse] returns has the width that [is_compressed] announces, so
    advancing the program counter by the width of the decoded instruction
    moves it past exactly the halfwords that were fetched; a failure to
    fetch the second halfword is passed on, and is not observed when the
    first halfword is a compressed instruction. *)
Theorem parse_width {M : Type -> Type} `{MRet M, MBind M} bytes (more : M Z) :
  is_u 16 bytes ->
  if is_compressed bytes
  then exists i, parse bytes more = mret i /\ Instr_width i = Compressed
  else exists f, parse bytes more = (upper ← more; mret (f upper)) /\
         forall upper, Instr_width (f upper) = Uncompressed.
Proof.
  intros Hb. unfold is_compressed, parse. destruct (negb _).
  - eexists. split; [done|]. by apply parse_compressed_width.
  - eexists (fun upper => parse_uncompressed_instruction _). split; [done|].
    intros. apply parse_uncompressed_width.
Qed.
End Spec.

Lemma parse_compressed_operands_witness :
  c_operands_ok (@parse_compressed_instruction ArbitraryInt_ref 0x4505) = true.
Proof. apply (parse_compressed_operands 0x4505). vm_compute; intuition congruence. Defined.

Lemma parse_width_witness :
  exists i, @parse ArbitraryInt_ref option _ _ 0x4505 None = Some i /\ Instr_width i = Compressed.
Proof.
  assert (H : is_u 16 0x4505) by (vm_compute; intuition congruence).
  exact (@parse_width ArbitraryInt_ref option _ _ 0x4505 None H).
Defined.
