(* ===== verification/Encode.v ===== *)
(** The encodings of the uncompressed instructions, as the ISA manual gives
    them, and the proof that the decoder inverts them. *)
From S2P Require Import Prelude Bits Registers CSRegister Instruction Parser ParserSpec.

(** ** Instruction words *)

(** Opcodes, by their names in the opcode map of the ISA manual. *)
Abbreviation ISA_OP := 0x33%Z.
Abbreviation ISA_OP_32 := 0x3b%Z.
Abbreviation ISA_OP_IMM := 0x13%Z.
Abbreviation ISA_OP_IMM_32 := 0x1b%Z.
Abbreviation ISA_LOAD := 0x3%Z.
Abbreviation ISA_STORE := 0x23%Z.
Abbreviation ISA_BRANCH := 0x63%Z.
Abbreviation ISA_LUI := 0x37%Z.
Abbreviation ISA_AUIPC := 0x17%Z.
Abbreviation ISA_JAL := 0x6f%Z.
Abbreviation ISA_JALR := 0x67%Z.
Abbreviation ISA_SYSTEM := 0x73%Z.
Abbreviation ISA_OP_FP := 0x53%Z.
Abbreviation ISA_LOAD_FP := 0x7%Z.
Abbreviation ISA_STORE_FP := 0x27%Z.
Abbreviation ISA_MADD := 0x43%Z.
Abbreviation ISA_MSUB := 0x47%Z.
Abbreviation ISA_NMSUB := 0x4b%Z.
Abbreviation ISA_NMADD := 0x4f%Z.
Abbreviation ISA_AMO := 0x2f%Z.
Abbreviation ISA_MISC_MEM := 0xf%Z.

(** The six fields every 32-bit format is made of. *)
Definition word (op rd f3 rs1 rs2 f7 : Z) : Z :=
  op + rd * 2 ^ 7 + f3 * 2 ^ 12 + rs1 * 2 ^ 15 + rs2 * 2 ^ 20 + f7 * 2 ^ 25.

(** The five-bit number of a register. *)
Definition xnum (r : XRegister) : Z := match r with x0 => 0 | _ => XRegister_repr r + 1 end.
Definition fnum (r : FRegister) : Z := FRegister_repr r.

Definition rmnum (rm : InstrRoundingMode) : Z :=
  match rm with
  | Dynamic => 7
  | Static RNE => 0 | Static RTZ => 1 | Static RDN => 2 | Static RUP => 3 | Static RMM => 4
  end.

Definition slice (imm lo n : Z) : Z := wrap n (Z.shiftr imm lo).

Definition encR op f3 f7 (a : RTypeArgs) : Z :=
  word op (xnum a.(r_rd)) f3 (xnum a.(r_rs1)) (xnum a.(r_rs2)) f7.
Definition encI op f3 (a : ITypeArgs) : Z :=
  word op (xnum a.(i_rd)) f3 (xnum a.(i_rs1)) (slice a.(i_imm) 0 5) (slice a.(i_imm) 5 7).
Definition encS op f3 (a : SBTypeArgs) : Z :=
  word op (slice a.(sb_imm) 0 5) f3 (xnum a.(sb_rs1)) (xnum a.(sb_rs2)) (slice a.(sb_imm) 5 7).
Definition encB f3 (a : SBTypeArgs) : Z :=
  word ISA_BRANCH (slice a.(sb_imm) 11 1 + 2 * slice a.(sb_imm) 1 4) f3 (xnum a.(sb_rs1))
    (xnum a.(sb_rs2)) (slice a.(sb_imm) 5 6 + 64 * slice a.(sb_imm) 12 1).
Definition encU op (a : UJTypeArgs) : Z :=
  word op (xnum a.(uj_rd)) (slice a.(uj_imm) 12 3) (slice a.(uj_imm) 15 5)
    (slice a.(uj_imm) 20 5) (slice a.(uj_imm) 25 7).
Definition encJ op (a : UJTypeArgs) : Z :=
  word op (xnum a.(uj_rd)) (slice a.(uj_imm) 12 3) (slice a.(uj_imm) 15 5)
    (slice a.(uj_imm) 11 1 + 2 * slice a.(uj_imm) 1 4)
    (slice a.(uj_imm) 5 6 + 64 * slice a.(uj_imm) 20 1).
Definition encAmo f3 f5 (a : AmoArgs) : Z :=
  word ISA_AMO (xnum a.(amo_rd)) f3 (xnum a.(amo_rs1)) (xnum a.(amo_rs2))
    (Z.b2z a.(amo_rl) + 2 * Z.b2z a.(amo_aq) + 4 * f5).
Definition encCsr f3 (a : CsrArgs) : Z :=
  word ISA_SYSTEM (xnum a.(cs_rd)) f3 (xnum a.(cs_rs1)) (slice (CSRegister_repr a.(cs_csr)) 0 5)
    (slice (CSRegister_repr a.(cs_csr)) 5 7).
Definition encCsri f3 (a : CsriArgs) : Z :=
  word ISA_SYSTEM (xnum a.(csi_rd)) f3 a.(csi_imm) (slice (CSRegister_repr a.(csi_csr)) 0 5)
    (slice (CSRegister_repr a.(csi_csr)) 5 7).
(** Floating-point words: [f7] is [funct5 * 4 + fmt]. *)
Definition encFR2 f7 (a : FR2ArgsWithRounding) : Z :=
  word ISA_OP_FP (fnum a.(fr2_rd)) (rmnum a.(fr2_rm)) (fnum a.(fr2_rs1)) (fnum a.(fr2_rs2)) f7.
Definition encFR1 f7 c (a : FR1ArgWithRounding) : Z :=
  word ISA_OP_FP (fnum a.(fr1_rd)) (rmnum a.(fr1_rm)) (fnum a.(fr1_rs1)) c f7.
Definition encFR f7 f3 (a : FRArgs) : Z :=
  word ISA_OP_FP (fnum a.(fr_rd)) f3 (fnum a.(fr_rs1)) (fnum a.(fr_rs2)) f7.
Definition encFCmp f7 f3 (a : FCmpArgs) : Z :=
  word ISA_OP_FP (xnum a.(fc_rd)) f3 (fnum a.(fc_rs1)) (fnum a.(fc_rs2)) f7.
Definition encXFr f7 c (a : XRegToFRegArgsWithRounding) : Z :=
  word ISA_OP_FP (fnum a.(xfr_rd)) (rmnum a.(xfr_rm)) (xnum a.(xfr_rs1)) c f7.
Definition encFXr f7 c (a : FRegToXRegArgsWithRounding) : Z :=
  word ISA_OP_FP (xnum a.(fxr_rd)) (rmnum a.(fxr_rm)) (fnum a.(fxr_rs1)) c f7.
Definition encFX f7 f3 (a : FRegToXRegArgs) : Z :=
  word ISA_OP_FP (xnum a.(fx_rd)) f3 (fnum a.(fx_rs1)) 0 f7.
Definition encXF f7 f3 (a : XRegToFRegArgs) : Z :=
  word ISA_OP_FP (fnum a.(xf_rd)) f3 (xnum a.(xf_rs1)) 0 f7.
Definition encFR3 op fmt (a : FR3ArgsWithRounding) : Z :=
  word op (fnum a.(fr3_rd)) (rmnum a.(fr3_rm)) (fnum a.(fr3_rs1)) (fnum a.(fr3_rs2))
    (fmt + 4 * fnum a.(fr3_rs3)).
Definition encFL f3 (a : FLoadArgs) : Z :=
  word ISA_LOAD_FP (fnum a.(fld_rd)) f3 (xnum a.(fld_rs1)) (slice a.(fld_imm) 0 5)
    (slice a.(fld_imm) 5 7).
Definition encFS f3 (a : FStoreArgs) : Z :=
  word ISA_STORE_FP (slice a.(fst_imm) 0 5) f3 (xnum a.(fst_rs1)) (fnum a.(fst_rs2))
    (slice a.(fst_imm) 5 7).

(** ** The encoding of each instruction and its operand constraints

    [None] for the instructions that have no 32-bit encoding. *)
Definition if_ok (P : Prop) `{Decision P} (w : Z) : option Z := if decide P then Some w else None.

Definition encode_int (i : InstrCacheable) : option Z :=
  match i with
  | Add a => Some (encR ISA_OP 0 0 a)
  | Sub a => Some (encR ISA_OP 0 32 a)
  | Xor a => Some (encR ISA_OP 4 0 a)
  | Or a => Some (encR ISA_OP 6 0 a)
  | And a => Some (encR ISA_OP 7 0 a)
  | Sll a => Some (encR ISA_OP 1 0 a)
  | Srl a => Some (encR ISA_OP 5 0 a)
  | Sra a => Some (encR ISA_OP 5 32 a)
  | Slt a => Some (encR ISA_OP 2 0 a)
  | Sltu a => Some (encR ISA_OP 3 0 a)
  | Addw a => Some (encR ISA_OP_32 0 0 a)
  | Subw a => Some (encR ISA_OP_32 0 32 a)
  | Sllw a => Some (encR ISA_OP_32 1 0 a)
  | Srlw a => Some (encR ISA_OP_32 5 0 a)
  | Sraw a => Some (encR ISA_OP_32 5 32 a)
  | Mul a => Some (encR ISA_OP 0 1 a)
  | Mulh a => Some (encR ISA_OP 1 1 a)
  | Mulhsu a => Some (encR ISA_OP 2 1 a)
  | Mulhu a => Some (encR ISA_OP 3 1 a)
  | Div a => Some (encR ISA_OP 4 1 a)
  | Divu a => Some (encR ISA_OP 5 1 a)
  | Rem a => Some (encR ISA_OP 6 1 a)
  | Remu a => Some (encR ISA_OP 7 1 a)
  | Mulw a => Some (encR ISA_OP_32 0 1 a)
  | Divw a => Some (encR ISA_OP_32 4 1 a)
  | Divuw a => Some (encR ISA_OP_32 5 1 a)
  | Remw a => Some (encR ISA_OP_32 6 1 a)
  | Remuw a => Some (encR ISA_OP_32 7 1 a)
  | Addi a => if_ok (is_i 12 a.(i_imm)) (encI ISA_OP_IMM 0 a)
  | Slti a => if_ok (is_i 12 a.(i_imm)) (encI ISA_OP_IMM 2 a)
  | Sltiu a => if_ok (is_i 12 a.(i_imm)) (encI ISA_OP_IMM 3 a)
  | Xori a => if_ok (is_i 12 a.(i_imm)) (encI ISA_OP_IMM 4 a)
  | Ori a => if_ok (is_i 12 a.(i_imm)) (encI ISA_OP_IMM 6 a)
  | Andi a => if_ok (is_i 12 a.(i_imm)) (encI ISA_OP_IMM 7 a)
  | Slli a => if_ok (is_u 6 a.(i_imm)) (encI ISA_OP_IMM 1 a)
  | Srli a => if_ok (is_u 6 a.(i_imm)) (encI ISA_OP_IMM 5 a)
  | Srai a => if_ok (is_u 6 (a.(i_imm) - 1024)) (encI ISA_OP_IMM 5 a)
  | Addiw a => if_ok (is_i 12 a.(i_imm)) (encI ISA_OP_IMM_32 0 a)
  | Slliw a => if_ok (is_u 5 a.(i_imm)) (encI ISA_OP_IMM_32 1 a)
  | Srliw a => if_ok (is_u 5 a.(i_imm)) (encI ISA_OP_IMM_32 5 a)
  | Sraiw a => if_ok (is_u 5 (a.(i_imm) - 1024)) (encI ISA_OP_IMM_32 5 a)
  | Lb a => if_ok (is_i 12 a.(i_imm)) (encI ISA_LOAD 0 a)
  | Lh a => if_ok (is_i 12 a.(i_imm)) (encI ISA_LOAD 1 a)
  | Lw a => if_ok (is_i 12 a.(i_imm)) (encI ISA_LOAD 2 a)
  | Ld a => if_ok (is_i 12 a.(i_imm)) (encI ISA_LOAD 3 a)
  | Lbu a => if_ok (is_i 12 a.(i_imm)) (encI ISA_LOAD 4 a)
  | Lhu a => if_ok (is_i 12 a.(i_imm)) (encI ISA_LOAD 5 a)
  | Lwu a => if_ok (is_i 12 a.(i_imm)) (encI ISA_LOAD 6 a)
  | Jalr a => if_ok (is_i 12 a.(i_imm)) (encI ISA_JALR 0 a)
  | Sb a => if_ok (is_i 12 a.(sb_imm)) (encS ISA_STORE 0 a)
  | Sh a => if_ok (is_i 12 a.(sb_imm)) (encS ISA_STORE 1 a)
  | Sw a => if_ok (is_i 12 a.(sb_imm)) (encS ISA_STORE 2 a)
  | Sd a => if_ok (is_i 12 a.(sb_imm)) (encS ISA_STORE 3 a)
  | Beq a => if_ok (is_i 13 a.(sb_imm) /\ a.(sb_imm) mod 2 = 0) (encB 0 a)
  | Bne a => if_ok (is_i 13 a.(sb_imm) /\ a.(sb_imm) mod 2 = 0) (encB 1 a)
  | Blt a => if_ok (is_i 13 a.(sb_imm) /\ a.(sb_imm) mod 2 = 0) (encB 4 a)
  | Bge a => if_ok (is_i 13 a.(sb_imm) /\ a.(sb_imm) mod 2 = 0) (encB 5 a)
  | Bltu a => if_ok (is_i 13 a.(sb_imm) /\ a.(sb_imm) mod 2 = 0) (encB 6 a)
  | Bgeu a => if_ok (is_i 13 a.(sb_imm) /\ a.(sb_imm) mod 2 = 0) (encB 7 a)
  | Lui a => if_ok (is_i 32 a.(uj_imm) /\ a.(uj_imm) mod 4096 = 0) (encU ISA_LUI a)
  | Auipc a => if_ok (is_i 32 a.(uj_imm) /\ a.(uj_imm) mod 4096 = 0) (encU ISA_AUIPC a)
  | Jal a => if_ok (is_i 21 a.(uj_imm) /\ a.(uj_imm) mod 2 = 0) (encJ ISA_JAL a)
  | Csrrw a => Some (encCsr 1 a)
  | Csrrs a => Some (encCsr 2 a)
  | Csrrc a => Some (encCsr 3 a)
  | Csrrwi a => if_ok (is_u 5 a.(csi_imm)) (encCsri 5 a)
  | Csrrsi a => if_ok (is_u 5 a.(csi_imm)) (encCsri 6 a)
  | Csrrci a => if_ok (is_u 5 a.(csi_imm)) (encCsri 7 a)
  | _ => None
  end.

Definition encode_amo (i : InstrCacheable) : option Z :=
  match i with
  | Lrw a => if_ok (a.(amo_rs2) = x0) (encAmo 2 2 a)
  | Scw a => Some (encAmo 2 3 a)
  | Amoswapw a => Some (encAmo 2 1 a)
  | Amoaddw a => Some (encAmo 2 0 a)
  | Amoxorw a => Some (encAmo 2 4 a)
  | Amoandw a => Some (encAmo 2 12 a)
  | Amoorw a => Some (encAmo 2 8 a)
  | Amominw a => Some (encAmo 2 16 a)
  | Amomaxw a => Some (encAmo 2 20 a)
  | Amominuw a => Some (encAmo 2 24 a)
  | Amomaxuw a => Some (encAmo 2 28 a)
  | Lrd a => if_ok (a.(amo_rs2) = x0) (encAmo 3 2 a)
  | Scd a => Some (encAmo 3 3 a)
  | Amoswapd a => Some (encAmo 3 1 a)
  | Amoaddd a => Some (encAmo 3 0 a)
  | Amoxord a => Some (encAmo 3 4 a)
  | Amoandd a => Some (encAmo 3 12 a)
  | Amoord a => Some (encAmo 3 8 a)
  | Amomind a => Some (encAmo 3 16 a)
  | Amomaxd a => Some (encAmo 3 20 a)
  | Amominud a => Some (encAmo 3 24 a)
  | Amomaxud a => Some (encAmo 3 28 a)
  | _ => None
  end.

Definition encode_float (i : InstrCacheable) : option Z :=
  match i with
  | Fadds a => Some (encFR2 0 a)
  | Fsubs a => Some (encFR2 4 a)
  | Fmuls a => Some (encFR2 8 a)
  | Fdivs a => Some (encFR2 12 a)
  | Fsqrts a => Some (encFR1 44 0 a)
  | Fsgnjs a => Some (encFR 16 0 a)
  | Fsgnjns a => Some (encFR 16 1 a)
  | Fsgnjxs a => Some (encFR 16 2 a)
  | Fmins a => Some (encFR 20 0 a)
  | Fmaxs a => Some (encFR 20 1 a)
  | Fcvtsd a => Some (encFR1 32 1 a)
  | Fles a => Some (encFCmp 80 0 a)
  | Flts a => Some (encFCmp 80 1 a)
  | Feqs a => Some (encFCmp 80 2 a)
  | Fcvtws a => Some (encFXr 96 0 a)
  | Fcvtwus a => Some (encFXr 96 1 a)
  | Fcvtls a => Some (encFXr 96 2 a)
  | Fcvtlus a => Some (encFXr 96 3 a)
  | Fcvtsw a => Some (encXFr 104 0 a)
  | Fcvtswu a => Some (encXFr 104 1 a)
  | Fcvtsl a => Some (encXFr 104 2 a)
  | Fcvtslu a => Some (encXFr 104 3 a)
  | FmvXW a => Some (encFX 112 0 a)
  | FclassS a => Some (encFX 112 1 a)
  | FmvWX a => Some (encXF 120 0 a)
  | Faddd a => Some (encFR2 1 a)
  | Fsubd a => Some (encFR2 5 a)
  | Fmuld a => Some (encFR2 9 a)
  | Fdivd a => Some (encFR2 13 a)
  | Fsqrtd a => Some (encFR1 45 0 a)
  | Fsgnjd a => Some (encFR 17 0 a)
  | Fsgnjnd a => Some (encFR 17 1 a)
  | Fsgnjxd a => Some (encFR 17 2 a)
  | Fmind a => Some (encFR 21 0 a)
  | Fmaxd a => Some (encFR 21 1 a)
  | Fcvtds a => Some (encFR1 33 0 a)
  | Fled a => Some (encFCmp 81 0 a)
  | Fltd a => Some (encFCmp 81 1 a)
  | Feqd a => Some (encFCmp 81 2 a)
  | Fcvtwd a => Some (encFXr 97 0 a)
  | Fcvtwud a => Some (encFXr 97 1 a)
  | Fcvtld a => Some (encFXr 97 2 a)
  | Fcvtlud a => Some (encFXr 97 3 a)
  | Fcvtdw a => Some (encXFr 105 0 a)
  | Fcvtdwu a => Some (encXFr 105 1 a)
  | Fcvtdl a => Some (encXFr 105 2 a)
  | Fcvtdlu a => Some (encXFr 105 3 a)
  | FmvXD a => Some (encFX 113 0 a)
  | FclassD a => Some (encFX 113 1 a)
  | FmvDX a => Some (encXF 121 0 a)
  | Fmadds a => Some (encFR3 ISA_MADD 0 a)
  | Fmaddd a => Some (encFR3 ISA_MADD 1 a)
  | Fmsubs a => Some (encFR3 ISA_MSUB 0 a)
  | Fmsubd a => Some (encFR3 ISA_MSUB 1 a)
  | Fnmsubs a => Some (encFR3 ISA_NMSUB 0 a)
  | Fnmsubd a => Some (encFR3 ISA_NMSUB 1 a)
  | Fnmadds a => Some (encFR3 ISA_NMADD 0 a)
  | Fnmaddd a => Some (encFR3 ISA_NMADD 1 a)
  | Flw a => if_ok (is_i 12 a.(fld_imm)) (encFL 2 a)
  | Fld a => if_ok (is_i 12 a.(fld_imm)) (encFL 3 a)
  | Fsw a => if_ok (is_i 12 a.(fst_imm)) (encFS 2 a)
  | Fsd a => if_ok (is_i 12 a.(fst_imm)) (encFS 3 a)
  | _ => None
  end.

Definition encode_cacheable (i : InstrCacheable) : option Z :=
  match encode_int i with
  | Some w => Some w
  | None => match encode_amo i with Some w => Some w | None => encode_float i end
  end.

(** The four bits of a set of a fence: input, output, read, write. *)
Definition fence_bits (s : FenceSet) : Z :=
  8 * Z.b2z s.(fs_i) + 4 * Z.b2z s.(fs_o) + 2 * Z.b2z s.(fs_r) + Z.b2z s.(fs_w).

(** A fence with mode [mode]: the predecessor set is in bits 27 to 24, the
    successor set in bits 23 to 20. *)
Definition encFence mode (a : FenceArgs) : Z :=
  word ISA_MISC_MEM 0 0 0 (fence_bits a.(fa_succ) + 16 * Z.b2z a.(fa_pred).(fs_w))
    (4 * Z.b2z a.(fa_pred).(fs_i) + 2 * Z.b2z a.(fa_pred).(fs_o) + Z.b2z a.(fa_pred).(fs_r) + 8 * mode).

(** [RW, RW], the only sets of [FENCE.TSO]. *)
Definition fence_rw : FenceSet := {| fs_i := false; fs_o := false; fs_r := true; fs_w := true |}.

Definition encode_uncacheable (i : InstrUncacheable) : option Z :=
  match i with
  | Fence a => Some (encFence 0 a)
  | FenceTso a => if_ok (a = {| fa_pred := fence_rw; fa_succ := fence_rw |}) (encFence 8 a)
  | FenceI => Some 0x0000100f
  | Ecall => Some 0x00000073
  | Ebreak => Some 0x00100073
  | Sret => Some 0x10200073
  | Mret => Some 0x30200073
  | Mnret => Some 0x70200073
  | Wfi => Some 0x10500073
  | SFenceVma asid vaddr => Some (word ISA_SYSTEM 0 0 (xnum vaddr) (xnum asid) 9)
  | CEbreak => None
  end.

(** The word of an instruction; [None] for compressed and unknown ones and for
    operands that do not fit. *)
Definition encode (i : Instr) : option Z :=
  match i with
  | Cacheable i => encode_cacheable i
  | Uncacheable i => encode_uncacheable i
  end.

(** ** The fields of a word *)
Section Fields.
Context {AI : ArbitraryInt} {AIL : ArbitraryIntLaws AI}.

(** The ranges of the six fields. *)
Record fields_ok (op rd_ f3 rs1_ rs2_ f7 : Z) : Prop := {
  ok_op : is_u 7 op;
  ok_rd : is_u 5 rd_;
  ok_f3 : is_u 3 f3;
  ok_rs1 : is_u 5 rs1_;
  ok_rs2 : is_u 5 rs2_;
  ok_f7 : is_u 7 f7;
}.

Ltac word_arith :=
  unfold word, is_u in *; pow2; Z.div_mod_to_equations; lia.

Section Word.
Context (op d f3 s1 s2 f7 : Z) (OK : fields_ok op d f3 s1 s2 f7).

Lemma word_u32 : is_u 32 (word op d f3 s1 s2 f7).
Proof. destruct OK. unfold word, is_u in *. pow2. lia. Qed.

Lemma opcode_word : opcode (word op d f3 s1 s2 f7) = op.
Proof. destruct OK. unfold opcode. rewrite bits32_spec by lia. word_arith. Qed.

Lemma funct3_word : funct3 (word op d f3 s1 s2 f7) = f3.
Proof. destruct OK. unfold funct3. rewrite bits32_spec by lia. word_arith. Qed.

Lemma funct7_word : funct7 (word op d f3 s1 s2 f7) = f7.
Proof. destruct OK. unfold funct7. rewrite bits32_spec by lia. word_arith. Qed.

Lemma funct5_word : funct5 (word op d f3 s1 s2 f7) = f7 / 4.
Proof. destruct OK. unfold funct5. rewrite bits32_spec by lia. word_arith. Qed.

Lemma fmt_word : fmt (word op d f3 s1 s2 f7) = f7 mod 4.
Proof. destruct OK. unfold fmt. rewrite bits32_spec by lia. word_arith. Qed.

Lemma rs1_bits_word : rs1_bits (word op d f3 s1 s2 f7) = s1.
Proof. destruct OK. unfold rs1_bits. rewrite bits32_spec by lia. word_arith. Qed.

Lemma rs2_bits_word : rs2_bits (word op d f3 s1 s2 f7) = s2.
Proof. destruct OK. unfold rs2_bits. rewrite bits32_spec by lia. word_arith. Qed.

Lemma u5_word s v :
  0 <= s <= 27 -> (word op d f3 s1 s2 f7 / 2 ^ s) mod 32 = v ->
  u5_extract_u32 (word op d f3 s1 s2 f7) s = v.
Proof. intros ? <-. by rewrite u5_extract_u32_spec by (done || apply word_u32). Qed.

Lemma rd_word : rd (word op d f3 s1 s2 f7) = parse_xregister d.
Proof. destruct OK. unfold rd. f_equal. apply u5_word; [lia|word_arith]. Qed.

Lemma rd_f_word : rd_f (word op d f3 s1 s2 f7) = parse_fregister d.
Proof. destruct OK. unfold rd_f. f_equal. apply u5_word; [lia|word_arith]. Qed.

Lemma rs1_u5_word : rs1_bits_u5 (word op d f3 s1 s2 f7) = s1.
Proof. destruct OK. apply u5_word; [lia|word_arith]. Qed.

Lemma rs2_u5_word : rs2_bits_u5 (word op d f3 s1 s2 f7) = s2.
Proof. destruct OK. apply u5_word; [lia|word_arith]. Qed.

Lemma rs3_f_word : rs3_f (word op d f3 s1 s2 f7) = parse_fregister (f7 / 4).
Proof. destruct OK. unfold rs3_f. f_equal. apply u5_word; [lia|word_arith]. Qed.

Lemma uimm_word : bits32 (word op d f3 s1 s2 f7) 15 5 = s1.
Proof. destruct OK. rewrite bits32_spec by lia. word_arith. Qed.

Lemma imm_11_6_word : imm_11_6 (word op d f3 s1 s2 f7) = f7 / 2 * 2.
Proof.
  destruct OK. unfold imm_11_6, shl_u. rewrite bits32_spec by lia.
  rewrite (Z.mod_small 1 32), Z.shiftl_mul_pow2 by lia. unfold wrap. word_arith.
Qed.

Lemma csr_word : instr_csr (word op d f3 s1 s2 f7) = try_parse (s2 + 32 * f7).
Proof.
  destruct OK. unfold instr_csr. f_equal. rewrite bits32_spec by lia. word_arith.
Qed.

Lemma aq_word : bit32 (word op d f3 s1 s2 f7) 26 = Z.odd (f7 / 2).
Proof.
  destruct OK. rewrite bit32_spec, Z.testbit_odd, Z.shiftr_div_pow2 by lia.
  replace (word op d f3 s1 s2 f7 / 2 ^ 26) with (f7 / 2); [done|word_arith].
Qed.

Lemma rl_word : bit32 (word op d f3 s1 s2 f7) 25 = Z.odd f7.
Proof.
  destruct OK. rewrite bit32_spec, Z.testbit_odd, Z.shiftr_div_pow2 by lia.
  replace (word op d f3 s1 s2 f7 / 2 ^ 25) with f7; [done|word_arith].
Qed.

Ltac shift_arith := rewrite ?Z.shiftr_div_pow2 by lia; unfold wrap; word_arith.

Lemma i_imm_word : instr_i_imm (word op d f3 s1 s2 f7) = swrap 12 (s2 + 32 * f7).
Proof.
  rewrite i_imm_spec by apply word_u32. destruct OK. f_equal. shift_arith.
Qed.

Lemma s_imm_word : s_imm (word op d f3 s1 s2 f7) = swrap 12 (Z.shiftl f7 5 |: d).
Proof.
  rewrite s_imm_spec by apply word_u32. destruct OK. do 2 f_equal; [f_equal|]; shift_arith.
Qed.

Lemma b_imm_word :
  b_imm (word op d f3 s1 s2 f7) =
    swrap 13 (Z.shiftl (f7 / 64) 12 |: Z.shiftl (d mod 2) 11 |: Z.shiftl (f7 mod 64) 5
              |: Z.shiftl (d / 2) 1).
Proof.
  rewrite b_imm_spec by apply word_u32. destruct OK.
  f_equal. f_equal; [f_equal; [f_equal|]|]; f_equal; shift_arith.
Qed.

Lemma u_imm_word :
  u_imm (word op d f3 s1 s2 f7) =
    swrap 32 (Z.shiftl (f3 + 8 * s1 + 256 * s2 + 8192 * f7) 12).
Proof. rewrite u_imm_spec by apply word_u32. destruct OK. do 2 f_equal. shift_arith. Qed.

Lemma j_imm_word :
  j_imm (word op d f3 s1 s2 f7) =
    swrap 21 (Z.shiftl (f7 / 64) 20 |: Z.shiftl (f3 + 8 * s1) 12 |: Z.shiftl (s2 mod 2) 11
              |: Z.shiftl (s2 / 2 + 16 * (f7 mod 64)) 1).
Proof.
  rewrite j_imm_spec by apply word_u32. destruct OK.
  f_equal. f_equal; [f_equal; [f_equal|]|]; f_equal; shift_arith.
Qed.
End Word.

(** ** Operands *)

Lemma parse_xnum r : parse_xregister (xnum r) = r.
Proof. by destruct r. Qed.

Lemma parse_fnum r : parse_fregister (fnum r) = r.
Proof. by destruct r. Qed.

Lemma from_rmnum rm : from_rm (rmnum rm) = Some rm.
Proof. by destruct rm as [|[]]. Qed.

Lemma xnum_u5 r : is_u 5 (xnum r).
Proof. destruct r; by vm_compute. Qed.

Lemma fnum_u5 r : is_u 5 (fnum r).
Proof. destruct r; by vm_compute. Qed.

Lemma rmnum_u3 rm : is_u 3 (rmnum rm).
Proof. destruct rm as [|[]]; by vm_compute. Qed.

Lemma slice_range imm lo n : 0 <= n -> is_u n (slice imm lo n).
Proof. apply wrap_range. Qed.

Lemma slice_app imm lo n m :
  0 <= lo -> 0 <= n -> 0 <= m ->
  slice imm lo n + 2 ^ n * slice imm (lo + n) m = slice imm lo (n + m).
Proof.
  intros. unfold slice, wrap. rewrite Z.pow_add_r by lia.
  rewrite Z.rem_mul_r by (pose proof (pow2_pos n); pose proof (pow2_pos m); lia).
  rewrite <- (Z.shiftr_div_pow2 _ n), Z.shiftr_shiftr by lia. done.
Qed.

(** A signed immediate is the sign extension of any sequence with its bits. *)
Lemma swrap_bits w imm z :
  0 < w -> is_i w imm -> (forall i, 0 <= i < w -> Z.testbit z i = Z.testbit imm i) ->
  swrap w z = imm.
Proof. intros. rewrite <- (swrap_small w imm) by done. by apply swrap_ext. Qed.

Lemma imm12_join imm :
  is_i 12 imm -> swrap 12 (slice imm 0 5 + 32 * slice imm 5 7) = imm.
Proof.
  intros. pose proof (slice_app imm 0 5 7 ltac:(lia) ltac:(lia) ltac:(lia)) as E.
  change (2 ^ 5) with 32 in E. change (0 + 5) with 5 in E. change (5 + 7) with 12 in E.
  rewrite E. unfold slice.
  rewrite Z.shiftr_0_r, swrap_wrap by lia. by apply swrap_small.
Qed.

Ltac slice_bits i n :=
  enum_bits i n; unfold slice;
  repeat (progress (autorewrite with bits; neg_bits; ground_eval)); bool_simpl; try done.

Lemma s_imm_join imm :
  is_i 12 imm -> swrap 12 (Z.shiftl (slice imm 5 7) 5 |: slice imm 0 5) = imm.
Proof. intros. apply swrap_bits; [lia|done|]. intros i Hi. slice_bits i 12. Qed.

Lemma even_bit0 imm : imm mod 2 = 0 -> Z.testbit imm 0 = false.
Proof. intros E. exact (proj1 (mod_pow2_0_bits 1 imm ltac:(lia)) E 0 ltac:(lia)). Qed.

Lemma b_imm_join imm :
  is_i 13 imm -> imm mod 2 = 0 ->
  swrap 13 (Z.shiftl (slice imm 12 1) 12 |: Z.shiftl (slice imm 11 1) 11
            |: Z.shiftl (slice imm 5 6) 5 |: Z.shiftl (slice imm 1 4) 1) = imm.
Proof.
  intros ? E. apply swrap_bits; [lia|done|]. intros i Hi. slice_bits i 13.
  symmetry. by apply even_bit0.
Qed.

Lemma j_imm_join imm :
  is_i 21 imm -> imm mod 2 = 0 ->
  swrap 21 (Z.shiftl (slice imm 20 1) 20 |: Z.shiftl (slice imm 12 8) 12
            |: Z.shiftl (slice imm 11 1) 11 |: Z.shiftl (slice imm 1 10) 1) = imm.
Proof.
  intros ? E. apply swrap_bits; [lia|done|]. intros i Hi. slice_bits i 21.
  symmetry. by apply even_bit0.
Qed.

Lemma u_imm_join imm :
  is_i 32 imm -> imm mod 4096 = 0 -> swrap 32 (Z.shiftl (slice imm 12 20) 12) = imm.
Proof.
  intros ? E. apply swrap_bits; [lia|done|]. intros i Hi.
  pose proof (proj1 (mod_pow2_0_bits 12 imm ltac:(lia)) E) as B.
  slice_bits i 32; symmetry; apply B; lia.
Qed.

(** ** Decoding an encoded instruction *)

Lemma if_ok_inv (P : Prop) `{Decision P} x w : if_ok P x = Some w -> P /\ x = w.
Proof. unfold if_ok. case_decide; naive_solver. Qed.

Ltac field_range :=
  lazymatch goal with
  | |- is_u 5 (xnum _) => apply xnum_u5
  | |- is_u 5 (fnum _) => apply fnum_u5
  | |- is_u 3 (rmnum _) => apply rmnum_u3
  | |- is_u _ (slice _ _ _) => apply slice_range; lia
  | |- is_u _ (slice ?a ?b ?c + _ * slice ?d ?e ?f) =>
      pose proof (slice_range a b c ltac:(lia)); pose proof (slice_range d e f ltac:(lia));
      unfold is_u in *; pow2; lia
  | |- is_u _ (_ + _ * fnum ?r) => pose proof (fnum_u5 r); unfold is_u in *; pow2; lia
  | |- is_u _ (Z.b2z ?a + _ * Z.b2z ?b + _) => destruct a, b; vm_compute; intuition congruence
  | |- is_u _ _ => first [assumption | vm_compute; intuition congruence]
  end.

(** Evaluates the function fields, which are literals or have a hypothesis
    that gives their value. *)
Ltac eval_fields :=
  repeat match goal with
  | E : _ / 2 * 2 = _ |- _ => rewrite E
  | E : _ mod 4 = _ |- _ => rewrite E
  | |- context [Z.div ?a ?b] => is_Zlit a; is_Zlit b; eval_lit (Z.div a b)
  | |- context [Z.modulo ?a ?b] => is_Zlit a; is_Zlit b; eval_lit (Z.modulo a b)
  end.

Ltac decode_word :=
  lazymatch goal with |- parse_uncompressed_instruction (word ?op ?d ?f3 ?s1 ?s2 ?f7) = _ =>
    let OK := fresh "OK" in
    assert (OK : fields_ok op d f3 s1 s2 f7) by (constructor; field_range);
    unfold parse_uncompressed_instruction; rewrite (opcode_word _ _ _ _ _ _ OK); cbv beta iota;
    unfold parse_op_arith, parse_op_arith_w, parse_op_arith_i, parse_op_arith_iw, parse_op_load,
      parse_op_store, parse_op_branch, parse_op_lui, parse_op_auipc, parse_op_jal, parse_op_jalr,
      parse_op_sys, parse_op_amo, parse_op_fp, parse_op_fp_s, parse_op_fp_d, parse_op_fmadd,
      parse_op_fmsub, parse_op_fnmsub, parse_op_fnmadd, parse_op_fp_load, parse_op_fp_store, fwidth;
    fold (funct3 (word op d f3 s1 s2 f7));
    rewrite ?(funct3_word _ _ _ _ _ _ OK), ?(funct7_word _ _ _ _ _ _ OK), ?(funct5_word _ _ _ _ _ _ OK),
      ?(fmt_word _ _ _ _ _ _ OK), ?(imm_11_6_word _ _ _ _ _ _ OK), ?(rs1_bits_word _ _ _ _ _ _ OK),
      ?(rs2_bits_word _ _ _ _ _ _ OK), ?(rs2_u5_word _ _ _ _ _ _ OK); eval_fields; cbv beta iota;
    unfold r_instr, i_instr, s_instr, b_instr, u_instr, j_instr, amo_instr, csr_instr, csri_instr,
      f_r_rm_1_instr, f_r_rm_2_instr, f_r_rm_3_instr, f_r_instr, f_cmp_instr, f_r_int_fmt_instr,
      f_r_fmt_int_instr, fl_instr, fs_instr, rs1, rs2, rs1_f, rs2_f;
    rewrite ?(funct3_word _ _ _ _ _ _ OK), ?(rd_word _ _ _ _ _ _ OK), ?(rd_f_word _ _ _ _ _ _ OK),
      ?(rs1_u5_word _ _ _ _ _ _ OK), ?(rs2_u5_word _ _ _ _ _ _ OK), ?(rs3_f_word _ _ _ _ _ _ OK),
      ?(csr_word _ _ _ _ _ _ OK), ?(uimm_word _ _ _ _ _ _ OK), ?(aq_word _ _ _ _ _ _ OK),
      ?(rl_word _ _ _ _ _ _ OK), ?(i_imm_word _ _ _ _ _ _ OK), ?(s_imm_word _ _ _ _ _ _ OK),
      ?(b_imm_word _ _ _ _ _ _ OK), ?(u_imm_word _ _ _ _ _ _ OK), ?(j_imm_word _ _ _ _ _ _ OK),
      ?parse_xnum, ?parse_fnum, ?from_rmnum
  end.

Lemma shamt_slice imm n k :
  is_u 6 (imm - k * 1024) -> 0 <= k <= 1 -> n = k * 32 -> slice imm 5 7 / 2 * 2 = n.
Proof.
  intros H ? ->. unfold slice, wrap. rewrite Z.shiftr_div_pow2 by lia.
  unfold is_u in H. pow2. Z.div_mod_to_equations. lia.
Qed.

Lemma csr_slices c :
  try_parse (slice (CSRegister_repr c) 0 5 + 32 * slice (CSRegister_repr c) 5 7) = Some c.
Proof.
  rewrite <- (try_parse_repr c). f_equal. pose proof (CSRegister_repr_u12 c) as [? ?].
  unfold slice, wrap. rewrite !Z.shiftr_div_pow2 by lia. pow2. Z.div_mod_to_equations. lia.
Qed.

Lemma join_fields a b n :
  is_u n a -> 0 <= n -> (a + 2 ^ n * b) mod 2 ^ n = a /\ (a + 2 ^ n * b) / 2 ^ n = b.
Proof.
  intros [? ?] ?. rewrite (Z.mul_comm _ b). split.
  - rewrite Z_mod_plus_full. by apply Z.mod_small.
  - rewrite Z.div_add by lia. rewrite Z.div_small by lia. lia.
Qed.

Lemma slice_join imm lo n hi m :
  0 <= n ->
  (slice imm lo n + 2 ^ n * slice imm hi m) mod 2 ^ n = slice imm lo n /\
  (slice imm lo n + 2 ^ n * slice imm hi m) / 2 ^ n = slice imm hi m.
Proof. intros. apply join_fields; [by apply slice_range|done]. Qed.

Ltac join_fields_of imm lo n hi m :=
  let H := fresh in
  pose proof (slice_join imm lo n hi m ltac:(lia)) as H; pow2; destruct H as [-> ->].

Ltac ground_mul :=
  repeat match goal with
  | |- context [Z.mul ?a ?b] => is_Zlit a; is_Zlit b; eval_lit (Z.mul a b)
  | |- context [Z.add ?a ?b] => is_Zlit a; is_Zlit b; eval_lit (Z.add a b)
  end.

Lemma u_imm_fields imm :
  slice imm 12 3 + 8 * slice imm 15 5 + 256 * slice imm 20 5 + 8192 * slice imm 25 7 =
  slice imm 12 20.
Proof.
  assert (slice imm 12 3 + 8 * slice imm 15 5 = slice imm 12 8) by (apply (slice_app imm 12 3 5); lia).
  assert (slice imm 12 8 + 256 * slice imm 20 5 = slice imm 12 13)
    by (apply (slice_app imm 12 8 5); lia).
  assert (slice imm 12 13 + 8192 * slice imm 25 7 = slice imm 12 20)
    by (apply (slice_app imm 12 13 7); lia).
  lia.
Qed.

Lemma j_imm_fields imm :
  slice imm 12 3 + 8 * slice imm 15 5 = slice imm 12 8 /\
  slice imm 1 4 + 16 * slice imm 5 6 = slice imm 1 10.
Proof.
  split; [apply (slice_app imm 12 3 5)|apply (slice_app imm 1 4 6)]; lia.
Qed.

(** Opens the encoding of an instruction: its arguments, its word and the
    constraints on the operands. *)
Ltac open_encoding :=
  match goal with
  | |- if_ok _ _ = Some _ -> _ => intros [? <-]%if_ok_inv
  | |- Some _ = Some _ -> _ => intros [= <-]
  end.

Lemma decode_r i w :
  match i with
  | Add _ | Sub _ | Xor _ | Or _ | And _ | Sll _ | Srl _ | Sra _ | Slt _ | Sltu _
  | Addw _ | Subw _ | Sllw _ | Srlw _ | Sraw _ | Mul _ | Mulh _ | Mulhsu _ | Mulhu _
  | Div _ | Divu _ | Rem _ | Remu _ | Mulw _ | Divw _ | Divuw _ | Remw _ | Remuw _ => True
  | _ => False
  end ->
  encode_int i = Some w -> parse_uncompressed_instruction w = Cacheable i.
Proof.
  intros F; destruct i; try done; destruct args as [d s1 s2]; unfold encode_int; open_encoding;
    unfold encR; cbn [r_rd r_rs1 r_rs2]; decode_word; done.
Qed.

Lemma decode_i i w :
  match i with
  | Addi _ | Slti _ | Sltiu _ | Xori _ | Ori _ | Andi _ | Slli _ | Srli _ | Srai _ | Addiw _
  | Slliw _ | Srliw _ | Sraiw _ | Lb _ | Lh _ | Lw _ | Ld _ | Lbu _ | Lhu _ | Lwu _
  | Jalr _ => True
  | _ => False
  end ->
  encode_int i = Some w -> parse_uncompressed_instruction w = Cacheable i.
Proof.
  intros F; destruct i; try done; destruct args as [d s1 imm]; unfold encode_int; open_encoding;
    unfold encI; cbn [i_rd i_rs1 i_imm] in *;
    try (pose proof (shamt_slice imm 0 0 ltac:(unfold is_u in *; pow2; lia) ltac:(lia) eq_refl));
    try (pose proof (shamt_slice imm 32 1 ltac:(unfold is_u in *; pow2; lia) ltac:(lia) eq_refl));
    decode_word; rewrite imm12_join by (unfold is_i, is_u in *; pow2; lia); done.
Qed.

Lemma decode_sb i w :
  match i with
  | Sb _ | Sh _ | Sw _ | Sd _ | Beq _ | Bne _ | Blt _ | Bge _ | Bltu _ | Bgeu _ => True
  | _ => False
  end ->
  encode_int i = Some w -> parse_uncompressed_instruction w = Cacheable i.
Proof.
  intros F; destruct i; try done; destruct args as [s1 s2 imm]; unfold encode_int; open_encoding;
    unfold encS, encB; cbn [sb_rs1 sb_rs2 sb_imm] in *; destruct_and?;
    decode_word;
    try (rewrite s_imm_join by done; done);
    join_fields_of imm 11 1 1 4; join_fields_of imm 5 6 12 1; rewrite b_imm_join by done; done.
Qed.

Lemma decode_uj i w :
  match i with Lui _ | Auipc _ | Jal _ => True | _ => False end ->
  encode_int i = Some w -> parse_uncompressed_instruction w = Cacheable i.
Proof.
  intros F; destruct i; try done; destruct args as [d imm]; unfold encode_int; open_encoding;
    unfold encU, encJ; cbn [uj_rd uj_imm] in *; destruct_and?; decode_word;
    try (rewrite u_imm_fields, u_imm_join by done; done).
  join_fields_of imm 11 1 1 4; join_fields_of imm 5 6 20 1.
  destruct (j_imm_fields imm) as [-> ->]. rewrite j_imm_join by done. done.
Qed.

Lemma decode_csr i w :
  match i with
  | Csrrw _ | Csrrs _ | Csrrc _ | Csrrwi _ | Csrrsi _ | Csrrci _ => True
  | _ => False
  end ->
  encode_int i = Some w -> parse_uncompressed_instruction w = Cacheable i.
Proof.
  intros F; destruct i; try done; destruct args as [d s c]; unfold encode_int; open_encoding;
    unfold encCsr, encCsri; cbn [cs_rd cs_rs1 cs_csr csi_rd csi_imm csi_csr] in *;
    decode_word; rewrite csr_slices; done.
Qed.

Lemma decode_amo i w :
  encode_amo i = Some w -> parse_uncompressed_instruction w = Cacheable i.
Proof.
  destruct i; try done; destruct args as [d s1 s2 aq rl]; unfold encode_amo; open_encoding;
    unfold encAmo; cbn [amo_rd amo_rs1 amo_rs2 amo_aq amo_rl] in *; subst;
    destruct aq, rl; cbn [Z.b2z]; ground_mul; decode_word; done.
Qed.

Lemma fr3_f7 f r :
  is_u 2 f -> (f + 4 * fnum r) mod 4 = f /\ (f + 4 * fnum r) / 4 = fnum r.
Proof. intros. apply (join_fields f (fnum r) 2); [done|lia]. Qed.

Lemma decode_fr3 i w :
  match i with
  | Fmadds _ | Fmaddd _ | Fmsubs _ | Fmsubd _ | Fnmsubs _ | Fnmsubd _ | Fnmadds _
  | Fnmaddd _ => True
  | _ => False
  end ->
  encode_float i = Some w -> parse_uncompressed_instruction w = Cacheable i.
Proof.
  intros F; destruct i; try done; unfold encode_float; open_encoding; unfold encFR3;
    match goal with |- context [?f + 4 * fnum ?r] =>
      destruct (fr3_f7 f r) as [? E]; [by vm_compute|] end;
    decode_word; rewrite E, parse_fnum; by destruct args.
Qed.

Lemma decode_float i w :
  encode_float i = Some w -> parse_uncompressed_instruction w = Cacheable i.
Proof.
  intros H; destruct i; try done; try (by apply decode_fr3); revert H; unfold encode_float;
    open_encoding; unfold encFR1, encFR2, encFR, encFCmp, encXFr, encFXr, encFX, encXF, encFL, encFS;
    decode_word; rewrite ?imm12_join, ?s_imm_join by done; by destruct args.
Qed.

Lemma decode_cacheable i w : encode_cacheable i = Some w -> parse_uncompressed_instruction w = Cacheable i.
Proof.
  unfold encode_cacheable. intros H. destruct (encode_int i) eqn:EI.
  - injection H as <-. destruct i; try done;
      first [by apply decode_r|by apply decode_i|by apply decode_sb|by apply decode_uj
            |by apply decode_csr].
  - destruct (encode_amo i) eqn:EA.
    + injection H as <-. by apply decode_amo.
    + by apply decode_float.
Qed.

Lemma parse_fence mode a : mode = 0 \/ mode = 8 ->
  opcode (encFence mode a) = ISA_MISC_MEM /\
  parse_op_synch (encFence mode a) = Uncacheable (if mode =? 0 then Fence a else FenceTso a).
Proof.
  intros M. destruct a as [[pi po pr pw] [si so sr sw]].
  destruct M as [->| ->], pi, po, pr, pw, si, so, sr, sw; split; vm_compute; reflexivity.
Qed.

Lemma decode_fence mode a : mode = 0 \/ mode = 8 ->
  parse_uncompressed_instruction (encFence mode a) = Uncacheable (if mode =? 0 then Fence a else FenceTso a).
Proof. intros M. destruct (parse_fence mode a M) as [O P]. unfold parse_uncompressed_instruction. by rewrite O, P. Qed.

Lemma decode_uncacheable i w : encode_uncacheable i = Some w -> parse_uncompressed_instruction w = Uncacheable i.
Proof.
  destruct i as [a|a| | | | | | | | |asid vaddr]; cbn [encode_uncacheable]; [..|intros [= <-]; decode_word; done].
  - intros [= <-]. by rewrite decode_fence by (by left).
  - intros [_ <-]%if_ok_inv. by rewrite decode_fence by (by right).
  - intros [= <-]. reflexivity.
  - intros [= <-]. reflexivity.
  - done.
  - intros [= <-]. reflexivity.
  - intros [= <-]. reflexivity.
  - intros [= <-]. reflexivity.
  - intros [= <-]. reflexivity.
  - intros [= <-]. reflexivity.
Qed.

(** C34. Decoding inverts the encoding of the ISA manual: for every uncompressed
    instruction of RV64IMAFD, Zicsr and Zifencei and every privileged
    instruction the decoder supports (fences, ECALL, EBREAK and the returns from
    traps included), with operands in their architectural range, the word the
    manual assigns to it decodes to that instruction.  In particular no two of
    them are confused.  Opcodes and function codes are written out from the
    manual; the numbers of control and status registers are those of the
    enumeration in the code.  A fence is encoded with its reserved fields zero,
    and FENCE.TSO with the sets RW, RW.  Compressed instructions and words the
    manual reserves are not covered. *)
Theorem decode_encode i w :
  encode i = Some w -> parse_uncompressed_instruction w = i.
Proof. destruct i; [apply decode_cacheable|apply decode_uncacheable]. Qed.

(** Reserved encodings are accepted: the decoder does not look at [funct7] of
    [SLLW], so each of its 128 values gives the same instruction, and it
    accepts [SLLIW] and [SRLIW] with [imm[5]] set, i.e. a shift amount of 32
    to 63 for a 32-bit shift (the ISA manual reserves both). *)
Theorem reserved_shifts_decode f7 a b :
  is_u 7 f7 -> is_u 6 b.(i_imm) ->
  parse_uncompressed_instruction (encR ISA_OP_32 1 f7 a) = Cacheable (Sllw a) /\
  parse_uncompressed_instruction (encI ISA_OP_IMM_32 1 b) = Cacheable (Slliw b) /\
  parse_uncompressed_instruction (encI ISA_OP_IMM_32 5 b) = Cacheable (Srliw b).
Proof.
  intros.
  pose proof (shamt_slice b.(i_imm) 0 0 ltac:(unfold is_u in *; pow2; lia) ltac:(lia) eq_refl).
  split_and!; unfold encR, encI; decode_word;
    rewrite ?imm12_join by (unfold is_i, is_u in *; pow2; lia); first [by destruct a | by destruct b].
Qed.
End Fields.

Lemma reserved_shifts_decode_witness :
  @parse_uncompressed_instruction ArbitraryInt_ref
    (encR ISA_OP_32 1 77 {| r_rd := x5; r_rs1 := x6; r_rs2 := x7 |})
    = Cacheable (Sllw {| r_rd := x5; r_rs1 := x6; r_rs2 := x7 |}).
Proof.
  apply (@reserved_shifts_decode ArbitraryInt_ref _ 77 {| r_rd := x5; r_rs1 := x6; r_rs2 := x7 |}
           {| i_rd := x5; i_rs1 := x6; i_imm := 40 |}); vm_compute; intuition congruence.
Defined.

Lemma decode_encode_witness :
  @parse_uncompressed_instruction ArbitraryInt_ref 0xfe20ae23
    = Cacheable (Sw {| sb_rs1 := x1; sb_rs2 := x2; sb_imm := -4 |}) /\
  @parse_uncompressed_instruction ArbitraryInt_ref 0x00100073 = Uncacheable Ebreak /\
  @parse_uncompressed_instruction ArbitraryInt_ref 0x0ff0000f
    = Uncacheable (Fence {| fa_pred := {| fs_i := true; fs_o := true; fs_r := true; fs_w := true |};
                            fa_succ := {| fs_i := true; fs_o := true; fs_r := true; fs_w := true |} |}).
Proof. split_and!; apply (@decode_encode ArbitraryInt_ref _); vm_compute; reflexivity. Defined.
