(* ===== verification/XStatus.v ===== *)
(** Bit-field registers: the [csr!] macro of
    [src/riscv/lib/src/machine_state/csregisters/bits.rs], the status registers
    of [xstatus.rs], [satp] of [satp.rs] and the stored form of [mstatus] of
    [values/mstatus.rs].

    A register type that [csr!] declares is a [u64]; a field of it has a type
    with a [Bits64] instance and an offset, the sum of the widths of the fields
    before it. *)
From S2P Require Import Prelude Bits CSRegister.

(** ** The [csr!] macro *)

Record csr_field := Field { field_type : Type; field_bits : Bits64 field_type; field_offset : Z }.

Definition field_width (f : csr_field) : Z := @WIDTH f.(field_type) f.(field_bits).

(** The offsets [csr_fields!] computes for a list of field types. *)
(* machine_state/csregisters/bits.rs:113-117 csr_fields *)
Fixpoint csr_layout (accum : Z) (types : list (sigT Bits64)) : list csr_field :=
  match types with
  | [] => []
  | existT A B :: types => Field A B accum :: csr_layout (accum + @WIDTH A B) types
  end.

(** The bits of a field. *)
(* machine_state/csregisters/bits.rs:91-92 csr_fields *)
Definition csr_raw (f : csr_field) (v : Z) : Z :=
  let offset := saturating_sub (field_width f) 1 in
  bits_subset 64 v (f.(field_offset) + offset) f.(field_offset).

(** The getter of a field. *)
(* machine_state/csregisters/bits.rs:89-94 csr_fields *)
Definition csr_get (f : csr_field) (v : Z) : f.(field_type) :=
  @from_bits _ f.(field_bits) (csr_raw f v).

(** [with_<field>] (and [set_<field>], which assigns the same value). *)
(* machine_state/csregisters/bits.rs:96-108 csr_fields *)
Definition csr_with (f : csr_field) (v : Z) (value : f.(field_type)) : Z :=
  let offset := saturating_sub (field_width f) 1 in
  replace_subset 64 v (f.(field_offset) + offset) f.(field_offset) (@to_bits _ f.(field_bits) value).

(* machine_state/csregisters/bits.rs:39-64 csr_bits *)
Definition csr_from_bits (fields : list csr_field) (value : Z) : Z :=
  fold_left (fun new_self f => csr_with f new_self (csr_get f value)) fields 0.

(** ** Field types *)

Module MPP.
(* machine_state/csregisters/xstatus.rs:25-30 MPPValue *)
Inductive MPPValue : Set := User | Supervisor | Machine.
End MPP.
Abbreviation MPPValue := MPP.MPPValue.
#[export] Instance MPPValue_eq_dec : EqDecision MPPValue.
Proof. solve_decision. Defined.

(* machine_state/csregisters/xstatus.rs:36-44 From<MPPValue> *)
Definition MPPValue_to_mode (v : MPPValue) : Mode :=
  match v with MPP.User => User | MPP.Supervisor => Supervisor | MPP.Machine => Machine end.

(* machine_state/csregisters/xstatus.rs:52-62 From<u8> *)
Definition MPPValue_from_u8 (value : Z) : MPPValue :=
  match value & 3 with
  | 0 => MPP.User
  | 1 => MPP.Supervisor
  | 3 => MPP.Machine
  | _ => MPP.User
  end.

(* machine_state/csregisters/xstatus.rs:46-50 From<MPPValue> *)
Definition MPPValue_to_u8 (v : MPPValue) : Z :=
  match v with MPP.User => 0 | MPP.Supervisor => 1 | MPP.Machine => 3 end.

(* machine_state/csregisters/xstatus.rs:64-74 Bits64 *)
#[export] Instance Bits64_MPPValue : Bits64 MPPValue := {|
  WIDTH := 2;
  from_bits value := MPPValue_from_u8 (as_u8 value);
  to_bits v := MPPValue_to_u8 v;
|}.

Module SPP.
(* machine_state/csregisters/xstatus.rs:78-82 SPPValue *)
Inductive SPPValue : Set := User | Supervisor.
End SPP.
Abbreviation SPPValue := SPP.SPPValue.
#[export] Instance SPPValue_eq_dec : EqDecision SPPValue.
Proof. solve_decision. Defined.

(** The third arm of the [match] is [unreachable!]. *)
(* machine_state/csregisters/xstatus.rs:88-96 From<u8> *)
Definition SPPValue_from_u8 (value : Z) : SPPValue :=
  if (value & 1) =? 0 then SPP.User else SPP.Supervisor.

(* machine_state/csregisters/xstatus.rs:104-114 Bits64 *)
#[export] Instance Bits64_SPPValue : Bits64 SPPValue := {|
  WIDTH := 1;
  from_bits value := SPPValue_from_u8 (as_u8 value);
  to_bits v := match v with SPP.User => 0 | SPP.Supervisor => 1 end;
|}.

(* machine_state/csregisters/xstatus.rs:118-121 XLenValue *)
Inductive XLenValue : Set := MXL64.

(* machine_state/csregisters/xstatus.rs:140-151 Bits64 *)
#[export] Instance Bits64_XLenValue : Bits64 XLenValue := {|
  WIDTH := 2;
  from_bits _ := MXL64;
  to_bits v := 2;
|}.

(* machine_state/csregisters/xstatus.rs:155-159 ExtensionValue *)
Inductive ExtensionValue : Set := Off | Dirty.
#[export] Instance ExtensionValue_eq_dec : EqDecision ExtensionValue.
Proof. solve_decision. Defined.

(* machine_state/csregisters/xstatus.rs:171-178 From<u8> *)
Definition ExtensionValue_from_u8 (value : Z) : ExtensionValue :=
  if (value & 3) =? 0 then Off else Dirty.

(* machine_state/csregisters/xstatus.rs:180-190 Bits64 *)
#[export] Instance Bits64_ExtensionValue : Bits64 ExtensionValue := {|
  WIDTH := 2;
  from_bits value := ExtensionValue_from_u8 (as_u8 value);
  to_bits v := match v with Off => 0 | Dirty => 3 end;
|}.

(** ** [MStatus] *)

Module MStatus.
Definition WPRI1 : csr_field := Field unit (ConstantBits 1 0) 0.
Definition SIE : csr_field := Field bool Bits64_bool 1.
Definition WPRI2 : csr_field := Field unit (ConstantBits 1 0) 2.
Definition MIE : csr_field := Field bool Bits64_bool 3.
Definition WPRI3 : csr_field := Field unit (ConstantBits 1 0) 4.
Definition SPIE : csr_field := Field bool Bits64_bool 5.
Definition UBE : csr_field := Field bool Bits64_bool 6.
Definition MPIE : csr_field := Field bool Bits64_bool 7.
Definition SPP : csr_field := Field SPPValue Bits64_SPPValue 8.
Definition VS : csr_field := Field unit (ConstantBits 2 0) 9.
Definition MPP : csr_field := Field MPPValue Bits64_MPPValue 11.
Definition FS : csr_field := Field ExtensionValue Bits64_ExtensionValue 13.
Definition XS : csr_field := Field ExtensionValue Bits64_ExtensionValue 15.
Definition MPRV : csr_field := Field bool Bits64_bool 17.
Definition SUM : csr_field := Field bool Bits64_bool 18.
Definition MXR : csr_field := Field bool Bits64_bool 19.
Definition TVM : csr_field := Field bool Bits64_bool 20.
Definition TW : csr_field := Field bool Bits64_bool 21.
Definition TSR : csr_field := Field bool Bits64_bool 22.
Definition WPRI4 : csr_field := Field unit (ConstantBits 9 0) 23.
Definition UXL : csr_field := Field XLenValue Bits64_XLenValue 32.
Definition SXL : csr_field := Field XLenValue Bits64_XLenValue 34.
Definition SBE : csr_field := Field bool Bits64_bool 36.
Definition MBE : csr_field := Field bool Bits64_bool 37.
Definition WPRI5 : csr_field := Field unit (ConstantBits 25 0) 38.
Definition SD : csr_field := Field bool Bits64_bool 63.
End MStatus.

(* machine_state/csregisters/xstatus.rs:193-220 MStatus *)
Definition MStatus_fields : list csr_field :=
  [MStatus.WPRI1; MStatus.SIE; MStatus.WPRI2; MStatus.MIE; MStatus.WPRI3; MStatus.SPIE;
   MStatus.UBE; MStatus.MPIE; MStatus.SPP; MStatus.VS; MStatus.MPP; MStatus.FS; MStatus.XS;
   MStatus.MPRV; MStatus.SUM; MStatus.MXR; MStatus.TVM; MStatus.TW; MStatus.TSR;
   MStatus.WPRI4; MStatus.UXL; MStatus.SXL; MStatus.SBE; MStatus.MBE; MStatus.WPRI5;
   MStatus.SD].

Lemma MStatus_fields_layout :
  MStatus_fields = csr_layout 0 (map (fun f => existT f.(field_type) f.(field_bits)) MStatus_fields).
Proof. reflexivity. Qed.

(** ** [SStatus] *)

Module SStatus.
Definition WPRI1 : csr_field := Field unit (ConstantBits 1 0) 0.
Definition SIE : csr_field := Field bool Bits64_bool 1.
Definition WPRI2 : csr_field := Field unit (ConstantBits 3 0) 2.
Definition SPIE : csr_field := Field bool Bits64_bool 5.
Definition UBE : csr_field := Field bool Bits64_bool 6.
Definition WPRI3 : csr_field := Field unit (ConstantBits 1 0) 7.
Definition SPP : csr_field := Field SPPValue Bits64_SPPValue 8.
Definition VS : csr_field := Field unit (ConstantBits 2 0) 9.
Definition WPRI4 : csr_field := Field unit (ConstantBits 2 0) 11.
Definition FS : csr_field := Field ExtensionValue Bits64_ExtensionValue 13.
Definition XS : csr_field := Field ExtensionValue Bits64_ExtensionValue 15.
Definition WPRI5 : csr_field := Field unit (ConstantBits 1 0) 17.
Definition SUM : csr_field := Field bool Bits64_bool 18.
Definition MXR : csr_field := Field bool Bits64_bool 19.
Definition WPRI6 : csr_field := Field unit (ConstantBits 12 0) 20.
Definition UXL : csr_field := Field XLenValue Bits64_XLenValue 32.
Definition WPRI7 : csr_field := Field unit (ConstantBits 29 0) 34.
Definition SD : csr_field := Field bool Bits64_bool 63.
End SStatus.

(* machine_state/csregisters/xstatus.rs:274-293 SStatus *)
Definition SStatus_fields : list csr_field :=
  [SStatus.WPRI1; SStatus.SIE; SStatus.WPRI2; SStatus.SPIE; SStatus.UBE; SStatus.WPRI3;
   SStatus.SPP; SStatus.VS; SStatus.WPRI4; SStatus.FS; SStatus.XS; SStatus.WPRI5;
   SStatus.SUM; SStatus.MXR; SStatus.WPRI6; SStatus.UXL; SStatus.WPRI7; SStatus.SD].

Lemma SStatus_fields_layout :
  SStatus_fields = csr_layout 0 (map (fun f => existT f.(field_type) f.(field_bits)) SStatus_fields).
Proof. reflexivity. Qed.

(* machine_state/csregisters/xstatus.rs:224-226 to_sstatus *)
Definition to_sstatus (mstatus : Z) : Z := csr_from_bits SStatus_fields mstatus.

(* machine_state/csregisters/xstatus.rs:303-316 to_mstatus *)
Definition to_mstatus (self mstatus : Z) : Z :=
  let mstatus := csr_with MStatus.SIE mstatus (csr_get SStatus.SIE self) in
  let mstatus := csr_with MStatus.SPIE mstatus (csr_get SStatus.SPIE self) in
  let mstatus := csr_with MStatus.UBE mstatus (csr_get SStatus.UBE self) in
  let mstatus := csr_with MStatus.SPP mstatus (csr_get SStatus.SPP self) in
  let mstatus := csr_with MStatus.VS mstatus (csr_get SStatus.VS self) in
  let mstatus := csr_with MStatus.FS mstatus (csr_get SStatus.FS self) in
  let mstatus := csr_with MStatus.XS mstatus (csr_get SStatus.XS self) in
  let mstatus := csr_with MStatus.SUM mstatus (csr_get SStatus.SUM self) in
  let mstatus := csr_with MStatus.MXR mstatus (csr_get SStatus.MXR self) in
  let mstatus := csr_with MStatus.UXL mstatus (csr_get SStatus.UXL self) in
  let mstatus := csr_with MStatus.SD mstatus (csr_get SStatus.SD self) in
  mstatus.

(* machine_state/csregisters/xstatus.rs:319-324 SStatus::normalise *)
Definition SStatus_normalise (self : Z) : Z :=
  let any_dirty := bool_decide (csr_get SStatus.FS self = Dirty)
                   || bool_decide (csr_get SStatus.XS self = Dirty) in
  csr_with SStatus.SD self any_dirty.

(* machine_state/csregisters/xstatus.rs:229-233 MStatus::normalise *)
Definition MStatus_normalise (self : Z) : Z :=
  to_mstatus (SStatus_normalise (to_sstatus self)) self.

(* machine_state/csregisters/xstatus.rs:235-271 MStatus::default *)
Definition MStatus_default : Z :=
  let v := csr_from_bits MStatus_fields 0 in
  let v := csr_with MStatus.SIE v false in
  let v := csr_with MStatus.MIE v false in
  let v := csr_with MStatus.SPIE v false in
  let v := csr_with MStatus.MPIE v false in
  let v := csr_with MStatus.SPP v SPP.Supervisor in
  let v := csr_with MStatus.MPP v MPP.Supervisor in
  let v := csr_with MStatus.UBE v false in
  let v := csr_with MStatus.SBE v false in
  let v := csr_with MStatus.MBE v false in
  let v := csr_with MStatus.FS v Dirty in
  let v := csr_with MStatus.XS v Dirty in
  let v := csr_with MStatus.SD v false in
  let v := csr_with MStatus.UXL v MXL64 in
  let v := csr_with MStatus.SXL v MXL64 in
  let v := csr_with MStatus.MPRV v false in
  let v := csr_with MStatus.SUM v true in
  let v := csr_with MStatus.MXR v false in
  let v := csr_with MStatus.TVM v false in
  let v := csr_with MStatus.TW v false in
  let v := csr_with MStatus.TSR v false in
  v.

(* machine_state/csregisters/xstatus.rs:296-300 SStatus::default *)
Definition SStatus_default : Z := to_sstatus MStatus_default.

(** ** [MNStatus] *)

Module MNStatus.
Definition WPRI1 : csr_field := Field unit (ConstantBits 3 0) 0.
Definition NMIE : csr_field := Field unit (ConstantBits 1 1) 3.
Definition WPRI2 : csr_field := Field unit (ConstantBits 3 0) 4.
Definition MNPV : csr_field := Field unit (ConstantBits 1 0) 7.
Definition WPRI3 : csr_field := Field unit (ConstantBits 3 0) 8.
Definition MNPP : csr_field := Field MPPValue Bits64_MPPValue 11.
Definition WPRI4 : csr_field := Field unit (ConstantBits 51 0) 13.
End MNStatus.

(* machine_state/csregisters/xstatus.rs:327-335 MNStatus *)
Definition MNStatus_fields : list csr_field :=
  [MNStatus.WPRI1; MNStatus.NMIE; MNStatus.WPRI2; MNStatus.MNPV; MNStatus.WPRI3;
   MNStatus.MNPP; MNStatus.WPRI4].

Lemma MNStatus_fields_layout :
  MNStatus_fields = csr_layout 0 (map (fun f => existT f.(field_type) f.(field_bits)) MNStatus_fields).
Proof. reflexivity. Qed.

(* machine_state/csregisters/xstatus.rs:338-342 MNStatus::normalise *)
Definition MNStatus_normalise (self : Z) : Z := self.

(* machine_state/csregisters/satp.rs:33-37 SvLength *)
Inductive SvLength : Set := Sv39 | Sv48 | Sv57.

Module Algo.
(* machine_state/csregisters/satp.rs:42-47 TranslationAlgorithm *)
Inductive TranslationAlgorithm : Set := Bare | Sv39 | Sv48 | Sv57.
End Algo.
Abbreviation TranslationAlgorithm := Algo.TranslationAlgorithm.
#[export] Instance TranslationAlgorithm_eq_dec : EqDecision TranslationAlgorithm.
Proof. solve_decision. Defined.

(* machine_state/csregisters/satp.rs:49-53 enc *)
Definition TranslationAlgorithm_enc (v : TranslationAlgorithm) : Z :=
  match v with Algo.Bare => 0 | Algo.Sv39 => 8 | Algo.Sv48 => 9 | Algo.Sv57 => 10 end.

(* machine_state/csregisters/satp.rs:57-81 Bits64 *)
#[export] Instance Bits64_TranslationAlgorithm : Bits64 TranslationAlgorithm := {|
  WIDTH := 4;
  from_bits value :=
    match value & 15 with
    | 0 => Algo.Bare
    | 8 => Algo.Sv39
    | 9 => Algo.Sv48
    | 10 => Algo.Sv57
    | _ => Algo.Bare
    end;
  to_bits v := TranslationAlgorithm_enc v;
|}.

(** ** [Satp] *)

Module Satp.
Definition PPN : csr_field := Field Z (FixedWidthBits 44) 0.
Definition ASID : csr_field := Field Z (FixedWidthBits 16) 44.
Definition MODE : csr_field := Field TranslationAlgorithm Bits64_TranslationAlgorithm 60.
End Satp.

(* machine_state/csregisters/satp.rs:84-88 Satp *)
Definition Satp_fields : list csr_field :=
  [Satp.PPN; Satp.ASID; Satp.MODE].

Lemma Satp_fields_layout :
  Satp_fields = csr_layout 0 (map (fun f => existT f.(field_type) f.(field_bits)) Satp_fields).
Proof. reflexivity. Qed.

(* machine_state/csregisters/satp.rs:91-95 Satp::default *)
Definition Satp_default : Z := csr_from_bits Satp_fields (shl_u 64 0 60).

(* machine_state/csregisters/satp.rs:99-110 Satp::normalise *)
Definition Satp_normalise (self : Z) : Z :=
  match csr_get Satp.MODE self with
  | Algo.Bare => csr_with Satp.ASID (csr_with Satp.PPN self (@from_bits _ (FixedWidthBits 44) 0))
                   (@from_bits _ (FixedWidthBits 16) 0)
  | Algo.Sv39 | Algo.Sv48 | Algo.Sv57 => self
  end.

(** ** The stored form of [mstatus]: one cell per field *)

(* machine_state/csregisters/values/mstatus.rs:22-46 MStatusValue *)
Record MStatusValue : Set := {
  m_sie : bool;
  m_mie : bool;
  m_spie : bool;
  m_ube : bool;
  m_mpie : bool;
  m_spp : SPPValue;
  m_mpp : MPPValue;
  m_fs : ExtensionValue;
  m_xs : ExtensionValue;
  m_mprv : bool;
  m_sum : bool;
  m_mxr : bool;
  m_tvm : bool;
  m_tw : bool;
  m_tsr : bool;
  m_uxl : XLenValue;
  m_sxl : XLenValue;
  m_sbe : bool;
  m_mbe : bool;
}.

(* machine_state/csregisters/values/mstatus.rs:150-152 compute_sd *)
Definition compute_sd (fs xs : ExtensionValue) : bool :=
  bool_decide (fs = Dirty) || bool_decide (xs = Dirty).

(* machine_state/csregisters/values/mstatus.rs:158-163 read_sd *)
Definition read_sd (s : MStatusValue) : bool := compute_sd s.(m_fs) s.(m_xs).

(** [MStatus::new] ([csr_new!]): all the fields in order, over [from_bits(0)]. *)
(* machine_state/csregisters/bits.rs:143-165 csr_new *)
Definition MStatus_new (s : MStatusValue) (sd : bool) : Z :=
  let v := csr_from_bits MStatus_fields 0 in
  let v := csr_with MStatus.WPRI1 v tt in
  let v := csr_with MStatus.SIE v s.(m_sie) in
  let v := csr_with MStatus.WPRI2 v tt in
  let v := csr_with MStatus.MIE v s.(m_mie) in
  let v := csr_with MStatus.WPRI3 v tt in
  let v := csr_with MStatus.SPIE v s.(m_spie) in
  let v := csr_with MStatus.UBE v s.(m_ube) in
  let v := csr_with MStatus.MPIE v s.(m_mpie) in
  let v := csr_with MStatus.SPP v s.(m_spp) in
  let v := csr_with MStatus.VS v tt in
  let v := csr_with MStatus.MPP v s.(m_mpp) in
  let v := csr_with MStatus.FS v s.(m_fs) in
  let v := csr_with MStatus.XS v s.(m_xs) in
  let v := csr_with MStatus.MPRV v s.(m_mprv) in
  let v := csr_with MStatus.SUM v s.(m_sum) in
  let v := csr_with MStatus.MXR v s.(m_mxr) in
  let v := csr_with MStatus.TVM v s.(m_tvm) in
  let v := csr_with MStatus.TW v s.(m_tw) in
  let v := csr_with MStatus.TSR v s.(m_tsr) in
  let v := csr_with MStatus.WPRI4 v tt in
  let v := csr_with MStatus.UXL v s.(m_uxl) in
  let v := csr_with MStatus.SXL v s.(m_sxl) in
  let v := csr_with MStatus.SBE v s.(m_sbe) in
  let v := csr_with MStatus.MBE v s.(m_mbe) in
  let v := csr_with MStatus.WPRI5 v tt in
  let v := csr_with MStatus.SD v sd in
  v.

(* machine_state/csregisters/values/mstatus.rs:176-212 MStatusValue::read *)
Definition MStatusValue_read (s : MStatusValue) : Z := MStatus_new s (compute_sd s.(m_xs) s.(m_fs)).

(* machine_state/csregisters/values/mstatus.rs:216-247 MStatusValue::write *)
Definition MStatusValue_write (s : MStatusValue) (value : Z) : MStatusValue :=
  let value := csr_from_bits MStatus_fields value in
  {|
    m_sie := csr_get MStatus.SIE value;
    m_mie := csr_get MStatus.MIE value;
    m_spie := csr_get MStatus.SPIE value;
    m_ube := csr_get MStatus.UBE value;
    m_mpie := csr_get MStatus.MPIE value;
    m_spp := csr_get MStatus.SPP value;
    m_mpp := csr_get MStatus.MPP value;
    m_fs := csr_get MStatus.FS value;
    m_xs := csr_get MStatus.XS value;
    m_mprv := csr_get MStatus.MPRV value;
    m_sum := csr_get MStatus.SUM value;
    m_mxr := csr_get MStatus.MXR value;
    m_tvm := csr_get MStatus.TVM value;
    m_tw := csr_get MStatus.TW value;
    m_tsr := csr_get MStatus.TSR value;
    m_uxl := csr_get MStatus.UXL value;
    m_sxl := csr_get MStatus.SXL value;
    m_sbe := csr_get MStatus.SBE value;
    m_mbe := csr_get MStatus.MBE value;
  |}.

(* machine_state/csregisters/values/mstatus.rs:251-313 MStatusValue::replace *)
Definition MStatusValue_replace (s : MStatusValue) (value : Z) : Z * MStatusValue :=
  (MStatus_new s (compute_sd s.(m_fs) s.(m_xs)), MStatusValue_write s value).
