(* ===== verification/XStatusSpec.v ===== *)
(** Properties of the bit-field registers of [XStatus]: reading a field after
    writing it, independence of the fields, and the round trip between the
    stored form of [mstatus] and its 64-bit representation. *)
From S2P Require Import Prelude Bits CSRegister XStatus.

(** ** The laws of a field type *)

Class Bits64Laws (A : Type) (B : Bits64 A) : Prop := {
  to_bits_range (a : A) : is_u (@WIDTH A B) (to_bits a);
  from_to_bits (a : A) : from_bits (to_bits a) = a;
}.

Ltac finite_bits := split; [intros []; vm_compute; intuition congruence|intros []; reflexivity].

#[export] Instance Bits64Laws_bool : Bits64Laws bool Bits64_bool.
Proof. finite_bits. Qed.
#[export] Instance Bits64Laws_MPPValue : Bits64Laws MPPValue Bits64_MPPValue.
Proof. finite_bits. Qed.
#[export] Instance Bits64Laws_SPPValue : Bits64Laws SPPValue Bits64_SPPValue.
Proof. finite_bits. Qed.
#[export] Instance Bits64Laws_XLenValue : Bits64Laws XLenValue Bits64_XLenValue.
Proof. finite_bits. Qed.
#[export] Instance Bits64Laws_ExtensionValue : Bits64Laws ExtensionValue Bits64_ExtensionValue.
Proof. finite_bits. Qed.
#[export] Instance Bits64Laws_TranslationAlgorithm :
  Bits64Laws TranslationAlgorithm Bits64_TranslationAlgorithm.
Proof. finite_bits. Qed.

Lemma Bits64Laws_ConstantBits w v : is_u w v -> Bits64Laws unit (ConstantBits w v).
Proof. intros. split; [done|by intros []]. Qed.

(** Finds the laws of a field given by its [csr_field]. *)
Ltac field_laws :=
  first [ exact Bits64Laws_bool | exact Bits64Laws_MPPValue | exact Bits64Laws_SPPValue
        | exact Bits64Laws_XLenValue | exact Bits64Laws_ExtensionValue
        | exact Bits64Laws_TranslationAlgorithm
        | apply Bits64Laws_ConstantBits; vm_compute; intuition congruence ].
#[export] Hint Extern 1 (Bits64Laws (field_type _) _) => field_laws : typeclass_instances.

(** ** Fields of a register *)

Definition field_end (f : csr_field) : Z := f.(field_offset) + field_width f.

(** The field has a non-empty range of bits that is not the whole register. *)
Definition field_ok (f : csr_field) : bool :=
  (0 <=? f.(field_offset)) && (1 <=? field_width f) && (field_end f <=? 64)
  && (field_width f <? 64).

Definition disjointb (f g : csr_field) : bool :=
  (field_end f <=? g.(field_offset)) || (field_end g <=? f.(field_offset)).

Lemma field_ok_range f :
  field_ok f = true ->
  valid_range 64 (f.(field_offset) + saturating_sub (field_width f) 1) f.(field_offset) /\
  saturating_sub (field_width f) 1 = field_width f - 1 /\ 0 < field_width f.
Proof.
  unfold field_ok, field_end, valid_range, saturating_sub.
  rewrite !andb_true_iff, !Z.leb_le, Z.ltb_lt. intros. lia.
Qed.

Lemma csr_raw_spec f v :
  field_ok f = true -> csr_raw f v = (v / 2 ^ f.(field_offset)) mod 2 ^ field_width f.
Proof.
  intros H. destruct (field_ok_range f H) as (V & E & ?). unfold csr_raw.
  rewrite bits_subset_spec, E by done. do 2 f_equal. lia.
Qed.

Lemma csr_raw_range f v : field_ok f = true -> is_u (field_width f) (csr_raw f v).
Proof.
  intros H. rewrite csr_raw_spec by done. apply wrap_range. apply field_ok_range in H. lia.
Qed.

Lemma testbit_csr_raw f v i :
  field_ok f = true ->
  Z.testbit (csr_raw f v) i = (0 <=? i) && (i <? field_width f) && Z.testbit v (i + f.(field_offset)).
Proof.
  intros H. destruct (field_ok_range f H) as (V & E & ?). unfold csr_raw.
  rewrite testbit_bits_subset, E by done. bits_cases.
Qed.

Lemma csr_with_u64 f v x : field_ok f = true -> is_u 64 v -> is_u 64 (csr_with f v x).
Proof. intros H ?. destruct (field_ok_range f H) as (V & _). by apply replace_subset_range. Qed.

Lemma testbit_csr_with f v x i :
  field_ok f = true -> i < 64 ->
  Z.testbit (csr_with f v x) i =
    if (f.(field_offset) <=? i) && (i <? field_end f)
    then Z.testbit (@to_bits _ f.(field_bits) x) (i - f.(field_offset)) else Z.testbit v i.
Proof.
  intros H U. destruct (field_ok_range f H) as (V & E & ?). unfold csr_with.
  rewrite testbit_replace_subset_low, E by done. unfold field_end.
  replace (i <=? _ + _) with (i <? f.(field_offset) + field_width f); [done|]. bool_cases; lia.
Qed.

Lemma raw_with_eq f v x :
  field_ok f = true ->
  csr_raw f (csr_with f v x) = wrap (field_width f) (@to_bits _ f.(field_bits) x).
Proof.
  intros H. destruct (field_ok_range f H) as ((? & ? & ?) & E & ?).
  apply Z.bits_inj'. intros i Hi. rewrite testbit_csr_raw, testbit_wrap by (done || lia).
  destruct (Z.ltb_spec i (field_width f)); [|by rewrite andb_false_r].
  rewrite testbit_csr_with by (done || lia). unfold field_end. rewrite Z.add_simpl_r. bits_cases.
Qed.

Lemma raw_with_ne f g v x :
  field_ok f = true -> field_ok g = true -> disjointb f g = true ->
  csr_raw f (csr_with g v x) = csr_raw f v.
Proof.
  intros F G D. destruct (field_ok_range f F) as ((? & ? & ?) & ? & ?).
  apply Z.bits_inj'. intros i Hi. rewrite !testbit_csr_raw by done.
  destruct (Z.ltb_spec i (field_width f)); [|by rewrite andb_false_r].
  rewrite testbit_csr_with by (done || lia).
  unfold disjointb, field_end in *. apply orb_true_iff in D. rewrite !Z.leb_le in D.
  bits_cases.
Qed.

Lemma get_with_eq f `{!Bits64Laws _ f.(field_bits)} v x :
  field_ok f = true -> csr_get f (csr_with f v x) = x.
Proof.
  intros. unfold csr_get. rewrite raw_with_eq by done.
  rewrite wrap_small by apply to_bits_range. apply from_to_bits.
Qed.

(** ** Whole registers

    The fields of a register are sorted by offset and cover the 64 bits. *)
Fixpoint sorted_fields (l : list csr_field) : bool :=
  match l with
  | [] => true
  | f :: l => field_ok f && forallb (disjointb f) l && sorted_fields l
  end.

Definition covering (l : list csr_field) : bool :=
  forallb (fun i => existsb (fun f => (f.(field_offset) <=? i) && (i <? field_end f)) l) (seqZ 0 64).

Lemma sorted_fields_ok l f : sorted_fields l = true -> f ∈ l -> field_ok f = true.
Proof.
  induction l as [|g l IH]; simpl; [by rewrite elem_of_nil|].
  rewrite !andb_true_iff, elem_of_cons. intros [[? ?] ?] [->|?]; auto.
Qed.

Lemma disjointb_sym f g : disjointb f g = disjointb g f.
Proof. unfold disjointb. apply orb_comm. Qed.

Lemma csr_ext l a b :
  sorted_fields l = true -> covering l = true -> is_u 64 a -> is_u 64 b ->
  (forall f, f ∈ l -> csr_raw f a = csr_raw f b) -> a = b.
Proof.
  intros S C Ua Ub H. apply Z.bits_inj'. intros i Hi.
  destruct (Z.ltb_spec i 64); [|by rewrite !(testbit_above 64) by done].
  unfold covering in C. rewrite forallb_forall in C.
  specialize (C i). rewrite <- list_elem_of_In, elem_of_seqZ in C. specialize (C ltac:(lia)).
  apply existsb_exists in C as (f & Hf & B). rewrite <- list_elem_of_In in Hf.
  rewrite andb_true_iff, Z.leb_le, Z.ltb_lt in B. unfold field_end in B.
  pose proof (sorted_fields_ok l f S Hf) as O.
  assert (Z.testbit (csr_raw f a) (i - f.(field_offset)) =
          Z.testbit (csr_raw f b) (i - f.(field_offset))) as E by by rewrite H.
  rewrite !testbit_csr_raw, Z.sub_add in E by done. revert E. bits_cases.
Qed.

Definition set_fields (value : Z) (acc : Z) (l : list csr_field) : Z :=
  fold_left (fun new_self f => csr_with f new_self (csr_get f value)) l acc.

Lemma set_fields_u64 value l acc :
  sorted_fields l = true -> is_u 64 acc -> is_u 64 (set_fields value acc l).
Proof.
  revert acc. induction l as [|g l IH]; intros acc S U; [done|].
  simpl in S. apply andb_true_iff in S as [[O _]%andb_true_iff S].
  apply IH; [done|]. by apply csr_with_u64.
Qed.

Lemma set_fields_ne value l acc f :
  sorted_fields l = true -> field_ok f = true -> forallb (disjointb f) l = true ->
  csr_raw f (set_fields value acc l) = csr_raw f acc.
Proof.
  revert acc. induction l as [|g l IH]; intros acc S F D; [done|].
  simpl in S, D. apply andb_true_iff in S as [[O _]%andb_true_iff S].
  apply andb_true_iff in D as [D D'].
  unfold set_fields; simpl. fold (set_fields value (csr_with g acc (csr_get g value)) l).
  rewrite IH by done. by apply raw_with_ne.
Qed.

Lemma set_fields_eq value l acc f :
  sorted_fields l = true -> f ∈ l ->
  csr_raw f (set_fields value acc l)
    = wrap (field_width f) (@to_bits _ f.(field_bits) (csr_get f value)).
Proof.
  revert acc. induction l as [|g l IH]; intros acc S F; [by apply elem_of_nil in F|].
  simpl in S. apply andb_true_iff in S as [[O D]%andb_true_iff S].
  unfold set_fields; simpl. fold (set_fields value (csr_with g acc (csr_get g value)) l).
  apply elem_of_cons in F as [->|F].
  - rewrite set_fields_ne by done. by apply raw_with_eq.
  - by apply IH.
Qed.

Lemma csr_from_bits_u64 l v : sorted_fields l = true -> is_u 64 (csr_from_bits l v).
Proof. intros. apply set_fields_u64; [done|]. by vm_compute. Qed.

Lemma raw_from_bits l v f :
  sorted_fields l = true -> f ∈ l ->
  csr_raw f (csr_from_bits l v) = wrap (field_width f) (@to_bits _ f.(field_bits) (csr_get f v)).
Proof. apply set_fields_eq. Qed.

Lemma get_from_bits l v f `{!Bits64Laws _ f.(field_bits)} :
  sorted_fields l = true -> f ∈ l -> csr_get f (csr_from_bits l v) = csr_get f v.
Proof.
  intros. unfold csr_get at 1. rewrite raw_from_bits by done.
  rewrite wrap_small by apply to_bits_range. apply from_to_bits.
Qed.

Lemma get_with_ne f g v x :
  field_ok f = true -> field_ok g = true -> disjointb f g = true ->
  csr_get f (csr_with g v x) = csr_get f v.
Proof. intros. unfold csr_get. by rewrite raw_with_ne. Qed.

(** Evaluates a field of a chain of [with_<field>] calls. *)
Ltac get_chain :=
  repeat match goal with
  | |- context [csr_get ?f (csr_with ?f ?v ?x)] => rewrite (get_with_eq f v x) by reflexivity
  | |- context [csr_get ?f (csr_with ?g ?v ?x)] => rewrite (get_with_ne f g v x) by reflexivity
  end.

Ltac raw_chain :=
  repeat match goal with
  | |- context [csr_raw ?f (csr_with ?f ?v ?x)] => rewrite (raw_with_eq f v x) by reflexivity
  | |- context [csr_raw ?f (csr_with ?g ?v ?x)] => rewrite (raw_with_ne f g v x) by reflexivity
  end.

Ltac field_in := apply list_elem_of_In; simpl; tauto.

Lemma MStatus_fields_sorted : sorted_fields MStatus_fields = true /\ covering MStatus_fields = true.
Proof. split; reflexivity. Qed.

(** The stored fields can be read back from the word [MStatus::new] makes. *)
Lemma MStatusValue_write_new s0 s sd : MStatusValue_write s0 (MStatus_new s sd) = s.
Proof.
  unfold MStatusValue_write. destruct s; f_equal.
  all: rewrite get_from_bits by (reflexivity || field_laws || field_in).
  all: unfold MStatus_new; cbv zeta; get_chain; reflexivity.
Qed.

Ltac get_bits :=
  repeat match goal with
  | |- context [csr_get ?f (csr_from_bits ?l ?v)] =>
      rewrite (get_from_bits l v f) by (reflexivity || field_in)
  | |- context [csr_raw ?f (csr_from_bits ?l ?v)] =>
      rewrite (raw_from_bits l v f) by (reflexivity || field_in)
  end.

Ltac csr_u64 :=
  repeat lazymatch goal with
  | |- is_u 64 (csr_with _ _ _) => apply csr_with_u64; [reflexivity|]
  | |- is_u 64 (csr_from_bits _ _) => apply csr_from_bits_u64; reflexivity
  end.

Lemma MStatus_new_u64 s sd : is_u 64 (MStatus_new s sd).
Proof.
  unfold MStatus_new. cbv zeta. csr_u64.
Qed.

Lemma MStatusValue_read_u64 s : is_u 64 (MStatusValue_read s).
Proof. exact (MStatus_new_u64 _ _). Qed.

Lemma MStatus_normalise_u64 v : is_u 64 v -> is_u 64 (MStatus_normalise v).
Proof.
  intros. unfold MStatus_normalise, to_mstatus. cbv zeta.
  by csr_u64.
Qed.

(** A field of [normalise]: [SD] says whether [FS] or [XS] is dirty, the other
    fields do not change. *)
Lemma MStatus_read_write_field v f s :
  f ∈ MStatus_fields ->
  csr_raw f (MStatusValue_read (MStatusValue_write s v)) =
  csr_raw f (MStatus_normalise (csr_from_bits MStatus_fields v)).
Proof.
  intros Hf. unfold MStatusValue_read, MStatus_new, MStatus_normalise, to_mstatus, SStatus_normalise,
    to_sstatus, MStatusValue_write.
  cbv zeta. cbn [m_sie m_mie m_spie m_ube m_mpie m_spp m_mpp m_fs m_xs m_mprv m_sum m_mxr m_tvm m_tw
    m_tsr m_uxl m_sxl m_sbe m_mbe].
  unfold MStatus_fields in Hf.
  repeat (apply elem_of_cons in Hf as [->|Hf]); [..|by apply elem_of_nil in Hf];
    raw_chain; get_chain; get_bits; try reflexivity.
  do 2 f_equal. apply orb_comm.
Qed.

Lemma compute_sd_comm fs xs : compute_sd fs xs = compute_sd xs fs.
Proof. apply orb_comm. Qed.

Lemma MStatusValue_read_of_write s v :
  MStatusValue_read (MStatusValue_write s v) = MStatus_normalise (csr_from_bits MStatus_fields v).
Proof.
  destruct MStatus_fields_sorted as [S C].
  exact (csr_ext MStatus_fields _ _ S C (MStatusValue_read_u64 _)
           (MStatus_normalise_u64 _ (csr_from_bits_u64 _ v S))
           (fun f Hf => MStatus_read_write_field v f s Hf)).
Qed.

Lemma MStatusValue_write_of_read s0 s : MStatusValue_write s0 (MStatusValue_read s) = s.
Proof. exact (MStatusValue_write_new s0 s _). Qed.

Lemma MStatusValue_replace_eq s v :
  MStatusValue_replace s v = (MStatusValue_read s, MStatusValue_write s v).
Proof.
  unfold MStatusValue_replace, MStatusValue_read. by rewrite (compute_sd_comm (m_fs s)).
Qed.

(** The cells of [mstatus] and its 64-bit representation determine each
    other: writing back what was read changes nothing, and reading after
    writing [v] gives the normalised form of [v] (reserved bits fixed, [SD]
    recomputed from [FS] and [XS]); [replace] returns the old word and leaves
    the cells that [write] leaves. *)
Theorem MStatusValue_roundtrip s v :
  MStatusValue_write s (MStatusValue_read s) = s /\
  MStatusValue_read (MStatusValue_write s v) =
    MStatus_normalise (csr_from_bits MStatus_fields v) /\
  MStatusValue_replace s v = (MStatusValue_read s, MStatusValue_write s v).
Proof.
  split; [exact (MStatusValue_write_of_read s s)|].
  split; [exact (MStatusValue_read_of_write s v)|exact (MStatusValue_replace_eq s v)].
Qed.

(** ** Reserved fields and normal forms *)

Lemma land_mask_fields zs m w :
  is_u 64 w ->
  forallb (fun i => Z.testbit m i
    || existsb (fun f => field_ok f && (f.(field_offset) <=? i) && (i <? field_end f)) zs)
    (seqZ 0 64) = true ->
  Forall (fun f => csr_raw f w = 0) zs -> (w & m) = w.
Proof.
  intros U C Z0. apply Z.bits_inj'. intros i Hi. rewrite testbit_land.
  destruct (Z.ltb_spec i 64); [|by rewrite (testbit_above 64 w)].
  rewrite forallb_forall in C. specialize (C i).
  rewrite <- list_elem_of_In, elem_of_seqZ in C. specialize (C ltac:(lia)).
  destruct (Z.testbit m i); [apply andb_true_r|]. simpl in C.
  apply existsb_exists in C as (f & Hf & B). rewrite <- list_elem_of_In in Hf.
  rewrite !andb_true_iff, Z.leb_le, Z.ltb_lt in B. unfold field_end in B. destruct B as [[O ?] ?].
  rewrite Forall_forall in Z0. specialize (Z0 f Hf).
  assert (Z.testbit (csr_raw f w) (i - f.(field_offset)) = false) as E by by rewrite Z0, Z.bits_0.
  rewrite testbit_csr_raw, Z.sub_add in E by done. rewrite andb_false_r. symmetry. revert E.
  bits_cases.
Qed.

Lemma to_sstatus_u64 v : is_u 64 (to_sstatus v).
Proof. apply csr_from_bits_u64. reflexivity. Qed.

Lemma SStatus_normalise_u64 v : is_u 64 v -> is_u 64 (SStatus_normalise v).
Proof. intros. unfold SStatus_normalise. cbv zeta. by csr_u64. Qed.

Lemma MStatus_wpri_zero v :
  Forall (fun f => csr_raw f (MStatus_normalise (csr_from_bits MStatus_fields v)) = 0)
    [MStatus.WPRI1; MStatus.WPRI2; MStatus.WPRI3; MStatus.WPRI4; MStatus.WPRI5].
Proof.
  unfold MStatus_normalise, to_mstatus. cbv zeta.
  repeat (apply Forall_cons; split; [raw_chain; get_bits; reflexivity|]). by apply Forall_nil.
Qed.

Lemma SStatus_wpri_zero v :
  Forall (fun f => csr_raw f (SStatus_normalise (csr_from_bits SStatus_fields v)) = 0)
    [SStatus.WPRI1; SStatus.WPRI2; SStatus.WPRI3; SStatus.WPRI4; SStatus.WPRI5; SStatus.WPRI6;
     SStatus.WPRI7].
Proof.
  unfold SStatus_normalise. cbv zeta.
  repeat (apply Forall_cons; split; [raw_chain; get_bits; reflexivity|]). by apply Forall_nil.
Qed.

Lemma MNStatus_wpri_zero v :
  Forall (fun f => csr_raw f (csr_from_bits MNStatus_fields v) = 0)
    [MNStatus.WPRI1; MNStatus.WPRI2; MNStatus.WPRI3; MNStatus.WPRI4].
Proof.
  repeat (apply Forall_cons; split; [raw_chain; get_bits; reflexivity|]). by apply Forall_nil.
Qed.

Ltac fields_of Hf := repeat (apply elem_of_cons in Hf as [->|Hf]); [..|by apply elem_of_nil in Hf].

Lemma SStatus_normalise_idem v :
  let w := SStatus_normalise (csr_from_bits SStatus_fields v) in
  SStatus_normalise (csr_from_bits SStatus_fields w) = w.
Proof.
  intros w. assert (S : sorted_fields SStatus_fields = true) by reflexivity.
  refine (csr_ext SStatus_fields _ _ S eq_refl
    (SStatus_normalise_u64 _ (csr_from_bits_u64 _ _ S))
    (SStatus_normalise_u64 _ (csr_from_bits_u64 _ _ S)) _).
  intros f Hf. unfold SStatus_fields in Hf. fields_of Hf;
    unfold w, SStatus_normalise; cbv zeta; raw_chain; get_bits; get_chain; get_bits; reflexivity.
Qed.

Lemma MNStatus_idem v :
  csr_from_bits MNStatus_fields (csr_from_bits MNStatus_fields v) = csr_from_bits MNStatus_fields v.
Proof.
  assert (S : sorted_fields MNStatus_fields = true) by reflexivity.
  refine (csr_ext MNStatus_fields _ _ S eq_refl
    (csr_from_bits_u64 _ _ S) (csr_from_bits_u64 _ _ S) _).
  intros f Hf. unfold MNStatus_fields in Hf. fields_of Hf; get_bits; reflexivity.
Qed.

Lemma fixed_width_raw n off v :
  0 < n < 64 -> field_ok (Field Z (FixedWidthBits n) off) = true ->
  wrap n (@to_bits _ (FixedWidthBits n) (csr_get (Field Z (FixedWidthBits n) off) v)) =
  csr_raw (Field Z (FixedWidthBits n) off) v.
Proof.
  intros Hn O. unfold csr_get. simpl.
  pose proof (csr_raw_range _ v O) as R. unfold field_width in R; simpl in R.
  assert (E : forall x, is_u n x -> bits_subset 64 x (n - 1) 0 = x).
  { intros x Hx. rewrite bits_subset_spec by (unfold valid_range; lia).
    rewrite Z.div_1_r. replace (1 + (n - 1) - 0) with n by lia. by apply wrap_small. }
  rewrite (E (csr_raw _ v) R), (E (csr_raw _ v) R). by apply wrap_small.
Qed.

Lemma Satp_ppn v : wrap (field_width Satp.PPN) (@to_bits _ (field_bits Satp.PPN) (csr_get Satp.PPN v))
  = csr_raw Satp.PPN v.
Proof. apply (fixed_width_raw 44 0); [lia|reflexivity]. Qed.

Lemma Satp_asid v :
  wrap (field_width Satp.ASID) (@to_bits _ (field_bits Satp.ASID) (csr_get Satp.ASID v))
  = csr_raw Satp.ASID v.
Proof. apply (fixed_width_raw 16 44); [lia|reflexivity]. Qed.

Lemma Satp_normalise_u64 v : is_u 64 v -> is_u 64 (Satp_normalise v).
Proof. intros. unfold Satp_normalise. destruct (csr_get Satp.MODE v); csr_u64; done. Qed.

Lemma Satp_normalise_idem v :
  let w := Satp_normalise (csr_from_bits Satp_fields v) in
  Satp_normalise (csr_from_bits Satp_fields w) = w.
Proof.
  intros w. assert (S : sorted_fields Satp_fields = true) by reflexivity.
  refine (csr_ext Satp_fields _ _ S eq_refl
    (Satp_normalise_u64 _ (csr_from_bits_u64 _ _ S))
    (Satp_normalise_u64 _ (csr_from_bits_u64 _ _ S)) _).
  intros f Hf. unfold w, Satp_normalise.
  rewrite (get_from_bits Satp_fields v) by (reflexivity || field_laws || field_in).
  destruct (csr_get Satp.MODE v) eqn:E; get_bits; get_chain; get_bits; rewrite E;
    unfold Satp_fields in Hf; fields_of Hf; raw_chain; get_bits;
    rewrite ?Satp_ppn, ?Satp_asid; raw_chain; get_bits; rewrite ?Satp_ppn, ?Satp_asid;
    get_chain; get_bits; reflexivity.
Qed.

(** ** [sstatus] as a view of [mstatus] *)

(** The cells after [mstatus] was updated from the [sstatus] word [x]. *)
Definition sstatus_cells (s : MStatusValue) (x : Z) : MStatusValue := {|
  m_sie := csr_get SStatus.SIE x;
  m_mie := s.(m_mie);
  m_spie := csr_get SStatus.SPIE x;
  m_ube := csr_get SStatus.UBE x;
  m_mpie := s.(m_mpie);
  m_spp := csr_get SStatus.SPP x;
  m_mpp := s.(m_mpp);
  m_fs := csr_get SStatus.FS x;
  m_xs := csr_get SStatus.XS x;
  m_mprv := s.(m_mprv);
  m_sum := csr_get SStatus.SUM x;
  m_mxr := csr_get SStatus.MXR x;
  m_tvm := s.(m_tvm);
  m_tw := s.(m_tw);
  m_tsr := s.(m_tsr);
  m_uxl := csr_get SStatus.UXL x;
  m_sxl := s.(m_sxl);
  m_sbe := s.(m_sbe);
  m_mbe := s.(m_mbe);
|}.

Lemma sstatus_write_cells s x :
  MStatusValue_write s (to_mstatus x (csr_from_bits MStatus_fields (MStatusValue_read s))) =
  sstatus_cells s x.
Proof.
  unfold MStatusValue_write, sstatus_cells. f_equal.
  all: rewrite get_from_bits by (reflexivity || field_laws || field_in).
  all: unfold to_mstatus; cbv zeta; get_chain; try reflexivity; get_bits.
  all: unfold MStatusValue_read, MStatus_new; cbv zeta; get_chain; reflexivity.
Qed.

Lemma SStatus_from_bits_idem v :
  csr_from_bits SStatus_fields (csr_from_bits SStatus_fields v) = csr_from_bits SStatus_fields v.
Proof.
  assert (S : sorted_fields SStatus_fields = true) by reflexivity.
  refine (csr_ext SStatus_fields _ _ S eq_refl
    (csr_from_bits_u64 _ _ S) (csr_from_bits_u64 _ _ S) _).
  intros f Hf. unfold SStatus_fields in Hf. fields_of Hf; get_bits; reflexivity.
Qed.

(** The fields of [sstatus] in an [mstatus] word, by name. *)
Lemma sstatus_read_cells s x :
  to_sstatus (csr_from_bits MStatus_fields (MStatusValue_read (sstatus_cells s x))) =
  SStatus_normalise (csr_from_bits SStatus_fields x).
Proof.
  assert (S : sorted_fields SStatus_fields = true) by reflexivity.
  refine (csr_ext SStatus_fields _ _ S eq_refl
    (csr_from_bits_u64 _ _ S) (SStatus_normalise_u64 _ (csr_from_bits_u64 _ _ S)) _).
  intros f Hf. unfold SStatus_normalise, to_sstatus. cbv zeta.
  unfold SStatus_fields in Hf. fields_of Hf.
  all: rewrite (raw_from_bits SStatus_fields) by (reflexivity || field_in).
  all: raw_chain; get_bits; try reflexivity.
  all: unfold MStatusValue_read, MStatus_new; cbv zeta; get_chain; get_bits; try reflexivity.
  all: match goal with |- context [csr_get ?f (csr_with ?g ?v ?x)] =>
      rewrite (get_with_eq g v x eq_refl : csr_get f (csr_with g v x) = x) end.
  all: try reflexivity.
  do 2 f_equal. apply orb_comm.
Qed.

(** ** The status word of a trap *)

Definition field_kept (m : Z) (f : csr_field) : bool :=
  field_ok f && forallb (fun i => Z.testbit m (i + f.(field_offset))) (seqZ 0 (field_width f)).

Lemma csr_get_land f v m : field_kept m f = true -> csr_get f (v & m) = csr_get f v.
Proof.
  unfold field_kept. rewrite andb_true_iff, forallb_forall. intros [O K].
  unfold csr_get. f_equal. apply Z.bits_inj'. intros i Hi. rewrite !testbit_csr_raw, testbit_land by done.
  destruct (Z.ltb_spec i (field_width f)); [|by rewrite !andb_false_r].
  rewrite K; [by rewrite !andb_true_r|]. apply list_elem_of_In, elem_of_seqZ. lia.
Qed.

(** The fields of [mstatus] that have a cell. *)
Definition MStatus_stored : list csr_field :=
  [MStatus.SIE; MStatus.MIE; MStatus.SPIE; MStatus.UBE; MStatus.MPIE; MStatus.SPP; MStatus.MPP;
   MStatus.FS; MStatus.XS; MStatus.MPRV; MStatus.SUM; MStatus.MXR; MStatus.TVM; MStatus.TW;
   MStatus.TSR; MStatus.UXL; MStatus.SXL; MStatus.SBE; MStatus.MBE].

(** Masking out bits of fields that are not stored does not change what is
    stored, and neither does normalisation. *)
Lemma MStatusValue_write_land s v m :
  forallb (field_kept m) MStatus_stored = true ->
  MStatusValue_write s (v & m) = MStatusValue_write s v.
Proof.
  rewrite forallb_forall. intros K. unfold MStatusValue_write. f_equal.
  all: get_bits; match goal with |- csr_get ?f _ = _ => refine (csr_get_land f v m (K f _)) end.
  all: unfold MStatus_stored; simpl; tauto.
Qed.

Lemma MStatusValue_write_normalise s v :
  MStatusValue_write s (MStatus_normalise (csr_from_bits MStatus_fields v)) = MStatusValue_write s v.
Proof. rewrite <- (MStatusValue_read_of_write s v). apply MStatusValue_write_of_read. Qed.

(** The cells after a trap into machine mode: interrupts are disabled and the
    previous state is stacked in [MPIE] and [MPP]. *)
Definition trap_cells_machine (s : MStatusValue) (mpp : MPPValue) : MStatusValue := {|
  m_sie := s.(m_sie); m_mie := false; m_spie := s.(m_spie); m_ube := s.(m_ube);
  m_mpie := s.(m_mie); m_spp := s.(m_spp); m_mpp := mpp; m_fs := s.(m_fs); m_xs := s.(m_xs);
  m_mprv := s.(m_mprv); m_sum := s.(m_sum); m_mxr := s.(m_mxr); m_tvm := s.(m_tvm);
  m_tw := s.(m_tw); m_tsr := s.(m_tsr); m_uxl := s.(m_uxl); m_sxl := s.(m_sxl);
  m_sbe := s.(m_sbe); m_mbe := s.(m_mbe);
|}.

Definition trap_cells_supervisor (s : MStatusValue) (spp : SPPValue) : MStatusValue := {|
  m_sie := false; m_mie := s.(m_mie); m_spie := s.(m_sie); m_ube := s.(m_ube);
  m_mpie := s.(m_mpie); m_spp := spp; m_mpp := s.(m_mpp); m_fs := s.(m_fs); m_xs := s.(m_xs);
  m_mprv := s.(m_mprv); m_sum := s.(m_sum); m_mxr := s.(m_mxr); m_tvm := s.(m_tvm);
  m_tw := s.(m_tw); m_tsr := s.(m_tsr); m_uxl := s.(m_uxl); m_sxl := s.(m_sxl);
  m_sbe := s.(m_sbe); m_mbe := s.(m_mbe);
|}.

Ltac stored_cells :=
  unfold MStatusValue_write; f_equal;
  rewrite get_from_bits by (reflexivity || field_laws || field_in);
  get_chain; get_bits; try reflexivity;
  unfold MStatusValue_read, MStatus_new; cbv zeta; get_chain; reflexivity.

Lemma trap_cells_machine_write s mpp :
  let v := csr_from_bits MStatus_fields (MStatusValue_read s) in
  MStatusValue_write s
    (csr_with MStatus.MPP (csr_with MStatus.MIE (csr_with MStatus.MPIE v (csr_get MStatus.MIE v))
       false) mpp) = trap_cells_machine s mpp.
Proof. cbv zeta. unfold trap_cells_machine. stored_cells. Qed.

Lemma trap_cells_supervisor_write s spp :
  let v := csr_from_bits MStatus_fields (MStatusValue_read s) in
  MStatusValue_write s
    (csr_with MStatus.SPP (csr_with MStatus.SIE (csr_with MStatus.SPIE v (csr_get MStatus.SIE v))
       false) spp) = trap_cells_supervisor s spp.
Proof. cbv zeta. unfold trap_cells_supervisor. stored_cells. Qed.

#[global] Opaque csr_from_bits csr_with csr_raw MStatusValue_read MStatusValue_write
  MStatusValue_replace MStatus_normalise SStatus_normalise Satp_normalise to_mstatus to_sstatus.
