(* ===== verification/CSRegisters.v ===== *)
(** The control and status registers: [src/riscv/lib/src/machine_state/csregisters.rs],
    [csregisters/values.rs], [csregisters/values/xip.rs] and
    [csregisters/effects.rs].

    The raw cells of [CSRValues] are a function from root registers to [u64];
    [mstatus] has its own cells ([MStatusValue]), and [mip] has none (its cell
    always reads 0).  The effects that writes return are handled by
    [handle_csr_effect], which does nothing, so they are not represented. *)
From S2P Require Import Prelude Bits CSRegister Traps XStatus XStatusSpec.

(** ** Constants *)

Definition MXLEN : Z := 64.
Definition SXLEN : Z := MXLEN.

Abbreviation field_mask n pos := (shl_u 64 (ones n) pos).

(* machine_state/csregisters.rs:435-436 WPRI_MASK_MSTATUS *)
Definition WPRI_MASK_MSTATUS : Z :=
  not_u 64 (field_mask 1 0 |: field_mask 1 2 |: field_mask 1 4 |: field_mask 9 23
            |: field_mask 25 38).

(* machine_state/csregisters.rs:438-438 WPRI_MASK_MENVCFG *)
Definition WPRI_MASK_MENVCFG : Z := not_u 64 (field_mask 3 1 |: field_mask 54 8).

(* machine_state/csregisters.rs:440-440 WPRI_MASK_MSECCFG *)
Definition WPRI_MASK_MSECCFG : Z := not_u 64 (field_mask 5 3 |: field_mask (MXLEN - 10) 10).

(* machine_state/csregisters.rs:442-448 WPRI_MASK_SSTATUS *)
Definition WPRI_MASK_SSTATUS : Z :=
  not_u 64 (field_mask 1 0 |: field_mask 3 2 |: field_mask 1 7 |: field_mask 2 11
            |: field_mask 1 17 |: field_mask 12 20 |: field_mask 29 34).

(* machine_state/csregisters.rs:450-450 WPRI_MASK_SENVCFG *)
Definition WPRI_MASK_SENVCFG : Z := not_u 64 (field_mask 3 1 |: field_mask (SXLEN - 8) 8).

(* machine_state/csregisters.rs:452-452 WPRI_MASK_MNCAUSE *)
Definition WPRI_MASK_MNCAUSE : Z := not_u 64 (field_mask 1 (MXLEN - 1)).

(* machine_state/csregisters.rs:454-455 WPRI_MASK_MNSTATUS *)
Definition WPRI_MASK_MNSTATUS : Z :=
  not_u 64 (field_mask 3 0 |: field_mask 3 4 |: field_mask 3 8 |: field_mask (MXLEN - 13) 13).

Definition WPRI_MASK_EMPTY : Z := U64_MAX.

(* machine_state/csregisters.rs:460-471 wpri_mask *)
Definition wpri_mask (r : CSR.CSRegister) : Z :=
  match r with
  | CSR.mstatus => WPRI_MASK_MSTATUS
  | CSR.menvcfg => WPRI_MASK_MENVCFG
  | CSR.mseccfg => WPRI_MASK_MSECCFG
  | CSR.sstatus => WPRI_MASK_SSTATUS
  | CSR.senvcfg => WPRI_MASK_SENVCFG
  | CSR.mncause => WPRI_MASK_MNCAUSE
  | CSR.mnstatus => WPRI_MASK_MNSTATUS
  | _ => WPRI_MASK_EMPTY
  end.

(* machine_state/csregisters.rs:477-479 clear_wpri_fields *)
Definition clear_wpri_fields (r : CSR.CSRegister) (new_value : Z) : Z := new_value & wpri_mask r.

Definition INTERRUPT_BIT : Z := shl_u 64 1 63.

(* machine_state/csregisters.rs:482-514 WLRL_MCAUSE_VALUES *)
Definition WLRL_MCAUSE_VALUES : list Z :=
  [INTERRUPT_BIT |: 1; INTERRUPT_BIT |: 3; INTERRUPT_BIT |: 5; INTERRUPT_BIT |: 7;
   INTERRUPT_BIT |: 9; INTERRUPT_BIT |: 11; 0; 1; 2; 3; 4; 5; 6; 7; 8; 9; 11; 12; 13; 15].

(* machine_state/csregisters.rs:517-545 WLRL_SCAUSE_VALUES *)
Definition WLRL_SCAUSE_VALUES : list Z :=
  [INTERRUPT_BIT |: 1; INTERRUPT_BIT |: 5; INTERRUPT_BIT |: 9;
   0; 1; 2; 3; 4; 5; 6; 7; 8; 9; 12; 13; 15].

(* machine_state/csregisters.rs:551-557 legal_values *)
Definition legal_values (r : CSR.CSRegister) : list Z :=
  match r with
  | CSR.mcause => WLRL_MCAUSE_VALUES
  | CSR.scause => WLRL_SCAUSE_VALUES
  | _ => []
  end.

(* machine_state/csregisters.rs:563-567 is_legal *)
Definition is_legal (r : CSR.CSRegister) (new_value : Z) : bool :=
  match legal_values r with
  | [] => true
  | l => existsb (Z.eqb new_value) l
  end.

(* machine_state/csregisters.rs:570-593 WARL_MISA_VALUE *)
Definition WARL_MISA_VALUE : Z :=
  shl_u 64 2 62 |: shl_u 64 1 0 |: shl_u 64 1 2 |: shl_u 64 1 3 |: shl_u 64 1 5 |: shl_u 64 1 8
  |: shl_u 64 1 12 |: shl_u 64 1 18 |: shl_u 64 1 20.

(* machine_state/csregisters.rs:625-631 WARL_MASK_MEDELEG *)
Definition WARL_MASK_MEDELEG : Z :=
  not_u 64 (field_mask 1 10 |: field_mask 1 11 |: field_mask 1 14 |: field_mask (MXLEN - 16) 16).

(* machine_state/csregisters.rs:637-647 WARL_MASK_MIDELEG *)
Definition WARL_MASK_MIDELEG : Z :=
  not_u 64 (field_mask 1 0 |: field_mask 1 2 |: field_mask 1 4 |: field_mask 1 6 |: field_mask 1 8
            |: field_mask 1 10 |: field_mask 4 12 |: field_mask (MXLEN - 16) 16).

(* machine_state/csregisters.rs:654-654 WARL_MASK_XTVEC *)
Definition WARL_MASK_XTVEC : Z := not_u 64 (field_mask 1 1).

(* machine_state/csregisters.rs:659-659 WARL_MASK_MIP_MIE *)
Definition WARL_MASK_MIP_MIE : Z := MACHINE_BIT_MASK |: SUPERVISOR_BIT_MASK.

(* machine_state/csregisters.rs:664-664 WARL_MASK_SIP_SIE *)
Definition WARL_MASK_SIP_SIE : Z := SUPERVISOR_BIT_MASK.

(* machine_state/csregisters.rs:669-669 WARL_MASK_XEPC *)
Definition WARL_MASK_XEPC : Z := not_u 64 1.

Definition FRM_SHIFT : Z := 5.

(* machine_state/csregisters.rs:681-681 FFLAGS_MASK *)
Definition FFLAGS_MASK : Z := 31.

(* machine_state/csregisters.rs:675-675 FRM_MASK *)
Definition FRM_MASK : Z := shl_u 64 7 FRM_SHIFT.

(* machine_state/csregisters.rs:672-672 FCSR_MASK *)
Definition FCSR_MASK : Z := FRM_MASK |: FFLAGS_MASK.

(* machine_state/csregisters.rs:601-619 transform_warl_fields *)
Definition transform_warl_fields (r : CSR.CSRegister) (new_value : Z) : option Z :=
  Some match r with
  | CSR.misa => WARL_MISA_VALUE
  | CSR.medeleg => new_value & WARL_MASK_MEDELEG
  | CSR.mideleg => new_value & WARL_MASK_MIDELEG
  | CSR.mtvec | CSR.stvec => new_value & WARL_MASK_XTVEC
  | CSR.mip | CSR.mie => new_value & WARL_MASK_MIP_MIE
  | CSR.sip | CSR.sie => new_value & WARL_MASK_SIP_SIE
  | CSR.mepc | CSR.sepc | CSR.mnepc => new_value & WARL_MASK_XEPC
  | CSR.satp => Satp_normalise (csr_from_bits Satp_fields new_value)
  | CSR.mstatus => MStatus_normalise (csr_from_bits MStatus_fields new_value)
  | CSR.sstatus => SStatus_normalise (csr_from_bits SStatus_fields new_value)
  | CSR.mnstatus => MNStatus_normalise (csr_from_bits MNStatus_fields new_value)
  | _ => new_value
  end.

(* machine_state/csregisters.rs:424-431 make_value_writable *)
Definition make_value_writable (r : CSR.CSRegister) (value : Z) : option Z :=
  let value := clear_wpri_fields r value in
  match transform_warl_fields r value with
  | Some value => if is_legal r value then Some value else None
  | None => None
  end.

(* machine_state/csregisters.rs:684-991 default_value *)
Definition default_value (r : CSR.CSRegister) : Z :=
  match r with
  | CSR.mnscratch => 0
  | CSR.mnepc => 0
  | CSR.mnstatus => MNStatus_normalise (csr_from_bits MNStatus_fields 0)
  | CSR.mncause => shl_u 64 (ones 1) 31
  | CSR.cycle | CSR.time | CSR.instret | CSR.mcycle | CSR.minstret => 0
  | CSR.hpmcounter3 | CSR.hpmcounter4 | CSR.hpmcounter5 | CSR.hpmcounter6 | CSR.hpmcounter7
  | CSR.hpmcounter8 | CSR.hpmcounter9 | CSR.hpmcounter10 | CSR.hpmcounter11
  | CSR.hpmcounter12 | CSR.hpmcounter13 | CSR.hpmcounter14 | CSR.hpmcounter15
  | CSR.hpmcounter16 | CSR.hpmcounter17 | CSR.hpmcounter18 | CSR.hpmcounter19
  | CSR.hpmcounter20 | CSR.hpmcounter21 | CSR.hpmcounter22 | CSR.hpmcounter23
  | CSR.hpmcounter24 | CSR.hpmcounter25 | CSR.hpmcounter26 | CSR.hpmcounter27
  | CSR.hpmcounter28 | CSR.hpmcounter29 | CSR.hpmcounter30 | CSR.hpmcounter31
  | CSR.mhpmcounter3 | CSR.mhpmcounter4 | CSR.mhpmcounter5 | CSR.mhpmcounter6
  | CSR.mhpmcounter7 | CSR.mhpmcounter8 | CSR.mhpmcounter9 | CSR.mhpmcounter10
  | CSR.mhpmcounter11 | CSR.mhpmcounter12 | CSR.mhpmcounter13 | CSR.mhpmcounter14
  | CSR.mhpmcounter15 | CSR.mhpmcounter16 | CSR.mhpmcounter17 | CSR.mhpmcounter18
  | CSR.mhpmcounter19 | CSR.mhpmcounter20 | CSR.mhpmcounter21 | CSR.mhpmcounter22
  | CSR.mhpmcounter23 | CSR.mhpmcounter24 | CSR.mhpmcounter25 | CSR.mhpmcounter26
  | CSR.mhpmcounter27 | CSR.mhpmcounter28 | CSR.mhpmcounter29 | CSR.mhpmcounter30
  | CSR.mhpmcounter31 => 0
  | CSR.mhpmevent3 | CSR.mhpmevent4 | CSR.mhpmevent5 | CSR.mhpmevent6 | CSR.mhpmevent7
  | CSR.mhpmevent8 | CSR.mhpmevent9 | CSR.mhpmevent10 | CSR.mhpmevent11 | CSR.mhpmevent12
  | CSR.mhpmevent13 | CSR.mhpmevent14 | CSR.mhpmevent15 | CSR.mhpmevent16 | CSR.mhpmevent17
  | CSR.mhpmevent18 | CSR.mhpmevent19 | CSR.mhpmevent20 | CSR.mhpmevent21 | CSR.mhpmevent22
  | CSR.mhpmevent23 | CSR.mhpmevent24 | CSR.mhpmevent25 | CSR.mhpmevent26 | CSR.mhpmevent27
  | CSR.mhpmevent28 | CSR.mhpmevent29 | CSR.mhpmevent30 | CSR.mhpmevent31 => 0
  | CSR.mcountinhibit => 0
  | CSR.scounteren | CSR.mcounteren => ones 32
  | CSR.fflags => 0
  | CSR.frm => 0
  | CSR.fcsr => 0 & shl_u 64 0 5
  | CSR.pmpcfg0 | CSR.pmpcfg2 | CSR.pmpcfg4 | CSR.pmpcfg6 | CSR.pmpcfg8 | CSR.pmpcfg10
  | CSR.pmpcfg12 | CSR.pmpcfg14 => 0
  | CSR.pmpaddr0 | CSR.pmpaddr1 | CSR.pmpaddr2 | CSR.pmpaddr3 | CSR.pmpaddr4 | CSR.pmpaddr5
  | CSR.pmpaddr6 | CSR.pmpaddr7 | CSR.pmpaddr8 | CSR.pmpaddr9 | CSR.pmpaddr10
  | CSR.pmpaddr11 | CSR.pmpaddr12 | CSR.pmpaddr13 | CSR.pmpaddr14 | CSR.pmpaddr15
  | CSR.pmpaddr16 | CSR.pmpaddr17 | CSR.pmpaddr18 | CSR.pmpaddr19 | CSR.pmpaddr20
  | CSR.pmpaddr21 | CSR.pmpaddr22 | CSR.pmpaddr23 | CSR.pmpaddr24 | CSR.pmpaddr25
  | CSR.pmpaddr26 | CSR.pmpaddr27 | CSR.pmpaddr28 | CSR.pmpaddr29 | CSR.pmpaddr30
  | CSR.pmpaddr31 | CSR.pmpaddr32 | CSR.pmpaddr33 | CSR.pmpaddr34 | CSR.pmpaddr35
  | CSR.pmpaddr36 | CSR.pmpaddr37 | CSR.pmpaddr38 | CSR.pmpaddr39 | CSR.pmpaddr40
  | CSR.pmpaddr41 | CSR.pmpaddr42 | CSR.pmpaddr43 | CSR.pmpaddr44 | CSR.pmpaddr45
  | CSR.pmpaddr46 | CSR.pmpaddr47 | CSR.pmpaddr48 | CSR.pmpaddr49 | CSR.pmpaddr50
  | CSR.pmpaddr51 | CSR.pmpaddr52 | CSR.pmpaddr53 | CSR.pmpaddr54 | CSR.pmpaddr55
  | CSR.pmpaddr56 | CSR.pmpaddr57 | CSR.pmpaddr58 | CSR.pmpaddr59 | CSR.pmpaddr60
  | CSR.pmpaddr61 | CSR.pmpaddr62 | CSR.pmpaddr63 => 0
  | CSR.mhartid => 0
  | CSR.mvendorid => 0
  | CSR.marchid => 0
  | CSR.mimpid => 0
  | CSR.misa => WARL_MISA_VALUE
  | CSR.mscratch | CSR.sscratch => 0
  | CSR.sstatus => SStatus_default
  | CSR.mstatus => MStatus_default
  | CSR.stvec | CSR.mtvec => 0
  | CSR.sie | CSR.mie => 0
  | CSR.satp => Satp_default
  | CSR.scause | CSR.mcause => 0
  | CSR.sepc | CSR.mepc => 0
  | CSR.stval | CSR.mtval | CSR.mtval2 => 0
  | CSR.sip | CSR.mip => 0
  | CSR.mtinst => 0
  | CSR.senvcfg | CSR.menvcfg => 0
  | CSR.mconfigptr => 0
  | CSR.medeleg => ones MXLEN
  | CSR.mideleg => ones MXLEN
  | CSR.mseccfg => 0
  | CSR.scontext => 0
  | CSR.hstatus => 0
  | CSR.hedeleg => 0
  | CSR.hideleg => 0
  | CSR.hie => 0
  | CSR.hcounteren => 0
  | CSR.hgeie => 0
  | CSR.htval => 0
  | CSR.hip => 0
  | CSR.hvip => 0
  | CSR.htinst => 0
  | CSR.hgeip => 0
  | CSR.henvcfg => 0
  | CSR.hgatp => 0
  | CSR.hcontext => 0
  | CSR.htimedelta => 0
  | CSR.vsstatus => 0
  | CSR.vsie => 0
  | CSR.vstvec => 0
  | CSR.vsscratch => 0
  | CSR.vsepc => 0
  | CSR.vscause => 0
  | CSR.vstval => 0
  | CSR.vsip => 0
  | CSR.vsatp => 0
  | CSR.tselect => 0
  | CSR.tdata1 => 0
  | CSR.tdata2 => 0
  | CSR.tdata3 => 0
  | CSR.tcontrol => 0
  | CSR.mcontext => 0
  | CSR.dcsr => 0
  | CSR.dpc => 0
  | CSR.dscratch0 => 0
  | CSR.dscratch1 => 0
  end.

(** ** State *)

(** [CSRValues]: the raw cells and the cells of [mstatus]. *)
(* machine_state/csregisters.rs:1358-1360 CSRegisters *)
Record CSRegisters : Type := {
  raw : Root.RootCSRegister -> Z;
  mstatus_cells : MStatusValue;
}.

Definition raw_set (f : Root.RootCSRegister -> Z) (r : Root.RootCSRegister) (v : Z) :
  Root.RootCSRegister -> Z := fun r' => if decide (r' = r) then v else f r'.

(** [CSRValuesF::select_ref] and [select_mut]: the cell of a root register and
    what is done with it. *)
(* machine_state/csregisters/values.rs:887-1131 select_ref *)
Definition select_ref {R} (s : CSRegisters) (csr : Root.RootCSRegister)
  (fold_mstatus : MStatusValue -> R) (fold_mip : R) (fold_raw : Z -> R) : R :=
  match csr with
  | Root.mstatus => fold_mstatus s.(mstatus_cells)
  | Root.mip => fold_mip
  | _ => fold_raw (s.(raw) csr)
  end.

(* machine_state/csregisters/values.rs:1134-1379 select_mut *)
Definition select_mut {R} (s : CSRegisters) (csr : Root.RootCSRegister)
  (fold_mstatus : MStatusValue -> R * MStatusValue) (fold_mip : R) (fold_raw : Z -> R * Z) :
  R * CSRegisters :=
  match csr with
  | Root.mstatus =>
      let '(r, m) := fold_mstatus s.(mstatus_cells) in
      (r, {| raw := s.(raw); mstatus_cells := m |})
  | Root.mip => (fold_mip, s)
  | _ =>
      let '(r, v) := fold_raw (s.(raw) csr) in
      (r, {| raw := raw_set s.(raw) csr v; mstatus_cells := s.(mstatus_cells) |})
  end.

(** [XipCell] reads as 0 and ignores what is written. *)
(* machine_state/csregisters/values/xip.rs:26-42 XipCell *)
Definition XipCell_read : Z := 0.

(* machine_state/csregisters/values.rs:85-93 general_raw_read *)
Definition general_raw_read (s : CSRegisters) (csr : Root.RootCSRegister) : Z :=
  select_ref s csr MStatusValue_read XipCell_read (fun raw => raw).

(* machine_state/csregisters/values.rs:95-109 general_raw_write *)
Definition general_raw_write (s : CSRegisters) (csr : Root.RootCSRegister) (value : Z) :
  CSRegisters :=
  snd (select_mut s csr (fun m => (tt, MStatusValue_write m value)) tt (fun _ => (tt, value))).

(* machine_state/csregisters/values.rs:111-127 general_raw_replace *)
Definition general_raw_replace (s : CSRegisters) (csr : Root.RootCSRegister) (value : Z) :
  Z * CSRegisters :=
  select_mut s csr (fun m => MStatusValue_replace m value) XipCell_read (fun old => (old, value)).

(** ** Operations *)

(* machine_state/csregisters.rs:1378-1420 transform_write *)
Definition transform_write (s : CSRegisters) (reg : CSR.CSRegister) (value : Z) : Z :=
  match reg with
  | CSR.sstatus =>
      let mstatus := csr_from_bits MStatus_fields (MStatusValue_read s.(mstatus_cells)) in
      let sstatus := csr_from_bits SStatus_fields value in
      to_mstatus sstatus mstatus
  | CSR.sip =>
      let mip := XipCell_read in
      let sip_only := value & WARL_MASK_SIP_SIE in
      let mip_only := mip & not_u 64 WARL_MASK_SIP_SIE in
      sip_only |: mip_only
  | CSR.sie =>
      let mie := s.(raw) Root.mie in
      let sie_only := value & WARL_MASK_SIP_SIE in
      let mie_only := mie & not_u 64 WARL_MASK_SIP_SIE in
      sie_only |: mie_only
  | CSR.fcsr => value & FCSR_MASK
  | CSR.frm =>
      let fcsr := s.(raw) Root.fcsr in
      let fcsr := fcsr & not_u 64 FRM_MASK in
      (shl_u 64 value FRM_SHIFT & FRM_MASK) |: fcsr
  | CSR.fflags =>
      let fcsr := s.(raw) Root.fcsr in
      let fcsr := fcsr & not_u 64 FFLAGS_MASK in
      (value & FFLAGS_MASK) |: fcsr
  | _ => value
  end.

(* machine_state/csregisters.rs:1432-1451 transform_read *)
Definition transform_read (s : CSRegisters) (reg : CSR.CSRegister) (source_reg_value : option Z) : Z :=
  let source_reg_value :=
    match source_reg_value with
    | Some v => v
    | None => general_raw_read s (RootCSRegister_from reg)
    end in
  match reg with
  | CSR.sstatus => to_sstatus (csr_from_bits MStatus_fields source_reg_value)
  | CSR.sip => source_reg_value & WARL_MASK_SIP_SIE
  | CSR.sie => source_reg_value & WARL_MASK_SIP_SIE
  | CSR.fcsr => source_reg_value & FCSR_MASK
  | CSR.frm => shr_u 64 (source_reg_value & FRM_MASK) FRM_SHIFT
  | CSR.fflags => source_reg_value & FFLAGS_MASK
  | _ => source_reg_value
  end.

(* machine_state/csregisters.rs:1455-1464 CSRegisters::write *)
Definition CSRegisters_write (s : CSRegisters) (reg : CSR.CSRegister) (value : Z) : CSRegisters :=
  match make_value_writable reg value with
  | Some value =>
      let value := transform_write s reg value in
      general_raw_write s (RootCSRegister_from reg) value
  | None => s
  end.

(* machine_state/csregisters.rs:1468-1476 CSRegisters::read *)
Definition CSRegisters_read (s : CSRegisters) (reg : CSR.CSRegister) : Z := transform_read s reg None.

(* machine_state/csregisters.rs:1480-1493 CSRegisters::replace *)
Definition CSRegisters_replace (s : CSRegisters) (reg : CSR.CSRegister) (value : Z) :
  Z * CSRegisters :=
  match make_value_writable reg value with
  | Some value =>
      let value := transform_write s reg value in
      let '(old_value, s') := general_raw_replace s (RootCSRegister_from reg) value in
      (transform_read s' reg (Some old_value), s')
  | None => (CSRegisters_read s reg, s)
  end.

(* machine_state/csregisters.rs:1497-1505 set_bits *)
Definition CSRegisters_set_bits (s : CSRegisters) (reg : CSR.CSRegister) (bits : Z) :
  Z * CSRegisters :=
  let old_value := CSRegisters_read s reg in
  let new_value := old_value |: bits in
  (old_value, CSRegisters_write s reg new_value).

(* machine_state/csregisters.rs:1509-1517 clear_bits *)
Definition CSRegisters_clear_bits (s : CSRegisters) (reg : CSR.CSRegister) (bits : Z) :
  Z * CSRegisters :=
  let old_value := CSRegisters_read s reg in
  let new_value := old_value & not_u 64 bits in
  (old_value, CSRegisters_write s reg new_value).

(* machine_state/csregisters.rs:1520-1548 possible_interrupts *)
Definition possible_interrupts (s : CSRegisters) (current_mode : Mode) : Z :=
  match current_mode with
  | User => SUPERVISOR_BIT_MASK |: MACHINE_BIT_MASK
  | Supervisor =>
      let ie_supervisor := if s.(mstatus_cells).(m_sie) then CSRegisters_read s CSR.sie else 0 in
      ie_supervisor |: MACHINE_BIT_MASK
  | Machine => if s.(mstatus_cells).(m_mie) then CSRegisters_read s CSR.mie else 0
  end.

(* machine_state/csregisters.rs:1551-1605 get_trap_mode *)
Definition get_trap_mode {TC} `{TrapContext TC} (s : CSRegisters) (trap_source : TC)
  (current_mode : Mode) : TrapMode :=
  if Mode_repr current_mode <=? Mode_repr Supervisor then
    let deleg := match kind TC with KInterrupt => CSR.mideleg | KException => CSR.medeleg end in
    let deleg_val := CSRegisters_read s deleg in
    if bit 64 deleg_val (exception_code trap_source) then TSupervisor else TMachine
  else TMachine.

(* machine_state/csregisters.rs:1608-1621 get_trap_handler *)
Definition get_trap_handler {TC} `{TrapContext TC} (s : CSRegisters) (trap_source : TC)
  (trap_mode : TrapMode) : Z :=
  let xtvec := CSRegisters_read s
    (match trap_mode with TSupervisor => CSR.stvec | TMachine => CSR.mtvec end) in
  trap_handler_address trap_source xtvec.

(** [CSRegister::iter()]: every register once, in declaration order. *)
Definition CSRegister_iter : list CSR.CSRegister :=
  [CSR.fflags; CSR.frm; CSR.fcsr; CSR.cycle; CSR.time; CSR.instret; CSR.hpmcounter3;
   CSR.hpmcounter4; CSR.hpmcounter5; CSR.hpmcounter6; CSR.hpmcounter7; CSR.hpmcounter8;
   CSR.hpmcounter9; CSR.hpmcounter10; CSR.hpmcounter11; CSR.hpmcounter12; CSR.hpmcounter13;
   CSR.hpmcounter14; CSR.hpmcounter15; CSR.hpmcounter16; CSR.hpmcounter17; CSR.hpmcounter18;
   CSR.hpmcounter19; CSR.hpmcounter20; CSR.hpmcounter21; CSR.hpmcounter22; CSR.hpmcounter23;
   CSR.hpmcounter24; CSR.hpmcounter25; CSR.hpmcounter26; CSR.hpmcounter27; CSR.hpmcounter28;
   CSR.hpmcounter29; CSR.hpmcounter30; CSR.hpmcounter31; CSR.sstatus; CSR.sie; CSR.stvec;
   CSR.scounteren; CSR.senvcfg; CSR.sscratch; CSR.sepc; CSR.scause; CSR.stval; CSR.sip;
   CSR.satp; CSR.scontext; CSR.hstatus; CSR.hedeleg; CSR.hideleg; CSR.hie; CSR.hcounteren;
   CSR.hgeie; CSR.htval; CSR.hip; CSR.hvip; CSR.htinst; CSR.hgeip; CSR.henvcfg; CSR.hgatp;
   CSR.hcontext; CSR.htimedelta; CSR.vsstatus; CSR.vsie; CSR.vstvec; CSR.vsscratch; CSR.vsepc;
   CSR.vscause; CSR.vstval; CSR.vsip; CSR.vsatp; CSR.mvendorid; CSR.marchid; CSR.mimpid;
   CSR.mhartid; CSR.mconfigptr; CSR.mstatus; CSR.misa; CSR.medeleg; CSR.mideleg; CSR.mie;
   CSR.mtvec; CSR.mcounteren; CSR.mscratch; CSR.mepc; CSR.mcause; CSR.mtval; CSR.mip;
   CSR.mtinst; CSR.mtval2; CSR.menvcfg; CSR.mseccfg; CSR.pmpcfg0; CSR.pmpcfg2; CSR.pmpcfg4;
   CSR.pmpcfg6; CSR.pmpcfg8; CSR.pmpcfg10; CSR.pmpcfg12; CSR.pmpcfg14; CSR.pmpaddr0;
   CSR.pmpaddr1; CSR.pmpaddr2; CSR.pmpaddr3; CSR.pmpaddr4; CSR.pmpaddr5; CSR.pmpaddr6;
   CSR.pmpaddr7; CSR.pmpaddr8; CSR.pmpaddr9; CSR.pmpaddr10; CSR.pmpaddr11; CSR.pmpaddr12;
   CSR.pmpaddr13; CSR.pmpaddr14; CSR.pmpaddr15; CSR.pmpaddr16; CSR.pmpaddr17; CSR.pmpaddr18;
   CSR.pmpaddr19; CSR.pmpaddr20; CSR.pmpaddr21; CSR.pmpaddr22; CSR.pmpaddr23; CSR.pmpaddr24;
   CSR.pmpaddr25; CSR.pmpaddr26; CSR.pmpaddr27; CSR.pmpaddr28; CSR.pmpaddr29; CSR.pmpaddr30;
   CSR.pmpaddr31; CSR.pmpaddr32; CSR.pmpaddr33; CSR.pmpaddr34; CSR.pmpaddr35; CSR.pmpaddr36;
   CSR.pmpaddr37; CSR.pmpaddr38; CSR.pmpaddr39; CSR.pmpaddr40; CSR.pmpaddr41; CSR.pmpaddr42;
   CSR.pmpaddr43; CSR.pmpaddr44; CSR.pmpaddr45; CSR.pmpaddr46; CSR.pmpaddr47; CSR.pmpaddr48;
   CSR.pmpaddr49; CSR.pmpaddr50; CSR.pmpaddr51; CSR.pmpaddr52; CSR.pmpaddr53; CSR.pmpaddr54;
   CSR.pmpaddr55; CSR.pmpaddr56; CSR.pmpaddr57; CSR.pmpaddr58; CSR.pmpaddr59; CSR.pmpaddr60;
   CSR.pmpaddr61; CSR.pmpaddr62; CSR.pmpaddr63; CSR.mnscratch; CSR.mnepc; CSR.mncause;
   CSR.mnstatus; CSR.mcycle; CSR.minstret; CSR.mhpmcounter3; CSR.mhpmcounter4;
   CSR.mhpmcounter5; CSR.mhpmcounter6; CSR.mhpmcounter7; CSR.mhpmcounter8; CSR.mhpmcounter9;
   CSR.mhpmcounter10; CSR.mhpmcounter11; CSR.mhpmcounter12; CSR.mhpmcounter13;
   CSR.mhpmcounter14; CSR.mhpmcounter15; CSR.mhpmcounter16; CSR.mhpmcounter17;
   CSR.mhpmcounter18; CSR.mhpmcounter19; CSR.mhpmcounter20; CSR.mhpmcounter21;
   CSR.mhpmcounter22; CSR.mhpmcounter23; CSR.mhpmcounter24; CSR.mhpmcounter25;
   CSR.mhpmcounter26; CSR.mhpmcounter27; CSR.mhpmcounter28; CSR.mhpmcounter29;
   CSR.mhpmcounter30; CSR.mhpmcounter31; CSR.mcountinhibit; CSR.mhpmevent3; CSR.mhpmevent4;
   CSR.mhpmevent5; CSR.mhpmevent6; CSR.mhpmevent7; CSR.mhpmevent8; CSR.mhpmevent9;
   CSR.mhpmevent10; CSR.mhpmevent11; CSR.mhpmevent12; CSR.mhpmevent13; CSR.mhpmevent14;
   CSR.mhpmevent15; CSR.mhpmevent16; CSR.mhpmevent17; CSR.mhpmevent18; CSR.mhpmevent19;
   CSR.mhpmevent20; CSR.mhpmevent21; CSR.mhpmevent22; CSR.mhpmevent23; CSR.mhpmevent24;
   CSR.mhpmevent25; CSR.mhpmevent26; CSR.mhpmevent27; CSR.mhpmevent28; CSR.mhpmevent29;
   CSR.mhpmevent30; CSR.mhpmevent31; CSR.tselect; CSR.tdata1; CSR.tdata2; CSR.tdata3;
   CSR.tcontrol; CSR.mcontext; CSR.dcsr; CSR.dpc; CSR.dscratch0; CSR.dscratch1].

(* machine_state/csregisters.rs:1640-1649 CSRegisters::reset *)
Definition CSRegisters_reset (s : CSRegisters) : CSRegisters :=
  fold_left (fun s reg => general_raw_write s (RootCSRegister_from reg) (default_value reg))
    CSRegister_iter s.

(* machine_state/csregisters.rs:1652-1658 floating_disabled *)
Definition floating_disabled (s : CSRegisters) : bool :=
  bool_decide (s.(mstatus_cells).(m_fs) = Off).

(** ** Access checks *)

(* machine_state/csregisters.rs:1302-1308 check_privilege *)
Definition check_privilege (reg : CSR.CSRegister) (mode : Mode) : result unit Exception :=
  if Privilege_repr (Mode_privilege mode) <? Privilege_repr (CSRegister_privilege reg)
  then Err IllegalInstruction else Ok tt.

(* machine_state/csregisters.rs:1315-1321 check_write *)
Definition check_write (reg : CSR.CSRegister) : result unit Exception :=
  if is_read_only reg then Err IllegalInstruction else Ok tt.

(* machine_state/csregisters.rs:1326-1332 check_satp_access *)
Definition check_satp_access (csr : CSR.CSRegister) (tvm_field : bool) : result unit Exception :=
  if tvm_field && bool_decide (csr = CSR.satp) then Err IllegalInstruction else Ok tt.

(* machine_state/csregisters.rs:1334-1342 check_fs_access *)
Definition check_fs_access (csr : CSR.CSRegister) (fs_field : ExtensionValue) :
  result unit Exception :=
  match csr with
  | CSR.fcsr | CSR.frm | CSR.fflags =>
      if bool_decide (fs_field = Off) then Err IllegalInstruction else Ok tt
  | _ => Ok tt
  end.

(** The parts of the hart state that are read are the arguments. *)
(* machine_state/csregisters.rs:1347-1355 access_checks *)
Definition access_checks (csr : CSR.CSRegister) (mode : Mode) (s : CSRegisters) :
  result unit Exception :=
  match check_privilege csr mode with
  | Err e => Err e
  | Ok _ =>
      match check_satp_access csr s.(mstatus_cells).(m_tvm) with
      | Err e => Err e
      | Ok _ => check_fs_access csr s.(mstatus_cells).(m_fs)
      end
  end.
