(* ===== verification/CSRegistersSpec.v ===== *)
(** Properties of the control and status registers of [CSRegisters]. *)
From S2P Require Import Prelude Bits CSRegister Traps XStatus XStatusSpec CSRegisters.

(** The root registers with a raw cell. *)
Definition has_raw_cell (r : Root.RootCSRegister) : bool :=
  match r with Root.mstatus | Root.mip => false | _ => true end.

(** ** Invariant: every raw cell holds a [u64] *)
Definition CSRegisters_wf (s : CSRegisters) : Prop :=
  forall r, has_raw_cell r = true -> is_u 64 (s.(raw) r).

(** A register that is not a shadow of another one. *)
Definition is_root (r : CSR.CSRegister) : bool :=
  bool_decide (Root_csr (RootCSRegister_from r) = r).

(** ** Cells *)

Lemma raw_set_eq f r v : raw_set f r v r = v.
Proof. unfold raw_set. by rewrite decide_True. Qed.

Lemma raw_set_ne f r r' v : r' <> r -> raw_set f r v r' = f r'.
Proof. intros. unfold raw_set. by rewrite decide_False. Qed.

Lemma raw_write_cell s r v :
  has_raw_cell r = true ->
  general_raw_write s r v = {| raw := raw_set s.(raw) r v; mstatus_cells := s.(mstatus_cells) |}.
Proof. by destruct r. Qed.

Lemma raw_read_cell s r : has_raw_cell r = true -> general_raw_read s r = s.(raw) r.
Proof. by destruct r. Qed.

Lemma raw_read_write_eq s r v :
  has_raw_cell r = true -> general_raw_read (general_raw_write s r v) r = v.
Proof. intros. rewrite raw_read_cell, raw_write_cell by done. apply raw_set_eq. Qed.

Lemma no_raw_cell r : has_raw_cell r = false -> r = Root.mstatus \/ r = Root.mip.
Proof. destruct r; (by left) || (by right) || done. Qed.

Lemma raw_write_mip s v : general_raw_write s Root.mip v = s.
Proof. done. Qed.

Lemma raw_write_mstatus s v :
  general_raw_write s Root.mstatus v =
    {| raw := s.(raw); mstatus_cells := MStatusValue_write s.(mstatus_cells) v |}.
Proof. done. Qed.

Lemma raw_read_mstatus s : general_raw_read s Root.mstatus = MStatusValue_read s.(mstatus_cells).
Proof. done. Qed.

Lemma raw_read_write_ne s r r' v :
  r' <> r -> general_raw_read (general_raw_write s r v) r' = general_raw_read s r'.
Proof.
  intros N. destruct (has_raw_cell r') eqn:E'.
  - rewrite !raw_read_cell by done. destruct (has_raw_cell r) eqn:E.
    + rewrite raw_write_cell by done. by apply raw_set_ne.
    + destruct (no_raw_cell r E) as [->| ->]; [by rewrite raw_write_mstatus|done].
  - destruct (no_raw_cell r' E') as [->| ->]; [|done]. rewrite !raw_read_mstatus.
    destruct (has_raw_cell r) eqn:E; [by rewrite raw_write_cell|].
    destruct (no_raw_cell r E) as [->| ->]; done.
Qed.

Lemma raw_replace_eq s r v :
  general_raw_replace s r v = (general_raw_read s r, general_raw_write s r v).
Proof.
  destruct (has_raw_cell r) eqn:E.
  - rewrite raw_read_cell, raw_write_cell by done. destruct r; reflexivity || discriminate.
  - destruct (no_raw_cell r E) as [->| ->]; [|done].
    rewrite raw_read_mstatus, raw_write_mstatus. unfold general_raw_replace, select_mut.
    rewrite MStatusValue_replace_eq. done.
Qed.

Lemma transform_read_state s s' r v : transform_read s r (Some v) = transform_read s' r (Some v).
Proof. done. Qed.

Lemma CSRegisters_read_source s r :
  CSRegisters_read s r = transform_read s r (Some (general_raw_read s (RootCSRegister_from r))).
Proof. done. Qed.

Lemma CSRegisters_replace_eq s r v :
  CSRegisters_replace s r v = (CSRegisters_read s r, CSRegisters_write s r v).
Proof.
  unfold CSRegisters_replace, CSRegisters_write. destruct (make_value_writable r v); [|done].
  rewrite raw_replace_eq. done.
Qed.

(** [replace] returns what [read] returns and leaves the state that [write]
    leaves. *)
Theorem CSRegisters_replace_spec s r v :
  CSRegisters_replace s r v = (CSRegisters_read s r, CSRegisters_write s r v).
Proof. apply CSRegisters_replace_eq. Qed.

(** A write reaches only the registers that share its root. *)
Lemma CSRegisters_write_ne s r r' v :
  RootCSRegister_from r' <> RootCSRegister_from r ->
  CSRegisters_read (CSRegisters_write s r v) r' = CSRegisters_read s r'.
Proof.
  intros N. unfold CSRegisters_write. destruct (make_value_writable r v); [|done].
  rewrite !CSRegisters_read_source, raw_read_write_ne by done. done.
Qed.

(** ** Values that can be written *)

Lemma mstatus_normalise_idem v :
  MStatus_normalise (csr_from_bits MStatus_fields (MStatus_normalise (csr_from_bits MStatus_fields v)))
  = MStatus_normalise (csr_from_bits MStatus_fields v).
Proof.
  set (s := MStatusValue_write (MStatusValue_write
              (Build_MStatusValue false false false false false SPP.User MPP.User Off Off
                 false false false false false false MXL64 MXL64 false false) 0) v).
  assert (E : MStatus_normalise (csr_from_bits MStatus_fields v) = MStatusValue_read s)
    by exact (eq_sym (MStatusValue_read_of_write _ v)).
  rewrite E, <- (MStatusValue_read_of_write s), MStatusValue_write_of_read. done.
Qed.

Lemma land_idem v m : ((v & m) & m) = (v & m).
Proof. by rewrite <- Z.land_assoc, Z.land_diag. Qed.

Lemma land2_idem v a b : (((v & a) & b) & a) & b = (v & a) & b.
Proof. bits_eq. by destruct (Z.testbit v i), (Z.testbit a i), (Z.testbit b i). Qed.

(** Registers with no special treatment. *)
Definition is_plain (r : CSR.CSRegister) : bool :=
  match r with
  | CSR.mstatus | CSR.menvcfg | CSR.mseccfg | CSR.sstatus | CSR.senvcfg | CSR.mncause
  | CSR.mnstatus | CSR.mcause | CSR.scause | CSR.misa | CSR.medeleg | CSR.mideleg | CSR.mtvec
  | CSR.stvec | CSR.mip | CSR.mie | CSR.sip | CSR.sie | CSR.mepc | CSR.sepc | CSR.mnepc
  | CSR.satp => false
  | _ => true
  end.

Lemma make_value_writable_plain r v :
  is_plain r = true -> make_value_writable r v = Some (v & U64_MAX).
Proof. destruct r; intros H; reflexivity || discriminate H. Qed.

Lemma land_u64 v : is_u 64 v -> (v & U64_MAX) = v.
Proof.
  intros. change U64_MAX with (Z.ones 64). rewrite Z.land_ones by lia. by apply wrap_small.
Qed.

(** What [make_value_writable] lets through it lets through again unchanged:
    the values a register can hold are exactly the fixed points, and
    reserved bits stay at their reserved values. *)
Lemma make_value_writable_idem r v w :
  make_value_writable r v = Some w -> make_value_writable r w = Some w.
Proof.
  destruct (is_plain r) eqn:P.
  { rewrite !make_value_writable_plain by done. intros [= <-]. by rewrite land_idem. }
  destruct r; try discriminate P; clear P; unfold make_value_writable, clear_wpri_fields;
    cbn [transform_warl_fields is_legal legal_values wpri_mask];
    try (intros [= <-]; by rewrite ?land_idem, ?land2_idem);
    unfold WPRI_MASK_EMPTY.
  - (* sstatus *) intros [= <-].
    rewrite (land_mask_fields [SStatus.WPRI1; SStatus.WPRI2; SStatus.WPRI3; SStatus.WPRI4;
      SStatus.WPRI5; SStatus.WPRI6; SStatus.WPRI7] WPRI_MASK_SSTATUS).
    + by rewrite SStatus_normalise_idem.
    + apply SStatus_normalise_u64, csr_from_bits_u64. reflexivity.
    + vm_compute. reflexivity.
    + apply SStatus_wpri_zero.
  - (* scause *) case_match eqn:L; intros [= <-]. by rewrite land_idem, L.
  - (* satp *) intros [= <-].
    rewrite (land_u64 (Satp_normalise _)) by (apply Satp_normalise_u64, csr_from_bits_u64; reflexivity).
    by rewrite Satp_normalise_idem.
  - (* mstatus *) intros [= <-].
    rewrite (land_mask_fields [MStatus.WPRI1; MStatus.WPRI2; MStatus.WPRI3; MStatus.WPRI4;
      MStatus.WPRI5] WPRI_MASK_MSTATUS).
    + by rewrite mstatus_normalise_idem.
    + apply MStatus_normalise_u64, csr_from_bits_u64. reflexivity.
    + vm_compute. reflexivity.
    + apply MStatus_wpri_zero.
  - (* mcause *) case_match eqn:L; intros [= <-]. by rewrite land_idem, L.
  - (* mnstatus *) unfold MNStatus_normalise. intros [= <-].
    rewrite (land_mask_fields [MNStatus.WPRI1; MNStatus.WPRI2; MNStatus.WPRI3; MNStatus.WPRI4]
      WPRI_MASK_MNSTATUS).
    + by rewrite MNStatus_idem.
    + apply csr_from_bits_u64. reflexivity.
    + vm_compute. reflexivity.
    + apply MNStatus_wpri_zero.
Qed.

Lemma transform_write_root s r v :
  is_root r = true ->
  transform_write s r v = if decide (r = CSR.fcsr) then v & FCSR_MASK else v.
Proof. destruct r; intros H; reflexivity || discriminate H. Qed.

Lemma transform_read_root s r v :
  is_root r = true ->
  transform_read s r (Some v) = if decide (r = CSR.fcsr) then v & FCSR_MASK else v.
Proof. destruct r; intros H; reflexivity || discriminate H. Qed.

Lemma root_cell r :
  is_root r = true -> r <> CSR.mip -> r <> CSR.mstatus ->
  has_raw_cell (RootCSRegister_from r) = true.
Proof. destruct r; intros H ? ?; reflexivity || congruence || discriminate H. Qed.

Lemma read_write_root s r v :
  is_root r = true -> r <> CSR.mip ->
  CSRegisters_read (CSRegisters_write s r v) r =
    match make_value_writable r v with
    | Some w => if decide (r = CSR.fcsr) then w & FCSR_MASK else w
    | None => CSRegisters_read s r
    end.
Proof.
  intros R N. unfold CSRegisters_write. destruct (make_value_writable r v) as [w|] eqn:E; [|done].
  rewrite CSRegisters_read_source, transform_write_root, transform_read_root by done.
  destruct (decide (r = CSR.mstatus)) as [->|].
  - unfold make_value_writable in E. simpl in E. injection E as <-.
    rewrite raw_read_mstatus, raw_write_mstatus. cbn [mstatus_cells].
    rewrite MStatusValue_read_of_write. apply mstatus_normalise_idem.
  - rewrite raw_read_write_eq by (by apply root_cell). case_decide; [apply land_idem|done].
Qed.

(** ** The values of the privileged manual *)

(** Codes of exceptions and, with the highest bit set, of interrupts that a
    cause register of each mode can hold. *)
Definition mcause_codes : list Z :=
  [0; 1; 2; 3; 4; 5; 6; 7; 8; 9; 11; 12; 13; 15] ++ map (fun i => 2 ^ 63 + i) [1; 3; 5; 7; 9; 11].
Definition scause_codes : list Z :=
  [0; 1; 2; 3; 4; 5; 6; 7; 8; 9; 12; 13; 15] ++ map (fun i => 2 ^ 63 + i) [1; 5; 9].

(** What a register that is not a shadow holds after [v] is written to it,
    [None] when it keeps its value.  The fields of [satp], [mstatus] and
    [mnstatus] have their own laws. *)
Definition csr_after_write (r : CSR.CSRegister) (v : Z) : option Z :=
  match r with
  | CSR.mcause => if decide (v ∈ mcause_codes) then Some v else None
  | CSR.scause => if decide (v ∈ scause_codes) then Some v else None
  | CSR.misa => Some 0x800000000014112d
  | CSR.medeleg => Some (v & 0xb3ff)
  | CSR.mideleg | CSR.mie => Some (v & 0xaaa)
  | CSR.mip => Some 0
  | CSR.mtvec | CSR.stvec => Some (Z.clearbit v 1)
  | CSR.mepc | CSR.sepc | CSR.mnepc => Some (Z.clearbit v 0)
  | CSR.menvcfg => Some (v & 0xc0000000000000f1)
  | CSR.senvcfg => Some (v & 0xf1)
  | CSR.mseccfg => Some (v & 0x307)
  | CSR.mncause => Some (Z.clearbit v 63)
  | CSR.fcsr => Some (v mod 256)
  | CSR.mstatus => Some (MStatus_normalise (csr_from_bits MStatus_fields (v & WPRI_MASK_MSTATUS)))
  | CSR.mnstatus => Some (MNStatus_normalise (csr_from_bits MNStatus_fields (v & WPRI_MASK_MNSTATUS)))
  | CSR.satp => Some (Satp_normalise (csr_from_bits Satp_fields v))
  | _ => Some v
  end.

Lemma land_clearbit v n : 0 <= n < 64 -> is_u 64 v -> (v & not_u 64 (2 ^ n)) = Z.clearbit v n.
Proof.
  intros N U. apply Z.bits_inj'. intros i Hi. rewrite Z.land_spec, Z.clearbit_eqb. unfold not_u, wrap.
  destruct (Z.ltb_spec i 64) as [L|L].
  - rewrite Z.mod_pow2_bits_low, Z.lnot_spec, Z.pow2_bits_eqb by lia. done.
  - rewrite <- (wrap_small 64 v) by done. unfold wrap. by rewrite !(Z.mod_pow2_bits_high _ 64 i) by lia.
Qed.

Lemma elem_existsb v l : existsb (Z.eqb v) l = bool_decide (v ∈ l).
Proof.
  apply eq_true_iff_eq. rewrite existsb_exists, bool_decide_eq_true. setoid_rewrite Z.eqb_eq.
  split; [intros (x & I & ->)|intros I; exists v]; by rewrite <- ?list_elem_of_In in *.
Qed.

Lemma legal_codes v :
  is_legal CSR.mcause v = bool_decide (v ∈ mcause_codes) /\ is_legal CSR.scause v = bool_decide (v ∈ scause_codes).
Proof.
  assert (P : forall l l', forallb (fun x => bool_decide (x ∈ l')) l && forallb (fun x => bool_decide (x ∈ l)) l' = true ->
    existsb (Z.eqb v) l = bool_decide (v ∈ l')).
  { intros l l' [F G]%andb_true_iff. rewrite elem_existsb. apply bool_decide_ext.
    rewrite forallb_forall in F, G. split; intros I%list_elem_of_In; [apply F in I|apply G in I]; by apply bool_decide_eq_true in I. }
  split; apply P; vm_compute; reflexivity.
Qed.

Lemma writable_after r v : is_root r = true -> r <> CSR.mip -> is_u 64 v ->
  match make_value_writable r v with
  | Some w => Some (if decide (r = CSR.fcsr) then w & FCSR_MASK else w)
  | None => None
  end = csr_after_write r v.
Proof.
  intros R N U. destruct (is_plain r) eqn:P.
  { rewrite make_value_writable_plain, land_u64 by done. destruct (decide (r = CSR.fcsr)) as [->|F].
    - change FCSR_MASK with (Z.ones 8). by rewrite Z.land_ones by lia.
    - destruct r; try done; discriminate P. }
  transitivity (make_value_writable r v).
  { destruct (make_value_writable r v); [|done]. rewrite decide_False; [done|]. by intros ->. }
  unfold make_value_writable, clear_wpri_fields.
  destruct r; try discriminate P; try discriminate R; try congruence; clear P R N;
    cbn [transform_warl_fields wpri_mask csr_after_write];
    unfold WPRI_MASK_EMPTY; rewrite ?(land_u64 v) by done; try done;
    try (rewrite <- land_clearbit by done || lia; done).
  - rewrite (proj2 (legal_codes v)). by repeat case_decide || case_bool_decide.
  - rewrite (proj1 (legal_codes v)). by repeat case_decide || case_bool_decide.
Qed.

Lemma read_after_write s r v : is_root r = true -> is_u 64 v ->
  CSRegisters_read (CSRegisters_write s r v) r =
    match csr_after_write r v with Some w => w | None => CSRegisters_read s r end.
Proof.
  intros R U. destruct (decide (r = CSR.mip)) as [->|N]; [done|].
  rewrite read_write_root, <- writable_after by done. by destruct (make_value_writable r v).
Qed.


(** ** Shadow registers *)

Lemma read_fflags s : CSRegisters_read s CSR.fflags = s.(raw) Root.fcsr & FFLAGS_MASK.
Proof. done. Qed.

Lemma read_frm s : CSRegisters_read s CSR.frm = Z.shiftr (s.(raw) Root.fcsr & FRM_MASK) 5.
Proof. done. Qed.

Lemma read_fcsr s : CSRegisters_read s CSR.fcsr = s.(raw) Root.fcsr & FCSR_MASK.
Proof. done. Qed.

Lemma raw_write_fflags s v :
  (CSRegisters_write s CSR.fflags v).(raw) Root.fcsr =
    ((v & U64_MAX) & FFLAGS_MASK) |: (s.(raw) Root.fcsr & not_u 64 FFLAGS_MASK).
Proof. done. Qed.

Lemma raw_write_frm s v :
  (CSRegisters_write s CSR.frm v).(raw) Root.fcsr =
    (shl_u 64 (v & U64_MAX) 5 & FRM_MASK) |: (s.(raw) Root.fcsr & not_u 64 FRM_MASK).
Proof. done. Qed.

Lemma fcsr_masks :
  FFLAGS_MASK = Z.ones 5 /\ FRM_MASK = Z.shiftl (Z.ones 3) 5 /\ U64_MAX = Z.ones 64 /\
  FCSR_MASK = Z.ones 8.
Proof. done. Qed.

Ltac fcsr_bits :=
  destruct fcsr_masks as (EF & ER & EU & EC); rewrite ?EF, ?ER, ?EU, ?EC; unfold shl_u;
  change (5 mod 64) with 5; bits_eq;
  repeat (bool_cases; autorewrite with bits; bool_simpl; try lia; try done);
  try (f_equal; lia).

Lemma frm_of_frm v c :
  Z.shiftr (((shl_u 64 (v & U64_MAX) 5 & FRM_MASK) |: (c & not_u 64 FRM_MASK)) & FRM_MASK) 5
  = wrap 3 v.
Proof. fcsr_bits. Qed.

Lemma fflags_of_frm x c :
  (((x & FRM_MASK) |: (c & not_u 64 FRM_MASK)) & FFLAGS_MASK) = c & FFLAGS_MASK.
Proof. fcsr_bits. Qed.

Lemma fflags_of_fflags v c :
  ((((v & U64_MAX) & FFLAGS_MASK) |: (c & not_u 64 FFLAGS_MASK)) & FFLAGS_MASK) = wrap 5 v.
Proof. fcsr_bits. Qed.

Lemma frm_of_fflags x c :
  Z.shiftr (((x & FFLAGS_MASK) |: (c & not_u 64 FFLAGS_MASK)) & FRM_MASK) 5
  = Z.shiftr (c & FRM_MASK) 5.
Proof. fcsr_bits. Qed.

Lemma fcsr_of_parts c :
  (c & FCSR_MASK) = (c & FFLAGS_MASK) |: Z.shiftl (Z.shiftr (c & FRM_MASK) 5) 5.
Proof.
  destruct fcsr_masks as (-> & -> & _ & ->). apply Z.bits_inj'; intros i Hi.
  destruct (Z.ltb_spec i 5).
  - autorewrite with bits. rewrite (Z.testbit_neg_r _ (i - 5)) by lia. bits_cases.
  - autorewrite with bits. rewrite Z.sub_add. bits_cases.
Qed.

(** [fflags] and [frm] are the two parts of [fcsr]: writing one of them stores
    its low bits, leaves the other part alone, and [fcsr] is always the two
    parts side by side. *)
Theorem fcsr_shadows s v :
  let s1 := CSRegisters_write s CSR.frm v in
  let s2 := CSRegisters_write s CSR.fflags v in
  CSRegisters_read s1 CSR.frm = v mod 8 /\
  CSRegisters_read s1 CSR.fflags = CSRegisters_read s CSR.fflags /\
  CSRegisters_read s2 CSR.fflags = v mod 32 /\
  CSRegisters_read s2 CSR.frm = CSRegisters_read s CSR.frm /\
  CSRegisters_read s CSR.fcsr =
    CSRegisters_read s CSR.fflags |: Z.shiftl (CSRegisters_read s CSR.frm) 5.
Proof.
  intros s1 s2. rewrite !read_frm, !read_fflags, read_fcsr. unfold s1, s2.
  rewrite raw_write_frm, raw_write_fflags.
  rewrite frm_of_frm, fflags_of_frm, fflags_of_fflags, frm_of_fflags. split_and!; try done.
  apply fcsr_of_parts.
Qed.

Lemma mip_mie_masks :
  WARL_MASK_SIP_SIE = 0x222 /\ WARL_MASK_MIP_MIE = 0xaaa /\ MACHINE_BIT_MASK = 0x888.
Proof. done. Qed.

Lemma read_sie s : CSRegisters_read s CSR.sie = s.(raw) Root.mie & WARL_MASK_SIP_SIE.
Proof. done. Qed.

Lemma read_mie s : CSRegisters_read s CSR.mie = s.(raw) Root.mie.
Proof. done. Qed.

Lemma raw_write_sie s v :
  (CSRegisters_write s CSR.sie v).(raw) Root.mie =
    (((v & U64_MAX) & WARL_MASK_SIP_SIE) & WARL_MASK_SIP_SIE)
    |: (s.(raw) Root.mie & not_u 64 WARL_MASK_SIP_SIE).
Proof. done. Qed.

Lemma mask_insert v c m :
  is_u 64 m -> ((((v & U64_MAX) & m) & m) |: (c & not_u 64 m)) & m = v & m.
Proof.
  intros. destruct fcsr_masks as (_ & _ & -> & _). bits_eq.
  destruct (Z.ltb_spec i 64); [|by rewrite (testbit_above 64 m), !andb_false_r by done].
  destruct (Z.testbit v i), (Z.testbit c i), (Z.testbit m i); simpl; bool_cases; simpl; done || lia.
Qed.

Lemma mask_keep x c m k :
  is_u 64 k -> (k & m) = 0 -> ((((x & m) & m) |: (c & not_u 64 m)) & k) = c & k.
Proof.
  intros U D. bits_eq. destruct (Z.ltb_spec i 64); [|by rewrite (testbit_above 64 k), !andb_false_r by done].
  assert (Z.testbit (k & m) i = false) as B by by rewrite D, Z.bits_0.
  rewrite testbit_land in B. simpl.
  destruct (Z.testbit k i), (Z.testbit m i), (Z.testbit x i), (Z.testbit c i); done.
Qed.

(** [sie] is [mie] restricted to the supervisor interrupts: a write to [sie]
    changes exactly those bits of [mie]; [mip] and [sip] always read zero,
    whatever is written. *)
Theorem interrupt_enable_shadow s v :
  CSRegisters_read (CSRegisters_write s CSR.sie v) CSR.sie = v & SUPERVISOR_BIT_MASK /\
  (CSRegisters_read (CSRegisters_write s CSR.sie v) CSR.mie & MACHINE_BIT_MASK)
    = (CSRegisters_read s CSR.mie & MACHINE_BIT_MASK) /\
  CSRegisters_read (CSRegisters_write s CSR.mip v) CSR.mip = 0 /\
  CSRegisters_read (CSRegisters_write s CSR.sip v) CSR.sip = 0.
Proof.
  rewrite read_sie, !read_mie, raw_write_sie. split_and!; try done.
  - apply mask_insert. by vm_compute.
  - apply mask_keep; by vm_compute.
Qed.

(** [sstatus] is a view of [mstatus]: after a write the view reads as the
    normalised value, and no field that supervisor mode may not see changes
    (machine interrupt enables, [MPP], [MPRV], [TVM], [TW], [TSR], [SXL],
    endianness). *)
Theorem sstatus_shadow s v :
  let s' := CSRegisters_write s CSR.sstatus v in
  make_value_writable CSR.sstatus v = Some (CSRegisters_read s' CSR.sstatus) /\
  s'.(mstatus_cells).(m_mie) = s.(mstatus_cells).(m_mie) /\
  s'.(mstatus_cells).(m_mpie) = s.(mstatus_cells).(m_mpie) /\
  s'.(mstatus_cells).(m_mpp) = s.(mstatus_cells).(m_mpp) /\
  s'.(mstatus_cells).(m_mprv) = s.(mstatus_cells).(m_mprv) /\
  s'.(mstatus_cells).(m_tvm) = s.(mstatus_cells).(m_tvm) /\
  s'.(mstatus_cells).(m_tw) = s.(mstatus_cells).(m_tw) /\
  s'.(mstatus_cells).(m_tsr) = s.(mstatus_cells).(m_tsr) /\
  s'.(mstatus_cells).(m_sxl) = s.(mstatus_cells).(m_sxl) /\
  s'.(mstatus_cells).(m_sbe) = s.(mstatus_cells).(m_sbe) /\
  s'.(mstatus_cells).(m_mbe) = s.(mstatus_cells).(m_mbe) /\
  s'.(raw) = s.(raw).
Proof.
  intros s'.
  set (w := SStatus_normalise (csr_from_bits SStatus_fields (v & WPRI_MASK_SSTATUS))).
  assert (Hw : make_value_writable CSR.sstatus v = Some w) by done.
  assert (Hs : s' = {| raw := s.(raw); mstatus_cells :=
    sstatus_cells s.(mstatus_cells) (csr_from_bits SStatus_fields w) |}).
  { unfold s', CSRegisters_write. rewrite Hw. cbn [RootCSRegister_from]. rewrite raw_write_mstatus.
    f_equal. apply sstatus_write_cells. }
  clearbody s'. subst s'. cbn [mstatus_cells raw]. unfold sstatus_cells at 2 3 4 5 6 7 8 9 10 11.
  cbn [m_mie m_mpie m_mpp m_mprv m_tvm m_tw m_tsr m_sxl m_sbe m_mbe].
  split_and!; try reflexivity. rewrite Hw. f_equal.
  rewrite CSRegisters_read_source. cbn [RootCSRegister_from transform_read].
  rewrite raw_read_mstatus. cbn [mstatus_cells].
  rewrite sstatus_read_cells, SStatus_from_bits_idem. unfold w. by rewrite SStatus_normalise_idem.
Qed.

(** ** Access checks *)

Lemma privilege_ltb mode reg :
  (Privilege_repr (Mode_privilege mode) <? Privilege_repr (CSRegister_privilege reg)) = false <->
  Privilege_repr (CSRegister_privilege reg) <= Privilege_repr (Mode_privilege mode).
Proof. rewrite Z.ltb_ge. done. Qed.

Lemma access_checks_error csr mode s e :
  access_checks csr mode s = Err e -> e = IllegalInstruction.
Proof.
  unfold access_checks, check_privilege, check_satp_access.
  destruct (_ <? _); [congruence|]. destruct (_ && _); [congruence|].
  destruct csr; simpl; try discriminate; case_bool_decide; congruence.
Qed.

(** A CSR is accessible exactly when the mode has the privilege its address
    asks for, [satp] is not trapped by [TVM], and the floating-point
    registers are not disabled; the only error is [IllegalInstruction].  In
    particular user mode reaches only unprivileged registers and supervisor
    mode no machine register. *)
Theorem access_checks_spec csr mode s :
  (access_checks csr mode s = Ok tt <->
   Privilege_repr (CSRegister_privilege csr) <= Privilege_repr (Mode_privilege mode) /\
   ~ (csr = CSR.satp /\ s.(mstatus_cells).(m_tvm) = true) /\
   ~ (csr ∈ [CSR.fcsr; CSR.frm; CSR.fflags] /\ s.(mstatus_cells).(m_fs) = Off)) /\
  (access_checks csr mode s <> Ok tt -> access_checks csr mode s = Err IllegalInstruction).
Proof.
  unfold access_checks, check_privilege.
  destruct (Z.ltb_spec (Privilege_repr (Mode_privilege mode))
              (Privilege_repr (CSRegister_privilege csr))); [split; [split; [done|lia]|done]|].
  unfold check_satp_access. destruct (m_tvm _), (bool_decide_reflect (csr = CSR.satp)); simpl;
    try (subst; split; [split; [done|naive_solver]|done]);
    unfold check_fs_access; destruct (decide (csr ∈ [CSR.fcsr; CSR.frm; CSR.fflags])) as [D|D].
  all: try (rewrite !elem_of_cons, elem_of_nil in D; destruct_or! D; subst; try done;
    case_bool_decide; set_solver).
  all: assert (match csr with CSR.fcsr | CSR.frm | CSR.fflags =>
      if bool_decide (m_fs (mstatus_cells s) = Off) then Err IllegalInstruction else Ok tt
      | _ => Ok tt end = Ok tt) as -> by (destruct csr; try done; set_solver).
  all: naive_solver.
Qed.

(** ** Setting and clearing bits *)

Lemma read_write_plain s r v :
  is_plain r = true -> is_root r = true -> r <> CSR.fcsr -> is_u 64 v ->
  CSRegisters_read (CSRegisters_write s r v) r = v.
Proof.
  intros P R F U. rewrite read_write_root by (done || by intros ->).
  rewrite make_value_writable_plain, land_u64, decide_False by done. done.
Qed.

Lemma CSRegisters_read_root s r :
  is_root r = true -> r <> CSR.fcsr -> r <> CSR.mip -> r <> CSR.mstatus ->
  CSRegisters_read s r = s.(raw) (RootCSRegister_from r).
Proof.
  intros. rewrite CSRegisters_read_source, transform_read_root, decide_False by done.
  by rewrite raw_read_cell by (by apply root_cell).
Qed.

Lemma CSRegisters_wf_read s r :
  CSRegisters_wf s -> is_plain r = true -> is_root r = true -> r <> CSR.fcsr ->
  is_u 64 (CSRegisters_read s r).
Proof.
  intros W P R F. rewrite CSRegisters_read_root; try done; try (by intros ->).
  apply W, root_cell; [done|by intros ->..].
Qed.

(** On a register without reserved bits [set_bits] and [clear_bits] return
    the old value and leave exactly the bits added to it or removed from it. *)
Theorem set_clear_bits_spec s r bits :
  CSRegisters_wf s -> is_plain r = true -> is_root r = true -> r <> CSR.fcsr -> is_u 64 bits ->
  let old := CSRegisters_read s r in
  fst (CSRegisters_set_bits s r bits) = old /\
  CSRegisters_read (snd (CSRegisters_set_bits s r bits)) r = old |: bits /\
  fst (CSRegisters_clear_bits s r bits) = old /\
  CSRegisters_read (snd (CSRegisters_clear_bits s r bits)) r = Z.ldiff old bits.
Proof.
  intros W P R F U old. assert (is_u 64 old) by by apply CSRegisters_wf_read.
  unfold CSRegisters_set_bits, CSRegisters_clear_bits; cbn [fst snd]. fold old.
  rewrite !read_write_plain by (done || apply lor_is_u || apply land_is_u; done || lia).
  split_and!; try done. bits_eq. rewrite Z.ldiff_spec.
  destruct (Z.ltb_spec i 64); [done|]. by rewrite (testbit_above 64 old) by done.
Qed.

(** ** Writes keep the cells in range *)

Lemma make_value_writable_u64 r v w : make_value_writable r v = Some w -> is_u 64 w.
Proof.
  destruct (is_plain r) eqn:P.
  { rewrite !make_value_writable_plain by done. intros [= <-]. apply land_is_u_r; [lia|]. by destruct r. }
  destruct r; try discriminate P; clear P; unfold make_value_writable, clear_wpri_fields;
    cbn [transform_warl_fields is_legal legal_values wpri_mask];
    try match goal with |- (if ?c then Some _ else None) = _ -> _ => destruct c end;
    intros E; try discriminate E; injection E as <-;
    match goal with
    | |- is_u 64 (_ & _) => apply land_is_u_r; [lia|vm_compute; intuition congruence]
    | |- is_u 64 (SStatus_normalise _) => apply SStatus_normalise_u64, csr_from_bits_u64; reflexivity
    | |- is_u 64 (MStatus_normalise _) => apply MStatus_normalise_u64, csr_from_bits_u64; reflexivity
    | |- is_u 64 (Satp_normalise _) => apply Satp_normalise_u64, csr_from_bits_u64; reflexivity
    | |- is_u 64 (MNStatus_normalise _) => unfold MNStatus_normalise; apply csr_from_bits_u64; reflexivity
    | |- is_u 64 _ => vm_compute; intuition congruence
    end.
Qed.

Lemma CSRegisters_read_u64 s r : CSRegisters_wf s -> is_u 64 (CSRegisters_read s r).
Proof.
  intros W. rewrite CSRegisters_read_source.
  assert (R : is_u 64 (general_raw_read s (RootCSRegister_from r))).
  { destruct (has_raw_cell (RootCSRegister_from r)) eqn:H.
    - rewrite raw_read_cell by done. by apply W.
    - apply no_raw_cell in H as [->| ->]; [|by vm_compute]. rewrite raw_read_mstatus.
      apply MStatusValue_read_u64. }
  generalize dependent (general_raw_read s (RootCSRegister_from r)). intros v V.
  destruct r; try exact V; cbn [transform_read];
    match goal with
    | |- is_u 64 (_ & _) => apply land_is_u; [lia|exact V]
    | |- is_u 64 (to_sstatus _) => apply to_sstatus_u64
    | |- is_u 64 (shr_u _ _ _) => apply shr_is_u; [lia|vm_compute; congruence|apply land_is_u; [lia|exact V]]
    end.
Qed.

Lemma transform_write_u64 s r v :
  CSRegisters_wf s -> is_u 64 v -> has_raw_cell (RootCSRegister_from r) = true -> is_u 64 (transform_write s r v).
Proof.
  intros W V H.
  destruct r; try exact V; try discriminate H; cbn [transform_write].
  all: try (apply land_is_u; [lia|exact V]).
  - apply lor_is_u; [lia| |apply land_is_u; [lia|by apply W]]. apply land_is_u; [lia|exact V].
  - apply lor_is_u; [lia| |apply land_is_u; [lia|by apply W]]. apply land_is_u; [lia|apply (wrap_range 64); lia].
  - apply lor_is_u; [lia| |apply land_is_u; [lia|by apply W]]. apply land_is_u; [lia|exact V].
Qed.

(** Writing any value keeps every cell a [u64]. *)
Lemma CSRegisters_write_wf s r v : CSRegisters_wf s -> CSRegisters_wf (CSRegisters_write s r v).
Proof.
  intros W. unfold CSRegisters_write. destruct (make_value_writable r v) as [w|] eqn:M; [|done].
  apply make_value_writable_u64 in M. destruct (has_raw_cell (RootCSRegister_from r)) eqn:H.
  - pose proof (transform_write_u64 s r w W M H) as U.
    intros x X. rewrite raw_write_cell by done. cbn [raw]. unfold raw_set. case_decide; [done|by apply W].
  - apply no_raw_cell in H as [->| ->]; [|by rewrite raw_write_mip].
    rewrite raw_write_mstatus. exact W.
Qed.

(** ** Reset *)

Lemma reset_cells s :
  let s' := CSRegisters_reset s in
  forallb (fun r => if has_raw_cell r then s'.(raw) r =? default_value (Root_csr r) else true)
    RootCSRegister_iter = true.
Proof. vm_compute. reflexivity. Qed.

Lemma reset_raw s r :
  has_raw_cell r = true -> (CSRegisters_reset s).(raw) r = default_value (Root_csr r).
Proof.
  intros C. pose proof (reset_cells s) as H. cbv zeta in H. rewrite forallb_forall in H.
  specialize (H r (proj1 (list_elem_of_In _ _) (RootCSRegister_iter_spec r))).
  rewrite C in H. by apply Z.eqb_eq.
Qed.

Lemma default_value_u64 r : is_u 64 (default_value r).
Proof.
  apply (bool_decide_eq_true_1 (is_u 64 (default_value r))). destruct r; vm_compute; reflexivity.
Qed.

Lemma reset_mstatus s :
  (CSRegisters_reset s).(mstatus_cells) = MStatusValue_write s.(mstatus_cells) MStatus_default.
Proof. vm_compute. reflexivity. Qed.

(** Reset does not depend on the state before it: every raw cell holds the
    default value of its register, and [mstatus] the fields of its default.
    The defaults of [medeleg] and [mideleg] (all ones) are not values that a
    CSR write could produce: until software writes them, delegation bits
    that the WARL masks keep at zero are set. *)
Theorem CSRegisters_reset_spec s :
  (forall r, has_raw_cell r = true ->
     (CSRegisters_reset s).(raw) r = default_value (Root_csr r)) /\
  CSRegisters_wf (CSRegisters_reset s) /\
  MStatusValue_read (CSRegisters_reset s).(mstatus_cells) =
    MStatus_normalise (csr_from_bits MStatus_fields MStatus_default) /\
  CSRegisters_read (CSRegisters_reset s) CSR.medeleg = U64_MAX /\
  CSRegisters_read (CSRegisters_reset s) CSR.mideleg = U64_MAX /\
  make_value_writable CSR.medeleg U64_MAX = Some WARL_MASK_MEDELEG /\
  make_value_writable CSR.mideleg U64_MAX = Some WARL_MASK_MIDELEG /\
  WARL_MASK_MEDELEG <> U64_MAX /\ WARL_MASK_MIDELEG <> U64_MAX.
Proof.
  pose proof (reset_raw s) as R. split; [exact R|]. split.
  { intros r C. rewrite R by done. apply default_value_u64. }
  split; [rewrite reset_mstatus; apply MStatusValue_read_of_write|].
  rewrite !CSRegisters_read_root by done. cbn [RootCSRegister_from]. rewrite !R by done.
  split_and!; by vm_compute.
Qed.

(** ** Where a trap goes *)

(** A trap is taken in supervisor mode exactly when the hart is not in
    machine mode and the delegation bit of its code is set; it never goes to
    a mode with less privilege than the current one. *)
Theorem get_trap_mode_spec {TC} `{TrapContextLaws TC} s (t : TC) m :
  (get_trap_mode s t m = TSupervisor <->
   m <> Machine /\
   Z.testbit (s.(raw) (match kind TC with KInterrupt => Root.mideleg | KException => Root.medeleg end))
     (exception_code t) = true) /\
  Mode_repr m <= Mode_repr (as_mode (get_trap_mode s t m)).
Proof.
  unfold get_trap_mode. pose proof (exception_code_u4 t) as [? ?].
  assert (E : CSRegisters_read s (match kind TC with KInterrupt => CSR.mideleg | KException => CSR.medeleg end)
    = s.(raw) (match kind TC with KInterrupt => Root.mideleg | KException => Root.medeleg end))
    by by destruct (kind TC).
  rewrite E, bit_testbit by lia.
  destruct (Z.testbit _ _) eqn:B, m; simpl; split; (split; [intros; try done|intros [? ?]; done]) || lia.
Qed.

(** ** Witnesses *)

Definition CSRegisters_example : CSRegisters :=
  CSRegisters_reset {| raw := fun _ => 0; mstatus_cells :=
    Build_MStatusValue false false false false false SPP.User MPP.User Off Off
      false false false false false false MXL64 MXL64 false false |}.

Lemma CSRegisters_example_wf : CSRegisters_wf CSRegisters_example.
Proof. intros r C. unfold CSRegisters_example. rewrite reset_raw by done. apply default_value_u64. Qed.


Lemma set_clear_bits_spec_witness :
  fst (CSRegisters_set_bits CSRegisters_example CSR.mscratch 6) = 0.
Proof.
  refine (proj1 (set_clear_bits_spec CSRegisters_example CSR.mscratch 6 CSRegisters_example_wf
    _ _ _ _)); [reflexivity|reflexivity|congruence|vm_compute; intuition congruence].
Defined.

Definition LoadPageFault_example : Exception := LoadPageFault 0x1000.

Lemma get_trap_mode_spec_witness :
  get_trap_mode CSRegisters_example LoadPageFault_example User = TSupervisor.
Proof.
  refine (proj2 (proj1 (get_trap_mode_spec CSRegisters_example LoadPageFault_example User)) _).
  split; [congruence|vm_compute; reflexivity].
Defined.
