(* ===== verification/HartState.v ===== *)
(** The hart: [src/riscv/lib/src/machine_state/hart_state.rs], its reservation
    set ([machine_state/reservation_set.rs]), the trap-return instructions
    ([interpreter/rv64priv.rs]) and the CSR instructions
    ([interpreter/rv64zicsr.rs]), which are methods of the hart. *)
From S2P Require Import Prelude Bits Registers CSRegister Traps XStatus XStatusSpec CSRegisters.

(** ** Reservation set *)

(* machine_state/reservation_set.rs:22-24 ReservationSet *)
Record ReservationSet : Set := { start_addr : Z }.

(* machine_state/reservation_set.rs:37-37 SIZE *)
Definition RESERVATION_SIZE : Z := 8.

(* machine_state/reservation_set.rs:39-39 UNSET_VALUE *)
Definition UNSET_VALUE : Z := U64_MAX.

(* machine_state/reservation_set.rs:41-47 align_address *)
Definition align_address (address align : Z) : Z :=
  let offset := address mod align in
  if 0 <? offset then wrapping_sub 64 (wrapping_add 64 address align) offset else address.

(* machine_state/reservation_set.rs:60-66 ReservationSet::reset *)
Definition ReservationSet_reset (s : ReservationSet) : ReservationSet :=
  {| start_addr := UNSET_VALUE |}.

(* machine_state/reservation_set.rs:84-91 ReservationSet::set *)
Definition ReservationSet_set (s : ReservationSet) (addr : Z) : ReservationSet :=
  {| start_addr := align_address addr RESERVATION_SIZE |}.

(* machine_state/reservation_set.rs:93-103 test_and_unset *)
Definition ReservationSet_test_and_unset (s : ReservationSet) (addr : Z) : bool * ReservationSet :=
  let start := s.(start_addr) in
  (negb (start =? UNSET_VALUE) && (start =? align_address addr RESERVATION_SIZE),
   ReservationSet_reset s).

(** ** Hart state *)

(* machine_state/hart_state.rs:21-40 HartState *)
Record HartState : Type := {
  xregisters : XRegisters;
  fregisters : FRegisters;
  csregisters : CSRegisters;
  mode : Mode;
  pc : Z;
  reservation_set : ReservationSet;
}.

Definition set_xregisters (h : HartState) v : HartState :=
  {| xregisters := v; fregisters := h.(fregisters); csregisters := h.(csregisters);
     mode := h.(mode); pc := h.(pc); reservation_set := h.(reservation_set) |}.
Definition set_fregisters (h : HartState) v : HartState :=
  {| xregisters := h.(xregisters); fregisters := v; csregisters := h.(csregisters);
     mode := h.(mode); pc := h.(pc); reservation_set := h.(reservation_set) |}.
Definition set_csregisters (h : HartState) v : HartState :=
  {| xregisters := h.(xregisters); fregisters := h.(fregisters); csregisters := v;
     mode := h.(mode); pc := h.(pc); reservation_set := h.(reservation_set) |}.
Definition set_mode (h : HartState) v : HartState :=
  {| xregisters := h.(xregisters); fregisters := h.(fregisters); csregisters := h.(csregisters);
     mode := v; pc := h.(pc); reservation_set := h.(reservation_set) |}.
Definition set_pc (h : HartState) v : HartState :=
  {| xregisters := h.(xregisters); fregisters := h.(fregisters); csregisters := h.(csregisters);
     mode := h.(mode); pc := v; reservation_set := h.(reservation_set) |}.
Definition set_reservation_set (h : HartState) v : HartState :=
  {| xregisters := h.(xregisters); fregisters := h.(fregisters); csregisters := h.(csregisters);
     mode := h.(mode); pc := h.(pc); reservation_set := v |}.

Definition xread (h : HartState) (r : XRegister) : Z := XRegisters_read h.(xregisters) r.
Definition xwrite (h : HartState) (r : XRegister) (v : Z) : HartState :=
  set_xregisters h (XRegisters_write h.(xregisters) r v).
Definition csr_read (h : HartState) (r : CSR.CSRegister) : Z := CSRegisters_read h.(csregisters) r.
Definition csr_write (h : HartState) (r : CSR.CSRegister) (v : Z) : HartState :=
  set_csregisters h (CSRegisters_write h.(csregisters) r v).
Definition set_mstatus_cells (h : HartState) (m : MStatusValue) : HartState :=
  set_csregisters h {| raw := h.(csregisters).(raw); mstatus_cells := m |}.

(* machine_state/hart_state.rs:77-88 HartState::reset *)
Definition HartState_reset (h : HartState) (pc : Z) : HartState :=
  let h := set_xregisters h (XRegisters_reset h.(xregisters)) in
  let h := set_fregisters h (FRegisters_reset h.(fregisters)) in
  let h := set_csregisters h (CSRegisters_reset h.(csregisters)) in
  let h := set_mode h Mode_default in
  let h := set_pc h pc in
  set_reservation_set h (ReservationSet_reset h.(reservation_set)).

(** The status word for a trap into supervisor mode; [None] is the
    [unreachable!] arm (a trap from machine mode). *)
(* machine_state/hart_state.rs:135-151 take_trap_from_mode *)
Definition trap_status_supervisor (mstatus : Z) (current_mode : Mode) : option Z :=
  let interrupts_enabled := csr_get MStatus.SIE mstatus in
  let mstatus := csr_with MStatus.SPIE mstatus interrupts_enabled in
  let mstatus := csr_with MStatus.SIE mstatus false in
  match current_mode with
  | User => Some (csr_with MStatus.SPP mstatus SPP.User)
  | Supervisor => Some (csr_with MStatus.SPP mstatus SPP.Supervisor)
  | Machine => None
  end.

(* machine_state/hart_state.rs:153-167 take_trap_from_mode *)
Definition trap_status_machine (mstatus : Z) (current_mode : Mode) : Z :=
  let interrupts_enabled := csr_get MStatus.MIE mstatus in
  let mstatus := csr_with MStatus.MPIE mstatus interrupts_enabled in
  let mstatus := csr_with MStatus.MIE mstatus false in
  csr_with MStatus.MPP mstatus
    (match current_mode with
     | User => MPP.User
     | Supervisor => MPP.Supervisor
     | Machine => MPP.Machine
     end).

(** The registers a trap uses: vector, return address, cause, value. *)
(* machine_state/hart_state.rs:110-123 take_trap_from_mode *)
Definition trap_registers (trap_mode : TrapMode) :
  CSR.CSRegister * CSR.CSRegister * CSR.CSRegister * CSR.CSRegister :=
  match trap_mode with
  | TSupervisor => (CSR.stvec, CSR.sepc, CSR.scause, CSR.stval)
  | TMachine => (CSR.mtvec, CSR.mepc, CSR.mcause, CSR.mtval)
  end.

(** The handler address and the new state; [None] when the [unreachable!] arm
    is reached. *)
(* machine_state/hart_state.rs:98-175 take_trap_from_mode *)
Definition take_trap_from_mode {TC} `{TrapContext TC} (h : HartState) (trap_source : TC)
  (current_mode : Mode) (return_pc : Z) : option (Z * HartState) :=
  let trap_mode := get_trap_mode h.(csregisters) trap_source current_mode in
  let '(xtvec_reg, xepc_reg, xcause_reg, xtval_reg) := trap_registers trap_mode in
  let h := csr_write h xepc_reg return_pc in
  let h := csr_write h xcause_reg (xcause trap_source) in
  let h := csr_write h xtval_reg (xtval trap_source) in
  let mstatus := csr_from_bits MStatus_fields (csr_read h CSR.mstatus) in
  let mstatus :=
    match trap_mode with
    | TSupervisor => trap_status_supervisor mstatus current_mode
    | TMachine => Some (trap_status_machine mstatus current_mode)
    end in
  match mstatus with
  | None => None
  | Some mstatus =>
      let h := csr_write h CSR.mstatus mstatus in
      let h := set_mode h (as_mode trap_mode) in
      Some (trap_handler_address trap_source (csr_read h xtvec_reg), h)
  end.

(* machine_state/hart_state.rs:90-96 take_trap *)
Definition take_trap {TC} `{TrapContext TC} (h : HartState) (trap_source : TC) (return_pc : Z) :
  option (Z * HartState) :=
  take_trap_from_mode h trap_source h.(mode) return_pc.

(* machine_state/hart_state.rs:177-186 get_pending_interrupt *)
Definition get_pending_interrupt (h : HartState) (current_mode : Mode) : option Interrupt := None.

(** ** Trap return *)

Definition hartM (A : Type) : Type := stM HartState Exception A.

(** The cells of [mstatus] after [MRET] and [SRET]. *)
(* interpreter/rv64priv.rs:38-51 run_mret *)
Definition mret_cells (m : MStatusValue) : MStatusValue :=
  {| m_sie := m.(m_sie); m_mie := m.(m_mpie); m_spie := m.(m_spie); m_ube := m.(m_ube);
     m_mpie := true; m_spp := m.(m_spp); m_mpp := MPP.User; m_fs := m.(m_fs); m_xs := m.(m_xs);
     m_mprv := if bool_decide (m.(m_mpp) <> MPP.Machine) then false else m.(m_mprv);
     m_sum := m.(m_sum); m_mxr := m.(m_mxr); m_tvm := m.(m_tvm); m_tw := m.(m_tw);
     m_tsr := m.(m_tsr); m_uxl := m.(m_uxl); m_sxl := m.(m_sxl); m_sbe := m.(m_sbe);
     m_mbe := m.(m_mbe) |}.

(* interpreter/rv64priv.rs:79-91 run_sret *)
Definition sret_cells (m : MStatusValue) : MStatusValue :=
  {| m_sie := m.(m_spie); m_mie := m.(m_mie); m_spie := true; m_ube := m.(m_ube);
     m_mpie := m.(m_mpie); m_spp := SPP.User; m_mpp := m.(m_mpp); m_fs := m.(m_fs);
     m_xs := m.(m_xs); m_mprv := false;
     m_sum := m.(m_sum); m_mxr := m.(m_mxr); m_tvm := m.(m_tvm); m_tw := m.(m_tw);
     m_tsr := m.(m_tsr); m_uxl := m.(m_uxl); m_sxl := m.(m_sxl); m_sbe := m.(m_sbe);
     m_mbe := m.(m_mbe) |}.

(* interpreter/rv64priv.rs:27-62 run_mret *)
Definition run_mret : hartM Z := fun h =>
  match h.(mode) with
  | User | Supervisor => (Err IllegalInstruction, h)
  | Machine =>
      let cells := h.(csregisters).(mstatus_cells) in
      let prev_privilege := cells.(m_mpp) in
      let h := set_mstatus_cells h (mret_cells cells) in
      let h := set_mode h
        (match prev_privilege with
         | MPP.User => User
         | MPP.Supervisor => Supervisor
         | MPP.Machine => Machine
         end) in
      (Ok (csr_read h CSR.mepc), h)
  end.

(* interpreter/rv64priv.rs:64-101 run_sret *)
Definition run_sret : hartM Z := fun h =>
  match h.(mode) with
  | User => (Err IllegalInstruction, h)
  | Supervisor | Machine =>
      let cells := h.(csregisters).(mstatus_cells) in
      if cells.(m_tsr) then (Err IllegalInstruction, h)
      else
        let prev_privilege := cells.(m_spp) in
        let h := set_mstatus_cells h (sret_cells cells) in
        let h := set_mode h
          (match prev_privilege with SPP.User => User | SPP.Supervisor => Supervisor end) in
        (Ok (csr_read h CSR.sepc), h)
  end.

(** ** CSR instructions *)

Definition checked (r : HartState -> result unit Exception) : hartM unit := fun h => (r h, h).

(* interpreter/rv64zicsr.rs:37-57 csr_replace *)
Definition csr_replace (csr : CSR.CSRegister) (value : Z) (rd : XRegister) : hartM unit :=
  let! _ := checked (fun _ => check_write csr) in
  let! _ := checked (fun h => access_checks csr h.(mode) h.(csregisters)) in
  fun h =>
    if XRegister_is_zero rd then (Ok tt, csr_write h csr value)
    else
      let '(old, csrs) := CSRegisters_replace h.(csregisters) csr value in
      (Ok tt, xwrite (set_csregisters h csrs) rd old).

(* interpreter/rv64zicsr.rs:14-24 run_csrrw *)
Definition run_csrrw (csr : CSR.CSRegister) (rs1 rd : XRegister) : hartM unit := fun h =>
  csr_replace csr (xread h rs1) rd h.

(* interpreter/rv64zicsr.rs:26-35 run_csrrwi *)
Definition run_csrrwi (csr : CSR.CSRegister) (imm : Z) (rd : XRegister) : hartM unit :=
  csr_replace csr (imm & 31) rd.

(** The common shape of the set and clear instructions: [update] is [None]
    when no write effect must be triggered. *)
Definition csr_update (op : CSRegisters -> CSR.CSRegister -> Z -> Z * CSRegisters)
  (csr : CSR.CSRegister) (update : HartState -> option Z) (rd : XRegister) : hartM unit :=
  let! _ := checked (fun h => access_checks csr h.(mode) h.(csregisters)) in
  fun h =>
    match update h with
    | None => (Ok tt, xwrite h rd (csr_read h csr))
    | Some value =>
        match check_write csr with
        | Err e => (Err e, h)
        | Ok _ =>
            let '(old, csrs) := op h.(csregisters) csr value in
            (Ok tt, xwrite (set_csregisters h csrs) rd old)
        end
    end.

(* interpreter/rv64zicsr.rs:59-81 run_csrrs *)
Definition run_csrrs (csr : CSR.CSRegister) (rs1 rd : XRegister) : hartM unit :=
  csr_update CSRegisters_set_bits csr
    (fun h => if XRegister_is_zero rs1 then None else Some (xread h rs1)) rd.

(* interpreter/rv64zicsr.rs:83-105 run_csrrsi *)
Definition run_csrrsi (csr : CSR.CSRegister) (imm : Z) (rd : XRegister) : hartM unit :=
  let imm := imm & 31 in
  csr_update CSRegisters_set_bits csr (fun _ => if imm =? 0 then None else Some imm) rd.

(* interpreter/rv64zicsr.rs:107-129 run_csrrc *)
Definition run_csrrc (csr : CSR.CSRegister) (rs1 rd : XRegister) : hartM unit :=
  csr_update CSRegisters_clear_bits csr
    (fun h => if XRegister_is_zero rs1 then None else Some (xread h rs1)) rd.

(* interpreter/rv64zicsr.rs:131-153 run_csrrci *)
Definition run_csrrci (csr : CSR.CSRegister) (imm : Z) (rd : XRegister) : hartM unit :=
  let imm := imm & 31 in
  csr_update CSRegisters_clear_bits csr (fun _ => if imm =? 0 then None else Some imm) rd.
