(* ===== verification/HartStateSpec.v ===== *)
(** Properties of the hart: trap entry and return, the CSR instructions, the
    reservation set and reset. *)
From S2P Require Import Prelude Bits Registers CSRegister Traps XStatus XStatusSpec CSRegisters.
From S2P Require Import CSRegistersSpec HartState.

(** ** Reservation set *)

Lemma align_address_spec a :
  is_u 64 a -> a <= 2 ^ 64 - 8 -> align_address a 8 = wrap 64 (8 * ((a + 7) / 8)).
Proof.
  intros [? ?] ?. unfold align_address, wrapping_sub, wrapping_add.
  assert (E : 8 * ((a + 7) / 8) = if 0 <? a mod 8 then a + 8 - a mod 8 else a).
  { destruct (Z.ltb_spec 0 (a mod 8)).
    - Z.to_euclidean_division_equations; lia.
    - Z.to_euclidean_division_equations; lia. }
  rewrite E. bool_cases.
  - unfold wrap. by rewrite Zminus_mod_idemp_l.
  - symmetry. by apply wrap_small.
Qed.

(** Whether a reservation made at [a] lets a store-conditional at [b] succeed:
    the two addresses must round up to the same multiple of 8.  The
    reservation is consumed either way.  Rounding up is not the
    naturally aligned doubleword around the address: a reservation made for
    the word at 4 covers the doubleword at 8 and not its own word's
    doubleword at 0. *)
Theorem reservation_spec s a b :
  is_u 64 a -> is_u 64 b -> a <= 2 ^ 64 - 16 -> b <= 2 ^ 64 - 16 ->
  let s' := ReservationSet_set s a in
  (fst (ReservationSet_test_and_unset s' b) = true <-> (a + 7) / 8 = (b + 7) / 8) /\
  (forall c, fst (ReservationSet_test_and_unset (snd (ReservationSet_test_and_unset s' b)) c)
     = false) /\
  fst (ReservationSet_test_and_unset (ReservationSet_set s 4) 8) = true /\
  fst (ReservationSet_test_and_unset (ReservationSet_set s 0) 4) = false.
Proof.
  intros Ha Hb La Lb s'. split_and!; try done.
  unfold s', ReservationSet_test_and_unset, ReservationSet_set; cbn [fst start_addr].
  unfold is_u in *. pow2. unfold RESERVATION_SIZE. rewrite !align_address_spec by (unfold is_u; lia).
  rewrite !(wrap_small 64) by (unfold is_u; Z.to_euclidean_division_equations; lia).
  rewrite andb_true_iff, negb_true_iff, Z.eqb_neq, Z.eqb_eq.
  unfold UNSET_VALUE, U64_MAX. pow2. split; [lia|]. intros ->.
  split; [Z.to_euclidean_division_equations; lia|done].
Qed.

Lemma reservation_spec_witness :
  fst (ReservationSet_test_and_unset (ReservationSet_set {| start_addr := 0 |} 16) 16) = true.
Proof.
  refine (proj2 (proj1 (reservation_spec {| start_addr := 0 |} 16 16 _ _ _ _)) eq_refl);
    vm_compute; intuition congruence.
Defined.

(** ** Trap entry *)

Lemma csr_write_mstatus h v :
  csr_write h CSR.mstatus v =
    set_mstatus_cells h (MStatusValue_write h.(csregisters).(mstatus_cells) v).
Proof.
  unfold csr_write, CSRegisters_write, set_mstatus_cells.
  change (make_value_writable CSR.mstatus v) with
    (Some (MStatus_normalise (csr_from_bits MStatus_fields (v & WPRI_MASK_MSTATUS)))).
  cbn [RootCSRegister_from]. rewrite raw_write_mstatus.
  change (transform_write h.(csregisters) CSR.mstatus ?x) with x.
  rewrite MStatusValue_write_normalise, MStatusValue_write_land; [done|].
  vm_compute. reflexivity.
Qed.

Lemma csr_read_mstatus h : csr_read h CSR.mstatus = MStatusValue_read h.(csregisters).(mstatus_cells).
Proof. done. Qed.

(** A write to a register with a raw cell leaves the cells of [mstatus]. *)
Lemma csr_write_cells h r v :
  RootCSRegister_from r <> Root.mstatus ->
  (csr_write h r v).(csregisters).(mstatus_cells) = h.(csregisters).(mstatus_cells).
Proof.
  intros N. unfold csr_write, CSRegisters_write; cbn [csregisters set_csregisters].
  destruct (make_value_writable r v); [|done].
  destruct (has_raw_cell (RootCSRegister_from r)) eqn:E; [by rewrite raw_write_cell|].
  destruct (no_raw_cell _ E) as [E'|E']; [done|]. rewrite E'. exact (f_equal _ (raw_write_mip _ _)).
Qed.

(** The state a trap leaves, as a function of where it goes. *)
Definition trap_cells (m : MStatusValue) (trap_mode : TrapMode) (current_mode : Mode) :
  MStatusValue :=
  match trap_mode with
  | TMachine => trap_cells_machine m
      (match current_mode with
       | User => MPP.User | Supervisor => MPP.Supervisor | Machine => MPP.Machine
       end)
  | TSupervisor => trap_cells_supervisor m
      (match current_mode with User => SPP.User | _ => SPP.Supervisor end)
  end.

Definition trap_result {TC} `{TrapContext TC} (h : HartState) (t : TC) (return_pc : Z) : HartState :=
  let trap_mode := get_trap_mode h.(csregisters) t h.(mode) in
  let '(_, xepc_reg, xcause_reg, xtval_reg) := trap_registers trap_mode in
  let h' := csr_write (csr_write (csr_write h xepc_reg return_pc) xcause_reg (xcause t))
              xtval_reg (xtval t) in
  set_mode (set_mstatus_cells h' (trap_cells h.(csregisters).(mstatus_cells) trap_mode h.(mode)))
    (as_mode trap_mode).

Lemma get_trap_mode_machine {TC} `{TrapContext TC} s (t : TC) :
  get_trap_mode s t Machine = TMachine.
Proof. done. Qed.

(** The [unreachable!] of [take_trap_from_mode] is never reached. *)
Lemma take_trap_result {TC} `{TrapContext TC} h (t : TC) return_pc :
  take_trap h t return_pc =
    Some (trap_handler_address t (csr_read (trap_result h t return_pc)
            (trap_registers (get_trap_mode h.(csregisters) t h.(mode))).1.1.1),
          trap_result h t return_pc).
Proof.
  unfold take_trap, take_trap_from_mode, trap_result.
  destruct (get_trap_mode h.(csregisters) t h.(mode)) eqn:E; cbn [trap_registers];
    set (h' := csr_write (csr_write (csr_write h _ _) _ _) _ _);
    assert (C : h'.(csregisters).(mstatus_cells) = h.(csregisters).(mstatus_cells))
      by (unfold h'; by rewrite !csr_write_cells by done);
    rewrite csr_read_mstatus, C.
  - destruct h.(mode) eqn:M; [..|by rewrite get_trap_mode_machine in E];
      cbn [trap_status_supervisor]; cbv zeta; rewrite csr_write_mstatus, C;
      rewrite trap_cells_supervisor_write; done.
  - unfold trap_status_machine; cbv zeta. rewrite csr_write_mstatus, C.
    rewrite trap_cells_machine_write. done.
Qed.

Lemma csr_read_set_cells h m r :
  RootCSRegister_from r <> Root.mstatus -> csr_read (set_mstatus_cells h m) r = csr_read h r.
Proof.
  intros N. unfold csr_read. rewrite !CSRegisters_read_source. cbn [csregisters set_mstatus_cells set_csregisters].
  destruct (has_raw_cell (RootCSRegister_from r)) eqn:E; [by rewrite !raw_read_cell|].
  by destruct (no_raw_cell _ E) as [E'|E']; rewrite E' in *.
Qed.

Lemma csr_read_set_mode h m r : csr_read (set_mode h m) r = csr_read h r.
Proof. reflexivity. Qed.

Lemma csr_read_write_ne h r r' v :
  RootCSRegister_from r' <> RootCSRegister_from r ->
  csr_read (csr_write h r v) r' = csr_read h r'.
Proof. apply CSRegisters_write_ne. Qed.

Lemma csr_read_write h r v :
  is_root r = true -> r <> CSR.mip -> r <> CSR.fcsr ->
  csr_read (csr_write h r v) r = default (csr_read h r) (make_value_writable r v).
Proof.
  intros. unfold csr_read, csr_write; cbn [csregisters set_csregisters].
  rewrite read_write_root by done. by destruct (make_value_writable r v); [rewrite decide_False|].
Qed.

Lemma xepc_writable r v :
  r = CSR.mepc \/ r = CSR.sepc -> is_u 64 v -> make_value_writable r v = Some (2 * (v / 2)).
Proof.
  intros R U. assert (E : make_value_writable r v = Some ((v & U64_MAX) & WARL_MASK_XEPC))
    by (destruct R; by subst). rewrite E, land_u64 by done. f_equal.
  change WARL_MASK_XEPC with (not_u 64 (Z.ones 1)). change 2 with (2 ^ 1).
  apply land_not_ones; [lia|done].
Qed.

Lemma xcause_writable r v :
  r = CSR.mcause \/ r = CSR.scause -> is_u 64 v ->
  make_value_writable r v = if is_legal r v then Some v else None.
Proof.
  intros R U. assert (E : make_value_writable r v =
    if is_legal r (v & U64_MAX) then Some (v & U64_MAX) else None) by (destruct R; by subst).
  by rewrite E, land_u64.
Qed.

Lemma xcause_u64 {TC} `{TrapContextLaws TC} (t : TC) : is_u 64 (xcause t).
Proof.
  rewrite xcause_spec. pose proof (exception_code_u4 t) as [? ?]. unfold is_u. pow2.
  destruct (kind TC); lia.
Qed.

(** The CSRs after the writes of trap entry, for registers that do not share
    cells. *)
Section trap_writes.
Context (h : HartState) (e c v : CSR.CSRegister) (m : MStatusValue) (md : Mode) (p x y : Z).
Context (Hspec : (e = CSR.mepc /\ c = CSR.mcause /\ v = CSR.mtval) \/
                 (e = CSR.sepc /\ c = CSR.scause /\ v = CSR.stval)).
Context (Up : is_u 64 p) (Ux : is_u 64 x) (Uy : is_u 64 y).

Ltac trap_regs := destruct Hspec as [(-> & -> & ->)|(-> & -> & ->)]; done.

Let h' := set_mode (set_mstatus_cells (csr_write (csr_write (csr_write h e p) c x) v y) m) md.

Lemma trap_writes_read r :
  RootCSRegister_from r <> Root.mstatus ->
  csr_read h' r = csr_read (csr_write (csr_write (csr_write h e p) c x) v y) r.
Proof.
  intros N. unfold h'. rewrite csr_read_set_mode. by apply csr_read_set_cells.
Qed.

Lemma trap_writes_other r :
  RootCSRegister_from r ∉ map RootCSRegister_from [CSR.mstatus; e; c; v] ->
  csr_read h' r = csr_read h r.
Proof.
  cbn [map]. rewrite !elem_of_cons. intros N. rewrite trap_writes_read by naive_solver.
  rewrite !csr_read_write_ne by naive_solver. done.
Qed.

Lemma trap_writes_cells :
  csr_read h' e = 2 * (p / 2) /\
  csr_read h' c = (if is_legal c x then x else csr_read h c) /\
  csr_read h' v = y.
Proof.
  assert (E : make_value_writable e p = Some (2 * (p / 2))) by (apply xepc_writable; naive_solver).
  assert (C : make_value_writable c x = if is_legal c x then Some x else None)
    by (apply xcause_writable; naive_solver).
  assert (V : make_value_writable v y = Some y).
  { rewrite make_value_writable_plain, land_u64; [done..|]. trap_regs. }
  split_and!; (rewrite trap_writes_read; [|trap_regs]).
  - rewrite !(csr_read_write_ne _ _ e) by trap_regs.
    rewrite csr_read_write, E by trap_regs. done.
  - rewrite (csr_read_write_ne _ v c) by trap_regs.
    rewrite csr_read_write, C by trap_regs.
    destruct (is_legal c x); [done|]. simpl.
    by rewrite csr_read_write_ne by trap_regs.
  - rewrite csr_read_write, V by trap_regs. done.
Qed.
End trap_writes.

(** C9. Trap entry is total and does what the privileged architecture asks: the
    return address (with its low bit cleared), the cause and the trap value
    are recorded in the registers of the target mode, interrupts of that
    mode are disabled with the previous enable and mode stacked, the mode
    becomes the target mode, the handler address is computed from that
    mode's vector, and no other register changes.  An illegal cause (one
    that [WLRL] rejects) leaves the old cause. *)
Theorem take_trap_spec {TC} `{TrapContextLaws TC} h (t : TC) return_pc :
  is_u 64 return_pc -> is_u 64 (xtval t) ->
  let tm := get_trap_mode h.(csregisters) t h.(mode) in
  let '(xtvec_reg, xepc_reg, xcause_reg, xtval_reg) := trap_registers tm in
  exists h',
    take_trap h t return_pc = Some (trap_handler_address t (csr_read h xtvec_reg), h') /\
    csr_read h' xepc_reg = 2 * (return_pc / 2) /\
    csr_read h' xcause_reg =
      (if is_legal xcause_reg (xcause t) then xcause t else csr_read h xcause_reg) /\
    csr_read h' xtval_reg = xtval t /\
    h'.(csregisters).(mstatus_cells) =
      trap_cells h.(csregisters).(mstatus_cells) tm h.(mode) /\
    h'.(mode) = as_mode tm /\
    (h'.(xregisters), h'.(fregisters), h'.(pc), h'.(reservation_set)) =
      (h.(xregisters), h.(fregisters), h.(pc), h.(reservation_set)) /\
    (forall r, RootCSRegister_from r ∉
        map RootCSRegister_from [CSR.mstatus; xepc_reg; xcause_reg; xtval_reg] ->
       csr_read h' r = csr_read h r).
Proof.
  intros U V tm. pose proof (take_trap_result h t return_pc) as T.
  pose proof (xcause_u64 t) as C. unfold trap_result in T. fold tm in T |- *.
  destruct tm; cbn [trap_registers fst] in T |- *;
    match type of T with
    | _ = Some (_, set_mode (set_mstatus_cells (csr_write (csr_write (csr_write _ ?e _) ?c _) ?v _) ?m) ?md) =>
        pose proof (trap_writes_cells h e c v m md return_pc (xcause t) (xtval t)
          ltac:(tauto) U C V) as W;
        pose proof (trap_writes_other h e c v m md return_pc (xcause t) (xtval t) ltac:(tauto)) as O
    end;
    (eexists; split; [rewrite T, O by (cbn; set_solver); reflexivity|]);
    destruct W as (W1 & W2 & W3);
    refine (conj W1 (conj W2 (conj W3 (conj _ (conj _ (conj _ O)))))); reflexivity.
Qed.

(** ** Trap entry and return *)

Lemma run_mret_spec h :
  h.(mode) = Machine ->
  let h' := set_mode (set_mstatus_cells h (mret_cells h.(csregisters).(mstatus_cells)))
              (MPPValue_to_mode h.(csregisters).(mstatus_cells).(m_mpp)) in
  run_mret h = (Ok (csr_read h CSR.mepc), h').
Proof.
  intros M. unfold run_mret. rewrite M. unfold MPPValue_to_mode.
  by rewrite <- (csr_read_set_cells h (mret_cells h.(csregisters).(mstatus_cells)) CSR.mepc).
Qed.

Lemma run_sret_spec h :
  h.(mode) = Supervisor -> h.(csregisters).(mstatus_cells).(m_tsr) = false ->
  let h' := set_mode (set_mstatus_cells h (sret_cells h.(csregisters).(mstatus_cells)))
              (match h.(csregisters).(mstatus_cells).(m_spp) with
               | SPP.User => User | SPP.Supervisor => Supervisor end) in
  run_sret h = (Ok (csr_read h CSR.sepc), h').
Proof.
  intros M T. unfold run_sret. rewrite M, T.
  by rewrite <- (csr_read_set_cells h (sret_cells h.(csregisters).(mstatus_cells)) CSR.sepc).
Qed.

(** The trap-return instruction of the mode a trap goes to. *)
Definition trap_return (tm : TrapMode) : hartM Z :=
  match tm with TMachine => run_mret | TSupervisor => run_sret end.

(** C10. Returning from a trap with [MRET] or [SRET] undoes trap entry: the hart
    resumes at the interrupted address in the interrupted mode, with the
    interrupt enables, the integer and floating-point registers and the
    reservation it had.  ([SRET] must not be trapped by [TSR], and the
    address must be an instruction address.) *)
Theorem trap_return_roundtrip {TC} `{TrapContextLaws TC} h (t : TC) return_pc :
  is_u 64 return_pc -> Z.even return_pc = true -> is_u 64 (xtval t) ->
  h.(csregisters).(mstatus_cells).(m_tsr) = false ->
  exists handler h1 h2,
    take_trap h t return_pc = Some (handler, h1) /\
    trap_return (get_trap_mode h.(csregisters) t h.(mode)) h1 = (Ok return_pc, h2) /\
    h2.(mode) = h.(mode) /\
    h2.(csregisters).(mstatus_cells).(m_mie) = h.(csregisters).(mstatus_cells).(m_mie) /\
    h2.(csregisters).(mstatus_cells).(m_sie) = h.(csregisters).(mstatus_cells).(m_sie) /\
    (h2.(xregisters), h2.(fregisters), h2.(reservation_set)) =
      (h.(xregisters), h.(fregisters), h.(reservation_set)).
Proof.
  intros U Ev V S. pose proof (take_trap_result h t return_pc) as T.
  pose proof (xcause_u64 t) as C. unfold trap_result in T.
  destruct (get_trap_mode h.(csregisters) t h.(mode)) eqn:G; cbn [trap_registers fst] in T;
    match type of T with
    | _ = Some (_, set_mode (set_mstatus_cells (csr_write (csr_write (csr_write _ ?e _) ?c _) ?v _) ?m) ?md) =>
        destruct (trap_writes_cells h e c v m md return_pc (xcause t) (xtval t)
          ltac:(tauto) U C V) as (W & _ & _)
    end;
    (assert (E : 2 * (return_pc / 2) = return_pc) by
      (apply Z.even_spec in Ev as [k ->]; Z.to_euclidean_division_equations; lia));
    eexists _, _, _; (split; [exact T|]); cbn [trap_return].
  - rewrite run_sret_spec by done. rewrite W, E. split; [reflexivity|].
    destruct h.(mode) eqn:M; [..|by rewrite get_trap_mode_machine in G]; split_and!; reflexivity.
  - rewrite run_mret_spec by done. rewrite W, E. split; [reflexivity|].
    destruct h.(mode) eqn:M; split_and!; reflexivity.
Qed.

(** ** A concrete hart, for the witnesses *)

Definition MStatusValue_default : MStatusValue :=
  Build_MStatusValue false false false false false SPP.User MPP.User Off Off
    false false false false false false MXL64 MXL64 false false.

Definition HartState_example : HartState :=
  HartState_reset
    {| xregisters := XRegisters_default; fregisters := FRegisters_default;
       csregisters := {| raw := fun _ => 0; mstatus_cells := MStatusValue_default |};
       mode := Machine; pc := 0; reservation_set := {| start_addr := 0 |} |} 0x80000000.

Lemma take_trap_spec_witness :
  exists h', take_trap HartState_example IllegalInstruction 0x80000004 =
    Some (trap_handler_address IllegalInstruction (csr_read HartState_example CSR.mtvec), h') /\
    csr_read h' CSR.mepc = 0x80000004.
Proof.
  destruct (take_trap_spec HartState_example IllegalInstruction 0x80000004) as (h' & T & E & _);
    [vm_compute; intuition congruence..|].
  exists h'. exact (conj T E).
Defined.

Lemma trap_return_roundtrip_witness :
  exists handler h1 h2, take_trap HartState_example Breakpoint 0x80000010 = Some (handler, h1) /\
    run_mret h1 = (Ok 0x80000010, h2) /\ h2.(mode) = Machine.
Proof.
  destruct (trap_return_roundtrip HartState_example Breakpoint 0x80000010)
    as (handler & h1 & h2 & T & R & M & _); [vm_compute; intuition congruence..|].
  exists handler, h1, h2. exact (conj T (conj R M)).
Defined.

(** ** CSR instructions *)

Lemma xwrite_x0 h v : xwrite h x0 v = h.
Proof. by destruct h. Qed.

Lemma set_csregisters_xwrite h r v : (xwrite h r v).(csregisters) = h.(csregisters).
Proof. done. Qed.

(** The write to [rd] is dropped or the old value is not computed when [rd]
    is [x0]: with the checks passed, every CSR instruction is one
    read-modify-write. *)
Lemma csr_replace_spec csr value rd h :
  csr_replace csr value rd h =
    match check_write csr, access_checks csr h.(mode) h.(csregisters) with
    | Ok _, Ok _ => (Ok tt, xwrite (csr_write h csr value) rd (csr_read h csr))
    | _, _ => (Err IllegalInstruction, h)
    end.
Proof.
  unfold csr_replace, st_bind, checked.
  destruct (check_write csr) eqn:W; [|by unfold check_write in W; case_match; simplify_eq].
  destruct (access_checks csr _ _) as [[]|e] eqn:A.
  - unfold XRegister_is_zero. case_bool_decide; [subst; by rewrite xwrite_x0|].
    rewrite CSRegisters_replace_eq. done.
  - by rewrite (access_checks_error _ _ _ _ A).
Qed.

(** Reference semantics of a CSR instruction: the register is read, [f] of it
    is written back, and [rd] receives the old value. *)
Definition csr_rmw (csr : CSR.CSRegister) (f : Z -> Z) (rd : XRegister) (h : HartState) : HartState :=
  xwrite (csr_write h csr (f (csr_read h csr))) rd (csr_read h csr).

Definition csr_accessible (h : HartState) (csr : CSR.CSRegister) : bool :=
  match access_checks csr h.(mode) h.(csregisters) with Ok _ => true | Err _ => false end.

Lemma check_write_eq csr : check_write csr = if is_read_only csr then Err IllegalInstruction else Ok tt.
Proof. done. Qed.

Lemma csr_update_spec op f csr update rd h :
  (forall s v, op s csr v = (CSRegisters_read s csr, CSRegisters_write s csr (f (CSRegisters_read s csr) v))) ->
  csr_update op csr update rd h =
    if negb (csr_accessible h csr) then (Err IllegalInstruction, h)
    else match update h with
         | None => (Ok tt, xwrite h rd (csr_read h csr))
         | Some v => if is_read_only csr then (Err IllegalInstruction, h)
                     else (Ok tt, csr_rmw csr (fun old => f old v) rd h)
         end.
Proof.
  intros O. unfold csr_update, st_bind, checked, csr_accessible.
  destruct (access_checks csr _ _) as [[]|e] eqn:A; simpl.
  - destruct (update h); [|done]. rewrite check_write_eq, O. by destruct (is_read_only csr).
  - by rewrite (access_checks_error _ _ _ _ A).
Qed.

Definition csr_result (h : HartState) (csr : CSR.CSRegister) (writes : bool) (f : Z -> Z)
  (rd : XRegister) : result unit Exception * HartState :=
  if negb (csr_accessible h csr) || (writes && is_read_only csr) then (Err IllegalInstruction, h)
  else if writes then (Ok tt, csr_rmw csr f rd h) else (Ok tt, xwrite h rd (csr_read h csr)).

(** The six CSR instructions are one read-modify-write of the register: swap,
    set bits or clear bits, with the source register or the 5-bit immediate
    as operand.  The set and clear forms do not write when the operand is
    [x0] (or the immediate 0), and only then are they allowed on read-only
    registers.  A failed check raises [IllegalInstruction] and leaves the
    hart unchanged. *)
Theorem csr_instructions_spec csr rs1 imm rd h :
  let nz := negb (XRegister_is_zero rs1) in
  let nzi := negb ((imm & 31) =? 0) in
  run_csrrw csr rs1 rd h = csr_result h csr true (fun _ => xread h rs1) rd /\
  run_csrrwi csr imm rd h = csr_result h csr true (fun _ => imm & 31) rd /\
  run_csrrs csr rs1 rd h = csr_result h csr nz (fun old => old |: xread h rs1) rd /\
  run_csrrsi csr imm rd h = csr_result h csr nzi (fun old => old |: (imm & 31)) rd /\
  run_csrrc csr rs1 rd h = csr_result h csr nz (fun old => old & not_u 64 (xread h rs1)) rd /\
  run_csrrci csr imm rd h = csr_result h csr nzi (fun old => old & not_u 64 (imm & 31)) rd.
Proof.
  intros nz nzi. unfold run_csrrw, run_csrrwi, run_csrrs, run_csrrsi, run_csrrc, run_csrrci.
  rewrite !csr_replace_spec, check_write_eq.
  rewrite !(csr_update_spec CSRegisters_set_bits Z.lor) by done.
  rewrite !(csr_update_spec CSRegisters_clear_bits (fun old v => old & not_u 64 v)) by done.
  unfold csr_result, csr_accessible, csr_rmw, nz, nzi.
  destruct (access_checks csr _ _), (is_read_only csr), (XRegister_is_zero rs1),
    ((imm & 31) =? 0); split_and!; reflexivity.
Qed.

(** ** Reset *)

Definition HartState_wf (h : HartState) : Prop :=
  XRegisters_wf h.(xregisters) /\ FRegisters_wf h.(fregisters) /\
  CSRegisters_wf h.(csregisters) /\ is_u 64 h.(pc).

Lemma HartState_reset_wf h p : HartState_wf h -> is_u 64 p -> HartState_wf (HartState_reset h p).
Proof.
  intros ((Lx & _) & (Lf & _) & _ & _) Up. unfold HartState_wf.
  change (XRegisters_wf (XRegisters_reset h.(xregisters)) /\
          FRegisters_wf (FRegisters_reset h.(fregisters)) /\
          CSRegisters_wf (CSRegisters_reset h.(csregisters)) /\ is_u 64 p).
  rewrite XRegisters_reset_eq, FRegisters_reset_eq by done.
  refine (conj XRegisters_default_wf (conj FRegisters_default_wf (conj _ Up))).
  intros r C. rewrite reset_raw by done. apply default_value_u64.
Qed.

(** Reset forgets the past: two harts of the same shape reset to the same
    registers, machine mode, the given program counter and no reservation,
    and the result is well-formed. *)
Theorem HartState_reset_spec h p :
  HartState_wf h -> is_u 64 p ->
  let h' := HartState_reset h p in
  HartState_wf h' /\
  h'.(xregisters) = XRegisters_default /\ h'.(fregisters) = FRegisters_default /\
  h'.(mode) = Machine /\ h'.(pc) = p /\
  (forall a, fst (ReservationSet_test_and_unset h'.(reservation_set) a) = false) /\
  (forall r, has_raw_cell r = true -> h'.(csregisters).(raw) r = default_value (Root_csr r)) /\
  h'.(csregisters).(mstatus_cells) = MStatusValue_write h.(csregisters).(mstatus_cells) MStatus_default.
Proof.
  intros W U h'. refine (conj (HartState_reset_wf h p W U) _). destruct W as ((Lx & _) & (Lf & _) & _).
  refine (conj (XRegisters_reset_eq _ Lx) (conj (FRegisters_reset_eq _ Lf) _)).
  refine (conj eq_refl (conj eq_refl (conj (fun _ => eq_refl) (conj _ _)))).
  - intros r. exact (reset_raw h.(csregisters) r).
  - exact (reset_mstatus h.(csregisters)).
Qed.

Lemma HartState_example_wf : HartState_wf HartState_example.
Proof.
  apply HartState_reset_wf; [|by vm_compute].
  refine (conj XRegisters_default_wf (conj FRegisters_default_wf (conj _ _))).
  - intros r _. by vm_compute.
  - by vm_compute.
Qed.

Lemma HartState_reset_spec_witness : (HartState_reset HartState_example 16).(pc) = 16.
Proof.
  refine (proj1 (proj2 (proj2 (proj2 (proj2
    (HartState_reset_spec HartState_example 16 HartState_example_wf _)))))).
  vm_compute. intuition congruence.
Defined.
