(* ===== verification/Bus.v ===== *)
(** The bus and the main memory: [src/riscv/lib/src/machine_state/bus.rs],
    [bus/main_memory.rs], [bus/devices.rs], the dynamic regions of
    [state_backend/owned_backend.rs] and the element types of
    [state_backend/elems.rs].

    The dynamic region of [BYTES] bytes, which is allocated zeroed, is a finite
    map from addresses to bytes in which an absent byte is zero. *)
From S2P Require Import Prelude.

(** ** Elements *)

(** The types that are read and written, stored little-endian. *)
(* state_backend/elems.rs:53-62 Elem *)
Inductive Elem : Set := U8 | I8 | U16 | I16 | U32 | I32 | U64 | I64 | U128 | I128.

(** [mem::size_of]. *)
Definition size_of (e : Elem) : Z :=
  match e with U8 | I8 => 1 | U16 | I16 => 2 | U32 | I32 => 4 | U64 | I64 => 8
  | U128 | I128 => 16 end.

Definition is_signed (e : Elem) : bool :=
  match e with I8 | I16 | I32 | I64 | I128 => true
  | U8 | U16 | U32 | U64 | U128 => false end.

(** [from_stored] and [to_stored]: between a value of the type and its bits. *)
(* state_backend/elems.rs:27-51 impl_elem_prim *)
Definition from_stored (e : Elem) (bits : Z) : Z :=
  if is_signed e then swrap (8 * size_of e) bits else wrap (8 * size_of e) bits.

(* state_backend/elems.rs:27-51 impl_elem_prim *)
Definition to_stored (e : Elem) (v : Z) : Z := wrap (8 * size_of e) v.

(** ** Dynamic regions *)

Abbreviation DynRegion := (gmap Z Z).

Definition byte_at (m : DynRegion) (a : Z) : Z := default 0 (m !! a).

Fixpoint read_le (m : DynRegion) (address : Z) (n : nat) : Z :=
  match n with
  | O => 0
  | S n => byte_at m address + 256 * read_le m (address + 1) n
  end.

Fixpoint write_le (m : DynRegion) (address : Z) (n : nat) (bits : Z) : DynRegion :=
  match n with
  | O => m
  | S n => write_le (<[address := bits mod 256]> m) (address + 1) n (bits / 256)
  end.

(* state_backend/owned_backend.rs:68-80 dyn_region_read *)
Definition dyn_region_read (e : Elem) (m : DynRegion) (address : Z) : Z :=
  from_stored e (read_le m address (Z.to_nat (size_of e))).

(* state_backend/owned_backend.rs:119-135 dyn_region_write *)
Definition dyn_region_write (e : Elem) (m : DynRegion) (address value : Z) : DynRegion :=
  write_le m address (Z.to_nat (size_of e)) (to_stored e value).

(** [len] is the length of the slice that is filled. *)
(* state_backend/owned_backend.rs:82-100 dyn_region_read_all *)
Fixpoint dyn_region_read_all (e : Elem) (m : DynRegion) (address : Z) (len : nat) : list Z :=
  match len with
  | O => []
  | S len => dyn_region_read e m address :: dyn_region_read_all e m (address + size_of e) len
  end.

(* state_backend/owned_backend.rs:137-152 dyn_region_write_all *)
Fixpoint dyn_region_write_all (e : Elem) (m : DynRegion) (address : Z) (values : list Z) :
  DynRegion :=
  match values with
  | [] => m
  | v :: values =>
      dyn_region_write_all e (dyn_region_write e m address v) (address + size_of e) values
  end.

(** ** Main memory *)

(* machine_state/bus.rs:17-18 OutOfBounds *)
Inductive OutOfBounds : Set := out_of_bounds.

(* machine_state/bus/main_memory.rs:47-50 MainMemoryLayout *)
Class MainMemoryLayout := BYTES : Z.

(** The layouts are powers of two between 1 KiB and 4 GiB; only positivity and
    an upper bound matter. *)
Class MainMemoryLayoutOk `{ML : MainMemoryLayout} : Prop := {
  BYTES_pos : 0 < BYTES;
  BYTES_bound : BYTES <= 2 ^ 32;
}.

(* machine_state/bus/main_memory.rs:20-41 gen_memory_layout *)
Definition M1K : MainMemoryLayout := 1 * 1024.
Definition M8K : MainMemoryLayout := 8 * 1024.
Definition M1M : MainMemoryLayout := 1 * 1024 * 1024.
Definition M100M : MainMemoryLayout := 100 * 1024 * 1024.
Definition M1G : MainMemoryLayout := 1 * 1024 * 1024 * 1024.
Definition M4G : MainMemoryLayout := 4 * 1024 * 1024 * 1024.

(* machine_state/bus/devices.rs:12-12 DEVICES_ADDRESS_SPACE_LENGTH *)
Definition DEVICES_ADDRESS_SPACE_LENGTH : Z := 2 * 1024 * 1024 * 1024.

(* machine_state/bus.rs:46-50 AddressSpace *)
Inductive AddressSpace : Set := SDevices | SMainMemory | SOutOfBounds.
#[export] Instance AddressSpace_eq_dec : EqDecision AddressSpace.
Proof. solve_decision. Defined.

(** Devices have no readable or writable address. *)
(* machine_state/bus/devices.rs:55-63 AddressableRead *)
Definition Devices_read (local_addr : Z) : result Z OutOfBounds := Err out_of_bounds.

(* machine_state/bus/devices.rs:65-77 AddressableWrite *)
Definition Devices_write (local_addr value : Z) : result unit OutOfBounds := Err out_of_bounds.

Section memory.
Context `{ML : MainMemoryLayout}.

(* machine_state/bus/main_memory.rs:184-186 MainMemory *)
Record MainMemory : Type := { data : DynRegion }.

(* machine_state/bus/main_memory.rs:200-207 MainMemory::reset *)
Definition MainMemory_reset (m : MainMemory) : MainMemory :=
  {| data := fold_left (fun d i => dyn_region_write U8 d i 0) (seqZ 0 BYTES) m.(data) |}.

(* machine_state/bus/main_memory.rs:214-220 MainMemory::read *)
Definition MainMemory_read (e : Elem) (m : MainMemory) (addr : Z) : result Z OutOfBounds :=
  if BYTES <? wrapping_add 64 addr (size_of e) then Err out_of_bounds
  else Ok (dyn_region_read e m.(data) addr).

(* machine_state/bus/main_memory.rs:223-231 MainMemory::read_all *)
Definition MainMemory_read_all (e : Elem) (m : MainMemory) (addr : Z) (len : nat) :
  result (list Z) OutOfBounds :=
  if BYTES <? wrapping_add 64 addr (size_of e * Z.of_nat len) then Err out_of_bounds
  else Ok (dyn_region_read_all e m.(data) addr len).

(* machine_state/bus/main_memory.rs:237-245 MainMemory::write *)
Definition MainMemory_write (e : Elem) (m : MainMemory) (addr value : Z) :
  result unit OutOfBounds * MainMemory :=
  if BYTES <? wrapping_add 64 addr (size_of e) then (Err out_of_bounds, m)
  else (Ok tt, {| data := dyn_region_write e m.(data) addr value |}).

(* machine_state/bus/main_memory.rs:247-257 MainMemory::write_all *)
Definition MainMemory_write_all (e : Elem) (m : MainMemory) (addr : Z) (values : list Z) :
  result unit OutOfBounds * MainMemory :=
  if BYTES <? wrapping_add 64 addr (size_of e * Z.of_nat (length values))
  then (Err out_of_bounds, m)
  else (Ok tt, {| data := dyn_region_write_all e m.(data) addr values |}).

(** ** Bus *)

(* machine_state/bus.rs:55-72 AddressSpace::locate *)
Definition locate (addr : Z) : AddressSpace * Z :=
  if addr <? DEVICES_ADDRESS_SPACE_LENGTH then (SDevices, addr)
  else
    let mem_addr := saturating_sub addr DEVICES_ADDRESS_SPACE_LENGTH in
    let mem_size := BYTES in
    if mem_addr <? mem_size then (SMainMemory, mem_addr)
    else (SOutOfBounds, saturating_sub mem_addr mem_size).

(* machine_state/bus.rs:75-84 AddressSpace::start *)
Definition AddressSpace_start (s : AddressSpace) : Z :=
  match s with
  | SDevices => 0
  | SMainMemory => DEVICES_ADDRESS_SPACE_LENGTH
  | SOutOfBounds => DEVICES_ADDRESS_SPACE_LENGTH + BYTES
  end.

(** [devices] is the placeholder byte of the devices' state. *)
(* machine_state/bus.rs:91-94 Bus *)
Record Bus : Type := { devices : Z; memory : MainMemory }.

(* machine_state/bus.rs:111-117 Bus::reset *)
Definition Bus_reset (b : Bus) : Bus := {| devices := 0; memory := MainMemory_reset b.(memory) |}.

(* machine_state/bus.rs:130-132 start_of_main_memory *)
Definition start_of_main_memory : Z := AddressSpace_start SMainMemory.

(* machine_state/bus.rs:143-150 Bus::read *)
Definition Bus_read (e : Elem) (b : Bus) (addr : Z) : result Z OutOfBounds :=
  match locate addr with
  | (SDevices, a) => Devices_read a
  | (SMainMemory, a) => MainMemory_read e b.(memory) a
  | (SOutOfBounds, _) => Err out_of_bounds
  end.

(* machine_state/bus.rs:153-169 Bus::read_all *)
Definition Bus_read_all (e : Elem) (b : Bus) (addr : Z) (len : nat) : result (list Z) OutOfBounds :=
  let end_addr := wrapping_add 64 addr (saturating_sub (size_of e * Z.of_nat len) 1) in
  let '(addr_space, local_addr) := locate addr in
  let '(end_addr_space, _) := locate end_addr in
  if bool_decide (addr_space <> end_addr_space) then Err out_of_bounds
  else match addr_space with
       | SDevices => Err out_of_bounds
       | SMainMemory => MainMemory_read_all e b.(memory) local_addr len
       | SOutOfBounds => Err out_of_bounds
       end.

(* machine_state/bus.rs:181-188 Bus::write *)
Definition Bus_write (e : Elem) (b : Bus) (addr value : Z) : result unit OutOfBounds * Bus :=
  match locate addr with
  | (SDevices, a) => (Devices_write a value, b)
  | (SMainMemory, a) =>
      let '(r, m) := MainMemory_write e b.(memory) a value in
      (r, {| devices := b.(devices); memory := m |})
  | (SOutOfBounds, _) => (Err out_of_bounds, b)
  end.

(* machine_state/bus.rs:191-207 Bus::write_all *)
Definition Bus_write_all (e : Elem) (b : Bus) (addr : Z) (values : list Z) :
  result unit OutOfBounds * Bus :=
  let end_addr := wrapping_add 64 addr (saturating_sub (size_of e * Z.of_nat (length values)) 1) in
  let '(addr_space, local_addr) := locate addr in
  let '(end_addr_space, _) := locate end_addr in
  if bool_decide (addr_space <> end_addr_space) then (Err out_of_bounds, b)
  else match addr_space with
       | SDevices => (Err out_of_bounds, b)
       | SMainMemory =>
           let '(r, m) := MainMemory_write_all e b.(memory) local_addr values in
           (r, {| devices := b.(devices); memory := m |})
       | SOutOfBounds => (Err out_of_bounds, b)
       end.

End memory.
