(* ===== verification/BusSpec.v ===== *)
(** Properties of the bus: the memory is a byte store, accesses are
    little-endian, bounds are exact and nothing outside the accessed bytes
    changes. *)
From S2P Require Import Prelude Bus.

(** ** Bytes *)

Definition region_wf (m : DynRegion) : Prop := forall a, is_u 8 (byte_at m a).

Lemma byte_at_insert m a b v : byte_at (<[a := v]> m) b = if decide (a = b) then v else byte_at m b.
Proof. unfold byte_at. case_decide; [subst; by rewrite lookup_insert_eq|by rewrite lookup_insert_ne]. Qed.

Lemma region_wf_insert m a v : region_wf m -> is_u 8 v -> region_wf (<[a := v]> m).
Proof. intros W U b. rewrite byte_at_insert. case_decide; [done|apply W]. Qed.

(** The bytes after a write of [n] bytes. *)
Lemma byte_at_write_le n : forall m a v b,
  byte_at (write_le m a n v) b =
    if (a <=? b) && (b <? a + Z.of_nat n) then (v / 256 ^ (b - a)) mod 256 else byte_at m b.
Proof.
  induction n as [|n IH]; intros m a v b; cbn [write_le].
  - bits_cases.
  - rewrite IH, byte_at_insert. destruct (decide (a = b)) as [->|N].
    + replace (b - b) with 0 by lia. rewrite Z.pow_0_r, Z.div_1_r. bits_cases.
    + destruct (Z.leb_spec a b); simpl; [|bits_cases].
      replace (b - a) with (Z.succ (b - (a + 1))) by lia.
      rewrite Z.pow_succ_r, <- Z.div_div by lia. bits_cases.
Qed.

Lemma write_le_wf n m a v : region_wf m -> region_wf (write_le m a n v).
Proof.
  intros W b. rewrite byte_at_write_le. case_match; [apply (wrap_range 8); lia|apply W].
Qed.

Lemma read_le_ext n : forall m m' a,
  (forall b, a <= b < a + Z.of_nat n -> byte_at m b = byte_at m' b) ->
  read_le m a n = read_le m' a n.
Proof.
  induction n as [|n IH]; intros m m' a H; [done|]. cbn [read_le].
  rewrite (H a) by lia. do 2 f_equal. apply IH. intros. apply H. lia.
Qed.

(** The value read is the number whose base-256 digits are the bytes. *)
Lemma read_le_digits n : forall m a v,
  (forall i, 0 <= i < Z.of_nat n -> byte_at m (a + i) = (v / 256 ^ i) mod 256) ->
  read_le m a n = v mod 256 ^ Z.of_nat n.
Proof.
  induction n as [|n IH]; intros m a v H; cbn [read_le].
  - by rewrite Z.mod_1_r.
  - rewrite (IH m (a + 1) (v / 256)).
    + rewrite <- (Z.add_0_r a) at 1. rewrite (H 0) by lia. rewrite Z.pow_0_r, Z.div_1_r.
      rewrite Nat2Z.inj_succ, Z.pow_succ_r by lia.
      rewrite Z.rem_mul_r; [done|lia|]. apply Z.pow_pos_nonneg; lia.
    + intros i Hi. replace (a + 1 + i) with (a + Z.succ i) by lia. rewrite H by lia.
      rewrite Z.pow_succ_r, <- Z.div_div by lia. done.
Qed.

Lemma pow_256 n : 0 <= n -> 256 ^ n = 2 ^ (8 * n).
Proof. intros. change 256 with (2 ^ 8). by rewrite <- Z.pow_mul_r by lia. Qed.

Lemma read_write_le n m a v : read_le (write_le m a n v) a n = wrap (8 * Z.of_nat n) v.
Proof.
  rewrite (read_le_digits n _ a v).
  - unfold wrap. by rewrite pow_256 by lia.
  - intros i Hi. rewrite byte_at_write_le. replace (a + i - a) with i by lia. bits_cases.
Qed.

Lemma read_le_range n : forall m a, region_wf m -> is_u (8 * Z.of_nat n) (read_le m a n).
Proof.
  induction n as [|n IH]; intros m a W; cbn [read_le]; [by vm_compute|].
  pose proof (W a) as [? ?]. specialize (IH m (a + 1) W) as [? ?].
  replace (8 * Z.of_nat (S n)) with (8 + 8 * Z.of_nat n) by lia.
  unfold is_u. rewrite Z.pow_add_r by lia. change (2 ^ 8) with 256 in *. lia.
Qed.

(** ** Elements *)

Lemma size_of_pos e : 0 < size_of e <= 16.
Proof. destruct e; simpl; lia. Qed.

Lemma from_to_stored e v :
  from_stored e (to_stored e v) =
    if is_signed e then swrap (8 * size_of e) v else wrap (8 * size_of e) v.
Proof.
  unfold from_stored, to_stored. pose proof (size_of_pos e). destruct (is_signed e).
  - apply swrap_wrap. lia.
  - apply wrap_wrap_le. lia.
Qed.

(** A value of the element type. *)
Definition is_elem (e : Elem) (v : Z) : Prop :=
  if is_signed e then is_i (8 * size_of e) v else is_u (8 * size_of e) v.

Lemma from_to_stored_id e v : is_elem e v -> from_stored e (to_stored e v) = v.
Proof.
  intros H. rewrite from_to_stored. unfold is_elem in H. pose proof (size_of_pos e).
  destruct (is_signed e); [apply swrap_small; [lia|done]|by apply wrap_small].
Qed.

Lemma from_stored_elem e v : is_elem e (from_stored e v).
Proof.
  unfold is_elem, from_stored. pose proof (size_of_pos e).
  destruct (is_signed e); [apply swrap_range|apply wrap_range]; lia.
Qed.

(** Reading at another type of the same size reinterprets the value. *)
Lemma region_read_write_size e e' m a v :
  size_of e' = size_of e ->
  dyn_region_read e' (dyn_region_write e m a v) a = from_stored e' (to_stored e v).
Proof.
  intros S. unfold dyn_region_read, dyn_region_write. rewrite S, read_write_le. f_equal.
  pose proof (size_of_pos e). rewrite Z2Nat.id by lia. apply wrap_wrap_le. lia.
Qed.

Lemma region_read_write_eq e m a v :
  dyn_region_read e (dyn_region_write e m a v) a = from_stored e (to_stored e v).
Proof. by apply region_read_write_size. Qed.

Lemma byte_at_region_write e m a v b :
  b < a \/ a + size_of e <= b -> byte_at (dyn_region_write e m a v) b = byte_at m b.
Proof.
  intros. unfold dyn_region_write. rewrite byte_at_write_le. pose proof (size_of_pos e).
  rewrite Z2Nat.id by lia. bits_cases.
Qed.

Lemma region_read_write_ne e e' m a v b :
  b + size_of e' <= a \/ a + size_of e <= b ->
  dyn_region_read e' (dyn_region_write e m a v) b = dyn_region_read e' m b.
Proof.
  intros. unfold dyn_region_read. f_equal. apply read_le_ext. intros c Hc.
  apply byte_at_region_write. pose proof (size_of_pos e'). lia.
Qed.

(** ** Sequences of elements *)

Lemma byte_at_write_all e vs : forall m a b,
  b < a \/ a + size_of e * Z.of_nat (length vs) <= b ->
  byte_at (dyn_region_write_all e m a vs) b = byte_at m b.
Proof.
  pose proof (size_of_pos e).
  induction vs as [|v vs IH]; intros m a b H'; [done|]. cbn [dyn_region_write_all length] in *.
  rewrite IH, byte_at_region_write by nia. done.
Qed.

Lemma region_read_ext e m m' a :
  (forall b, a <= b < a + size_of e -> byte_at m b = byte_at m' b) ->
  dyn_region_read e m a = dyn_region_read e m' a.
Proof.
  intros H. unfold dyn_region_read. f_equal. apply read_le_ext. intros. apply H.
  pose proof (size_of_pos e). lia.
Qed.

Lemma region_read_all_ext e n : forall m m' a,
  (forall b, a <= b < a + size_of e * Z.of_nat n -> byte_at m b = byte_at m' b) ->
  dyn_region_read_all e m a n = dyn_region_read_all e m' a n.
Proof.
  pose proof (size_of_pos e). induction n as [|n IH]; intros m m' a H'; [done|].
  cbn [dyn_region_read_all]. f_equal.
  - apply region_read_ext. intros. apply H'. nia.
  - apply IH. intros. apply H'. nia.
Qed.

Lemma region_read_write_all e vs : forall m a,
  Forall (is_elem e) vs ->
  dyn_region_read_all e (dyn_region_write_all e m a vs) a (length vs) = vs.
Proof.
  pose proof (size_of_pos e). induction vs as [|v vs IH]; intros m a F; [done|].
  apply Forall_cons in F as [V F]. cbn [dyn_region_write_all dyn_region_read_all length]. f_equal.
  - rewrite (region_read_ext e _ (dyn_region_write e m a v)).
    + by rewrite region_read_write_eq, from_to_stored_id.
    + intros. apply byte_at_write_all. lia.
  - by apply IH.
Qed.

Lemma byte_at_reset l : forall m b,
  byte_at (fold_left (fun d i => dyn_region_write U8 d i 0) l m) b =
    if decide (b ∈ l) then 0 else byte_at m b.
Proof.
  induction l as [|i l IH]; intros m b; cbn [fold_left].
  - rewrite decide_False; [done|apply not_elem_of_nil].
  - rewrite IH. change (dyn_region_write U8 m i 0) with (<[i := 0]> m). rewrite byte_at_insert.
    repeat case_decide; set_solver.
Qed.

(** ** Bus *)

Section bus.
Context `{MLO : MainMemoryLayoutOk}.

(** The access of [size] bytes at [addr] is inside the main memory. *)
Definition in_memory (addr size : Z) : bool :=
  (DEVICES_ADDRESS_SPACE_LENGTH <=? addr)
  && (addr + size <=? DEVICES_ADDRESS_SPACE_LENGTH + BYTES).

Definition local (addr : Z) : Z := addr - DEVICES_ADDRESS_SPACE_LENGTH.

Lemma devices_length : DEVICES_ADDRESS_SPACE_LENGTH = 2 ^ 31.
Proof. done. Qed.

Lemma locate_spec addr :
  is_u 64 addr ->
  locate addr =
    if addr <? 2 ^ 31 then (SDevices, addr)
    else if addr <? 2 ^ 31 + BYTES then (SMainMemory, addr - 2 ^ 31)
    else (SOutOfBounds, addr - 2 ^ 31 - BYTES).
Proof.
  intros [? ?]. pose proof BYTES_pos. unfold locate. rewrite devices_length.
  unfold saturating_sub. bool_cases; try lia; try done; f_equal; lia.
Qed.

Lemma Bus_read_eq e b addr :
  is_u 64 addr ->
  Bus_read e b addr =
    if in_memory addr (size_of e) then Ok (dyn_region_read e b.(memory).(data) (local addr))
    else Err out_of_bounds.
Proof.
  intros U. pose proof U as [? ?]. pose proof BYTES_pos. pose proof BYTES_bound.
  unfold Bus_read, in_memory, local. rewrite locate_spec, devices_length by done.
  pose proof (size_of_pos e). pow2.
  destruct (Z.ltb_spec addr 2147483648); [bits_cases|].
  destruct (Z.ltb_spec addr (2147483648 + BYTES)); [|bits_cases].
  unfold MainMemory_read, wrapping_add. rewrite wrap_small by (unfold is_u; pow2; lia). bits_cases.
Qed.

Lemma Bus_write_eq e b addr v :
  is_u 64 addr ->
  Bus_write e b addr v =
    if in_memory addr (size_of e)
    then (Ok tt, {| devices := b.(devices);
                    memory := {| data := dyn_region_write e b.(memory).(data) (local addr) v |} |})
    else (Err out_of_bounds, b).
Proof.
  intros U. pose proof U as [? ?]. pose proof BYTES_pos. pose proof BYTES_bound.
  unfold Bus_write, in_memory, local. rewrite locate_spec, devices_length by done.
  pose proof (size_of_pos e). pow2.
  destruct (Z.ltb_spec addr 2147483648); [bits_cases|].
  destruct (Z.ltb_spec addr (2147483648 + BYTES)); [|bits_cases].
  unfold MainMemory_write, wrapping_add. rewrite wrap_small by (unfold is_u; pow2; lia).
  bool_cases; simpl; try lia; [|done]. by destruct b as [? []].
Qed.

(** C11. The bus is a byte-addressed memory behind exact bounds.  An access
    succeeds exactly when all its bytes are in the main memory; a failed
    write changes nothing; after a write the same access reads the value
    back (at any of the integer types, signed or not) and every access to
    other bytes, of whatever size, reads what it read before. *)
Theorem Bus_read_write e b addr v :
  is_u 64 addr -> is_elem e v ->
  (forall w, Bus_read e b addr = Ok w -> is_elem e w) /\
  ((exists w, Bus_read e b addr = Ok w) <-> in_memory addr (size_of e) = true) /\
  (in_memory addr (size_of e) = false -> Bus_write e b addr v = (Err out_of_bounds, b)) /\
  (in_memory addr (size_of e) = true ->
   exists b', Bus_write e b addr v = (Ok tt, b') /\ Bus_read e b' addr = Ok v /\
     forall e' addr', is_u 64 addr' ->
       addr' + size_of e' <= addr \/ addr + size_of e <= addr' ->
       Bus_read e' b' addr' = Bus_read e' b addr').
Proof.
  intros U V. rewrite Bus_read_eq, Bus_write_eq by done.
  destruct (in_memory addr (size_of e)) eqn:M; split_and!.
  - intros w [= <-]. apply from_stored_elem.
  - split; [done|]. by eexists.
  - done.
  - intros _. eexists; split; [done|]. split.
    + rewrite Bus_read_eq, M by done. cbn [memory data].
      by rewrite region_read_write_eq, from_to_stored_id.
    + intros e' addr' U' D. rewrite !Bus_read_eq by done. cbn [memory data].
      rewrite region_read_write_ne; [done|]. unfold local. lia.
  - done.
  - split; [by intros []|done].
  - done.
  - done.
Qed.

Lemma locate_main addr n :
  in_memory addr n = true -> 0 < n ->
  locate addr = (SMainMemory, local addr) /\
  locate (addr ⊞ saturating_sub n 1) = (SMainMemory, local addr + n - 1) /\
  (BYTES <? wrapping_add 64 (local addr) n) = false.
Proof.
  pose proof BYTES_pos. pose proof BYTES_bound. unfold in_memory, local.
  rewrite andb_true_iff, !Z.leb_le, devices_length. intros [? ?] ?. pow2.
  assert (addr ⊞ saturating_sub n 1 = addr + n - 1) as ->.
  { unfold wrapping_add, saturating_sub. rewrite wrap_small; [lia|]. unfold is_u. pow2. lia. }
  rewrite !locate_spec by (unfold is_u; pow2; lia). unfold wrapping_add.
  rewrite wrap_small by (unfold is_u; pow2; lia). pow2.
  bool_cases; try lia. split_and!; [done| |done]. f_equal. lia.
Qed.

(** A write of a non-empty sequence inside the main memory, and a read. *)
Lemma Bus_write_all_eq e b addr vs :
  vs <> [] -> in_memory addr (size_of e * Z.of_nat (length vs)) = true ->
  Bus_write_all e b addr vs =
  (Ok tt, {| devices := b.(devices);
             memory := {| data := dyn_region_write_all e b.(memory).(data) (local addr) vs |} |}).
Proof.
  intros N M. pose proof (size_of_pos e).
  assert (0 < size_of e * Z.of_nat (length vs)) by (destruct vs; [done|simpl; lia]).
  destruct (locate_main _ _ M ltac:(done)) as (L & E & B).
  unfold Bus_write_all. rewrite L, E. rewrite bool_decide_false by tauto.
  unfold MainMemory_write_all. by rewrite B.
Qed.

Lemma Bus_read_all_eq e b addr n :
  n <> O -> in_memory addr (size_of e * Z.of_nat n) = true ->
  Bus_read_all e b addr n = Ok (dyn_region_read_all e b.(memory).(data) (local addr) n).
Proof.
  intros N M. pose proof (size_of_pos e). assert (0 < size_of e * Z.of_nat n) by lia.
  destruct (locate_main _ _ M ltac:(done)) as (L & E & B).
  unfold Bus_read_all. rewrite L, E. rewrite bool_decide_false by tauto.
  unfold MainMemory_read_all. by rewrite B.
Qed.

Lemma Bus_write_all_ok e b addr vs :
  Forall (is_elem e) vs -> vs <> [] ->
  in_memory addr (size_of e * Z.of_nat (length vs)) = true ->
  exists b', Bus_write_all e b addr vs = (Ok tt, b') /\
    Bus_read_all e b' addr (length vs) = Ok vs /\
    forall e' addr', is_u 64 addr' ->
      addr' + size_of e' <= addr \/ addr + size_of e * Z.of_nat (length vs) <= addr' ->
      Bus_read e' b' addr' = Bus_read e' b addr'.
Proof.
  intros F N M. eexists. split; [by apply Bus_write_all_eq|]. split.
  - rewrite Bus_read_all_eq by (done || by destruct vs). cbn [memory data]. by rewrite region_read_write_all.
  - intros e' addr' U' D. rewrite !Bus_read_eq by done. cbn [memory data].
    rewrite (region_read_ext e' _ b.(memory).(data)); [done|].
    intros c Hc. apply byte_at_write_all. unfold local in *. lia.
Qed.

(** Sequences of elements: [write_all] followed by [read_all] gives the
    sequence back, and bytes outside the sequence do not change; both
    succeed for every non-empty sequence inside the main memory. *)
Theorem Bus_write_all_read_all e b addr vs :
  Forall (is_elem e) vs -> vs <> [] ->
  in_memory addr (size_of e * Z.of_nat (length vs)) = true ->
  exists b', Bus_write_all e b addr vs = (Ok tt, b') /\
    Bus_read_all e b' addr (length vs) = Ok vs /\
    forall e' addr', is_u 64 addr' ->
      addr' + size_of e' <= addr \/ addr + size_of e * Z.of_nat (length vs) <= addr' ->
      Bus_read e' b' addr' = Bus_read e' b addr'.
Proof. apply Bus_write_all_ok. Qed.

(** After reset every access inside the main memory reads zero. *)
Lemma Bus_reset_zero e b addr :
  is_u 64 addr -> in_memory addr (size_of e) = true -> Bus_read e (Bus_reset b) addr = Ok 0.
Proof.
  intros U M. rewrite Bus_read_eq, M by done. f_equal.
  rewrite (region_read_ext e _ ∅).
  - destruct e; reflexivity.
  - intros c Hc. unfold Bus_reset, MainMemory_reset. cbn [memory data]. rewrite byte_at_reset.
    rewrite decide_True; [done|]. apply elem_of_seqZ.
    unfold in_memory, local in *. apply andb_true_iff in M as [?%Z.leb_le ?%Z.leb_le]. lia.
Qed.

End bus.

#[export] Instance M1K_ok : @MainMemoryLayoutOk M1K.
Proof. split; vm_compute; congruence. Qed.
#[export] Instance M4G_ok : @MainMemoryLayoutOk M4G.
Proof. split; vm_compute; congruence. Qed.

Definition Bus_example : Bus := {| devices := 0; memory := {| data := ∅ |} |}.

Lemma Bus_read_write_witness :
  exists b', Bus_write (ML := M1K) I32 Bus_example 0x80000010 (-5) = (Ok tt, b') /\
    Bus_read (ML := M1K) I32 b' 0x80000010 = Ok (-5).
Proof.
  destruct (Bus_read_write (ML := M1K) I32 Bus_example 0x80000010 (-5)) as (_ & _ & _ & H);
    [vm_compute; intuition congruence..|].
  destruct (H eq_refl) as (b' & W & R & _). exists b'. exact (conj W R).
Defined.

Lemma Bus_write_all_read_all_witness :
  exists b', Bus_write_all (ML := M1K) U16 Bus_example 0x80000010 [1; 2; 0xffff] = (Ok tt, b') /\
    Bus_read_all (ML := M1K) U16 b' 0x80000010 3 = Ok [1; 2; 0xffff].
Proof.
  destruct (Bus_write_all_read_all (ML := M1K) U16 Bus_example 0x80000010 [1; 2; 0xffff])
    as (b' & W & R & _).
  - repeat (apply Forall_cons; split; [vm_compute; intuition congruence|]). apply Forall_nil. exact I.
  - congruence.
  - reflexivity.
  - exists b'. exact (conj W R).
Defined.
