(* ===== verification/AddressTranslation.v ===== *)
(** Virtual address translation: [sv_translate_impl] of
    [src/riscv/lib/src/machine_state/address_translation.rs], the page table
    entries of [address_translation/pte.rs] and the address formats of
    [virtual_address.rs] and [physical_address.rs]. *)
From S2P Require Import Prelude Bits CSRegister Traps XStatus XStatusSpec Bus.

(* machine_state/address_translation.rs:28-28 PAGE_OFFSET_WIDTH *)
Definition PAGE_OFFSET_WIDTH : Z := 12.

(* machine_state/address_translation.rs:29-29 PAGE_SIZE *)
Definition PAGE_SIZE : Z := shl_u 64 1 PAGE_OFFSET_WIDTH.

(* machine_state/address_translation.rs:34-38 AccessType *)
Inductive AccessType : Set := AInstruction | ALoad | AStore.
#[export] Instance AccessType_eq_dec : EqDecision AccessType.
Proof. solve_decision. Defined.

(* machine_state/address_translation.rs:40-48 AccessType::exception *)
Definition AccessType_exception (t : AccessType) (addr : Z) : Exception :=
  match t with
  | AInstruction => InstructionPageFault addr
  | ALoad => LoadPageFault addr
  | AStore => StoreAMOPageFault addr
  end.

(* machine_state/address_translation.rs:50-53 SvConstants *)
Record SvConstants : Set := { levels : nat; pte_size : Z }.

(* machine_state/address_translation.rs:55-73 algorithm_constants *)
Definition algorithm_constants (s : SvLength) : SvConstants :=
  match s with
  | Sv39 => {| levels := 3; pte_size := 8 |}
  | Sv48 => {| levels := 4; pte_size := 8 |}
  | Sv57 => {| levels := 5; pte_size := 8 |}
  end.

(** ** Virtual addresses *)

(* machine_state/address_translation/virtual_address.rs:27-38 get_raw_vpn_i_range *)
Definition get_raw_vpn_i_range (sv_length : SvLength) (index : nat) : option (Z * Z) :=
  match index, sv_length with
  | 0%nat, (Sv39 | Sv48 | Sv57) => Some (8, 0)
  | 1%nat, (Sv39 | Sv48 | Sv57) => Some (17, 9)
  | 2%nat, (Sv39 | Sv48 | Sv57) => Some (26, 18)
  | 3%nat, (Sv48 | Sv57) => Some (35, 27)
  | 4%nat, Sv57 => Some (44, 36)
  | _, _ => None
  end.

(* machine_state/address_translation/virtual_address.rs:41-43 get_page_offset *)
Definition get_page_offset (addr : Z) : Z := addr & ones PAGE_OFFSET_WIDTH.

(* machine_state/address_translation/virtual_address.rs:46-53 get_vpn_idx *)
Definition get_vpn_idx (v_addr : Z) (sv_length : SvLength) (index : nat) : option Z :=
  bit_range ← get_raw_vpn_i_range sv_length index;
  Some (bits_subset 64 v_addr (bit_range.1 + PAGE_OFFSET_WIDTH) (bit_range.2 + PAGE_OFFSET_WIDTH)).

(** ** Physical addresses *)

(* machine_state/address_translation/physical_address.rs:27-55 get_raw_ppn_i_range *)
Definition get_raw_ppn_i_range (sv_length : SvLength) (index : nat) : option (Z * Z) :=
  let JUMP_TABLE :=
    match sv_length with
    | Sv39 => [Some (8, 0); Some (17, 9); Some (43, 18); None; None]
    | Sv48 => [Some (8, 0); Some (17, 9); Some (26, 18); Some (43, 27); None]
    | Sv57 => [Some (8, 0); Some (17, 9); Some (26, 18); Some (35, 27); Some (43, 36)]
    end in
  if bool_decide (4 < index)%nat then None else default None (JUMP_TABLE !! index).

(* machine_state/address_translation/physical_address.rs:63-66 set_page_offset *)
Definition set_page_offset (addr page_offset : Z) : Z :=
  let mask := ones PAGE_OFFSET_WIDTH in
  (addr & not_u 64 mask) |: (page_offset & mask).

(* machine_state/address_translation/physical_address.rs:69-76 get_ppn_idx *)
Definition get_ppn_idx (p_addr : Z) (sv_length : SvLength) (index : nat) : option Z :=
  bit_range ← get_raw_ppn_i_range sv_length index;
  Some (bits_subset 64 p_addr (bit_range.1 + PAGE_OFFSET_WIDTH) (bit_range.2 + PAGE_OFFSET_WIDTH)).

(* machine_state/address_translation/physical_address.rs:79-92 set_ppn_idx *)
Definition set_ppn_idx (p_addr : Z) (sv_length : SvLength) (index : nat) (ppn_value : Z) : option Z :=
  bit_range ← get_raw_ppn_i_range sv_length index;
  Some (replace_subset 64 p_addr (bit_range.1 + PAGE_OFFSET_WIDTH)
          (bit_range.2 + PAGE_OFFSET_WIDTH) ppn_value).

(** ** Page table entries *)

(** [PPNField]: a value of the type is its raw bits. *)
(* machine_state/address_translation/pte.rs:37-49 Bits64 *)
Definition Bits64_PPNField : Bits64 Z := {|
  WIDTH := 44;
  from_bits value := value & ones 44;
  to_bits raw_bits := raw_bits & ones 44;
|}.

(* machine_state/address_translation/pte.rs:31-34 PPNField::ppn_i *)
Definition ppn_i (raw_bits : Z) (sv_length : SvLength) (index : nat) : option Z :=
  r ← get_raw_ppn_i_range sv_length index;
  Some (bits_subset 64 raw_bits r.1 r.2).

Module PTE.
Definition V : csr_field := Field bool Bits64_bool 0.
Definition R : csr_field := Field bool Bits64_bool 1.
Definition W : csr_field := Field bool Bits64_bool 2.
Definition X : csr_field := Field bool Bits64_bool 3.
Definition U : csr_field := Field bool Bits64_bool 4.
Definition G : csr_field := Field bool Bits64_bool 5.
Definition A : csr_field := Field bool Bits64_bool 6.
Definition D : csr_field := Field bool Bits64_bool 7.
Definition RSW : csr_field := Field unit (ConstantBits 2 0) 8.
Definition PPN : csr_field := Field Z Bits64_PPNField 10.
Definition WPRI2 : csr_field := Field unit (ConstantBits 7 0) 54.
Definition PBMT : csr_field := Field unit (ConstantBits 2 0) 61.
Definition N : csr_field := Field unit (ConstantBits 1 0) 63.
End PTE.

(* machine_state/address_translation/pte.rs:51-67 PageTableEntry *)
Definition PTE_fields : list csr_field :=
  [PTE.V; PTE.R; PTE.W; PTE.X; PTE.U; PTE.G; PTE.A; PTE.D; PTE.RSW; PTE.PPN; PTE.WPRI2; PTE.PBMT;
   PTE.N].

Lemma PTE_fields_layout :
  PTE_fields = csr_layout 0 (map (fun f => existT f.(field_type) f.(field_bits)) PTE_fields).
Proof. reflexivity. Qed.

(** ** The walk *)

Section walk.
Context `{ML : MainMemoryLayout}.

(** Steps 2 to 4 at level [i] with table address [a]: the entry is a leaf, or
    it points to the next table. *)
(* machine_state/address_translation.rs:98-132 sv_translate_impl *)
Definition sv_entry (bus : Bus) (v_addr : Z) (sv_length : SvLength) (access_type : AccessType)
  (a : Z) (i : nat) : result (Z + Z) Exception :=
  match get_vpn_idx v_addr sv_length i with
  | None => Err (AccessType_exception access_type v_addr)
  | Some vpn_i =>
      let addr := a ⊞ wrapping_mul 64 vpn_i (algorithm_constants sv_length).(pte_size) in
      match Bus_read U64 bus addr with
      | Err _ => Err (LoadAccessFault addr)
      | Ok bits =>
          let pte := csr_from_bits PTE_fields bits in
          let pte_v := csr_get PTE.V pte in
          let pte_r := csr_get PTE.R pte in
          let pte_w := csr_get PTE.W pte in
          if negb pte_v || (negb pte_r && pte_w) then Err (AccessType_exception access_type v_addr)
          else
            let pte_x := csr_get PTE.X pte in
            if pte_r || pte_x then Ok (inl pte)
            else Ok (inr (wrapping_mul 64
                   (@to_bits _ Bits64_PPNField (csr_get PTE.PPN pte)) PAGE_SIZE))
      end
  end.

(** The loop; the result is the level of the leaf and the leaf. *)
(* machine_state/address_translation.rs:97-133 sv_translate_impl *)
Fixpoint walk_levels (entry : Z -> nat -> result (Z + Z) Exception) (page_fault : Exception)
  (a : Z) (i : nat) : result (nat * Z) Exception :=
  match entry a i with
  | Err e => Err e
  | Ok (inl pte) => Ok (i, pte)
  | Ok (inr a) =>
      match i with
      | O => Err page_fault
      | S i => walk_levels entry page_fault a i
      end
  end.

Definition sv_walk (bus : Bus) (v_addr : Z) (sv_length : SvLength) (access_type : AccessType)
  (a : Z) (i : nat) : result (nat * Z) Exception :=
  walk_levels (sv_entry bus v_addr sv_length access_type) (AccessType_exception access_type v_addr)
    a i.

(** Step 8: the physical address. *)
(* machine_state/address_translation.rs:175-187 sv_translate_impl *)
Definition sv_physical (v_addr : Z) (sv_length : SvLength) (pte_ppn : Z) (i : nat) : option Z :=
  let va_page_offset := get_page_offset v_addr in
  let pa := Some (set_page_offset 0 va_page_offset) in
  let pa := foldl (fun pa idx =>
      pa ← pa;
      va_vpn_i ← get_vpn_idx v_addr sv_length idx;
      set_ppn_idx pa sv_length idx va_vpn_i) pa (seq 0 i) in
  foldl (fun pa idx =>
      pa ← pa;
      pte_ppn_i ← ppn_i pte_ppn sv_length idx;
      set_ppn_idx pa sv_length idx pte_ppn_i)
    pa (seq i ((algorithm_constants sv_length).(levels) - i)).

(* machine_state/address_translation.rs:76-190 sv_translate_impl *)
Definition sv_translate_impl (bus : Bus) (v_addr satp : Z) (sv_length : SvLength)
  (access_type : AccessType) : result Z Exception :=
  let levels := (algorithm_constants sv_length).(levels) in
  let i := (levels - 1)%nat in
  let a := wrapping_mul 64 (@to_bits _ (FixedWidthBits 44) (csr_get Satp.PPN satp)) PAGE_SIZE in
  match sv_walk bus v_addr sv_length access_type a i with
  | Err e => Err e
  | Ok (i, pte) =>
      let pte_ppn := csr_get PTE.PPN pte in
      if existsb (fun idx => bool_decide (ppn_i pte_ppn sv_length idx <> Some 0)) (rev (seq 0 i))
      then Err (AccessType_exception access_type v_addr)
      else
        let pte_a := csr_get PTE.A pte in
        let pte_d := csr_get PTE.D pte in
        if negb pte_a || (bool_decide (access_type = AStore) && negb pte_d)
        then Err (AccessType_exception access_type v_addr)
        else match sv_physical v_addr sv_length pte_ppn i with
             | Some p_addr => Ok p_addr
             | None => Err (AccessType_exception access_type v_addr)
             end
  end.

End walk.
