(* ===== verification/AddressTranslationSpec.v ===== *)
(** The page-table walk computes the translation of the privileged
    architecture: an inductive description of the leaf a virtual address
    reaches, and the physical address as arithmetic on it. *)
From S2P Require Import Prelude Bits CSRegister Traps XStatus XStatusSpec Bus AddressTranslation.

(** ** Fields of page table entries *)

Lemma csr_get_bool k v : 0 <= k < 64 -> csr_get (Field bool Bits64_bool k) v = Z.testbit v k.
Proof.
  intros. unfold csr_get. simpl. rewrite bit_testbit by lia.
  rewrite testbit_csr_raw.
  - done.
  - unfold field_ok, field_end, field_width; simpl. bits_cases.
Qed.

Lemma PTE_bool k v :
  0 <= k < 8 -> csr_get (Field bool Bits64_bool k) (csr_from_bits PTE_fields v) = Z.testbit v k.
Proof.
  intros. rewrite <- csr_get_bool by lia. refine (get_from_bits PTE_fields v (Field bool Bits64_bool k) eq_refl _).
  assert (k = 0 \/ k = 1 \/ k = 2 \/ k = 3 \/ k = 4 \/ k = 5 \/ k = 6 \/ k = 7) as E by lia.
  destruct_or! E; subst; apply list_elem_of_In; unfold PTE_fields; simpl; tauto.
Qed.

(** The physical page number of an entry, and the parts of a virtual address. *)
Definition entry_ppn (bits : Z) : Z := (bits / 2 ^ 10) mod 2 ^ 44.
Definition vpn (va : Z) (i : nat) : Z := (va / 2 ^ (12 + 9 * Z.of_nat i)) mod 2 ^ 9.

Lemma land_ones_44 x : (x & ones 44) = x mod 2 ^ 44.
Proof. rewrite ones_spec by lia. rewrite <- (Z.land_ones x 44) by lia. done. Qed.

Lemma mod_mod_44 x : (x mod 2 ^ 44) mod 2 ^ 44 = x mod 2 ^ 44.
Proof. apply Z.mod_mod. lia. Qed.

Lemma PTE_ppn v : csr_get PTE.PPN (csr_from_bits PTE_fields v) = entry_ppn v.
Proof.
  unfold csr_get. rewrite raw_from_bits by (reflexivity || (apply list_elem_of_In; simpl; tauto)).
  change (field_width PTE.PPN) with 44. unfold csr_get, wrap.
  change (@to_bits _ (field_bits PTE.PPN) ?x) with (x & ones 44).
  change (@from_bits _ (field_bits PTE.PPN) ?x) with (x & ones 44).
  rewrite !land_ones_44, csr_raw_spec by reflexivity. unfold entry_ppn.
  change (field_width PTE.PPN) with 44. change (field_offset PTE.PPN) with 10.
  change (@from_bits _ (field_bits PTE.PPN) ?x) with (x & ones 44).
  rewrite land_ones_44. by rewrite !mod_mod_44.
Qed.

Lemma Satp_ppn_value v :
  @to_bits _ (FixedWidthBits 44) (csr_get Satp.PPN v) = v mod 2 ^ 44.
Proof.
  unfold csr_get. change (@to_bits _ (FixedWidthBits 44) ?x) with (bits_subset 64 x 43 0).
  change (@from_bits _ (field_bits Satp.PPN) ?x) with (bits_subset 64 x 43 0).
  rewrite csr_raw_spec by reflexivity. rewrite !bits_subset_spec by (unfold valid_range; lia).
  change (field_offset Satp.PPN) with 0. change (field_width Satp.PPN) with 44.
  rewrite Z.pow_0_r, !Z.div_1_r. by rewrite !mod_mod_44.
Qed.

(** ** Ranges of the formats *)

Lemma get_vpn_idx_eq va sv i :
  get_vpn_idx va sv i =
    if decide (i < (algorithm_constants sv).(levels))%nat then Some (vpn va i) else None.
Proof.
  unfold get_vpn_idx, vpn.
  assert (E : get_raw_vpn_i_range sv i = if decide (i < (algorithm_constants sv).(levels))%nat
    then Some (9 * Z.of_nat i + 8, 9 * Z.of_nat i) else None).
  { do 5 (destruct i as [|i]; [by destruct sv|]). rewrite decide_False; [by destruct sv|].
    destruct sv; simpl; lia. }
  rewrite E. case_decide as L; [|done]. unfold PAGE_OFFSET_WIDTH; simpl.
  assert (Z.of_nat i < 5) by (destruct sv; simpl in L; lia).
  rewrite bits_subset_spec by (unfold valid_range; lia).
  do 2 f_equal; [f_equal|]; f_equal; lia.
Qed.

(** The top index has all the remaining bits. *)
Definition ppn_high (sv : SvLength) (i : nat) : Z :=
  if decide (i = (algorithm_constants sv).(levels) - 1)%nat then 44 else 9 * Z.of_nat i + 9.

Lemma get_raw_ppn_i_range_eq sv i :
  (i < (algorithm_constants sv).(levels))%nat ->
  get_raw_ppn_i_range sv i = Some (ppn_high sv i - 1, 9 * Z.of_nat i).
Proof. intros L. destruct sv; simpl in L; do 5 (destruct i as [|i]; [done || lia|]); lia. Qed.

Lemma ppn_high_bound sv i :
  (i < (algorithm_constants sv).(levels))%nat -> 9 * Z.of_nat i < ppn_high sv i <= 44.
Proof. unfold ppn_high. intros. destruct sv; simpl in *; case_decide; lia. Qed.

Lemma ppn_i_eq ppn sv i :
  (i < (algorithm_constants sv).(levels))%nat ->
  ppn_i ppn sv i = Some ((ppn / 2 ^ (9 * Z.of_nat i)) mod 2 ^ (ppn_high sv i - 9 * Z.of_nat i)).
Proof.
  intros L. unfold ppn_i. rewrite get_raw_ppn_i_range_eq by done. simpl. f_equal.
  pose proof (ppn_high_bound sv i L). rewrite bits_subset_spec by (unfold valid_range; lia).
  do 2 f_equal. lia.
Qed.

(** ** Building the physical address

    One step of the loops of step 8: when the address agrees with the target
    [t] below the field, it agrees with it above the field afterwards. *)
Lemma replace_subset_target t s e :
  0 <= e < s -> s < 64 -> ~ (s = 64 /\ e = 0) ->
  replace_subset 64 (t mod 2 ^ e) (s - 1) e ((t / 2 ^ e) mod 2 ^ (s - e)) = t mod 2 ^ s.
Proof.
  intros. apply Z.bits_inj'. intros i Hi.
  rewrite testbit_replace_subset.
  - destruct (Z.ltb_spec i s).
    + rewrite (Z.mod_pow2_bits_low t s) by lia. destruct (Z.leb_spec e i); simpl.
      * destruct (Z.leb_spec i (s - 1)); [|lia]. rewrite Z.mod_pow2_bits_low by lia.
        rewrite Z.div_pow2_bits by lia. f_equal. lia.
      * by rewrite Z.mod_pow2_bits_low by lia.
    + rewrite (Z.mod_pow2_bits_high t s) by lia. bool_cases; try lia; simpl.
      apply Z.mod_pow2_bits_high. lia.
  - unfold valid_range. lia.
  - apply (is_u_mono e); [lia|]. apply wrap_range. lia.
Qed.

Lemma set_ppn_idx_target sv i t :
  (i < (algorithm_constants sv).(levels))%nat ->
  set_ppn_idx (t mod 2 ^ (12 + 9 * Z.of_nat i)) sv i
    ((t / 2 ^ (12 + 9 * Z.of_nat i)) mod 2 ^ (ppn_high sv i - 9 * Z.of_nat i)) =
  Some (t mod 2 ^ (12 + ppn_high sv i)).
Proof.
  intros L. unfold set_ppn_idx. rewrite get_raw_ppn_i_range_eq by done. simpl. f_equal.
  pose proof (ppn_high_bound sv i L). unfold PAGE_OFFSET_WIDTH.
  replace (ppn_high sv i - 1 + 12) with (12 + ppn_high sv i - 1) by lia.
  replace (9 * Z.of_nat i + 12) with (12 + 9 * Z.of_nat i) by lia.
  rewrite <- (replace_subset_target t (12 + ppn_high sv i) (12 + 9 * Z.of_nat i)) by lia.
  do 3 f_equal. lia.
Qed.

(** A loop over indices whose values are the fields of [t]. *)
Lemma set_ppn_loop sv t (value : nat -> option Z) n : forall k,
  (k + n <= (algorithm_constants sv).(levels))%nat ->
  (forall idx, (k <= idx < k + n)%nat ->
     value idx = Some ((t / 2 ^ (12 + 9 * Z.of_nat idx))
                         mod 2 ^ (ppn_high sv idx - 9 * Z.of_nat idx))) ->
  foldl (fun pa idx => pa ← pa; v ← value idx; set_ppn_idx pa sv idx v)
    (Some (t mod 2 ^ (12 + 9 * Z.of_nat k))) (seq k n) =
  Some (t mod 2 ^ (12 + if decide (n = 0)%nat then 9 * Z.of_nat k else ppn_high sv (k + n - 1))).
Proof.
  induction n as [|n IH]; intros k L V; [done|]. cbn [seq foldl mbind option_bind].
  rewrite V by lia. cbn [mbind option_bind].
  rewrite set_ppn_idx_target by lia.
  destruct (decide (n = 0)%nat) as [->|N].
  - cbn [seq foldl]. do 4 f_equal. rewrite decide_False by lia. f_equal. lia.
  - assert (E : ppn_high sv k = 9 * Z.of_nat (S k)).
    { unfold ppn_high. rewrite decide_False by lia. lia. }
    rewrite E, IH by (lia || (intros; apply V; lia)). rewrite !decide_False by lia.
    do 5 f_equal. lia.
Qed.

Lemma div_mod_congr a b n e w :
  0 <= e -> 0 <= w -> e + w <= n -> a mod 2 ^ n = b mod 2 ^ n ->
  (a / 2 ^ e) mod 2 ^ w = (b / 2 ^ e) mod 2 ^ w.
Proof.
  intros He Hw Hn E. apply Z.bits_inj'. intros i Hi. destruct (Z.ltb_spec i w).
  - rewrite !Z.mod_pow2_bits_low, !Z.div_pow2_bits by lia.
    rewrite <- (Z.mod_pow2_bits_low a n), <- (Z.mod_pow2_bits_low b n) by lia. by rewrite E.
  - by rewrite !Z.mod_pow2_bits_high by lia.
Qed.

Section target.
Context (va ppn : Z) (i : nat).
Context (Hppn : is_u 44 ppn) (Halign : ppn mod 2 ^ (9 * Z.of_nat i) = 0).

(** The physical address of a leaf at level [i]: the frame, and the offset of
    the address in the (super)page. *)
Definition phys_addr : Z := 2 ^ 12 * ppn + va mod 2 ^ (12 + 9 * Z.of_nat i).

Lemma phys_addr_split :
  phys_addr = 2 ^ (12 + 9 * Z.of_nat i) * (ppn / 2 ^ (9 * Z.of_nat i))
              + va mod 2 ^ (12 + 9 * Z.of_nat i).
Proof.
  unfold phys_addr. f_equal. rewrite Z.pow_add_r by lia. rewrite <- Z.mul_assoc. f_equal.
  pose proof (pow2_pos (9 * Z.of_nat i) ltac:(lia)).
  rewrite (Z.div_mod ppn (2 ^ (9 * Z.of_nat i))) at 1 by lia. lia.
Qed.

Lemma phys_addr_mod : phys_addr mod 2 ^ (12 + 9 * Z.of_nat i) = va mod 2 ^ (12 + 9 * Z.of_nat i).
Proof.
  rewrite phys_addr_split. pose proof (pow2_pos (12 + 9 * Z.of_nat i) ltac:(lia)).
  rewrite Z.mul_comm, Z.add_comm, Z_mod_plus_full. apply Z.mod_mod. lia.
Qed.

Lemma phys_addr_div n :
  (i <= n)%nat -> phys_addr / 2 ^ (12 + 9 * Z.of_nat n) = ppn / 2 ^ (9 * Z.of_nat n).
Proof.
  intros Hn. pose proof (pow2_pos (12 + 9 * Z.of_nat i) ltac:(lia)).
  assert (E : phys_addr / 2 ^ (12 + 9 * Z.of_nat i) = ppn / 2 ^ (9 * Z.of_nat i)).
  { rewrite phys_addr_split. rewrite Z.mul_comm, Z.div_add_l by lia.
    rewrite (Z.div_small (va mod _)) by (apply Z.mod_pos_bound; lia). lia. }
  replace (12 + 9 * Z.of_nat n) with (12 + 9 * Z.of_nat i + 9 * Z.of_nat (n - i)) by lia.
  replace (9 * Z.of_nat n) with (9 * Z.of_nat i + 9 * Z.of_nat (n - i)) by lia.
  pose proof (pow2_pos (9 * Z.of_nat (n - i)) ltac:(lia)). pose proof (pow2_pos (9 * Z.of_nat i) ltac:(lia)).
  rewrite !(Z.pow_add_r 2 _ (9 * Z.of_nat (n - i))) by lia. by rewrite <- !Z.div_div, E by lia.
Qed.

Lemma phys_addr_range : (i <= 4)%nat -> is_u 56 phys_addr.
Proof.
  intros. pose proof (pow2_pos (12 + 9 * Z.of_nat i) ltac:(lia)).
  pose proof (pow2_pos (9 * Z.of_nat i) ltac:(lia)).
  pose proof (Z.mod_pos_bound va (2 ^ (12 + 9 * Z.of_nat i)) ltac:(lia)).
  destruct Hppn. split; [unfold phys_addr; lia|]. rewrite phys_addr_split.
  assert (Q : ppn / 2 ^ (9 * Z.of_nat i) < 2 ^ (44 - 9 * Z.of_nat i)).
  { apply Z.div_lt_upper_bound; [lia|]. rewrite <- Z.pow_add_r by lia.
    replace (9 * Z.of_nat i + (44 - 9 * Z.of_nat i)) with 44 by lia. lia. }
  assert (2 ^ 56 = 2 ^ (12 + 9 * Z.of_nat i) * 2 ^ (44 - 9 * Z.of_nat i)) as ->
    by (rewrite <- Z.pow_add_r by lia; f_equal; lia).
  nia.
Qed.

Lemma sv_physical_spec sv :
  (i < (algorithm_constants sv).(levels))%nat -> sv_physical va sv ppn i = Some phys_addr.
Proof.
  intros L. unfold sv_physical.
  assert (i <= 4)%nat by (destruct sv; simpl in L; lia).
  assert (E0 : set_page_offset 0 (get_page_offset va) = phys_addr mod 2 ^ (12 + 9 * Z.of_nat 0)).
  { unfold set_page_offset, get_page_offset, PAGE_OFFSET_WIDTH. rewrite ones_spec by lia.
    rewrite Z.land_0_l, Z.lor_0_l. replace (2 ^ 12 - 1) with (Z.ones 12) by done.
    rewrite !Z.land_ones, Z.mod_mod by lia. change (12 + 9 * Z.of_nat 0) with 12.
    pose proof (div_mod_congr _ _ (12 + 9 * Z.of_nat i) 0 12 ltac:(lia) ltac:(lia) ltac:(lia)
      phys_addr_mod) as D.
    by rewrite Z.pow_0_r, !Z.div_1_r in D. }
  rewrite E0, (set_ppn_loop sv phys_addr (get_vpn_idx va sv) i 0); [|lia|].
  - replace (12 + if decide (i = 0%nat) then 9 * Z.of_nat 0 else ppn_high sv (0 + i - 1))
      with (12 + 9 * Z.of_nat i).
    2:{ case_decide; [lia|]. unfold ppn_high. rewrite decide_False by lia. lia. }
    rewrite (set_ppn_loop sv phys_addr (ppn_i ppn sv)); [|lia|].
    + rewrite decide_False by lia. f_equal. unfold ppn_high. rewrite decide_True by lia.
      apply (wrap_small 56). by apply phys_addr_range.
    + intros idx ?. rewrite ppn_i_eq, phys_addr_div by lia. done.
  - intros idx ?. rewrite get_vpn_idx_eq, decide_True by lia. f_equal. unfold vpn.
    unfold ppn_high. rewrite decide_False by lia.
    replace (9 * Z.of_nat idx + 9 - 9 * Z.of_nat idx) with 9 by lia.
    apply (div_mod_congr _ _ (12 + 9 * Z.of_nat i)); [lia..|]. symmetry. apply phys_addr_mod.
Qed.

(** The superpage check of step 6. *)
Lemma mod_groups x n :
  x mod 2 ^ (9 * Z.of_nat n) = 0 <->
  forall idx, (idx < n)%nat -> (x / 2 ^ (9 * Z.of_nat idx)) mod 2 ^ 9 = 0.
Proof.
  clear. induction n as [|n IH].
  - rewrite Z.mod_1_r. split; [intros; lia|done].
  - pose proof (pow2_pos (9 * Z.of_nat n) ltac:(lia)).
    assert (E : x mod 2 ^ (9 * Z.of_nat (S n)) =
      x mod 2 ^ (9 * Z.of_nat n) + 2 ^ (9 * Z.of_nat n) * ((x / 2 ^ (9 * Z.of_nat n)) mod 2 ^ 9)).
    { replace (9 * Z.of_nat (S n)) with (9 * Z.of_nat n + 9) by lia.
      rewrite Z.pow_add_r by lia. apply Z.rem_mul_r; lia. }
    rewrite E. pose proof (Z.mod_pos_bound x (2 ^ (9 * Z.of_nat n)) ltac:(lia)).
    pose proof (Z.mod_pos_bound (x / 2 ^ (9 * Z.of_nat n)) (2 ^ 9) ltac:(lia)).
    split.
    + intros Z0. assert (x mod 2 ^ (9 * Z.of_nat n) = 0 /\ (x / 2 ^ (9 * Z.of_nat n)) mod 2 ^ 9 = 0)
        as [Z1 Z2] by nia.
      intros idx ?. destruct (decide (idx = n)) as [->|]; [done|]. apply IH; [done|lia].
    + intros G. rewrite (G n) by lia. rewrite (proj2 IH) by (intros; apply G; lia). lia.
Qed.
End target.

Lemma superpage_check sv ppn i :
  (i < (algorithm_constants sv).(levels))%nat ->
  existsb (fun idx => bool_decide (ppn_i ppn sv idx <> Some 0)) (rev (seq 0 i)) = false <->
  ppn mod 2 ^ (9 * Z.of_nat i) = 0.
Proof.
  intros L. rewrite mod_groups, <- not_true_iff_false, existsb_exists. split.
  - intros N idx Hidx. destruct (decide (ppn_i ppn sv idx = Some 0)) as [E|NE].
    + rewrite ppn_i_eq in E by lia. injection E as E. revert E.
      unfold ppn_high. rewrite decide_False by lia.
      by replace (9 * Z.of_nat idx + 9 - 9 * Z.of_nat idx) with 9 by lia.
    + exfalso. apply N. exists idx. split; [rewrite <- in_rev, in_seq; lia|].
      by apply bool_decide_eq_true_2.
  - intros G (idx & I & N%bool_decide_eq_true_1). rewrite <- in_rev, in_seq in I. apply N.
    rewrite ppn_i_eq by lia. f_equal. unfold ppn_high. rewrite decide_False by lia.
    replace (9 * Z.of_nat idx + 9 - 9 * Z.of_nat idx) with 9 by lia. apply G. lia.
Qed.

(** ** The leaf a virtual address reaches *)

(** An entry is valid when [V] is set and it is not writable without being
    readable; it is a leaf when [R] or [X] is set. *)
Definition entry_valid (bits : Z) : bool :=
  Z.testbit bits 0 && (Z.testbit bits 1 || negb (Z.testbit bits 2)).
Definition entry_leaf (bits : Z) : bool := Z.testbit bits 1 || Z.testbit bits 3.

Section walk_spec.
Context `{ML : MainMemoryLayout} (bus : Bus) (va : Z).

(** [leaf_at a i j bits]: from the table at [a] of level [i] the walk for [va]
    ends in the leaf entry [bits] of a table of level [j]. *)
Inductive leaf_at : Z -> nat -> nat -> Z -> Prop :=
| leaf_here a i bits :
    Bus_read U64 bus (a + 8 * vpn va i) = Ok bits ->
    entry_valid bits = true -> entry_leaf bits = true -> leaf_at a i i bits
| leaf_next a i j table bits :
    Bus_read U64 bus (a + 8 * vpn va (S i)) = Ok table ->
    entry_valid table = true -> entry_leaf table = false ->
    leaf_at (2 ^ 12 * entry_ppn table) i j bits -> leaf_at a (S i) j bits.

Lemma vpn_range i : 0 <= vpn va i < 512.
Proof. unfold vpn. apply (Z.mod_pos_bound _ 512). lia. Qed.

Lemma entry_ppn_range bits : is_u 44 (entry_ppn bits).
Proof. apply wrap_range. lia. Qed.

Lemma frame_mul x : is_u 44 x -> wrapping_mul 64 x PAGE_SIZE = 2 ^ 12 * x.
Proof.
  intros [? ?]. unfold wrapping_mul. change PAGE_SIZE with (2 ^ 12). rewrite Z.mul_comm.
  apply wrap_small. unfold is_u. pow2. lia.
Qed.

Lemma sv_entry_spec sv acc a i :
  (i < (algorithm_constants sv).(levels))%nat -> is_u 56 a ->
  sv_entry bus va sv acc a i =
    match Bus_read U64 bus (a + 8 * vpn va i) with
    | Err _ => Err (LoadAccessFault (a + 8 * vpn va i))
    | Ok bits =>
        if entry_valid bits then
          if entry_leaf bits then Ok (inl (csr_from_bits PTE_fields bits))
          else Ok (inr (2 ^ 12 * entry_ppn bits))
        else Err (AccessType_exception acc va)
    end.
Proof.
  intros L [? ?]. unfold sv_entry. rewrite get_vpn_idx_eq, decide_True by done. cbv zeta.
  pose proof (vpn_range i).
  assert (a ⊞ wrapping_mul 64 (vpn va i) (algorithm_constants sv).(pte_size) = a + 8 * vpn va i) as ->.
  { replace ((algorithm_constants sv).(pte_size)) with 8 by by destruct sv.
    unfold wrapping_add, wrapping_mul. pow2.
    rewrite (wrap_small 64 (vpn va i * 8)) by (unfold is_u; pow2; lia).
    rewrite wrap_small by (unfold is_u; pow2; lia). lia. }
  destruct (Bus_read _ _ _) as [bits|]; [|done].
  rewrite PTE_ppn.
  rewrite (PTE_bool 0 bits ltac:(lia) : csr_get PTE.V _ = _),
    (PTE_bool 1 bits ltac:(lia) : csr_get PTE.R _ = _),
    (PTE_bool 2 bits ltac:(lia) : csr_get PTE.W _ = _),
    (PTE_bool 3 bits ltac:(lia) : csr_get PTE.X _ = _).
  change (@to_bits _ Bits64_PPNField ?x) with (x & ones 44).
  rewrite land_ones_44, frame_mul by (apply wrap_range; lia).
  unfold entry_ppn at 1. rewrite mod_mod_44. fold (entry_ppn bits).
  unfold entry_valid, entry_leaf.
  destruct (Z.testbit bits 0), (Z.testbit bits 1), (Z.testbit bits 2), (Z.testbit bits 3); done.
Qed.

Lemma sv_walk_spec sv acc i : forall a j pte,
  (i < (algorithm_constants sv).(levels))%nat -> is_u 56 a ->
  sv_walk bus va sv acc a i = Ok (j, pte) <->
  exists bits, leaf_at a i j bits /\ pte = csr_from_bits PTE_fields bits.
Proof.
  unfold sv_walk. induction i as [|i IH]; intros a j pte L U; cbn [walk_levels];
    rewrite sv_entry_spec by done.
  - split.
    + repeat case_match; intros [= <- <-]; simplify_eq. eexists; split; [by apply leaf_here|done].
    + intros (bits & LA & ->). inversion LA as [? ? ? R V Lf|]; subst. by rewrite R, V, Lf.
  - split.
    + destruct (Bus_read _ _ _) as [bits|] eqn:R; [|done].
      destruct (entry_valid bits) eqn:V, (entry_leaf bits) eqn:Lf; try done.
      * intros [= <- <-]. eexists; split; [by apply leaf_here|done].
      * rewrite IH; [|lia|].
        -- intros (b & LA & ->). exists b. split; [by eapply leaf_next|done].
        -- pose proof (entry_ppn_range bits) as [? ?]. unfold is_u. pow2. lia.
    + intros (bits & LA & ->).
      inversion LA as [? ? ? R V Lf|? ? ? table ? R V Lf LA']; subst; rewrite R, V, Lf.
      * done.
      * apply IH; [lia| |by eexists].
        pose proof (entry_ppn_range table) as [? ?]. unfold is_u. pow2. lia.
Qed.

Lemma leaf_at_level a i j bits : leaf_at a i j bits -> (j <= i)%nat.
Proof. induction 1; lia. Qed.

Lemma leaf_at_functional a i j bits :
  leaf_at a i j bits -> forall j' bits', leaf_at a i j' bits' -> j' = j /\ bits' = bits.
Proof.
  induction 1 as [a i b R V Lf|a i j t b R V Lf LA IH]; intros j' b' LA';
    inversion LA' as [? ? ? R' V' Lf'|? ? ? t' ? R' V' Lf' LA'']; subst;
    rewrite R' in R; injection R as ->; try congruence; auto.
Qed.

(** C3. The translation succeeds exactly when the walk reaches a leaf that was
    accessed before ([A]), is dirty if this is a store ([D]), and whose frame
    is aligned to the size of its (super)page; the physical address is then
    the frame plus the offset of the address in the page.  (The permission
    bits [R], [W], [X] and [U] of the leaf play no role.) *)
Theorem sv_translate_spec satp sv acc pa :
  let root := 2 ^ 12 * (satp mod 2 ^ 44) in
  let top := ((algorithm_constants sv).(levels) - 1)%nat in
  (sv_translate_impl bus va satp sv acc = Ok pa <->
   exists j bits, leaf_at root top j bits /\
     Z.testbit bits 6 = true /\ (acc = AStore -> Z.testbit bits 7 = true) /\
     entry_ppn bits mod 2 ^ (9 * Z.of_nat j) = 0 /\
     pa = 2 ^ 12 * entry_ppn bits + va mod 2 ^ (12 + 9 * Z.of_nat j)).
Proof.
  intros root top. unfold sv_translate_impl.
  assert (T : (top < (algorithm_constants sv).(levels))%nat) by by (unfold top; destruct sv; simpl; lia).
  rewrite Satp_ppn_value. rewrite frame_mul by (apply wrap_range; lia). fold root top.
  assert (U : is_u 56 root).
  { unfold root. pose proof (Z.mod_pos_bound satp (2 ^ 44) ltac:(lia)). unfold is_u. pow2. lia. }
  pose proof (sv_walk_spec sv acc top root) as W. destruct (sv_walk _ _ _ _ _ _) as [[j pte]|e].
  - destruct (proj1 (W j pte T U) eq_refl) as (bits & LA & ->). clear W.
    pose proof (leaf_at_level _ _ _ _ LA). rewrite PTE_ppn.
    rewrite (PTE_bool 6 bits ltac:(lia) : csr_get PTE.A _ = _),
      (PTE_bool 7 bits ltac:(lia) : csr_get PTE.D _ = _).
    pose proof (superpage_check sv (entry_ppn bits) j ltac:(lia)) as S.
    transitivity (Z.testbit bits 6 = true /\ (acc = AStore -> Z.testbit bits 7 = true) /\
      entry_ppn bits mod 2 ^ (9 * Z.of_nat j) = 0 /\
      pa = 2 ^ 12 * entry_ppn bits + va mod 2 ^ (12 + 9 * Z.of_nat j)).
    + destruct (existsb _ _).
      { split; [done|]. intros (_ & _ & A & _). by apply S in A. }
      pose proof (proj1 S eq_refl) as A.
      rewrite (sv_physical_spec va (entry_ppn bits) j (entry_ppn_range bits) A) by lia.
      unfold phys_addr. destruct (Z.testbit bits 6), (Z.testbit bits 7); simpl;
        try case_bool_decide; simpl; naive_solver.
    + split; [by eauto 10|]. intros (j' & bits' & LA' & R).
      by destruct (leaf_at_functional _ _ _ _ LA _ _ LA') as [-> ->].
  - split; [done|]. intros (j & bits & LA & _).
    by pose proof (proj2 (W j _ T U) (ex_intro _ bits (conj LA eq_refl))).
Qed.
End walk_spec.
