(* ===== verification/TranslationCache.v ===== *)
(** The address translation cache:
    [src/riscv/lib/src/machine_state/address_translation/translation_cache.rs]
    and the fence counter of [src/riscv/lib/src/cache_utils.rs].

    An array is a function from indices. *)
From S2P Require Import Prelude Bits CSRegister Traps XStatus Bus AddressTranslation.

Definition fupd {A} (f : Z -> A) (i : Z) (v : A) : Z -> A := fun j => if decide (j = i) then v else f j.

(** ** Fence counters *)

(* cache_utils.rs:20-20 INITIAL *)
Definition FenceCounter_INITIAL : Z := 0.

(* cache_utils.rs:25-29 FenceCounter::next *)
Definition FenceCounter_next (c : Z) : Z := wrapping_add 32 c 1.

(** ** Entries *)

(* machine_state/address_translation/translation_cache.rs:49-49 OFFSET_MASK *)
Definition OFFSET_MASK : Z := ones PAGE_OFFSET_WIDTH.

(* machine_state/address_translation/translation_cache.rs:52-52 PAGE_MASK *)
Definition PAGE_MASK : Z := not_u 64 OFFSET_MASK.

(* machine_state/address_translation/translation_cache.rs:187-187 PAGES_BITS *)
Definition PAGES_BITS : Z := 16.
Definition PAGES : Z := shl_u 64 1 PAGES_BITS.
Definition PAGES_MASK : Z := PAGES - 1.

(* machine_state/address_translation/translation_cache.rs:55-58 virtual_page_index *)
Definition virtual_page_index (virt_page : Z) : Z := shr_u 64 virt_page PAGE_OFFSET_WIDTH & PAGES_MASK.

(* machine_state/address_translation/translation_cache.rs:70-85 Cached *)
Record Cached : Set := {
  c_mode : Z;
  c_satp : Z;
  c_virt_page : Z;
  c_phys_page : Z;
  c_fence_counter : Z;
}.

(* machine_state/address_translation/translation_cache.rs:111-120 Cached::reset *)
Definition Cached_reset (c : Cached) : Cached := {|
  c_fence_counter := FenceCounter_INITIAL;
  c_mode := not_u 8 0;
  c_satp := not_u 64 0;
  c_virt_page := not_u 64 0;
  c_phys_page := not_u 64 0;
|}.

(* machine_state/address_translation/translation_cache.rs:124-129 Cached::invalidate *)
Definition Cached_invalidate (c : Cached) : Cached := {|
  c_mode := c.(c_mode); c_satp := c.(c_satp); c_virt_page := not_u 64 0;
  c_phys_page := c.(c_phys_page); c_fence_counter := c.(c_fence_counter);
|}.

(* machine_state/address_translation/translation_cache.rs:132-147 Cached::cache_translation *)
Definition Cached_cache_translation (c : Cached) (satp : Z) (mode : Mode) (virt_page phys_page : Z)
  (fence_counter : Z) : Cached := {|
  c_satp := satp;
  c_mode := Mode_repr mode;
  c_virt_page := virt_page;
  c_phys_page := phys_page;
  c_fence_counter := fence_counter;
|}.

(* machine_state/address_translation/translation_cache.rs:150-170 Cached::try_translate *)
Definition Cached_try_translate (c : Cached) (satp : Z) (mode : Mode) (virt_page virt_offset : Z)
  (fence_counter : Z) : option Z :=
  if (c.(c_virt_page) =? virt_page) && (c.(c_satp) =? satp) && (c.(c_mode) =? Mode_repr mode)
     && (c.(c_fence_counter) =? fence_counter)
  then Some (c.(c_phys_page) |: virt_offset)
  else None.

(** ** The cache of an access type *)

(* machine_state/address_translation/translation_cache.rs:195-198 AccessCache *)
Record AccessCache : Type := { ac_fence_counter : Z; ac_entries : Z -> Cached }.

(* machine_state/address_translation/translation_cache.rs:226-232 AccessCache::reset *)
Definition AccessCache_reset (c : AccessCache) : AccessCache := {|
  ac_fence_counter := FenceCounter_INITIAL;
  ac_entries := fun i => Cached_reset (c.(ac_entries) i);
|}.

(* machine_state/address_translation/translation_cache.rs:236-256 AccessCache::invalidate *)
Definition AccessCache_invalidate (c : AccessCache) : AccessCache :=
  let fence_counter := c.(ac_fence_counter) in
  let virt_page_index := fence_counter & PAGES_MASK in
  {| ac_fence_counter := FenceCounter_next fence_counter;
     ac_entries := fupd c.(ac_entries) virt_page_index
                     (Cached_invalidate (c.(ac_entries) virt_page_index)) |}.

(* machine_state/address_translation/translation_cache.rs:260-274 AccessCache::try_translate *)
Definition AccessCache_try_translate (c : AccessCache) (satp : Z) (mode : Mode) (virt_addr : Z) :
  option Z :=
  let virt_page := virt_addr & PAGE_MASK in
  Cached_try_translate (c.(ac_entries) (virtual_page_index virt_page)) satp mode virt_page
    (virt_addr & OFFSET_MASK) c.(ac_fence_counter).

(* machine_state/address_translation/translation_cache.rs:278-297 AccessCache::cache_translation *)
Definition AccessCache_cache_translation (c : AccessCache) (satp : Z) (mode : Mode)
  (virt_addr phys_addr : Z) : AccessCache :=
  let virt_page := virt_addr & PAGE_MASK in
  let i := virtual_page_index virt_page in
  {| ac_fence_counter := c.(ac_fence_counter);
     ac_entries := fupd c.(ac_entries) i
       (Cached_cache_translation (c.(ac_entries) i) satp mode virt_page (phys_addr & PAGE_MASK)
          c.(ac_fence_counter)) |}.

(** ** The translation cache *)

(* machine_state/address_translation/translation_cache.rs:318-325 access_type_index *)
Definition access_type_index (t : AccessType) : Z :=
  match t with AInstruction => 0 | ALoad => 1 | AStore => 2 end.

(* machine_state/address_translation/translation_cache.rs:331-334 TranslationCache *)
Record TranslationCache : Type := { tc_entries : Z -> AccessCache }.

(* machine_state/address_translation/translation_cache.rs:354-359 TranslationCache::reset *)
Definition TranslationCache_reset (c : TranslationCache) : TranslationCache :=
  {| tc_entries := fun i => AccessCache_reset (c.(tc_entries) i) |}.

(* machine_state/address_translation/translation_cache.rs:363-371 TranslationCache::invalidate *)
Definition TranslationCache_invalidate (c : TranslationCache) (access_types : list AccessType) :
  TranslationCache :=
  foldl (fun c t =>
    let i := access_type_index t in
    {| tc_entries := fupd c.(tc_entries) i (AccessCache_invalidate (c.(tc_entries) i)) |})
    c access_types.

(* machine_state/address_translation/translation_cache.rs:375-387 TranslationCache::try_translate *)
Definition TranslationCache_try_translate (c : TranslationCache) (mode : Mode) (satp : Z)
  (access_type : AccessType) (virt_addr : Z) : option Z :=
  AccessCache_try_translate (c.(tc_entries) (access_type_index access_type)) satp mode virt_addr.

(* machine_state/address_translation/translation_cache.rs:391-403 TranslationCache::cache_translation *)
Definition TranslationCache_cache_translation (c : TranslationCache) (mode : Mode) (satp : Z)
  (access_type : AccessType) (virt_addr phys_addr : Z) : TranslationCache :=
  let i := access_type_index access_type in
  {| tc_entries := fupd c.(tc_entries) i
       (AccessCache_cache_translation (c.(tc_entries) i) satp mode virt_addr phys_addr) |}.
