(* ===== verification/TranslationCacheSpec.v ===== *)
(** The translation cache refines a cache that a fence empties: the wrapping
    fence counter never revives an entry from before a fence. *)
From S2P Require Import Prelude Bits CSRegister Traps XStatus Bus AddressTranslation.
From S2P Require Import TranslationCache.

Lemma fupd_eq {A} (f : Z -> A) i v : fupd f i v i = v.
Proof. unfold fupd. by rewrite decide_True. Qed.

Lemma fupd_ne {A} (f : Z -> A) i j v : j <> i -> fupd f i v j = f j.
Proof. intros. unfold fupd. by rewrite decide_False. Qed.

Lemma PAGES_mask_mod c : (c & PAGES_MASK) = c mod PAGES.
Proof. change PAGES_MASK with (Z.ones 16). by rewrite Z.land_ones by lia. Qed.

Lemma page_aligned_valid a : (a & PAGE_MASK) <> not_u 64 0.
Proof.
  intros E. assert (Z.testbit (a & PAGE_MASK) 0 = Z.testbit (not_u 64 0) 0) as B by by rewrite E.
  rewrite testbit_land in B. change (Z.testbit PAGE_MASK 0) with false in B.
  change (Z.testbit (not_u 64 0) 0) with true in B. by rewrite andb_false_r in B.
Qed.

(** ** The abstract cache

    A direct-mapped cache whose entries are valid or not; a fence makes all of
    them invalid. *)
Record AbsEntry : Set := { a_satp : Z; a_mode : Mode; a_virt_page : Z; a_phys_page : Z }.
Definition AbsCache : Type := Z -> option AbsEntry.

Definition abs_empty : AbsCache := fun _ => None.

Definition abs_try_translate (c : AbsCache) (satp : Z) (mode : Mode) (virt_addr : Z) : option Z :=
  let virt_page := virt_addr & PAGE_MASK in
  match c (virtual_page_index virt_page) with
  | Some e =>
      if bool_decide (e.(a_virt_page) = virt_page /\ e.(a_satp) = satp /\ e.(a_mode) = mode)
      then Some (e.(a_phys_page) |: (virt_addr & OFFSET_MASK)) else None
  | None => None
  end.

Definition abs_cache_translation (c : AbsCache) (satp : Z) (mode : Mode) (virt_addr phys_addr : Z) :
  AbsCache :=
  let virt_page := virt_addr & PAGE_MASK in
  fupd c (virtual_page_index virt_page)
    (Some {| a_satp := satp; a_mode := mode; a_virt_page := virt_page;
             a_phys_page := phys_addr & PAGE_MASK |}).

(** ** The simulation *)

(** What the entry at index [i] stands for, given the counter of the cache.
    [age] is the number of fences since the entry was populated; the entry is
    cleared at the latest when the counter reaches its index modulo the
    number of entries. *)
Definition entry_rel (counter i : Z) (e : Cached) (a : option AbsEntry) : Prop :=
  (e.(c_virt_page) = not_u 64 0 /\ a = None) \/
  exists age mode,
    0 <= age <= (i - e.(c_fence_counter)) mod PAGES /\
    is_u 32 e.(c_fence_counter) /\
    counter = wrap 32 (e.(c_fence_counter) + age) /\
    e.(c_mode) = Mode_repr mode /\
    a = if age =? 0
        then Some {| a_satp := e.(c_satp); a_mode := mode; a_virt_page := e.(c_virt_page);
                     a_phys_page := e.(c_phys_page) |}
        else None.

Definition cache_rel (c : AccessCache) (a : AbsCache) : Prop :=
  is_u 32 c.(ac_fence_counter) /\
  forall i, 0 <= i < PAGES -> entry_rel c.(ac_fence_counter) i (c.(ac_entries) i) (a i).

Lemma Mode_repr_inj m m' : Mode_repr m = Mode_repr m' -> m = m'.
Proof. by destruct m, m'. Qed.

Lemma virtual_page_index_range p : 0 <= virtual_page_index p < PAGES.
Proof. unfold virtual_page_index. rewrite PAGES_mask_mod. by apply Z.mod_pos_bound. Qed.

Lemma pages_pos : PAGES = 65536.
Proof. done. Qed.

Lemma wrap32_age c age : is_u 32 c -> 0 <= age < PAGES -> wrap 32 (c + age) = c -> age = 0.
Proof.
  rewrite pages_pos. unfold is_u, wrap. pow2. intros ? ? E.
  Z.to_euclidean_division_equations. lia.
Qed.

Lemma cache_rel_lookup c a satp mode va :
  cache_rel c a -> AccessCache_try_translate c satp mode va = abs_try_translate a satp mode va.
Proof.
  intros [_ R]. unfold AccessCache_try_translate, abs_try_translate, Cached_try_translate.
  set (vp := va & PAGE_MASK). specialize (R (virtual_page_index vp) (virtual_page_index_range vp)).
  destruct (ac_entries c (virtual_page_index vp)) as [cm cs cv cp cf]. simpl in *.
  destruct R as [[E ->]|(age & m & [? A] & ? & C & M & ->)]; simpl in *.
  - rewrite E. destruct (Z.eqb_spec (not_u 64 0) vp) as [V|]; [|done].
    by destruct (page_aligned_valid va).
  - pose proof (Z.mod_pos_bound (virtual_page_index vp - cf) PAGES ltac:(done)).
    destruct (Z.eqb_spec age 0) as [->|N].
    + rewrite Z.add_0_r, wrap_small in C by done. rewrite C, Z.eqb_refl, andb_true_r, M. simpl.
      case_bool_decide as B.
      * destruct B as (-> & -> & ->). by rewrite !Z.eqb_refl.
      * bool_cases; simpl; try done. destruct B. subst. split_and!; try done. by apply Mode_repr_inj.
    + destruct (Z.eqb_spec cf (ac_fence_counter c)) as [F|]; [|by rewrite andb_false_r].
      exfalso. apply N, (wrap32_age cf); [done|lia|]. by rewrite <- C.
Qed.

Lemma cache_rel_cache c a satp mode va pa :
  cache_rel c a ->
  cache_rel (AccessCache_cache_translation c satp mode va pa) (abs_cache_translation a satp mode va pa).
Proof.
  intros [U R]. split; [done|]. intros i Hi.
  unfold AccessCache_cache_translation, abs_cache_translation; simpl. set (vp := va & PAGE_MASK).
  destruct (decide (i = virtual_page_index vp)) as [->|N]; [|by rewrite !fupd_ne; auto].
  rewrite !fupd_eq. right. exists 0, mode. simpl.
  pose proof (Z.mod_pos_bound (virtual_page_index vp - ac_fence_counter c) PAGES ltac:(done)).
  rewrite Z.add_0_r, wrap_small by done. split_and!; done || lia.
Qed.

Lemma age_bound i c age :
  0 <= i < PAGES -> is_u 32 c -> 0 <= age <= (i - c) mod PAGES ->
  i <> wrap 32 (c + age) mod PAGES -> age + 1 <= (i - c) mod PAGES.
Proof.
  intros Hi U A N. destruct (decide (age = (i - c) mod PAGES)) as [->|]; [|lia].
  exfalso. apply N. change PAGES with (2 ^ 16). change (?x mod 2 ^ 16) with (wrap 16 x) at 1.
  rewrite wrap_wrap_le by lia. unfold wrap. rewrite Zplus_mod_idemp_r.
  replace (c + (i - c)) with i by lia. symmetry. by apply Z.mod_small.
Qed.

Lemma cache_rel_invalidate c a :
  cache_rel c a -> cache_rel (AccessCache_invalidate c) abs_empty.
Proof.
  intros [U R]. split; [apply wrap_range; lia|]. intros i Hi.
  unfold AccessCache_invalidate; simpl. rewrite PAGES_mask_mod.
  destruct (decide (i = ac_fence_counter c mod PAGES)) as [->|N].
  - rewrite fupd_eq. by left.
  - rewrite fupd_ne by done. destruct (R i Hi) as [[E _]|(age & m & A & Uf & C & M & _)]; [by left|].
    right. exists (age + 1), m. rewrite C in N.
    pose proof (age_bound i _ age Hi Uf A N). split_and!; try done; try lia.
    + rewrite C. unfold FenceCounter_next, wrapping_add, wrap. rewrite Zplus_mod_idemp_l.
      f_equal. lia.
    + destruct (Z.eqb_spec (age + 1) 0); [lia|done].
Qed.

Lemma cache_rel_reset c : cache_rel (AccessCache_reset c) abs_empty.
Proof. split; [by vm_compute|]. intros i Hi. by left. Qed.

(** ** Sequences of operations *)

Inductive cache_op : Set :=
| OpInvalidate
| OpCache (satp : Z) (mode : Mode) (virt_addr phys_addr : Z).

Definition exec_op (c : AccessCache) (o : cache_op) : AccessCache :=
  match o with
  | OpInvalidate => AccessCache_invalidate c
  | OpCache satp mode va pa => AccessCache_cache_translation c satp mode va pa
  end.

Definition abs_exec_op (a : AbsCache) (o : cache_op) : AbsCache :=
  match o with
  | OpInvalidate => abs_empty
  | OpCache satp mode va pa => abs_cache_translation a satp mode va pa
  end.

Lemma cache_rel_exec ops : forall c a,
  cache_rel c a -> cache_rel (foldl exec_op c ops) (foldl abs_exec_op a ops).
Proof.
  induction ops as [|o ops IH]; intros c a R; [done|]. simpl. apply IH.
  destruct o; [by apply cache_rel_invalidate with a|by apply cache_rel_cache].
Qed.

(** C7. The cache of an access type behaves, on every sequence of fences and
    insertions of any length after a reset, like the abstract direct-mapped
    cache that a fence empties.  In particular no entry from before a fence
    is ever returned, although the 32-bit fence counter wraps around and a
    fence clears a single entry. *)
Theorem translation_cache_refines c ops satp mode va :
  AccessCache_try_translate (foldl exec_op (AccessCache_reset c) ops) satp mode va =
  abs_try_translate (foldl abs_exec_op abs_empty ops) satp mode va.
Proof. apply cache_rel_lookup, cache_rel_exec, cache_rel_reset. Qed.
