(* ===== verification/IntInstr.v ===== *)
(** The integer instructions on registers and the control transfers:
    [src/riscv/lib/src/interpreter/rv32i.rs], [rv64i.rs], [rv32m.rs],
    [rv64m.rs], [rv32c.rs] and [rv64c.rs] (the parts on [XRegisters] and
    [HartState]).

    Immediates are [i64], register values are [u64].  A cast from a signed type
    to [u64] is [as_u64], whatever the width it comes from. *)
From S2P Require Import Prelude Registers Traps CSRegister HartState.

Definition I64_MIN : Z := - 2 ^ 63.
Definition I32_MIN : Z := - 2 ^ 31.
Definition U32_MAX : Z := 2 ^ 32 - 1.

(** The register operations share their shape: the result is written to [rd]. *)
Abbreviation xreg_op2 := (XRegisters -> XRegister -> XRegister -> XRegister -> XRegisters).
Abbreviation xreg_opi := (XRegisters -> Z -> XRegister -> XRegister -> XRegisters).

(** ** RV32I *)

(* interpreter/rv32i.rs:29-35 run_addi *)
Definition run_addi : xreg_opi := fun s imm rs1 rd =>
  let rval := XRegisters_read s rs1 in
  let result := rval ⊞ as_u64 imm in
  XRegisters_write s rd result.

(* interpreter/rv32i.rs:40-46 run_add *)
Definition run_add : xreg_op2 := fun s rs1 rs2 rd =>
  let lhs := XRegisters_read s rs1 in
  let rhs := XRegisters_read s rs2 in
  let result := lhs ⊞ rhs in
  XRegisters_write s rd result.

(* interpreter/rv32i.rs:51-57 run_sub *)
Definition run_sub : xreg_op2 := fun s rs1 rs2 rd =>
  let lhs := XRegisters_read s rs1 in
  let rhs := XRegisters_read s rs2 in
  let result := lhs ⊟ rhs in
  XRegisters_write s rd result.

(* interpreter/rv32i.rs:62-66 run_lui *)
Definition run_lui (s : XRegisters) (imm : Z) (rd : XRegister) : XRegisters :=
  XRegisters_write s rd (as_u64 imm).

(* interpreter/rv32i.rs:71-74 run_andi *)
Definition run_andi : xreg_opi := fun s imm rs1 rd =>
  XRegisters_write s rd (XRegisters_read s rs1 & as_u64 imm).

(* interpreter/rv32i.rs:79-82 run_ori *)
Definition run_ori : xreg_opi := fun s imm rs1 rd =>
  XRegisters_write s rd (XRegisters_read s rs1 |: as_u64 imm).

(* interpreter/rv32i.rs:87-90 run_xori *)
Definition run_xori : xreg_opi := fun s imm rs1 rd =>
  XRegisters_write s rd (XRegisters_read s rs1 ^: as_u64 imm).

(* interpreter/rv32i.rs:95-98 run_and *)
Definition run_and : xreg_op2 := fun s rs1 rs2 rd =>
  XRegisters_write s rd (XRegisters_read s rs1 & XRegisters_read s rs2).

(* interpreter/rv32i.rs:103-106 run_or *)
Definition run_or : xreg_op2 := fun s rs1 rs2 rd =>
  XRegisters_write s rd (XRegisters_read s rs1 |: XRegisters_read s rs2).

(* interpreter/rv32i.rs:111-114 run_xor *)
Definition run_xor : xreg_op2 := fun s rs1 rs2 rd =>
  XRegisters_write s rd (XRegisters_read s rs1 ^: XRegisters_read s rs2).

(* interpreter/rv32i.rs:120-123 run_slti *)
Definition run_slti : xreg_opi := fun s imm rs1 rd =>
  XRegisters_write s rd (if as_i64 (XRegisters_read s rs1) <? imm then 1 else 0).

(* interpreter/rv32i.rs:129-132 run_sltiu *)
Definition run_sltiu : xreg_opi := fun s imm rs1 rd =>
  XRegisters_write s rd (if XRegisters_read s rs1 <? as_u64 imm then 1 else 0).

(* interpreter/rv32i.rs:138-145 run_slt *)
Definition run_slt : xreg_op2 := fun s rs1 rs2 rd =>
  XRegisters_write s rd
    (if as_i64 (XRegisters_read s rs1) <? as_i64 (XRegisters_read s rs2) then 1 else 0).

(* interpreter/rv32i.rs:151-158 run_sltu *)
Definition run_sltu : xreg_op2 := fun s rs1 rs2 rd =>
  XRegisters_write s rd (if XRegisters_read s rs1 <? XRegisters_read s rs2 then 1 else 0).

(** ** RV64I *)

(* interpreter/rv64i.rs:27-35 run_addiw *)
Definition run_addiw : xreg_opi := fun s imm rs1 rd =>
  let rval := XRegisters_read s rs1 in
  let result := rval ⊞ as_u64 imm in
  XRegisters_write s rd (as_u64 (as_i32 result)).

(* interpreter/rv64i.rs:41-49 run_addw *)
Definition run_addw : xreg_op2 := fun s rs1 rs2 rd =>
  let lhs := XRegisters_read s rs1 in
  let rhs := XRegisters_read s rs2 in
  XRegisters_write s rd (as_u64 (as_i32 (lhs ⊞ rhs))).

(* interpreter/rv64i.rs:55-63 run_subw *)
Definition run_subw : xreg_op2 := fun s rs1 rs2 rd =>
  let lhs := XRegisters_read s rs1 in
  let rhs := XRegisters_read s rs2 in
  XRegisters_write s rd (as_u64 (as_i32 (lhs ⊟ rhs))).

(* interpreter/rv64i.rs:71-74 run_slli *)
Definition run_slli : xreg_opi := fun s imm rs1 rd =>
  XRegisters_write s rd (shl_u 64 (XRegisters_read s rs1) imm).

(* interpreter/rv64i.rs:82-85 run_srli *)
Definition run_srli : xreg_opi := fun s imm rs1 rd =>
  XRegisters_write s rd (shr_u 64 (XRegisters_read s rs1) imm).

(* interpreter/rv64i.rs:93-101 run_srai *)
Definition run_srai : xreg_opi := fun s imm rs1 rd =>
  let sh_amt := imm & 63 in
  let result := sshr 64 (as_i64 (XRegisters_read s rs1)) sh_amt in
  XRegisters_write s rd (as_u64 result).

(* interpreter/rv64i.rs:107-116 run_slliw *)
Definition run_slliw : xreg_opi := fun s imm rs1 rd =>
  let result := shl_u 64 (XRegisters_read s rs1) imm in
  XRegisters_write s rd (as_u64 (as_i32 result)).

(* interpreter/rv64i.rs:122-130 run_srliw *)
Definition run_srliw : xreg_opi := fun s imm rs1 rd =>
  let result := shr_u 32 (as_u32 (XRegisters_read s rs1)) imm in
  XRegisters_write s rd (as_u64 (as_i32 result)).

(* interpreter/rv64i.rs:136-146 run_sraiw *)
Definition run_sraiw : xreg_opi := fun s imm rs1 rd =>
  let sh_amt := imm & 31 in
  let result := sshr 32 (as_i32 (XRegisters_read s rs1)) sh_amt in
  XRegisters_write s rd (as_u64 result).

(* interpreter/rv64i.rs:153-158 run_sll *)
Definition run_sll : xreg_op2 := fun s rs1 rs2 rd =>
  let sh_amt := XRegisters_read s rs2 & 63 in
  XRegisters_write s rd (shl_u 64 (XRegisters_read s rs1) sh_amt).

(* interpreter/rv64i.rs:165-170 run_srl *)
Definition run_srl : xreg_op2 := fun s rs1 rs2 rd =>
  let sh_amt := XRegisters_read s rs2 & 63 in
  XRegisters_write s rd (shr_u 64 (XRegisters_read s rs1) sh_amt).

(* interpreter/rv64i.rs:177-184 run_sra *)
Definition run_sra : xreg_op2 := fun s rs1 rs2 rd =>
  let sh_amt := XRegisters_read s rs2 & 63 in
  let result := sshr 64 (as_i64 (XRegisters_read s rs1)) sh_amt in
  XRegisters_write s rd (as_u64 result).

(* interpreter/rv64i.rs:191-200 run_sllw *)
Definition run_sllw : xreg_op2 := fun s rs1 rs2 rd =>
  let sh_amt := XRegisters_read s rs2 & 31 in
  let result := shl_u 64 (XRegisters_read s rs1) sh_amt in
  XRegisters_write s rd (as_u64 (as_i32 result)).

(* interpreter/rv64i.rs:207-215 run_srlw *)
Definition run_srlw : xreg_op2 := fun s rs1 rs2 rd =>
  let sh_amt := XRegisters_read s rs2 & 31 in
  let result := shr_u 32 (as_u32 (XRegisters_read s rs1)) sh_amt in
  XRegisters_write s rd (as_u64 (as_i32 result)).

(* interpreter/rv64i.rs:222-231 run_sraw *)
Definition run_sraw : xreg_op2 := fun s rs1 rs2 rd =>
  let sh_amt := XRegisters_read s rs2 & 31 in
  let result := sshr 32 (as_i32 (XRegisters_read s rs1)) sh_amt in
  XRegisters_write s rd (as_u64 result).

(** ** RV32M and RV64M

    The division and the remainder of the source truncate: [Z.quot] and
    [Z.rem]. *)

(* interpreter/rv32m.rs:24-37 run_rem *)
Definition run_rem : xreg_op2 := fun s rs1 rs2 rd =>
  let rval1 := as_i64 (XRegisters_read s rs1) in
  let rval2 := as_i64 (XRegisters_read s rs2) in
  let result :=
    if rval2 =? 0 then rval1
    else if (rval2 =? -1) && (rval1 =? I64_MIN) then 0
    else Z.rem rval1 rval2 in
  XRegisters_write s rd (as_u64 result).

(* interpreter/rv32m.rs:44-51 run_remu *)
Definition run_remu : xreg_op2 := fun s rs1 rs2 rd =>
  let rval1 := XRegisters_read s rs1 in
  let rval2 := XRegisters_read s rs2 in
  XRegisters_write s rd (if rval2 =? 0 then rval1 else Z.rem rval1 rval2).

(* interpreter/rv32m.rs:59-72 run_div *)
Definition run_div : xreg_op2 := fun s rs1 rs2 rd =>
  let rval1 := as_i64 (XRegisters_read s rs1) in
  let rval2 := as_i64 (XRegisters_read s rs2) in
  let result :=
    if rval2 =? 0 then -1
    else if (rval2 =? -1) && (rval1 =? I64_MIN) then I64_MIN
    else Z.quot rval1 rval2 in
  XRegisters_write s rd (as_u64 result).

(* interpreter/rv32m.rs:78-85 run_divu *)
Definition run_divu : xreg_op2 := fun s rs1 rs2 rd =>
  let rval1 := XRegisters_read s rs1 in
  let rval2 := XRegisters_read s rs2 in
  XRegisters_write s rd (if rval2 =? 0 then U64_MAX else Z.quot rval1 rval2).

(* interpreter/rv32m.rs:91-98 run_mul *)
Definition run_mul : xreg_op2 := fun s rs1 rs2 rd =>
  let rval1 := as_i64 (XRegisters_read s rs1) in
  let rval2 := as_i64 (XRegisters_read s rs2) in
  XRegisters_write s rd (as_u64 (swrap 64 (rval1 * rval2))).

(* interpreter/rv32m.rs:104-111 run_mulh *)
Definition run_mulh : xreg_op2 := fun s rs1 rs2 rd =>
  let rval1 := as_i64 (XRegisters_read s rs1) in
  let rval2 := as_i64 (XRegisters_read s rs2) in
  let result := swrap 128 (rval1 * rval2) in
  XRegisters_write s rd (as_u64 (as_i64 (sshr 128 result 64))).

(* interpreter/rv32m.rs:118-125 run_mulhsu *)
Definition run_mulhsu : xreg_op2 := fun s rs1 rs2 rd =>
  let rval1 := as_u128 (as_i64 (XRegisters_read s rs1)) in
  let rval2 := as_u128 (XRegisters_read s rs2) in
  let result := wrapping_mul 128 rval1 rval2 in
  XRegisters_write s rd (as_u64 (shr_u 128 result 64)).

(* interpreter/rv32m.rs:132-139 run_mulhu *)
Definition run_mulhu : xreg_op2 := fun s rs1 rs2 rd =>
  let rval1 := as_u128 (XRegisters_read s rs1) in
  let rval2 := as_u128 (XRegisters_read s rs2) in
  let result := wrapping_mul 128 rval1 rval2 in
  XRegisters_write s rd (as_u64 (shr_u 128 result 64)).

(* interpreter/rv64m.rs:24-37 run_remw *)
Definition run_remw : xreg_op2 := fun s rs1 rs2 rd =>
  let rval1 := as_i32 (XRegisters_read s rs1) in
  let rval2 := as_i32 (XRegisters_read s rs2) in
  let result :=
    if rval2 =? 0 then rval1
    else if (rval2 =? -1) && (rval1 =? I32_MIN) then 0
    else Z.rem rval1 rval2 in
  XRegisters_write s rd (as_u64 result).

(* interpreter/rv64m.rs:44-51 run_remuw *)
Definition run_remuw : xreg_op2 := fun s rs1 rs2 rd =>
  let rval1 := as_u32 (XRegisters_read s rs1) in
  let rval2 := as_u32 (XRegisters_read s rs2) in
  let result := if rval2 =? 0 then rval1 else Z.rem rval1 rval2 in
  XRegisters_write s rd (as_u64 (as_i32 result)).

(* interpreter/rv64m.rs:59-72 run_divw *)
Definition run_divw : xreg_op2 := fun s rs1 rs2 rd =>
  let rval1 := as_i32 (XRegisters_read s rs1) in
  let rval2 := as_i32 (XRegisters_read s rs2) in
  let result :=
    if rval2 =? 0 then -1
    else if (rval2 =? -1) && (rval1 =? I32_MIN) then I32_MIN
    else Z.quot rval1 rval2 in
  XRegisters_write s rd (as_u64 result).

(* interpreter/rv64m.rs:79-86 run_divuw *)
Definition run_divuw : xreg_op2 := fun s rs1 rs2 rd =>
  let rval1 := as_u32 (XRegisters_read s rs1) in
  let rval2 := as_u32 (XRegisters_read s rs2) in
  let result := if rval2 =? 0 then U32_MAX else Z.quot rval1 rval2 in
  XRegisters_write s rd (as_u64 (as_i32 result)).

(* interpreter/rv64m.rs:92-99 run_mulw *)
Definition run_mulw : xreg_op2 := fun s rs1 rs2 rd =>
  let rval1 := as_i32 (XRegisters_read s rs1) in
  let rval2 := as_i32 (XRegisters_read s rs2) in
  XRegisters_write s rd (as_u64 (swrap 32 (rval1 * rval2))).

(** ** RV32C and RV64C

    [debug_assert!] conditions are not part of the model. *)

Abbreviation sp := x2.

(* interpreter/rv32c.rs:85-88 run_caddi *)
Definition run_caddi (s : XRegisters) (imm : Z) (rd_rs1 : XRegister) := run_addi s imm rd_rs1 rd_rs1.

(* interpreter/rv32c.rs:95-98 run_caddi16sp *)
Definition run_caddi16sp (s : XRegisters) (imm : Z) := run_addi s imm sp sp.

(* interpreter/rv32c.rs:106-109 run_caddi4spn *)
Definition run_caddi4spn (s : XRegisters) (imm : Z) (rd : XRegister) := run_addi s imm sp rd.

(* interpreter/rv32c.rs:115-118 run_cslli *)
Definition run_cslli (s : XRegisters) (imm : Z) (rd_rs1 : XRegister) := run_slli s imm rd_rs1 rd_rs1.

(* interpreter/rv32c.rs:124-126 run_csrli *)
Definition run_csrli (s : XRegisters) (imm : Z) (rd_rs1 : XRegister) := run_srli s imm rd_rs1 rd_rs1.

(* interpreter/rv32c.rs:132-134 run_csrai *)
Definition run_csrai (s : XRegisters) (imm : Z) (rd_rs1 : XRegister) := run_srai s imm rd_rs1 rd_rs1.

(* interpreter/rv32c.rs:140-142 run_candi *)
Definition run_candi (s : XRegisters) (imm : Z) (rd_rs1 : XRegister) := run_andi s imm rd_rs1 rd_rs1.

(* interpreter/rv32c.rs:147-150 run_cmv *)
Definition run_cmv (s : XRegisters) (rd_rs1 rs2 : XRegister) := run_add s rs2 x0 rd_rs1.

(* interpreter/rv32c.rs:156-159 run_cadd *)
Definition run_cadd (s : XRegisters) (rd_rs1 rs2 : XRegister) := run_add s rd_rs1 rs2 rd_rs1.

(* interpreter/rv32c.rs:165-167 run_cand *)
Definition run_cand (s : XRegisters) (rd_rs1 rs2 : XRegister) := run_and s rd_rs1 rs2 rd_rs1.

(* interpreter/rv32c.rs:173-175 run_cxor *)
Definition run_cxor (s : XRegisters) (rd_rs1 rs2 : XRegister) := run_xor s rd_rs1 rs2 rd_rs1.

(* interpreter/rv32c.rs:181-183 run_cor *)
Definition run_cor (s : XRegisters) (rd_rs1 rs2 : XRegister) := run_or s rd_rs1 rs2 rd_rs1.

(* interpreter/rv32c.rs:189-191 run_csub *)
Definition run_csub (s : XRegisters) (rd_rs1 rs2 : XRegister) := run_sub s rd_rs1 rs2 rd_rs1.

(* interpreter/rv32c.rs:196-199 run_cli *)
Definition run_cli (s : XRegisters) (imm : Z) (rd_rs1 : XRegister) := run_addi s imm x0 rd_rs1.

(* interpreter/rv32c.rs:206-209 run_clui *)
Definition run_clui (s : XRegisters) (imm : Z) (rd_rs1 : XRegister) := run_lui s imm rd_rs1.

(* interpreter/rv64c.rs:29-32 run_caddiw *)
Definition run_caddiw (s : XRegisters) (imm : Z) (rd_rs1 : XRegister) := run_addiw s imm rd_rs1 rd_rs1.

(* interpreter/rv64c.rs:38-40 run_caddw *)
Definition run_caddw (s : XRegisters) (rd_rs1 rs2 : XRegister) := run_addw s rd_rs1 rs2 rd_rs1.

(* interpreter/rv64c.rs:47-49 run_csubw *)
Definition run_csubw (s : XRegisters) (rd_rs1 rs2 : XRegister) := run_subw s rd_rs1 rs2 rd_rs1.

(** ** Control transfers

    The new program counter is returned; it is written by the step. *)

(* interpreter/rv32i.rs:166-170 run_auipc *)
Definition run_auipc (h : HartState) (imm : Z) (rd : XRegister) : HartState :=
  xwrite h rd (h.(pc) ⊞ as_u64 imm).

(* interpreter/rv32i.rs:173-175 run_ebreak *)
Definition run_ebreak (h : HartState) : Exception := Breakpoint.

(* interpreter/rv32i.rs:178-184 run_ecall *)
Definition run_ecall (h : HartState) : Exception :=
  match h.(mode) with
  | User => EnvCallFromUMode
  | Supervisor => EnvCallFromSMode
  | Machine => EnvCallFromMMode
  end.

(* interpreter/rv32c.rs:72-74 run_cebreak *)
Definition run_cebreak (h : HartState) : Exception := Breakpoint.

(* interpreter/rv32i.rs:187-204 run_jalr_impl *)
Definition run_jalr_impl (INSTR_WIDTH : Z) (h : HartState) (imm : Z) (rs1 rd : XRegister) :
  Z * HartState :=
  let return_address := h.(pc) ⊞ INSTR_WIDTH in
  let target_address := (xread h rs1 ⊞ as_u64 imm) & not_u 64 1 in
  (target_address, xwrite h rd return_address).

(* interpreter/rv32i.rs:211-213 run_jalr *)
Definition run_jalr (h : HartState) (imm : Z) (rs1 rd : XRegister) : Z * HartState :=
  run_jalr_impl 4 h imm rs1 rd.

(* interpreter/rv32i.rs:216-224 run_jal_impl *)
Definition run_jal_impl (INSTR_WIDTH : Z) (h : HartState) (imm : Z) (rd : XRegister) : Z * HartState :=
  let current_pc := h.(pc) in
  let return_address := current_pc ⊞ INSTR_WIDTH in
  let h := xwrite h rd return_address in
  (current_pc ⊞ as_u64 imm, h).

(* interpreter/rv32i.rs:231-233 run_jal *)
Definition run_jal (h : HartState) (imm : Z) (rd : XRegister) : Z * HartState := run_jal_impl 4 h imm rd.

(* interpreter/rv32i.rs:237-252 run_beq_impl *)
Definition run_beq_impl (INSTR_WIDTH : Z) (h : HartState) (imm : Z) (rs1 rs2 : XRegister) : Z :=
  if xread h rs1 =? xread h rs2 then h.(pc) ⊞ as_u64 imm else h.(pc) ⊞ INSTR_WIDTH.

(* interpreter/rv32i.rs:258-260 run_beq *)
Definition run_beq (h : HartState) (imm : Z) (rs1 rs2 : XRegister) : Z := run_beq_impl 4 h imm rs1 rs2.

(* interpreter/rv32i.rs:263-278 run_bne_impl *)
Definition run_bne_impl (INSTR_WIDTH : Z) (h : HartState) (imm : Z) (rs1 rs2 : XRegister) : Z :=
  if negb (xread h rs1 =? xread h rs2) then h.(pc) ⊞ as_u64 imm else h.(pc) ⊞ INSTR_WIDTH.

(* interpreter/rv32i.rs:284-286 run_bne *)
Definition run_bne (h : HartState) (imm : Z) (rs1 rs2 : XRegister) : Z := run_bne_impl 4 h imm rs1 rs2.

(* interpreter/rv32i.rs:292-303 run_bge *)
Definition run_bge (h : HartState) (imm : Z) (rs1 rs2 : XRegister) : Z :=
  if as_i64 (xread h rs2) <=? as_i64 (xread h rs1) then h.(pc) ⊞ as_u64 imm else h.(pc) ⊞ 4.

(* interpreter/rv32i.rs:309-320 run_bgeu *)
Definition run_bgeu (h : HartState) (imm : Z) (rs1 rs2 : XRegister) : Z :=
  if xread h rs2 <=? xread h rs1 then h.(pc) ⊞ as_u64 imm else h.(pc) ⊞ 4.

(* interpreter/rv32i.rs:326-337 run_blt *)
Definition run_blt (h : HartState) (imm : Z) (rs1 rs2 : XRegister) : Z :=
  if as_i64 (xread h rs1) <? as_i64 (xread h rs2) then h.(pc) ⊞ as_u64 imm else h.(pc) ⊞ 4.

(* interpreter/rv32i.rs:343-354 run_bltu *)
Definition run_bltu (h : HartState) (imm : Z) (rs1 rs2 : XRegister) : Z :=
  if xread h rs1 <? xread h rs2 then h.(pc) ⊞ as_u64 imm else h.(pc) ⊞ 4.

(* interpreter/rv32c.rs:29-31 run_cj *)
Definition run_cj (h : HartState) (imm : Z) : Z * HartState := run_jal h imm x0.

(* interpreter/rv32c.rs:36-39 run_cjr *)
Definition run_cjr (h : HartState) (rs1 : XRegister) : Z * HartState := run_jalr_impl 2 h 0 rs1 x0.

(* interpreter/rv32c.rs:46-49 run_cjalr *)
Definition run_cjalr (h : HartState) (rs1 : XRegister) : Z * HartState := run_jalr_impl 2 h 0 rs1 x1.

(* interpreter/rv32c.rs:56-58 run_cbeqz *)
Definition run_cbeqz (h : HartState) (imm : Z) (rs1 : XRegister) : Z := run_beq_impl 2 h imm rs1 x0.

(* interpreter/rv32c.rs:65-67 run_cbnez *)
Definition run_cbnez (h : HartState) (imm : Z) (rs1 : XRegister) : Z := run_bne_impl 2 h imm rs1 x0.
