(* ===== verification/IntInstrSpec.v ===== *)
(** The integer instructions against arithmetic on the integers: products,
    quotients and remainders, shifts and 32-bit operations, branches. *)
From S2P Require Import Prelude Registers Traps CSRegister HartState IntInstr.

(** The value written by an operation on the registers [rs1] and [rs2]. *)
Definition writes (op : xreg_op2) (s : XRegisters) (rs1 rs2 rd : XRegister) (v : Z) : Prop :=
  op s rs1 rs2 rd = XRegisters_write s rd v /\ is_u 64 v.

(** ** Multiplication *)

Lemma as_i64_range a : is_i 64 (as_i64 a).
Proof. by apply swrap_range. Qed.

Lemma as_i32_range a : is_i 32 (as_i32 a).
Proof. by apply swrap_range. Qed.

(** The high half of a product that fits in 128 signed bits. *)
Lemma high_half p : is_i 128 p -> sshr 128 (swrap 128 p) 64 = p / 2 ^ 64 /\ is_i 64 (p / 2 ^ 64).
Proof.
  intros P. unfold sshr. change (64 mod 128) with 64.
  rewrite swrap_small, Z.shiftr_div_pow2 by (done || lia). split; [done|].
  unfold is_i in *. change (2 ^ (128 - 1)) with (2 ^ 63 * 2 ^ 64) in P.
  split; [apply Z.div_le_lower_bound; lia|apply Z.div_lt_upper_bound; lia].
Qed.

Lemma product_signed a b : is_i 64 a -> is_i 64 b -> is_i 128 (a * b).
Proof. unfold is_i. pow2. nia. Qed.

Lemma product_mixed a b : is_i 64 a -> is_u 64 b -> is_i 128 (a * b).
Proof. unfold is_i, is_u. pow2. nia. Qed.

Lemma mod_mul_as_i64 a b : (as_i64 a * as_i64 b) mod 2 ^ 64 = (a * b) mod 2 ^ 64.
Proof. rewrite Z.mul_mod, !swrap_mod, <- Z.mul_mod by lia. done. Qed.

Lemma as_i64_u64 z : is_i 64 z -> as_i64 (as_u64 z) = z.
Proof. intros. rewrite swrap_wrap by lia. by apply swrap_small. Qed.

(** The unsigned high half of a product modulo [2^128]. *)
Lemma high_half_mod p : as_u64 (shr_u 128 (wrap 128 p) 64) = (p / 2 ^ 64) mod 2 ^ 64.
Proof.
  unfold shr_u, wrap. change (64 mod 128) with 64. rewrite Z.shiftr_div_pow2 by lia.
  change (2 ^ 128) with (2 ^ 64 * 2 ^ 64). rewrite Z.rem_mul_r by lia.
  rewrite (Z.mul_comm (2 ^ 64) (_ mod _)), Z.div_add by lia.
  rewrite (Z.div_small (_ mod _)) by (apply Z.mod_pos_bound; lia). by rewrite Z.add_0_l, Z.mod_mod by lia.
Qed.

(** Multiplication: [MUL] gives the low 64 bits of the product, and [MULH],
    [MULHSU] and [MULHU] the high half of the signed, mixed and unsigned
    product, so that the two halves are the exact 128-bit product. *)
Theorem multiplication_spec s rs1 rs2 rd :
  XRegisters_wf s ->
  let a := XRegisters_read s rs1 in let b := XRegisters_read s rs2 in
  exists lo hs hm hu,
    writes run_mul s rs1 rs2 rd lo /\ writes run_mulh s rs1 rs2 rd hs /\
    writes run_mulhsu s rs1 rs2 rd hm /\ writes run_mulhu s rs1 rs2 rd hu /\
    2 ^ 64 * as_i64 hs + lo = as_i64 a * as_i64 b /\
    2 ^ 64 * as_i64 hm + lo = as_i64 a * b /\
    2 ^ 64 * hu + lo = a * b.
Proof.
  intros W a b. pose proof (XRegisters_read_u64 s rs1 W) as A. pose proof (XRegisters_read_u64 s rs2 W) as B.
  fold a in A. fold b in B. pose proof (as_i64_range a) as IA. pose proof (as_i64_range b) as IB.
  destruct (high_half _ (product_signed _ _ IA IB)) as [H1 H2].
  pose proof (high_half _ (product_mixed _ _ IA B)) as [_ H3].
  exists ((a * b) mod 2 ^ 64), ((as_i64 a * as_i64 b) / 2 ^ 64 mod 2 ^ 64),
    ((as_i64 a * b) / 2 ^ 64 mod 2 ^ 64), ((a * b) / 2 ^ 64).
  assert (Hu : is_u 64 (a * b / 2 ^ 64)).
  { unfold is_u in *. split; [apply Z.div_pos; nia|apply Z.div_lt_upper_bound; nia]. }
  unfold writes, run_mul, run_mulh, run_mulhsu, run_mulhu, wrapping_mul. fold a b.
  split_and!.
  1, 3, 5, 7: f_equal.
  - rewrite wrap_swrap by lia. unfold wrap. apply mod_mul_as_i64.
  - rewrite H1, swrap_small by (done || lia). done.
  - rewrite <- high_half_mod. do 2 f_equal. unfold wrap.
    rewrite <- Z.mul_mod by lia. done.
  - rewrite (wrap_small 128 a), (wrap_small 128 b) by (apply (is_u_mono 64); [lia|done]).
    rewrite high_half_mod. by apply Z.mod_small.
  - apply (wrap_range 64); lia.
  - apply (wrap_range 64); lia.
  - apply (wrap_range 64); lia.
  - done.
  - rewrite (as_i64_u64 _ H2 : as_i64 ((_ / _) mod _) = _), <- mod_mul_as_i64. symmetry. apply Z.div_mod. lia.
  - rewrite (as_i64_u64 _ H3 : as_i64 ((_ / _) mod _) = _).
    assert ((a * b) mod 2 ^ 64 = (as_i64 a * b) mod 2 ^ 64) as ->.
    { rewrite Z.mul_mod, <- (swrap_mod 64 a), <- Z.mul_mod by lia. done. }
    symmetry. apply Z.div_mod. lia.
  - symmetry. apply Z.div_mod. lia.
Qed.

(** ** Division *)

(** Truncating division as the ISA defines it, with the results for a zero
    divisor and for the one quotient that does not fit. *)
Definition signed_division (min a b q r : Z) : Prop :=
  if b =? 0 then q = -1 /\ r = a
  else if (b =? -1) && (a =? min) then q = min /\ r = 0
  else a = b * q + r /\ Z.abs r < Z.abs b /\ 0 <= a * r.

Definition unsigned_division (max a b q r : Z) : Prop :=
  if b =? 0 then q = max /\ r = a else a = b * q + r /\ 0 <= r < b.

Lemma quot_rem_spec a b : b <> 0 -> a = b * Z.quot a b + Z.rem a b /\ Z.abs (Z.rem a b) < Z.abs b /\ 0 <= a * Z.rem a b.
Proof.
  intros N. split_and!; [by apply Z.quot_rem|by apply Z.rem_bound_abs|].
  rewrite Z.mul_comm. by apply Z.rem_sign_mul.
Qed.

Lemma quot_range w a b :
  1 < w -> is_i w a -> is_i w b -> b <> 0 -> ~ (b = -1 /\ a = - 2 ^ (w - 1)) ->
  is_i w (Z.quot a b) /\ is_i w (Z.rem a b).
Proof.
  intros W A B N O. destruct (quot_rem_spec a b N) as (E & R & _). unfold is_i in *.
  pose proof (pow2_pos (w - 1) ltac:(lia)). set (m := 2 ^ (w - 1)) in *. clearbody m.
  set (q := Z.quot a b) in *. set (r := Z.rem a b) in *.
  assert (Z.abs q <= Z.abs a).
  { unfold q. rewrite <- Z.quot_abs by done. destruct (decide (Z.abs b = 1)) as [->|].
    - by rewrite Z.quot_1_r.
    - destruct (decide (a = 0)) as [->|]; [by rewrite Z.quot_0_l by lia|].
      apply Z.lt_le_incl, Z.quot_lt; lia. }
  split; [|lia]. split; [lia|]. destruct (Z_lt_ge_dec q m) as [|G]; [done|].
  exfalso. assert (a = - m) by lia. assert (q = m) as Q by lia. rewrite Q in E. apply O.
  split; [|done]. nia.
Qed.

(** A result of a division, with its two special cases. *)
Lemma signed_result w x y a b :
  1 < w -> is_i w a -> is_i w b -> is_i w x -> is_i w y ->
  is_i w (if b =? 0 then x else if (b =? -1) && (a =? - 2 ^ (w - 1)) then y else Z.quot a b) /\
  is_i w (if b =? 0 then x else if (b =? -1) && (a =? - 2 ^ (w - 1)) then y else Z.rem a b).
Proof.
  intros W A B X Y. destruct (Z.eqb_spec b 0) as [|N]; [done|].
  destruct (_ && _) eqn:O; [done|]. apply quot_range; try done.
  intros [E1 E2]. by rewrite E1, E2, !Z.eqb_refl in O.
Qed.

Lemma signed_division_ok min a b :
  signed_division min a b
    (if b =? 0 then -1 else if (b =? -1) && (a =? min) then min else Z.quot a b)
    (if b =? 0 then a else if (b =? -1) && (a =? min) then 0 else Z.rem a b).
Proof.
  unfold signed_division. destruct (Z.eqb_spec b 0); [done|]. destruct (_ && _); [done|].
  by apply quot_rem_spec.
Qed.

Lemma unsigned_division_ok w max a b :
  0 < w -> is_u w a -> is_u w b -> is_u w max ->
  let q := if b =? 0 then max else Z.quot a b in let r := if b =? 0 then a else Z.rem a b in
  unsigned_division max a b q r /\ is_u w q /\ is_u w r.
Proof.
  intros W A B M q r. unfold unsigned_division, q, r. destruct (Z.eqb_spec b 0); [done|].
  unfold is_u in *. rewrite Z.quot_div_nonneg, Z.rem_mod_nonneg by lia.
  pose proof (Z.mod_pos_bound a b ltac:(lia)). pose proof (Z.div_mod a b ltac:(lia)).
  assert (a / b <= a) by (apply Z.div_le_upper_bound; nia).
  assert (0 <= a / b) by (apply Z.div_pos; lia). lia.
Qed.

Lemma is_i_min w : 1 < w -> is_i w (- 2 ^ (w - 1)) /\ is_i w 0 /\ is_i w (-1).
Proof. intros W. unfold is_i. pose proof (pow2_pos (w - 1) ltac:(lia)). lia. Qed.

Lemma u64_of_wrap v : is_u 64 (as_u64 v).
Proof. apply wrap_range. lia. Qed.

(** C39. Division: on every pair of operands [DIV]/[REM] and [DIVU]/[REMU] (64
    bits), [DIVW]/[REMW] and [DIVUW]/[REMUW] (32 bits, results sign-extended)
    give the quotient rounded towards zero and the remainder with the sign of
    the dividend; division by zero gives all ones and the dividend, the
    overflowing signed division the dividend and zero; nothing traps.  The
    32-bit instructions use the low 32 bits of both operands and sign-extend
    the result, as the ISA manual says; the comments in the code give REMUW the
    full registers, REMW by zero the full dividend, DIVUW by zero [u32::MAX],
    where [rd] holds 2^64 - 1, and REM the overflow of 32 bits. *)
Theorem division_spec s rs1 rs2 rd :
  XRegisters_wf s ->
  let a := XRegisters_read s rs1 in let b := XRegisters_read s rs2 in
  exists q r qu ru qw rw quw ruw,
    writes run_div s rs1 rs2 rd (as_u64 q) /\ writes run_rem s rs1 rs2 rd (as_u64 r) /\
    is_i 64 q /\ is_i 64 r /\ signed_division I64_MIN (as_i64 a) (as_i64 b) q r /\
    writes run_divu s rs1 rs2 rd qu /\ writes run_remu s rs1 rs2 rd ru /\
    unsigned_division U64_MAX a b qu ru /\
    writes run_divw s rs1 rs2 rd (as_u64 qw) /\ writes run_remw s rs1 rs2 rd (as_u64 rw) /\
    is_i 32 qw /\ is_i 32 rw /\ signed_division I32_MIN (as_i32 a) (as_i32 b) qw rw /\
    writes run_divuw s rs1 rs2 rd (as_u64 (as_i32 quw)) /\ writes run_remuw s rs1 rs2 rd (as_u64 (as_i32 ruw)) /\
    is_u 32 quw /\ is_u 32 ruw /\ unsigned_division U32_MAX (as_u32 a) (as_u32 b) quw ruw.
Proof.
  intros W a b. pose proof (XRegisters_read_u64 s rs1 W) as A. pose proof (XRegisters_read_u64 s rs2 W) as B.
  fold a in A. fold b in B.
  destruct (is_i_min 64 ltac:(lia)) as (M1 & M2 & M3). destruct (is_i_min 32 ltac:(lia)) as (N1 & N2 & N3).
  pose proof (signed_result 64 (-1) I64_MIN _ _ ltac:(lia) (as_i64_range a) (as_i64_range b) M3 M1) as [Q64 _].
  pose proof (signed_result 64 (as_i64 a) 0 _ _ ltac:(lia) (as_i64_range a) (as_i64_range b) (as_i64_range a) M2) as [_ R64].
  pose proof (signed_result 32 (-1) I32_MIN _ _ ltac:(lia) (as_i32_range a) (as_i32_range b) N3 N1) as [Q32 _].
  pose proof (signed_result 32 (as_i32 a) 0 _ _ ltac:(lia) (as_i32_range a) (as_i32_range b) (as_i32_range a) N2) as [_ R32].
  destruct (unsigned_division_ok 64 U64_MAX a b ltac:(lia) A B ltac:(by vm_compute)) as (D1 & D2 & D3).
  destruct (unsigned_division_ok 32 U32_MAX (as_u32 a) (as_u32 b) ltac:(lia)
    (wrap_range 32 a ltac:(lia)) (wrap_range 32 b ltac:(lia)) ltac:(by vm_compute)) as (E1 & E2 & E3).
  eexists (if as_i64 b =? 0 then -1 else if (as_i64 b =? -1) && (as_i64 a =? I64_MIN) then I64_MIN else _),
    (if as_i64 b =? 0 then as_i64 a else if (as_i64 b =? -1) && (as_i64 a =? I64_MIN) then 0 else _),
    (if b =? 0 then U64_MAX else _), (if b =? 0 then a else _),
    (if as_i32 b =? 0 then -1 else if (as_i32 b =? -1) && (as_i32 a =? I32_MIN) then I32_MIN else _),
    (if as_i32 b =? 0 then as_i32 a else if (as_i32 b =? -1) && (as_i32 a =? I32_MIN) then 0 else _),
    (if as_u32 b =? 0 then U32_MAX else _), (if as_u32 b =? 0 then as_u32 a else _).
  unfold writes.
  split_and!; try apply u64_of_wrap; try reflexivity; try eassumption.
  all: apply signed_division_ok.
Qed.

(** ** Shifts and 32-bit operations *)

Lemma land_63 b : (b & 63) = b mod 64.
Proof. change 63 with (Z.ones 6). by rewrite Z.land_ones by lia. Qed.

Lemma land_31 b : (b & 31) = b mod 32.
Proof. change 31 with (Z.ones 5). by rewrite Z.land_ones by lia. Qed.

Lemma shl_u_spec a n : 0 <= n < 64 -> shl_u 64 a n = (a * 2 ^ n) mod 2 ^ 64.
Proof. intros N. unfold shl_u. rewrite Z.mod_small, Z.shiftl_mul_pow2 by lia. done. Qed.

Lemma shr_u_spec w a n : 0 <= n < w -> shr_u w a n = a / 2 ^ n.
Proof. intros N. unfold shr_u. rewrite Z.mod_small, Z.shiftr_div_pow2 by lia. done. Qed.

Lemma sshr_spec w a n : 0 <= n < w -> sshr w a n = a / 2 ^ n.
Proof. intros N. unfold sshr. rewrite Z.mod_small, Z.shiftr_div_pow2 by lia. done. Qed.

Lemma swrap_mod_le w v z : 0 < v <= w -> swrap v (z mod 2 ^ w) = swrap v z.
Proof.
  intros V. rewrite <- (swrap_wrap v (z mod 2 ^ w)), <- (swrap_wrap v z) by lia.
  f_equal. change (z mod 2 ^ w) with (wrap w z). apply wrap_wrap_le. lia.
Qed.

Lemma div_pow2_u64 a n : is_u 64 a -> 0 <= n -> is_u 64 (a / 2 ^ n).
Proof.
  intros A N. rewrite <- Z.shiftr_div_pow2 by lia. by apply shr_is_u.
Qed.

Lemma as_i32_as_u64 z : as_i32 (as_u64 z) = as_i32 z.
Proof. by apply (swrap_mod_le 64 32). Qed.

Lemma as_i32_add_as_u64 a i : as_i32 (a + as_u64 i) = as_i32 (a + i).
Proof.
  rewrite <- (as_i32_as_u64 (a + as_u64 i)), <- (as_i32_as_u64 (a + i)). unfold wrap.
  by rewrite Zplus_mod_idemp_r.
Qed.

Lemma as_i32_mul a b : as_i32 (as_i32 a * as_i32 b) = as_i32 (a * b).
Proof.
  rewrite <- (swrap_wrap 32 (_ * _)), <- (swrap_wrap 32 (a * b)) by lia. f_equal. unfold wrap.
  rewrite Z.mul_mod, !swrap_mod, <- Z.mul_mod by lia. done.
Qed.

(** The value written by an operation with an immediate. *)
Definition writes_imm (op : xreg_opi) (s : XRegisters) (imm : Z) (rs1 rd : XRegister) (v : Z) : Prop :=
  op s imm rs1 rd = XRegisters_write s rd v /\ is_u 64 v.

(** Shifts and 32-bit operations: shift amounts count modulo the width;
    left shifts multiply by a power of two modulo the width, logical right
    shifts divide the unsigned value, arithmetic ones the signed value with
    rounding towards minus infinity; the [W] operations work on the low 32 bits
    and sign-extend their 32-bit result. *)
Theorem shift_word_spec s rs1 rs2 rd imm immw :
  XRegisters_wf s -> 0 <= imm < 64 -> 0 <= immw < 32 ->
  let a := XRegisters_read s rs1 in let b := XRegisters_read s rs2 in
  let sext v := as_u64 (as_i32 v) in
  writes run_sll s rs1 rs2 rd ((a * 2 ^ (b mod 64)) mod 2 ^ 64) /\
  writes run_srl s rs1 rs2 rd (a / 2 ^ (b mod 64)) /\
  writes run_sra s rs1 rs2 rd (as_u64 (as_i64 a / 2 ^ (b mod 64))) /\
  writes run_sllw s rs1 rs2 rd (sext (a * 2 ^ (b mod 32))) /\
  writes run_srlw s rs1 rs2 rd (sext (as_u32 a / 2 ^ (b mod 32))) /\
  writes run_sraw s rs1 rs2 rd (as_u64 (as_i32 a / 2 ^ (b mod 32))) /\
  writes run_addw s rs1 rs2 rd (sext (a + b)) /\ writes run_subw s rs1 rs2 rd (sext (a - b)) /\
  writes run_mulw s rs1 rs2 rd (sext (a * b)) /\
  writes_imm run_slli s imm rs1 rd ((a * 2 ^ imm) mod 2 ^ 64) /\
  writes_imm run_srli s imm rs1 rd (a / 2 ^ imm) /\
  writes_imm run_srai s imm rs1 rd (as_u64 (as_i64 a / 2 ^ imm)) /\
  writes_imm run_slliw s immw rs1 rd (sext (a * 2 ^ immw)) /\
  writes_imm run_srliw s immw rs1 rd (sext (as_u32 a / 2 ^ immw)) /\
  writes_imm run_sraiw s immw rs1 rd (as_u64 (as_i32 a / 2 ^ immw)) /\
  (forall i, writes_imm run_addiw s i rs1 rd (sext (a + i))).
Proof.
  intros W I Iw a b sext. pose proof (XRegisters_read_u64 s rs1 W) as A. fold a in A.
  pose proof (Z.mod_pos_bound b 64 ltac:(lia)). pose proof (Z.mod_pos_bound b 32 ltac:(lia)).
  unfold writes, writes_imm, run_sll, run_srl, run_sra, run_sllw, run_srlw, run_sraw, run_addw, run_subw,
    run_mulw, run_slli, run_srli, run_srai, run_slliw, run_srliw, run_sraiw, run_addiw, sext,
    wrapping_add, wrapping_sub. fold a b.
  rewrite !land_63, !land_31, (Z.mod_small imm), (Z.mod_small immw), !shl_u_spec, !shr_u_spec, ?sshr_spec by lia.
  rewrite !(swrap_mod_le 64 32), !as_i32_as_u64, as_i32_mul by lia.
  split_and!; try reflexivity; try (apply (u64_of_wrap (_ * _))); try apply u64_of_wrap;
    try (apply div_pow2_u64; [done|lia]).
  intros i. rewrite as_i32_as_u64, as_i32_add_as_u64. split; [reflexivity|apply u64_of_wrap].
Qed.

(** ** Control transfers *)

(** Branches and jumps: a branch goes to [pc + imm] modulo [2^64] exactly
    when the comparison of the unsigned or signed operands holds and to the
    next instruction otherwise, without changing the hart; [JAL] and [JALR]
    write the address of the next instruction and go to [pc + imm], or to
    [rs1 + imm] with the lowest bit cleared (the operand is read before the link
    register is written). *)
Theorem control_transfer_spec h imm rs1 rs2 rd :
  let a := xread h rs1 in let b := xread h rs2 in
  let taken := (h.(pc) + imm) mod 2 ^ 64 in let next := (h.(pc) + 4) mod 2 ^ 64 in
  run_beq h imm rs1 rs2 = (if bool_decide (a = b) then taken else next) /\
  run_bne h imm rs1 rs2 = (if bool_decide (a <> b) then taken else next) /\
  run_blt h imm rs1 rs2 = (if bool_decide (as_i64 a < as_i64 b) then taken else next) /\
  run_bge h imm rs1 rs2 = (if bool_decide (as_i64 b <= as_i64 a) then taken else next) /\
  run_bltu h imm rs1 rs2 = (if bool_decide (a < b) then taken else next) /\
  run_bgeu h imm rs1 rs2 = (if bool_decide (b <= a) then taken else next) /\
  run_jal h imm rd = (taken, xwrite h rd next) /\
  run_jalr h imm rs1 rd = (2 * (((a + imm) mod 2 ^ 64) / 2), xwrite h rd next).
Proof.
  intros a b taken next.
  assert (T : forall x, x ⊞ as_u64 imm = (x + imm) mod 2 ^ 64).
  { intros x. unfold wrapping_add, wrap. by rewrite Zplus_mod_idemp_r. }
  assert (M : not_u 64 1 = not_u 64 (Z.ones 1)) by done.
  unfold run_beq, run_bne, run_blt, run_bge, run_bltu, run_bgeu, run_beq_impl, run_bne_impl, run_jal,
    run_jal_impl, run_jalr, run_jalr_impl. fold a b. rewrite !T, M.
  rewrite land_not_ones by (lia || apply (wrap_range 64); lia). fold taken.
  change (pc h ⊞ 4) with next. split_and!; try done.
  all: bool_cases; repeat case_bool_decide; try done; lia.
Qed.

(** ** Examples *)

(** Registers with [-7] in [x5] and [2] in [x6]. *)
Definition XRegisters_example : XRegisters :=
  XRegisters_write (XRegisters_write XRegisters_default x5 (2 ^ 64 - 7)) x6 2.

Lemma XRegisters_example_wf : XRegisters_wf XRegisters_example.
Proof. apply XRegisters_write_wf; [apply XRegisters_write_wf; [apply XRegisters_default_wf|]|]; by vm_compute. Qed.

Lemma multiplication_spec_witness :
  exists lo hs, writes run_mul XRegisters_example x5 x6 x7 lo /\ writes run_mulh XRegisters_example x5 x6 x7 hs /\
    2 ^ 64 * as_i64 hs + lo = -14.
Proof.
  destruct (multiplication_spec XRegisters_example x5 x6 x7 XRegisters_example_wf)
    as (lo & hs & hm & hu & L & S & _ & _ & E & _).
  exists lo, hs. exact (conj L (conj S E)).
Defined.

Lemma division_spec_witness :
  exists q r, writes run_div XRegisters_example x5 x6 x7 (as_u64 q) /\
    writes run_rem XRegisters_example x5 x6 x7 (as_u64 r) /\ -7 = 2 * q + r /\ Z.abs r < 2.
Proof.
  destruct (division_spec XRegisters_example x5 x6 x7 XRegisters_example_wf)
    as (q & r & qu & ru & qw & rw & quw & ruw & Q & R & _ & _ & D & _).
  exists q, r. destruct D as (D & B & _). exact (conj Q (conj R (conj D B))).
Defined.

Lemma shift_word_spec_witness :
  writes run_sra XRegisters_example x5 x6 x7 (as_u64 (-7 / 2 ^ 2)).
Proof.
  refine (proj1 (proj2 (proj2 (shift_word_spec XRegisters_example x5 x6 x7 1 1 XRegisters_example_wf _ _)))); lia.
Defined.
