(* ===== verification/MachineCore.v ===== *)
(** The part of the machine that runs instructions:
    [MachineCoreState] of [src/riscv/lib/src/machine_state.rs], its address
    translation ([machine_state/address_translation.rs]) and the memory access
    functions of [interpreter/common_memory.rs]. *)
From S2P Require Import Prelude Bits Registers CSRegister Traps XStatus XStatusSpec CSRegisters.
From S2P Require Import HartState Bus AddressTranslation TranslationCache.

(* machine_state.rs:62-66 MachineCoreState *)
Record MachineCoreState : Type := {
  hart : HartState;
  bus : Bus;
  translation_cache : TranslationCache;
}.

Definition set_hart (c : MachineCoreState) (h : HartState) : MachineCoreState :=
  {| hart := h; bus := c.(bus); translation_cache := c.(translation_cache) |}.
Definition set_bus (c : MachineCoreState) (b : Bus) : MachineCoreState :=
  {| hart := c.(hart); bus := b; translation_cache := c.(translation_cache) |}.
Definition set_translation_cache (c : MachineCoreState) (t : TranslationCache) : MachineCoreState :=
  {| hart := c.(hart); bus := c.(bus); translation_cache := t |}.

Definition coreM (A : Type) : Type := stM MachineCoreState Exception A.

(** Runs a method of the hart on the core state. *)
Definition on_hart {A} (m : hartM A) : coreM A := fun c =>
  let '(r, h) := m c.(hart) in (r, set_hart c h).

Section core.
Context `{ML : MainMemoryLayout}.

(** [MachineCoreState::reset]; the translation cache is reset after the bus. *)
(* machine_state.rs:372-379 MachineCoreState::reset *)
Definition MachineCoreState_reset (c : MachineCoreState) : MachineCoreState :=
  let c := set_hart c (HartState_reset c.(hart) start_of_main_memory) in
  let c := set_bus c (Bus_reset c.(bus)) in
  set_translation_cache c (TranslationCache_reset c.(translation_cache)).

(** ** Translation *)

(* machine_state/address_translation.rs:203-215 effective_translation_hart_mode *)
Definition effective_translation_hart_mode (c : MachineCoreState) (mode : Mode)
  (access_type : AccessType) : Mode :=
  let mstatus := c.(hart).(csregisters).(mstatus_cells) in
  match access_type with
  | AStore | ALoad => if mstatus.(m_mprv) then MPPValue_to_mode mstatus.(m_mpp) else mode
  | AInstruction => mode
  end.

(* machine_state/address_translation.rs:221-239 effective_translation_alg *)
Definition effective_translation_alg (c : MachineCoreState) (mode : Mode) (satp : Z)
  (access_type : AccessType) : TranslationAlgorithm :=
  match effective_translation_hart_mode c mode access_type with
  | Machine => Algo.Bare
  | _ => csr_get Satp.MODE (csr_from_bits Satp_fields satp)
  end.

(* machine_state/address_translation.rs:243-266 translate_with_prefetch *)
Definition translate_with_prefetch (c : MachineCoreState) (mode : Mode) (satp virt_addr : Z)
  (access_type : AccessType) : result Z Exception :=
  let sv_length :=
    match effective_translation_alg c mode satp access_type with
    | Algo.Bare => None
    | Algo.Sv39 => Some Sv39
    | Algo.Sv48 => Some Sv48
    | Algo.Sv57 => Some Sv57
    end in
  match sv_length with
  | None => Ok virt_addr
  | Some sv_length =>
      result_map_err (fun _ => AccessType_exception access_type virt_addr)
        (sv_translate_impl c.(bus) virt_addr (csr_from_bits Satp_fields satp) sv_length access_type)
  end.

(** What [translate] and [translate_instr_address] do with the given mode and
    [satp]: probe the cache, otherwise translate and remember. *)
Definition translate_cached (mode : Mode) (satp virt_addr : Z) (access_type : AccessType) : coreM Z :=
  fun c =>
    match TranslationCache_try_translate c.(translation_cache) mode satp access_type virt_addr with
    | Some phys_addr => (Ok phys_addr, c)
    | None =>
        match translate_with_prefetch c mode satp virt_addr access_type with
        | Err e => (Err e, c)
        | Ok phys_addr =>
            (Ok phys_addr,
             set_translation_cache c
               (TranslationCache_cache_translation c.(translation_cache) mode satp access_type
                  virt_addr phys_addr))
        end
    end.

(* machine_state/address_translation.rs:270-293 translate *)
Definition translate (virt_addr : Z) (access_type : AccessType) : coreM Z := fun c =>
  let mode := c.(hart).(mode) in
  let satp := csr_read c.(hart) CSR.satp in
  translate_cached mode satp virt_addr access_type c.

(* machine_state/address_translation.rs:297-308 translate_without_cache *)
Definition translate_without_cache (c : MachineCoreState) (virt_addr : Z) (access_type : AccessType) :
  result Z Exception :=
  translate_with_prefetch c c.(hart).(mode) (csr_read c.(hart) CSR.satp) virt_addr access_type.

(** ** Memory accesses *)

(* interpreter/common_memory.rs:22-31 read_from_address *)
Definition read_from_address (T : Elem) (address : Z) : coreM Z :=
  let! address := translate address ALoad in
  fun c => (result_map_err (fun _ => LoadAccessFault address) (Bus_read T c.(bus) address), c).

(* interpreter/common_memory.rs:34-41 read_from_bus *)
Definition read_from_bus (T : Elem) (imm : Z) (rs1 : XRegister) : coreM Z := fun c =>
  let address := xread c.(hart) rs1 ⊞ as_u64 imm in
  read_from_address T address c.

(* interpreter/common_memory.rs:44-54 write_to_address *)
Definition write_to_address (T : Elem) (address value : Z) : coreM unit :=
  let! address := translate address AStore in
  fun c =>
    let '(r, b) := Bus_write T c.(bus) address value in
    (result_map_err (fun _ => StoreAMOAccessFault address) r, set_bus c b).

(* interpreter/common_memory.rs:57-65 write_to_bus *)
Definition write_to_bus (T : Elem) (imm : Z) (rs1 : XRegister) (value : Z) : coreM unit := fun c =>
  let address := xread c.(hart) rs1 ⊞ as_u64 imm in
  write_to_address T address value c.

End core.
