(* ===== verification/MachineCoreSpec.v ===== *)
(** Cached translation is translation: the cache is transparent as long as it
    is coherent, which [translate] preserves; and loads read what stores
    wrote. *)
From S2P Require Import Prelude Bits Registers CSRegister Traps XStatus XStatusSpec CSRegisters.
From S2P Require Import CSRegistersSpec HartState HartStateSpec Bus BusSpec AddressTranslation.
From S2P Require Import AddressTranslationSpec TranslationCache TranslationCacheSpec MachineCore.

(** ** Pages *)

Lemma page_mask_spec a : is_u 64 a -> (a & PAGE_MASK) = 2 ^ 12 * (a / 2 ^ 12).
Proof. intros. change PAGE_MASK with (not_u 64 (Z.ones 12)). apply land_not_ones; [lia|done]. Qed.

Lemma offset_mask_spec a : (a & OFFSET_MASK) = a mod 2 ^ 12.
Proof. change OFFSET_MASK with (Z.ones 12). by rewrite Z.land_ones by lia. Qed.

Lemma page_or_offset p a :
  is_u 64 p -> ((p & PAGE_MASK) |: (a & OFFSET_MASK)) = 2 ^ 12 * (p / 2 ^ 12) + a mod 2 ^ 12.
Proof.
  intros. rewrite <- page_mask_spec, <- offset_mask_spec by done.
  rewrite Z.add_nocarry_lxor, Z.lxor_lor; [done|..].
  all: bits_eq; change PAGE_MASK with (not_u 64 (Z.ones 12)); change OFFSET_MASK with (Z.ones 12);
    autorewrite with bits; destruct (Z.testbit p i), (Z.testbit a i); bits_cases.
Qed.

Lemma same_page a b :
  is_u 64 a -> is_u 64 b -> (a & PAGE_MASK) = (b & PAGE_MASK) <-> a / 2 ^ 12 = b / 2 ^ 12.
Proof. intros. rewrite !page_mask_spec by done. lia. Qed.

(** ** Translation is uniform on pages *)

Lemma vpn_same_page va va' i : va / 2 ^ 12 = va' / 2 ^ 12 -> vpn va i = vpn va' i.
Proof.
  intros E. unfold vpn. rewrite Z.pow_add_r, <- !Z.div_div, E by lia. done.
Qed.

Lemma leaf_at_same_page `{ML : MainMemoryLayout} b va va' a i j bits :
  va / 2 ^ 12 = va' / 2 ^ 12 -> leaf_at b va a i j bits -> leaf_at b va' a i j bits.
Proof.
  intros E. induction 1 as [a i bits R V L|a i j t bits R V L LA IH].
  - apply leaf_here; [by rewrite <- (vpn_same_page va va')|done..].
  - eapply leaf_next; [by rewrite <- (vpn_same_page va va')|done..].
Qed.

Lemma page_offset_split va j :
  0 <= va -> va mod 2 ^ (12 + 9 * Z.of_nat j) =
    2 ^ 12 * ((va / 2 ^ 12) mod 2 ^ (9 * Z.of_nat j)) + va mod 2 ^ 12.
Proof.
  intros. rewrite Z.pow_add_r, Z.rem_mul_r by (lia || apply pow2_pos; lia). lia.
Qed.

Section translation.
Context `{ML : MainMemoryLayout}.

Lemma sv_translate_page b va va' satp sv acc pa :
  0 <= va -> 0 <= va' -> va / 2 ^ 12 = va' / 2 ^ 12 ->
  sv_translate_impl b va satp sv acc = Ok pa ->
  sv_translate_impl b va' satp sv acc = Ok (2 ^ 12 * (pa / 2 ^ 12) + va' mod 2 ^ 12).
Proof.
  intros N N' E T. apply sv_translate_spec in T as (j & bits & LA & A & D & Al & ->).
  apply sv_translate_spec. exists j, bits. split; [by eapply leaf_at_same_page|].
  split_and!; [done..|].
  rewrite !page_offset_split, <- E by done.
  pose proof (Z.mod_pos_bound va (2 ^ 12) ltac:(lia)).
  set (q := (va / 2 ^ 12) mod 2 ^ (9 * Z.of_nat j)) in *.
  assert ((2 ^ 12 * entry_ppn bits + (2 ^ 12 * q + va mod 2 ^ 12)) / 2 ^ 12 = entry_ppn bits + q) as ->.
  { symmetry. apply Z.div_unique with (va mod 2 ^ 12); lia. }
  lia.
Qed.

Lemma translate_page c md satp va va' acc pa :
  0 <= va -> 0 <= va' -> va / 2 ^ 12 = va' / 2 ^ 12 ->
  translate_with_prefetch c md satp va acc = Ok pa ->
  translate_with_prefetch c md satp va' acc = Ok (2 ^ 12 * (pa / 2 ^ 12) + va' mod 2 ^ 12).
Proof.
  intros N N' E. unfold translate_with_prefetch.
  assert (Bare : Ok (E := Exception) va = Ok pa -> Ok (E := Exception) va' = Ok (2 ^ 12 * (pa / 2 ^ 12) + va' mod 2 ^ 12)).
  { intros [= <-]. rewrite E. f_equal. rewrite <- Z.div_mod by lia. done. }
  destruct (effective_translation_alg _ _ _ _); [exact Bare|..]; clear Bare;
    destruct (sv_translate_impl _ va _ _ _) eqn:T; simpl; try done; intros [= <-];
    by rewrite (sv_translate_page _ _ _ _ _ _ _ N N' E T).
Qed.

Lemma sv_translate_range b va satp sv acc pa :
  is_u 64 va -> sv_translate_impl b va satp sv acc = Ok pa -> is_u 64 pa.
Proof.
  intros U T. apply sv_translate_spec in T as (j & bits & LA & _ & _ & Al & ->).
  apply leaf_at_level in LA. assert (j <= 4)%nat by (destruct sv; simpl in LA; lia).
  apply (is_u_mono 56); [lia|]. apply (phys_addr_range va (entry_ppn bits) j); [|done..].
  apply entry_ppn_range.
Qed.

Lemma translate_range c md satp va acc pa :
  is_u 64 va -> translate_with_prefetch c md satp va acc = Ok pa -> is_u 64 pa.
Proof.
  intros U. unfold translate_with_prefetch.
  destruct (effective_translation_alg _ _ _ _); [by intros [= <-]|..];
    destruct (sv_translate_impl _ _ _ _ _) eqn:T; simpl; try done; intros [= <-];
    by apply sv_translate_range in T.
Qed.

(** ** Coherence *)

(** Every hit of the cache is what the walk gives in the current state.  This is
    not an invariant of the machine: a write to a page table before the fence,
    or a change of [MPRV], breaks it ([stale_translation_after_mprv]). *)
Definition coherent (c : MachineCoreState) : Prop :=
  forall md satp acc va pa, is_u 64 va ->
    TranslationCache_try_translate c.(translation_cache) md satp acc va = Some pa ->
    translate_with_prefetch c md satp va acc = Ok pa.

Lemma AccessCache_hit_spec c satp md va pa :
  AccessCache_try_translate c satp md va = Some pa <->
  let e := c.(ac_entries) (virtual_page_index (va & PAGE_MASK)) in
  e.(c_virt_page) = va & PAGE_MASK /\ e.(c_satp) = satp /\ e.(c_mode) = Mode_repr md /\
  e.(c_fence_counter) = c.(ac_fence_counter) /\ pa = e.(c_phys_page) |: (va & OFFSET_MASK).
Proof.
  unfold AccessCache_try_translate, Cached_try_translate. simpl. bool_cases; cbn [andb]; split; intros; destruct_and?; simplify_eq; split_and?; congruence || auto.
Qed.

Lemma access_type_index_inj t t' : access_type_index t = access_type_index t' -> t = t'.
Proof. by destruct t, t'. Qed.

(** A hit after an insertion is the inserted page, or was a hit before. *)
Lemma cache_translation_hit c md satp acc va pa md' satp' acc' va' pa' :
  TranslationCache_try_translate
    (TranslationCache_cache_translation c md satp acc va pa) md' satp' acc' va' = Some pa' ->
  (md' = md /\ satp' = satp /\ acc' = acc /\ (va' & PAGE_MASK) = (va & PAGE_MASK) /\
   pa' = (pa & PAGE_MASK) |: (va' & OFFSET_MASK)) \/
  TranslationCache_try_translate c md' satp' acc' va' = Some pa'.
Proof.
  unfold TranslationCache_try_translate, TranslationCache_cache_translation; cbn [tc_entries].
  destruct (decide (access_type_index acc' = access_type_index acc)) as [I|I].
  - rewrite I, fupd_eq. rewrite !AccessCache_hit_spec. cbv zeta.
    unfold AccessCache_cache_translation; cbn [ac_entries ac_fence_counter].
    destruct (decide (virtual_page_index (va' & PAGE_MASK) = virtual_page_index (va & PAGE_MASK))) as [J|J].
    + rewrite J, fupd_eq. unfold Cached_cache_translation; simpl.
      intros (-> & -> & M & _ & ->). left. apply Mode_repr_inj in M. apply access_type_index_inj in I.
      by subst.
    + rewrite fupd_ne by done. auto.
  - rewrite fupd_ne by done. auto.
Qed.

Lemma translate_cached_spec c md satp va acc :
  coherent c -> is_u 64 va ->
  let '(r, c') := translate_cached md satp va acc c in
  r = translate_with_prefetch c md satp va acc /\ coherent c' /\
  c'.(hart) = c.(hart) /\ c'.(bus) = c.(bus).
Proof.
  intros H U. unfold translate_cached.
  destruct (TranslationCache_try_translate _ _ _ _ _) as [pa|] eqn:T.
  { split_and!; try done. symmetry. by apply H. }
  destruct (translate_with_prefetch c md satp va acc) as [pa|e] eqn:W; [|done].
  split_and!; try done. intros md' satp' acc' va' pa' U' T'.
  change (translate_with_prefetch (set_translation_cache c ?t)) with (translate_with_prefetch c).
  apply cache_translation_hit in T' as [(-> & -> & -> & P & ->)|T']; [|by apply H].
  apply same_page in P; [|done..].
  rewrite page_or_offset by exact (translate_range c md satp va acc pa U W).
  apply (translate_page _ _ _ va); [apply U|apply U'|done..].
Qed.

Lemma coherent_reset_cache c :
  coherent (set_translation_cache c (TranslationCache_reset c.(translation_cache))).
Proof.
  intros md satp acc' va' pa U' T. exfalso. revert T.
  unfold TranslationCache_try_translate; simpl.
  rewrite (cache_rel_lookup _ abs_empty) by apply cache_rel_reset. done.
Qed.

Lemma coherent_reset c : coherent (MachineCoreState_reset c).
Proof. apply (coherent_reset_cache (set_bus (set_hart c _) _)). Qed.

(** C8. The translation cache is transparent: in a coherent state [translate]
    gives what the uncached translation gives, on success and on failure,
    leaves the hart and the memory alone, and keeps the state coherent.  A
    reset state is coherent. *)
Theorem translate_transparent c va acc :
  coherent c -> is_u 64 va ->
  let '(r, c') := translate va acc c in
  r = translate_without_cache c va acc /\ coherent c' /\
  c'.(hart) = c.(hart) /\ c'.(bus) = c.(bus) /\ coherent (MachineCoreState_reset c).
Proof.
  intros H U. unfold translate, translate_without_cache.
  pose proof (translate_cached_spec c c.(hart).(mode) (csr_read c.(hart) CSR.satp) va acc H U) as S.
  destruct (translate_cached _ _ _ _ _) as [r c']. destruct S as (? & ? & ? & ?).
  split_and!; try done. apply coherent_reset.
Qed.
End translation.

(** ** A concrete machine *)

Definition core_example : MachineCoreState := {|
  hart := HartState_example;
  bus := Bus_example;
  translation_cache := TranslationCache_reset
    {| tc_entries := fun _ => {| ac_fence_counter := 0; ac_entries := fun _ =>
         {| c_mode := 0; c_satp := 0; c_virt_page := 0; c_phys_page := 0; c_fence_counter := 0 |} |} |};
|}.

Lemma core_example_coherent (ML : MainMemoryLayout) h b :
  coherent (set_bus (set_hart core_example h) b).
Proof. exact (coherent_reset_cache {| hart := h; bus := b; translation_cache := _ |}). Qed.

Lemma translate_transparent_witness :
  fst (translate (ML := M1K) 0x80000010 ALoad core_example) = Ok 0x80000010.
Proof.
  pose proof (translate_transparent (ML := M1K) core_example 0x80000010 ALoad
    (core_example_coherent M1K HartState_example Bus_example) ltac:(vm_compute; intuition congruence)) as H.
  destruct (translate _ _ _) as [r c']. destruct H as [-> _]. vm_compute. reflexivity.
Defined.

(** ** Stale translations after a change of [MPRV] *)

Definition with_mprv (m : MStatusValue) (mprv : bool) (mpp : MPPValue) : MStatusValue := {|
  m_sie := m.(m_sie); m_mie := m.(m_mie); m_spie := m.(m_spie); m_ube := m.(m_ube);
  m_mpie := m.(m_mpie); m_spp := m.(m_spp); m_mpp := mpp; m_fs := m.(m_fs); m_xs := m.(m_xs);
  m_mprv := mprv; m_sum := m.(m_sum); m_mxr := m.(m_mxr); m_tvm := m.(m_tvm); m_tw := m.(m_tw);
  m_tsr := m.(m_tsr); m_uxl := m.(m_uxl); m_sxl := m.(m_sxl); m_sbe := m.(m_sbe);
  m_mbe := m.(m_mbe);
|}.

Definition set_mprv (c : MachineCoreState) (mprv : bool) (mpp : MPPValue) : MachineCoreState :=
  set_hart c (set_mstatus_cells c.(hart)
    (with_mprv c.(hart).(csregisters).(mstatus_cells) mprv mpp)).

(** A coherent state in which [MPRV] is then changed is not coherent any more:
    the entries of the cache are found by mode and [satp], while the
    translation of loads and stores also depends on [MPRV] and [MPP].  Here
    machine mode loads from an address, sets [MPRV] to load as supervisor
    mode with paging on, and the second load uses the untranslated address
    although the address has no translation. *)
Theorem stale_translation_after_mprv :
  exists c va,
    coherent (ML := M1K) c /\
    let c1 := set_mprv (snd (translate (ML := M1K) va ALoad c)) true MPP.Supervisor in
    fst (translate (ML := M1K) va ALoad c1) = Ok va /\
    translate_without_cache (ML := M1K) c1 va ALoad = Err (LoadPageFault va).
Proof.
  exists (set_bus (set_hart core_example (csr_write HartState_example CSR.satp (8 * 2 ^ 60))) Bus_example),
    0x80000010.
  split; [apply core_example_coherent|]. split; vm_compute; reflexivity.
Qed.
