(* ===== verification/CoreInstr.v ===== *)
(** The instructions that access memory or the translation cache: loads and
    stores ([src/riscv/lib/src/interpreter/rv64i.rs], [rv32c.rs], [rv64c.rs]),
    atomics ([atomics.rs], [rv32a.rs], [rv64a.rs]), [WFI] and [SFENCE.VMA]
    ([rv64priv.rs]), [FENCE] ([rv32i.rs]).  All are methods of
    [MachineCoreState]. *)
From S2P Require Import Prelude Registers CSRegister Traps XStatus CSRegisters HartState Bus.
From S2P Require Import Instruction.
From S2P Require Import AddressTranslation TranslationCache MachineCore.

(** Writing a register of the hart, as a step of the core. *)
Definition core_xwrite (rd : XRegister) (v : Z) : coreM unit :=
  modify (fun c => set_hart c (xwrite c.(hart) rd v)).
Definition core_xread (r : XRegister) : coreM Z := gets (fun c => xread c.(hart) r).

Section instr.
Context `{ML : MainMemoryLayout}.

(** ** Loads *)

(* interpreter/rv64i.rs:242-247 run_ld *)
Definition run_ld (imm : Z) (rs1 rd : XRegister) : coreM unit :=
  let! value := read_from_bus I64 imm rs1 in
  core_xwrite rd (as_u64 value).

(* interpreter/rv64i.rs:253-258 run_lw *)
Definition run_lw (imm : Z) (rs1 rd : XRegister) : coreM unit :=
  let! value := read_from_bus I32 imm rs1 in
  core_xwrite rd (as_u64 value).

(* interpreter/rv64i.rs:264-269 run_lh *)
Definition run_lh (imm : Z) (rs1 rd : XRegister) : coreM unit :=
  let! value := read_from_bus I16 imm rs1 in
  core_xwrite rd (as_u64 value).

(* interpreter/rv64i.rs:275-280 run_lb *)
Definition run_lb (imm : Z) (rs1 rd : XRegister) : coreM unit :=
  let! value := read_from_bus I8 imm rs1 in
  core_xwrite rd (as_u64 value).

(* interpreter/rv64i.rs:286-291 run_lwu *)
Definition run_lwu (imm : Z) (rs1 rd : XRegister) : coreM unit :=
  let! value := read_from_bus U32 imm rs1 in
  core_xwrite rd (as_u64 value).

(* interpreter/rv64i.rs:297-302 run_lhu *)
Definition run_lhu (imm : Z) (rs1 rs2 : XRegister) : coreM unit :=
  let! value := read_from_bus U16 imm rs1 in
  core_xwrite rs2 (as_u64 value).

(* interpreter/rv64i.rs:308-313 run_lbu *)
Definition run_lbu (imm : Z) (rs1 rs2 : XRegister) : coreM unit :=
  let! value := read_from_bus U8 imm rs1 in
  core_xwrite rs2 (as_u64 value).

(** ** Stores *)

(* interpreter/rv64i.rs:318-321 run_sd *)
Definition run_sd (imm : Z) (rs1 rs2 : XRegister) : coreM unit :=
  let! value := core_xread rs2 in
  write_to_bus U64 imm rs1 value.

(* interpreter/rv64i.rs:326-330 run_sw *)
Definition run_sw (imm : Z) (rs1 rs2 : XRegister) : coreM unit :=
  let! value := core_xread rs2 in
  write_to_bus U32 imm rs1 (as_u32 value).

(* interpreter/rv64i.rs:335-339 run_sh *)
Definition run_sh (imm : Z) (rs1 rs2 : XRegister) : coreM unit :=
  let! value := core_xread rs2 in
  write_to_bus U16 imm rs1 (as_u16 value).

(* interpreter/rv64i.rs:344-348 run_sb *)
Definition run_sb (imm : Z) (rs1 rs2 : XRegister) : coreM unit :=
  let! value := core_xread rs2 in
  write_to_bus U8 imm rs1 (as_u8 value).

(** ** Compressed loads and stores *)

(** [sp] is [x2]. *)

(* interpreter/rv32c.rs:224-227 run_clw *)
Definition run_clw (imm : Z) (rs1 rd : XRegister) : coreM unit := run_lw imm rs1 rd.

(* interpreter/rv32c.rs:235-239 run_clwsp *)
Definition run_clwsp (imm : Z) (rd_rs1 : XRegister) : coreM unit := run_lw imm x2 rd_rs1.

(* interpreter/rv32c.rs:248-251 run_csw *)
Definition run_csw (imm : Z) (rs1 rs2 : XRegister) : coreM unit := run_sw imm rs1 rs2.

(* interpreter/rv32c.rs:259-262 run_cswsp *)
Definition run_cswsp (imm : Z) (rs2 : XRegister) : coreM unit := run_sw imm x2 rs2.

(* interpreter/rv64c.rs:64-67 run_cld *)
Definition run_cld (imm : Z) (rs1 rd : XRegister) : coreM unit := run_ld imm rs1 rd.

(* interpreter/rv64c.rs:75-79 run_cldsp *)
Definition run_cldsp (imm : Z) (rd_rs1 : XRegister) : coreM unit := run_ld imm x2 rd_rs1.

(* interpreter/rv64c.rs:88-91 run_csd *)
Definition run_csd (imm : Z) (rs1 rs2 : XRegister) : coreM unit := run_sd imm rs1 rs2.

(* interpreter/rv64c.rs:99-102 run_csdsp *)
Definition run_csdsp (imm : Z) (rs2 : XRegister) : coreM unit := run_sd imm x2 rs2.

(* interpreter/rv32c.rs:268-268 run_cnop *)
Definition run_cnop : coreM unit := st_ret tt.

(** ** Atomics *)

(* interpreter/atomics.rs:14-14 SC_SUCCESS *)
Definition SC_SUCCESS : Z := 0.
(* interpreter/atomics.rs:15-15 SC_FAILURE *)
Definition SC_FAILURE : Z := 1.

(* interpreter/atomics.rs:26-52 run_lr *)
Definition run_lr (T : Elem) (rs1 rd : XRegister) (from : Z -> Z) : coreM unit :=
  let! address_rs1 := core_xread rs1 in
  if negb (address_rs1 mod size_of T =? 0) then throw (LoadAccessFault address_rs1)
  else
    let! value_rs1 := read_from_address T address_rs1 in
    let! _ := modify (fun c => set_hart c
      (set_reservation_set c.(hart) (ReservationSet_set c.(hart).(reservation_set) address_rs1))) in
    core_xwrite rd (from value_rs1).

(* interpreter/atomics.rs:63-95 run_sc *)
Definition run_sc (T : Elem) (rs1 rs2 rd : XRegister) (to : Z -> Z) : coreM unit :=
  let! address_rs1 := core_xread rs1 in
  if negb (address_rs1 mod size_of T =? 0) then
    let! _ := modify (fun c => set_hart c
      (set_reservation_set c.(hart) (ReservationSet_reset c.(hart).(reservation_set)))) in
    throw (StoreAMOAccessFault address_rs1)
  else
    let! reserved := (fun c =>
      let '(b, s) := ReservationSet_test_and_unset c.(hart).(reservation_set) address_rs1 in
      (Ok b, set_hart c (set_reservation_set c.(hart) s))) in
    if (reserved : bool) then
      let! v := core_xread rs2 in
      let value_rs2 := to v in
      let! _ := core_xwrite rd SC_SUCCESS in
      write_to_address T address_rs1 value_rs2
    else core_xwrite rd SC_FAILURE.

(* interpreter/atomics.rs:100-132 run_amo *)
Definition run_amo (T : Elem) (rs1 rs2 rd : XRegister) (f : Z -> Z -> Z) (to from : Z -> Z) :
  coreM unit :=
  let! address_rs1 := core_xread rs1 in
  if negb (address_rs1 mod size_of T =? 0) then throw (StoreAMOAccessFault address_rs1)
  else
    let! value_rs1 := read_from_address T address_rs1 in
    let! v := core_xread rs2 in
    let value_rs2 := to v in
    let value := f value_rs1 value_rs2 in
    let! _ := core_xwrite rd (from value_rs1) in
    write_to_address T address_rs1 value.

(* interpreter/atomics.rs:136-144 run_amo_w *)
Definition run_amo_w (rs1 rs2 rd : XRegister) (f : Z -> Z -> Z) : coreM unit :=
  run_amo I32 rs1 rs2 rd f as_i32 as_u64.

(* interpreter/atomics.rs:148-156 run_amo_d *)
Definition run_amo_d (rs1 rs2 rd : XRegister) (f : Z -> Z -> Z) : coreM unit :=
  run_amo U64 rs1 rs2 rd f (fun x => x) (fun x => x).

(** The [aq] and [rl] bits are arguments of every instruction, and ignored. *)

(* interpreter/rv32a.rs:28-37 run_lrw *)
Definition run_lrw (rs1 _rs2 rd : XRegister) (_rl _aq : bool) : coreM unit :=
  run_lr I32 rs1 rd as_u64.

(* interpreter/rv32a.rs:48-57 run_scw *)
Definition run_scw (rs1 rs2 rd : XRegister) (_rl _aq : bool) : coreM unit :=
  run_sc I32 rs1 rs2 rd as_i32.

(* interpreter/rv64a.rs:28-37 run_lrd *)
Definition run_lrd (rs1 _rs2 rd : XRegister) (_rl _aq : bool) : coreM unit :=
  run_lr U64 rs1 rd (fun x => x).

(* interpreter/rv64a.rs:48-57 run_scd *)
Definition run_scd (rs1 rs2 rd : XRegister) (_rl _aq : bool) : coreM unit :=
  run_sc U64 rs1 rs2 rd (fun x => x).

(* interpreter/rv32a.rs:65-74 run_amoswapw *)
Definition run_amoswapw (rs1 rs2 rd : XRegister) (_rl _aq : bool) : coreM unit :=
  run_amo_w rs1 rs2 rd (fun _ value_rs2 => value_rs2).

(* interpreter/rv32a.rs:82-91 run_amoaddw *)
Definition run_amoaddw (rs1 rs2 rd : XRegister) (_rl _aq : bool) : coreM unit :=
  run_amo_w rs1 rs2 rd (fun a b => as_i32 (a + b)).

(* interpreter/rv32a.rs:99-108 run_amoxorw *)
Definition run_amoxorw (rs1 rs2 rd : XRegister) (_rl _aq : bool) : coreM unit :=
  run_amo_w rs1 rs2 rd Z.lxor.

(* interpreter/rv32a.rs:116-125 run_amoandw *)
Definition run_amoandw (rs1 rs2 rd : XRegister) (_rl _aq : bool) : coreM unit :=
  run_amo_w rs1 rs2 rd Z.land.

(* interpreter/rv32a.rs:133-142 run_amoorw *)
Definition run_amoorw (rs1 rs2 rd : XRegister) (_rl _aq : bool) : coreM unit :=
  run_amo_w rs1 rs2 rd Z.lor.

(* interpreter/rv32a.rs:150-159 run_amominw *)
Definition run_amominw (rs1 rs2 rd : XRegister) (_rl _aq : bool) : coreM unit :=
  run_amo_w rs1 rs2 rd Z.min.

(* interpreter/rv32a.rs:167-176 run_amomaxw *)
Definition run_amomaxw (rs1 rs2 rd : XRegister) (_rl _aq : bool) : coreM unit :=
  run_amo_w rs1 rs2 rd Z.max.

(* interpreter/rv32a.rs:185-196 run_amominuw *)
Definition run_amominuw (rs1 rs2 rd : XRegister) (_rl _aq : bool) : coreM unit :=
  run_amo_w rs1 rs2 rd (fun a b => as_i32 (Z.min (as_u32 a) (as_u32 b))).

(* interpreter/rv32a.rs:205-216 run_amomaxuw *)
Definition run_amomaxuw (rs1 rs2 rd : XRegister) (_rl _aq : bool) : coreM unit :=
  run_amo_w rs1 rs2 rd (fun a b => as_i32 (Z.max (as_u32 a) (as_u32 b))).

(* interpreter/rv64a.rs:65-74 run_amoswapd *)
Definition run_amoswapd (rs1 rs2 rd : XRegister) (_rl _aq : bool) : coreM unit :=
  run_amo_d rs1 rs2 rd (fun _ value_rs2 => value_rs2).

(* interpreter/rv64a.rs:82-91 run_amoaddd *)
Definition run_amoaddd (rs1 rs2 rd : XRegister) (_rl _aq : bool) : coreM unit :=
  run_amo_d rs1 rs2 rd (wrapping_add 64).

(* interpreter/rv64a.rs:99-108 run_amoxord *)
Definition run_amoxord (rs1 rs2 rd : XRegister) (_rl _aq : bool) : coreM unit :=
  run_amo_d rs1 rs2 rd Z.lxor.

(* interpreter/rv64a.rs:116-125 run_amoandd *)
Definition run_amoandd (rs1 rs2 rd : XRegister) (_rl _aq : bool) : coreM unit :=
  run_amo_d rs1 rs2 rd Z.land.

(* interpreter/rv64a.rs:133-142 run_amoord *)
Definition run_amoord (rs1 rs2 rd : XRegister) (_rl _aq : bool) : coreM unit :=
  run_amo_d rs1 rs2 rd Z.lor.

(* interpreter/rv64a.rs:150-161 run_amomind *)
Definition run_amomind (rs1 rs2 rd : XRegister) (_rl _aq : bool) : coreM unit :=
  run_amo_d rs1 rs2 rd (fun a b => as_u64 (Z.min (as_i64 a) (as_i64 b))).

(* interpreter/rv64a.rs:169-180 run_amomaxd *)
Definition run_amomaxd (rs1 rs2 rd : XRegister) (_rl _aq : bool) : coreM unit :=
  run_amo_d rs1 rs2 rd (fun a b => as_u64 (Z.max (as_i64 a) (as_i64 b))).

(* interpreter/rv64a.rs:189-198 run_amominud *)
Definition run_amominud (rs1 rs2 rd : XRegister) (_rl _aq : bool) : coreM unit :=
  run_amo_d rs1 rs2 rd Z.min.

(* interpreter/rv64a.rs:207-216 run_amomaxud *)
Definition run_amomaxud (rs1 rs2 rd : XRegister) (_rl _aq : bool) : coreM unit :=
  run_amo_d rs1 rs2 rd Z.max.

(** ** Fences and [WFI] *)

(* interpreter/rv64priv.rs:110-110 run_wfi *)
Definition run_wfi : coreM unit := st_ret tt.

(* interpreter/rv64priv.rs:120-134 run_sfence_vma *)
Definition run_sfence_vma (_asid _vaddr : XRegister) : coreM unit :=
  let! _ := modify (fun c => set_translation_cache c
    (TranslationCache_invalidate c.(translation_cache) [AInstruction; ALoad; AStore])) in
  let! mode := gets (fun c => c.(hart).(mode)) in
  let! tvm := gets (fun c => c.(hart).(csregisters).(mstatus_cells).(m_tvm)) in
  if (tvm : bool) && bool_decide (mode = Supervisor) then throw IllegalInstruction
  else st_ret tt.

(* interpreter/rv32i.rs:367-369 run_fence *)
Definition run_fence (_pred _succ : FenceSet) : coreM unit := st_ret tt.

End instr.
