(* ===== verification/Float.v ===== *)
(** Floating-point instructions: [src/riscv/lib/src/interpreter/float.rs],
    [rv64f.rs], [rv64d.rs] and [rv64dc.rs].

    The arithmetic is that of the crates [rustc_apfloat] and [ieee_apsqrt],
    which are not part of the repository: their operations are the fields of
    [FloatOps] (one value per format) and of the class [ApFloat], and what is
    documented of them and used by a theorem is in [FloatOpsLaws] and
    [ApFloatLaws].  The conversions to and from registers, the NaN boxing, the
    rounding modes, the flags and the checks are the repository's and are
    translated. *)
From S2P Require Import Prelude Registers CSRegister Traps XStatus CSRegisters HartState Bus.
From S2P Require Import Instruction.
From S2P Require Import MachineCore CoreInstr.

(** ** The arithmetic library *)

(** [rustc_apfloat::Round]. *)
Inductive Round : Set :=
| NearestTiesToEven | TowardPositive | TowardNegative | TowardZero | NearestTiesToAway.

(** [rustc_apfloat::Status] is a set of flags in a [u8]. *)
Definition Status : Type := Z.
Definition Status_OK : Status := 0.
Definition Status_INVALID_OP : Status := 1.
Definition Status_DIV_BY_ZERO : Status := 2.
Definition Status_OVERFLOW : Status := 4.
Definition Status_UNDERFLOW : Status := 8.
Definition Status_INEXACT : Status := 16.

Record StatusAnd (A : Type) : Type := { status : Status; value : A }.
Arguments status {A} _.
Arguments value {A} _.

Definition StatusAnd_map {A B} (f : A -> B) (s : StatusAnd A) : StatusAnd B :=
  {| status := s.(status); value := f s.(value) |}.

(** The operations of the trait [rustc_apfloat::Float] that are used. *)
Record FloatOps : Type := {
  F :> Type;
  from_bits : Z -> F;
  to_bits : F -> Z;
  is_nan : F -> bool;
  is_signaling : F -> bool;
  is_negative : F -> bool;
  is_normal : F -> bool;
  is_denormal : F -> bool;
  is_pos_infinity : F -> bool;
  is_neg_infinity : F -> bool;
  is_pos_zero : F -> bool;
  is_neg_zero : F -> bool;
  INFINITY : F;
  feq : F -> F -> bool;
  flt : F -> F -> bool;
  fle : F -> F -> bool;
  fneg : F -> F;
  minimum : F -> F -> F;
  maximum : F -> F -> F;
  add_r : F -> F -> Round -> StatusAnd F;
  sub_r : F -> F -> Round -> StatusAnd F;
  mul_r : F -> F -> Round -> StatusAnd F;
  div_r : F -> F -> Round -> StatusAnd F;
  mul_add_r : F -> F -> F -> Round -> StatusAnd F;
  from_i128_r : Z -> Round -> StatusAnd F;
  from_u128_r : Z -> Round -> StatusAnd F;
  to_i128_r : F -> Z -> Round -> StatusAnd Z;
  to_u128_r : F -> Z -> Round -> StatusAnd Z;
}.
Arguments from_bits {_} _.
Arguments to_bits {_} _.
Arguments is_nan {_} _.
Arguments is_signaling {_} _.
Arguments is_negative {_} _.
Arguments is_normal {_} _.
Arguments is_denormal {_} _.
Arguments is_pos_infinity {_} _.
Arguments is_neg_infinity {_} _.
Arguments is_pos_zero {_} _.
Arguments is_neg_zero {_} _.
Arguments INFINITY {_}.
Arguments feq {_} _ _.
Arguments flt {_} _ _.
Arguments fle {_} _ _.
Arguments fneg {_} _.
Arguments minimum {_} _ _.
Arguments maximum {_} _ _.
Arguments add_r {_} _ _ _.
Arguments sub_r {_} _ _ _.
Arguments mul_r {_} _ _ _.
Arguments div_r {_} _ _ _.
Arguments mul_add_r {_} _ _ _ _.
Arguments from_i128_r {_} _ _.
Arguments from_u128_r {_} _ _.
Arguments to_i128_r {_} _ _ _.
Arguments to_u128_r {_} _ _ _.

(** The two formats, the conversions between them
    ([FloatConvert::convert_r]) and [ieee_apsqrt::sqrt_accurate]. *)
Class ApFloat := {
  Single : FloatOps;
  Double : FloatOps;
  convert_single_double : Single -> Round -> StatusAnd Double;
  convert_double_single : Double -> Round -> StatusAnd Single;
  sqrt_accurate_32 : Z -> Round -> StatusAnd Z;
  sqrt_accurate_64 : Z -> Round -> StatusAnd Z;
}.

(** ** Formats in registers *)

(* interpreter/float.rs:23-36 FloatExt *)
Class FloatExt (F : FloatOps) := {
  canonical_nan : F;
  into_fvalue : F -> Z;
  from_fvalue : Z -> F;
}.

(* interpreter/float.rs:29-35 canonicalise *)
Definition canonicalise {F} `{FloatExt F} (f : F) : F :=
  if is_nan f then canonical_nan else f.

(* interpreter/rv64f.rs:536-538 f32_to_fvalue *)
Definition f32_to_fvalue (val : Z) : Z := val |: 0xffffffff00000000.

(* interpreter/rv64f.rs:44-44 CANONICAL_NAN_BITS *)
Definition F32_CANONICAL_NAN_BITS : Z := 0x7fc00000.

(* interpreter/rv64d.rs:39-39 CANONICAL_NAN_BITS *)
Definition F64_CANONICAL_NAN_BITS : Z := 0x7ff8000000000000.

(* interpreter/rv64f.rs:540-550 fvalue_to_f32_bits *)
Definition fvalue_to_f32_bits (val : Z) : Z :=
  if negb (shr_u 64 val 32 =? 0xffffffff) then F32_CANONICAL_NAN_BITS else as_u32 val.

(* interpreter/rv64f.rs:23-50 FloatExt for Single *)
#[export] Instance Single_ext `{AP : ApFloat} : FloatExt Single := {|
  canonical_nan := from_bits F32_CANONICAL_NAN_BITS;
  into_fvalue f := f32_to_fvalue (as_u32 (to_bits f));
  from_fvalue val :=
    if negb (shr_u 64 val 32 =? 0xffffffff) then from_bits F32_CANONICAL_NAN_BITS
    else from_bits (as_u32 val);
|}.

(* interpreter/rv64d.rs:26-45 FloatExt for Double *)
#[export] Instance Double_ext `{AP : ApFloat} : FloatExt Double := {|
  canonical_nan := from_bits F64_CANONICAL_NAN_BITS;
  into_fvalue f := as_u64 (to_bits f);
  from_fvalue val := from_bits val;
|}.

(** ** Flags and rounding *)

(* interpreter/float.rs:588-600 Fflag *)
Inductive Fflag : Set := NX | UF | OF | DZ | NV.

(* interpreter/float.rs:588-600 Fflag *)
Definition Fflag_repr (f : Fflag) : Z :=
  match f with NX => 0 | UF => 1 | OF => 2 | DZ => 3 | NV => 4 end.

(** [u8::reverse_bits]. *)
Definition reverse_bits_8 (z : Z) : Z :=
  fold_left (fun acc i => acc |: Z.shiftl (Z.shiftr z i & 1) (7 - i)) [0; 1; 2; 3; 4; 5; 6; 7] 0.

(* interpreter/float.rs:613-615 status_to_bits *)
Definition status_to_bits (s : Status) : Z := shr_u 8 (reverse_bits_8 s) 3.

(* interpreter/float.rs:603-605 set_exception_flag *)
Definition set_exception_flag (s : CSRegisters) (mask : Fflag) : CSRegisters :=
  snd (CSRegisters_set_bits s CSR.fflags (shl_u 64 1 (Fflag_repr mask))).

(* interpreter/float.rs:607-610 set_exception_flag_status *)
Definition set_exception_flag_status (s : CSRegisters) (st : Status) : CSRegisters :=
  snd (CSRegisters_set_bits s CSR.fflags (status_to_bits st)).

(* interpreter/float.rs:573-584 Into<Round> *)
Definition RoundingMode_into (rm : RoundingMode) : Round :=
  match rm with
  | RNE => NearestTiesToEven
  | RTZ => TowardZero
  | RUP => TowardPositive
  | RDN => TowardNegative
  | RMM => NearestTiesToAway
  end.

(* interpreter/float.rs:451-461 f_rounding_mode *)
Definition f_rounding_mode (rm : InstrRoundingMode) (h : HartState) : result Round Exception :=
  let? rm := match rm with
             | Static rm => Ok rm
             | Dynamic => from_csrrepr (csr_read h CSR.frm)
             end in
  Ok (RoundingMode_into rm).

(* interpreter/float.rs:515-521 check_fs_on *)
Definition check_fs_on : hartM unit :=
  checked (fun h => if floating_disabled h.(csregisters) then Err IllegalInstruction else Ok tt).

Definition rounding (rm : InstrRoundingMode) : hartM Round := fun h => (f_rounding_mode rm h, h).
Definition fval {F} `{FloatExt F} (rs : FRegister) : hartM F :=
  gets (fun h => from_fvalue (FRegisters_read h.(fregisters) rs)).
Definition fwrite (rd : FRegister) (v : Z) : hartM unit :=
  modify (fun h => set_fregisters h (FRegisters_write h.(fregisters) rd v)).
Definition hart_xwrite (rd : XRegister) (v : Z) : hartM unit := modify (fun h => xwrite h rd v).

(** Raises flags when the condition holds. *)
Definition flag_when (b : bool) : hartM unit :=
  modify (fun h => if b then set_csregisters h (set_exception_flag h.(csregisters) NV) else h).
Definition flag_status (st : Status) : hartM unit :=
  modify (fun h => if negb (st =? Status_OK)
                   then set_csregisters h (set_exception_flag_status h.(csregisters) st) else h).

(** ** Generic instructions *)

Section generic.
Context (F : FloatOps) `{FX : FloatExt F}.

(* interpreter/float.rs:54-67 run_fclass *)
Definition fclass_mask (rval : F) : Z :=
  let is_neg := is_negative rval in
  if is_neg_infinity rval then 1
  else if is_neg && is_normal rval then shl_u 64 1 1
  else if is_neg && is_denormal rval then shl_u 64 1 2
  else if is_neg_zero rval then shl_u 64 1 3
  else if is_pos_zero rval then shl_u 64 1 4
  else if is_denormal rval then shl_u 64 1 5
  else if is_normal rval then shl_u 64 1 6
  else if is_pos_infinity rval then shl_u 64 1 7
  else if is_signaling rval then shl_u 64 1 8
  else shl_u 64 1 9.

(* interpreter/float.rs:51-70 run_fclass *)
Definition run_fclass (rs1 : FRegister) (rd : XRegister) : hartM unit :=
  let! rval := fval rs1 in
  hart_xwrite rd (fclass_mask rval).

(* interpreter/float.rs:80-91 run_feq *)
Definition run_feq (rs1 rs2 : FRegister) (rd : XRegister) : hartM unit :=
  let! rval1 := fval rs1 in
  let! rval2 := fval rs2 in
  let! _ := flag_when (is_signaling rval1 || is_signaling rval2) in
  hart_xwrite rd (if feq rval1 rval2 then 1 else 0).

(* interpreter/float.rs:99-110 run_flt *)
Definition run_flt (rs1 rs2 : FRegister) (rd : XRegister) : hartM unit :=
  let! rval1 := fval rs1 in
  let! rval2 := fval rs2 in
  let! _ := flag_when (is_nan rval1 || is_nan rval2) in
  hart_xwrite rd (if flt rval1 rval2 then 1 else 0).

(* interpreter/float.rs:118-129 run_fle *)
Definition run_fle (rs1 rs2 : FRegister) (rd : XRegister) : hartM unit :=
  let! rval1 := fval rs1 in
  let! rval2 := fval rs2 in
  let! _ := flag_when (is_nan rval1 || is_nan rval2) in
  hart_xwrite rd (if fle rval1 rval2 then 1 else 0).

(* interpreter/float.rs:402-425 f_arith_3 *)
Definition f_arith_3 (rs1 rs2 rs3 : FRegister) (rm : InstrRoundingMode) (rd : FRegister)
  (f : F -> F -> F -> Round -> StatusAnd F) : hartM unit :=
  let! rval1 := fval rs1 in
  let! rval2 := fval rs2 in
  let! rval3 := fval rs3 in
  let! rm := rounding rm in
  let r := StatusAnd_map canonicalise (f rval1 rval2 rval3 rm) in
  let! _ := flag_status r.(status) in
  fwrite rd (into_fvalue r.(value)).

(* interpreter/float.rs:428-449 f_arith_2 *)
Definition f_arith_2 (rs1 rs2 : FRegister) (rm : InstrRoundingMode) (rd : FRegister)
  (f : F -> F -> Round -> StatusAnd F) : hartM unit :=
  let! rval1 := fval rs1 in
  let! rval2 := fval rs2 in
  let! rm := rounding rm in
  let r := StatusAnd_map canonicalise (f rval1 rval2 rm) in
  let! _ := flag_status r.(status) in
  fwrite rd (into_fvalue r.(value)).

(* interpreter/float.rs:463-485 f_sign_injection *)
Definition f_sign_injection (rs1 rs2 rd : FRegister) (pick_sign : bool -> bool -> bool) :
  hartM unit :=
  let! rval1 := fval rs1 in
  let! rval2 := fval rs2 in
  let sign_bit_1 := is_negative rval1 in
  let sign_bit_2 := is_negative rval2 in
  let sign_bit := pick_sign sign_bit_1 sign_bit_2 in
  let res := if Bool.eqb sign_bit sign_bit_1 then rval1 else fneg rval1 in
  fwrite rd (into_fvalue res).

(* interpreter/float.rs:487-512 min_max *)
Definition min_max (rs1 rs2 rd : FRegister) (cmp : F -> F -> F) : hartM unit :=
  let! rval1 := fval rs1 in
  let! rval2 := fval rs2 in
  let rval1_nan := is_nan rval1 in
  let rval2_nan := is_nan rval2 in
  let res :=
    match rval1_nan, rval2_nan with
    | true, true => canonical_nan
    | true, false => rval2
    | false, true => rval1
    | false, false => cmp rval1 rval2
    end in
  let! _ := flag_when ((rval1_nan || rval2_nan) && (is_signaling rval1 || is_signaling rval2)) in
  fwrite rd (into_fvalue res).

(* interpreter/float.rs:136-144 run_fadd *)
Definition run_fadd (rs1 rs2 : FRegister) (rm : InstrRoundingMode) (rd : FRegister) : hartM unit :=
  f_arith_2 rs1 rs2 rm rd add_r.

(* interpreter/float.rs:151-159 run_fsub *)
Definition run_fsub (rs1 rs2 : FRegister) (rm : InstrRoundingMode) (rd : FRegister) : hartM unit :=
  f_arith_2 rs1 rs2 rm rd sub_r.

(* interpreter/float.rs:166-174 run_fmul *)
Definition run_fmul (rs1 rs2 : FRegister) (rm : InstrRoundingMode) (rd : FRegister) : hartM unit :=
  f_arith_2 rs1 rs2 rm rd mul_r.

(* interpreter/float.rs:181-189 run_fdiv *)
Definition run_fdiv (rs1 rs2 : FRegister) (rm : InstrRoundingMode) (rd : FRegister) : hartM unit :=
  f_arith_2 rs1 rs2 rm rd div_r.

(* interpreter/float.rs:199-201 run_fmin *)
Definition run_fmin (rs1 rs2 rd : FRegister) : hartM unit := min_max rs1 rs2 rd minimum.

(* interpreter/float.rs:211-213 run_fmax *)
Definition run_fmax (rs1 rs2 rd : FRegister) : hartM unit := min_max rs1 rs2 rd maximum.

(* interpreter/float.rs:220-229 run_fmadd *)
Definition run_fmadd (rs1 rs2 rs3 : FRegister) (rm : InstrRoundingMode) (rd : FRegister) :
  hartM unit :=
  f_arith_3 rs1 rs2 rs3 rm rd mul_add_r.

(* interpreter/float.rs:236-246 run_fmsub *)
Definition run_fmsub (rs1 rs2 rs3 : FRegister) (rm : InstrRoundingMode) (rd : FRegister) :
  hartM unit :=
  f_arith_3 rs1 rs2 rs3 rm rd (fun rv1 rv2 rv3 rm => mul_add_r rv1 rv2 (fneg rv3) rm).

(* interpreter/float.rs:253-263 run_fnmsub *)
Definition run_fnmsub (rs1 rs2 rs3 : FRegister) (rm : InstrRoundingMode) (rd : FRegister) :
  hartM unit :=
  f_arith_3 rs1 rs2 rs3 rm rd (fun rv1 rv2 rv3 rm => mul_add_r (fneg rv1) rv2 rv3 rm).

(* interpreter/float.rs:270-280 run_fnmadd *)
Definition run_fnmadd (rs1 rs2 rs3 : FRegister) (rm : InstrRoundingMode) (rd : FRegister) :
  hartM unit :=
  f_arith_3 rs1 rs2 rs3 rm rd (fun rv1 rv2 rv3 rm => mul_add_r (fneg rv1) rv2 (fneg rv3) rm).

(* interpreter/float.rs:287-309 run_fcvt_int_fmt *)
Definition run_fcvt_int_fmt (rs1 : XRegister) (rm : InstrRoundingMode) (rd : FRegister)
  (cast : Z -> Z) (cvt : Z -> Round -> StatusAnd F) : hartM unit :=
  let! rval := gets (fun h => xread h rs1) in
  let rval := cast rval in
  let! rm := rounding rm in
  let r := cvt rval rm in
  let! _ := flag_status r.(status) in
  fwrite rd (into_fvalue r.(value)).

(* interpreter/float.rs:316-338 run_fcvt_fmt_fmt *)
Definition run_fcvt_fmt_fmt (T : FloatOps) `{TX : FloatExt T} (convert_r : F -> Round -> StatusAnd T)
  (rs1 : FRegister) (rm : InstrRoundingMode) (rd : FRegister) : hartM unit :=
  let! rval := fval rs1 in
  let! rm := rounding rm in
  let r := StatusAnd_map canonicalise (convert_r rval rm) in
  let! _ := flag_status r.(status) in
  fwrite rd (into_fvalue r.(value)).

(* interpreter/float.rs:340-365 run_fcvt_fmt_int *)
Definition run_fcvt_fmt_int (rs1 : FRegister) (rm : InstrRoundingMode) (rd : XRegister)
  (cast : Z -> Z) (cvt : F -> Round -> StatusAnd Z) : hartM unit :=
  let! rval := fval rs1 in
  let! rm := rounding rm in
  let rval := if is_nan rval then INFINITY else rval in
  let r := cvt rval rm in
  let! _ := flag_status r.(status) in
  hart_xwrite rd (cast r.(value)).

(* interpreter/float.rs:371-373 run_fsgnj *)
Definition run_fsgnj (rs1 rs2 rd : FRegister) : hartM unit :=
  f_sign_injection rs1 rs2 rd (fun _x y => y).

(* interpreter/float.rs:379-386 run_fsgnjn *)
Definition run_fsgnjn (rs1 rs2 rd : FRegister) : hartM unit :=
  f_sign_injection rs1 rs2 rd (fun _x y => negb y).

(* interpreter/float.rs:392-399 run_fsgnjx *)
Definition run_fsgnjx (rs1 rs2 rd : FRegister) : hartM unit :=
  f_sign_injection rs1 rs2 rd xorb.

End generic.

(** ** Instructions of the F and D extensions *)

Section formats.
Context `{AP : ApFloat}.

(* interpreter/rv64f.rs:59-64 run_fclass_s *)
Definition run_fclass_s (rs1 : FRegister) (rd : XRegister) : hartM unit :=
  let! _ := check_fs_on in
  run_fclass Single rs1 rd.

(* interpreter/rv64f.rs:69-79 run_feq_s *)
Definition run_feq_s (rs1 rs2 : FRegister) (rd : XRegister) : hartM unit :=
  let! _ := check_fs_on in
  run_feq Single rs1 rs2 rd.

(* interpreter/rv64f.rs:84-94 run_fle_s *)
Definition run_fle_s (rs1 rs2 : FRegister) (rd : XRegister) : hartM unit :=
  let! _ := check_fs_on in
  run_fle Single rs1 rs2 rd.

(* interpreter/rv64f.rs:99-109 run_flt_s *)
Definition run_flt_s (rs1 rs2 : FRegister) (rd : XRegister) : hartM unit :=
  let! _ := check_fs_on in
  run_flt Single rs1 rs2 rd.

(* interpreter/rv64f.rs:114-124 run_fadd_s *)
Definition run_fadd_s (rs1 rs2 : FRegister) (rm : InstrRoundingMode) (rd : FRegister) : hartM unit :=
  let! _ := check_fs_on in
  run_fadd Single rs1 rs2 rm rd.

(* interpreter/rv64f.rs:129-139 run_fsub_s *)
Definition run_fsub_s (rs1 rs2 : FRegister) (rm : InstrRoundingMode) (rd : FRegister) : hartM unit :=
  let! _ := check_fs_on in
  run_fsub Single rs1 rs2 rm rd.

(* interpreter/rv64f.rs:144-154 run_fmul_s *)
Definition run_fmul_s (rs1 rs2 : FRegister) (rm : InstrRoundingMode) (rd : FRegister) : hartM unit :=
  let! _ := check_fs_on in
  run_fmul Single rs1 rs2 rm rd.

(* interpreter/rv64f.rs:159-169 run_fdiv_s *)
Definition run_fdiv_s (rs1 rs2 : FRegister) (rm : InstrRoundingMode) (rd : FRegister) : hartM unit :=
  let! _ := check_fs_on in
  run_fdiv Single rs1 rs2 rm rd.

(* interpreter/rv64f.rs:172-194 run_fsqrt_s *)
Definition run_fsqrt_s (rs1 : FRegister) (rm : InstrRoundingMode) (rd : FRegister) : hartM unit :=
  let! _ := check_fs_on in
  let! rval := gets (fun h => FRegisters_read h.(fregisters) rs1) in
  let! rm := rounding rm in
  let rval := fvalue_to_f32_bits rval in
  let r := sqrt_accurate_32 rval rm in
  let! _ := flag_status r.(status) in
  fwrite rd (f32_to_fvalue r.(value)).

(* interpreter/rv64f.rs:199-209 run_fmin_s *)
Definition run_fmin_s (rs1 rs2 rd : FRegister) : hartM unit :=
  let! _ := check_fs_on in
  run_fmin Single rs1 rs2 rd.

(* interpreter/rv64f.rs:214-224 run_fmax_s *)
Definition run_fmax_s (rs1 rs2 rd : FRegister) : hartM unit :=
  let! _ := check_fs_on in
  run_fmax Single rs1 rs2 rd.

(* interpreter/rv64f.rs:229-240 run_fmadd_s *)
Definition run_fmadd_s (rs1 rs2 rs3 : FRegister) (rm : InstrRoundingMode) (rd : FRegister) : hartM unit :=
  let! _ := check_fs_on in
  run_fmadd Single rs1 rs2 rs3 rm rd.

(* interpreter/rv64f.rs:245-256 run_fmsub_s *)
Definition run_fmsub_s (rs1 rs2 rs3 : FRegister) (rm : InstrRoundingMode) (rd : FRegister) : hartM unit :=
  let! _ := check_fs_on in
  run_fmsub Single rs1 rs2 rs3 rm rd.

(* interpreter/rv64f.rs:261-272 run_fnmsub_s *)
Definition run_fnmsub_s (rs1 rs2 rs3 : FRegister) (rm : InstrRoundingMode) (rd : FRegister) : hartM unit :=
  let! _ := check_fs_on in
  run_fnmsub Single rs1 rs2 rs3 rm rd.

(* interpreter/rv64f.rs:277-288 run_fnmadd_s *)
Definition run_fnmadd_s (rs1 rs2 rs3 : FRegister) (rm : InstrRoundingMode) (rd : FRegister) : hartM unit :=
  let! _ := check_fs_on in
  run_fnmadd Single rs1 rs2 rs3 rm rd.

(* interpreter/rv64f.rs:293-302 run_fcvt_s_w *)
Definition run_fcvt_s_w (rs1 : XRegister) (rm : InstrRoundingMode) (rd : FRegister) : hartM unit :=
  let! _ := check_fs_on in
  run_fcvt_int_fmt Single rs1 rm rd (fun u => as_i128 (as_i32 u)) from_i128_r.

(* interpreter/rv64f.rs:307-316 run_fcvt_s_wu *)
Definition run_fcvt_s_wu (rs1 : XRegister) (rm : InstrRoundingMode) (rd : FRegister) : hartM unit :=
  let! _ := check_fs_on in
  run_fcvt_int_fmt Single rs1 rm rd (fun u => as_u128 (as_u32 u)) from_u128_r.

(* interpreter/rv64f.rs:321-330 run_fcvt_s_l *)
Definition run_fcvt_s_l (rs1 : XRegister) (rm : InstrRoundingMode) (rd : FRegister) : hartM unit :=
  let! _ := check_fs_on in
  run_fcvt_int_fmt Single rs1 rm rd (fun u => as_i128 (as_i64 u)) from_i128_r.

(* interpreter/rv64f.rs:335-344 run_fcvt_s_lu *)
Definition run_fcvt_s_lu (rs1 : XRegister) (rm : InstrRoundingMode) (rd : FRegister) : hartM unit :=
  let! _ := check_fs_on in
  run_fcvt_int_fmt Single rs1 rm rd as_u128 from_u128_r.

(* interpreter/rv64f.rs:347-362 run_fcvt_w_s *)
Definition run_fcvt_w_s (rs1 : FRegister) (rm : InstrRoundingMode) (rd : XRegister) : hartM unit :=
  let! _ := check_fs_on in
  run_fcvt_fmt_int Single rs1 rm rd (fun u => as_u64 (as_i32 u)) (fun f rm => to_i128_r f 32 rm).

(* interpreter/rv64f.rs:365-380 run_fcvt_wu_s *)
Definition run_fcvt_wu_s (rs1 : FRegister) (rm : InstrRoundingMode) (rd : XRegister) : hartM unit :=
  let! _ := check_fs_on in
  run_fcvt_fmt_int Single rs1 rm rd (fun u => as_u64 (as_i32 u)) (fun f rm => to_u128_r f 32 rm).

(* interpreter/rv64f.rs:383-398 run_fcvt_l_s *)
Definition run_fcvt_l_s (rs1 : FRegister) (rm : InstrRoundingMode) (rd : XRegister) : hartM unit :=
  let! _ := check_fs_on in
  run_fcvt_fmt_int Single rs1 rm rd as_u64 (fun f rm => to_i128_r f 64 rm).

(* interpreter/rv64f.rs:401-416 run_fcvt_lu_s *)
Definition run_fcvt_lu_s (rs1 : FRegister) (rm : InstrRoundingMode) (rd : XRegister) : hartM unit :=
  let! _ := check_fs_on in
  run_fcvt_fmt_int Single rs1 rm rd as_u64 (fun f rm => to_u128_r f 64 rm).

(* interpreter/rv64f.rs:421-431 run_fsgnj_s *)
Definition run_fsgnj_s (rs1 rs2 rd : FRegister) : hartM unit :=
  let! _ := check_fs_on in
  run_fsgnj Single rs1 rs2 rd.

(* interpreter/rv64f.rs:436-446 run_fsgnjn_s *)
Definition run_fsgnjn_s (rs1 rs2 rd : FRegister) : hartM unit :=
  let! _ := check_fs_on in
  run_fsgnjn Single rs1 rs2 rd.

(* interpreter/rv64f.rs:451-461 run_fsgnjx_s *)
Definition run_fsgnjx_s (rs1 rs2 rd : FRegister) : hartM unit :=
  let! _ := check_fs_on in
  run_fsgnjx Single rs1 rs2 rd.

(* interpreter/rv64f.rs:474-482 run_fmv_x_w *)
Definition run_fmv_x_w (rs1 : FRegister) (rd : XRegister) : hartM unit :=
  let! _ := check_fs_on in
  let! rval := gets (fun h => FRegisters_read h.(fregisters) rs1) in
  hart_xwrite rd (as_u64 (as_i32 rval)).

(* interpreter/rv64f.rs:492-500 run_fmv_w_x *)
Definition run_fmv_w_x (rs1 : XRegister) (rd : FRegister) : hartM unit :=
  let! _ := check_fs_on in
  let! rval := gets (fun h => xread h rs1) in
  fwrite rd (f32_to_fvalue (as_u32 rval)).

(* interpreter/rv64d.rs:54-59 run_fclass_d *)
Definition run_fclass_d (rs1 : FRegister) (rd : XRegister) : hartM unit :=
  let! _ := check_fs_on in
  run_fclass Double rs1 rd.

(* interpreter/rv64d.rs:64-74 run_feq_d *)
Definition run_feq_d (rs1 rs2 : FRegister) (rd : XRegister) : hartM unit :=
  let! _ := check_fs_on in
  run_feq Double rs1 rs2 rd.

(* interpreter/rv64d.rs:79-89 run_fle_d *)
Definition run_fle_d (rs1 rs2 : FRegister) (rd : XRegister) : hartM unit :=
  let! _ := check_fs_on in
  run_fle Double rs1 rs2 rd.

(* interpreter/rv64d.rs:94-104 run_flt_d *)
Definition run_flt_d (rs1 rs2 : FRegister) (rd : XRegister) : hartM unit :=
  let! _ := check_fs_on in
  run_flt Double rs1 rs2 rd.

(* interpreter/rv64d.rs:109-119 run_fadd_d *)
Definition run_fadd_d (rs1 rs2 : FRegister) (rm : InstrRoundingMode) (rd : FRegister) : hartM unit :=
  let! _ := check_fs_on in
  run_fadd Double rs1 rs2 rm rd.

(* interpreter/rv64d.rs:124-134 run_fsub_d *)
Definition run_fsub_d (rs1 rs2 : FRegister) (rm : InstrRoundingMode) (rd : FRegister) : hartM unit :=
  let! _ := check_fs_on in
  run_fsub Double rs1 rs2 rm rd.

(* interpreter/rv64d.rs:139-149 run_fmul_d *)
Definition run_fmul_d (rs1 rs2 : FRegister) (rm : InstrRoundingMode) (rd : FRegister) : hartM unit :=
  let! _ := check_fs_on in
  run_fmul Double rs1 rs2 rm rd.

(* interpreter/rv64d.rs:154-164 run_fdiv_d *)
Definition run_fdiv_d (rs1 rs2 : FRegister) (rm : InstrRoundingMode) (rd : FRegister) : hartM unit :=
  let! _ := check_fs_on in
  run_fdiv Double rs1 rs2 rm rd.

(* interpreter/rv64d.rs:167-188 run_fsqrt_d *)
Definition run_fsqrt_d (rs1 : FRegister) (rm : InstrRoundingMode) (rd : FRegister) : hartM unit :=
  let! _ := check_fs_on in
  let! rval := gets (fun h => FRegisters_read h.(fregisters) rs1) in
  let! rm := rounding rm in
  let r := sqrt_accurate_64 rval rm in
  let! _ := flag_status r.(status) in
  fwrite rd r.(value).

(* interpreter/rv64d.rs:193-203 run_fmin_d *)
Definition run_fmin_d (rs1 rs2 rd : FRegister) : hartM unit :=
  let! _ := check_fs_on in
  run_fmin Double rs1 rs2 rd.

(* interpreter/rv64d.rs:208-218 run_fmax_d *)
Definition run_fmax_d (rs1 rs2 rd : FRegister) : hartM unit :=
  let! _ := check_fs_on in
  run_fmax Double rs1 rs2 rd.

(* interpreter/rv64d.rs:223-234 run_fmadd_d *)
Definition run_fmadd_d (rs1 rs2 rs3 : FRegister) (rm : InstrRoundingMode) (rd : FRegister) : hartM unit :=
  let! _ := check_fs_on in
  run_fmadd Double rs1 rs2 rs3 rm rd.

(* interpreter/rv64d.rs:239-250 run_fmsub_d *)
Definition run_fmsub_d (rs1 rs2 rs3 : FRegister) (rm : InstrRoundingMode) (rd : FRegister) : hartM unit :=
  let! _ := check_fs_on in
  run_fmsub Double rs1 rs2 rs3 rm rd.

(* interpreter/rv64d.rs:255-266 run_fnmsub_d *)
Definition run_fnmsub_d (rs1 rs2 rs3 : FRegister) (rm : InstrRoundingMode) (rd : FRegister) : hartM unit :=
  let! _ := check_fs_on in
  run_fnmsub Double rs1 rs2 rs3 rm rd.

(* interpreter/rv64d.rs:271-282 run_fnmadd_d *)
Definition run_fnmadd_d (rs1 rs2 rs3 : FRegister) (rm : InstrRoundingMode) (rd : FRegister) : hartM unit :=
  let! _ := check_fs_on in
  run_fnmadd Double rs1 rs2 rs3 rm rd.

(* interpreter/rv64d.rs:287-296 run_fcvt_d_w *)
Definition run_fcvt_d_w (rs1 : XRegister) (rm : InstrRoundingMode) (rd : FRegister) : hartM unit :=
  let! _ := check_fs_on in
  run_fcvt_int_fmt Double rs1 rm rd (fun u => as_i128 (as_i32 u)) from_i128_r.

(* interpreter/rv64d.rs:301-310 run_fcvt_d_wu *)
Definition run_fcvt_d_wu (rs1 : XRegister) (rm : InstrRoundingMode) (rd : FRegister) : hartM unit :=
  let! _ := check_fs_on in
  run_fcvt_int_fmt Double rs1 rm rd (fun u => as_u128 (as_u32 u)) from_u128_r.

(* interpreter/rv64d.rs:315-324 run_fcvt_d_l *)
Definition run_fcvt_d_l (rs1 : XRegister) (rm : InstrRoundingMode) (rd : FRegister) : hartM unit :=
  let! _ := check_fs_on in
  run_fcvt_int_fmt Double rs1 rm rd (fun u => as_i128 (as_i64 u)) from_i128_r.

(* interpreter/rv64d.rs:329-338 run_fcvt_d_lu *)
Definition run_fcvt_d_lu (rs1 : XRegister) (rm : InstrRoundingMode) (rd : FRegister) : hartM unit :=
  let! _ := check_fs_on in
  run_fcvt_int_fmt Double rs1 rm rd as_u128 from_u128_r.

(* interpreter/rv64d.rs:343-352 run_fcvt_d_s *)
Definition run_fcvt_d_s (rs1 : FRegister) (rm : InstrRoundingMode) (rd : FRegister) : hartM unit :=
  let! _ := check_fs_on in
  run_fcvt_fmt_fmt Single Double convert_single_double rs1 rm rd.

(* interpreter/rv64d.rs:357-366 run_fcvt_s_d *)
Definition run_fcvt_s_d (rs1 : FRegister) (rm : InstrRoundingMode) (rd : FRegister) : hartM unit :=
  let! _ := check_fs_on in
  run_fcvt_fmt_fmt Double Single convert_double_single rs1 rm rd.

(* interpreter/rv64d.rs:369-384 run_fcvt_w_d *)
Definition run_fcvt_w_d (rs1 : FRegister) (rm : InstrRoundingMode) (rd : XRegister) : hartM unit :=
  let! _ := check_fs_on in
  run_fcvt_fmt_int Double rs1 rm rd (fun u => as_u64 (as_i32 u)) (fun f rm => to_i128_r f 32 rm).

(* interpreter/rv64d.rs:387-402 run_fcvt_wu_d *)
Definition run_fcvt_wu_d (rs1 : FRegister) (rm : InstrRoundingMode) (rd : XRegister) : hartM unit :=
  let! _ := check_fs_on in
  run_fcvt_fmt_int Double rs1 rm rd (fun u => as_u64 (as_i32 u)) (fun f rm => to_u128_r f 32 rm).

(* interpreter/rv64d.rs:405-420 run_fcvt_l_d *)
Definition run_fcvt_l_d (rs1 : FRegister) (rm : InstrRoundingMode) (rd : XRegister) : hartM unit :=
  let! _ := check_fs_on in
  run_fcvt_fmt_int Double rs1 rm rd as_u64 (fun f rm => to_i128_r f 64 rm).

(* interpreter/rv64d.rs:423-438 run_fcvt_lu_d *)
Definition run_fcvt_lu_d (rs1 : FRegister) (rm : InstrRoundingMode) (rd : XRegister) : hartM unit :=
  let! _ := check_fs_on in
  run_fcvt_fmt_int Double rs1 rm rd as_u64 (fun f rm => to_u128_r f 64 rm).

(* interpreter/rv64d.rs:443-453 run_fsgnj_d *)
Definition run_fsgnj_d (rs1 rs2 rd : FRegister) : hartM unit :=
  let! _ := check_fs_on in
  run_fsgnj Double rs1 rs2 rd.

(* interpreter/rv64d.rs:458-468 run_fsgnjn_d *)
Definition run_fsgnjn_d (rs1 rs2 rd : FRegister) : hartM unit :=
  let! _ := check_fs_on in
  run_fsgnjn Double rs1 rs2 rd.

(* interpreter/rv64d.rs:473-483 run_fsgnjx_d *)
Definition run_fsgnjx_d (rs1 rs2 rd : FRegister) : hartM unit :=
  let! _ := check_fs_on in
  run_fsgnjx Double rs1 rs2 rd.

(* interpreter/rv64d.rs:493-499 run_fmv_d_x *)
Definition run_fmv_d_x (rs1 : XRegister) (rd : FRegister) : hartM unit :=
  let! _ := check_fs_on in
  let! rval := gets (fun h => xread h rs1) in
  fwrite rd rval.

(* interpreter/rv64d.rs:508-514 run_fmv_x_d *)
Definition run_fmv_x_d (rs1 : FRegister) (rd : XRegister) : hartM unit :=
  let! _ := check_fs_on in
  let! rval := gets (fun h => FRegisters_read h.(fregisters) rs1) in
  hart_xwrite rd rval.

End formats.

(** ** Loads and stores *)

Section memory.
Context `{ML : MainMemoryLayout}.

(* interpreter/rv64f.rs:512-520 run_flw *)
Definition run_flw (imm : Z) (rs1 : XRegister) (rd : FRegister) : coreM unit :=
  let! _ := on_hart check_fs_on in
  let! val := read_from_bus U32 imm rs1 in
  on_hart (fwrite rd (f32_to_fvalue val)).

(* interpreter/rv64f.rs:526-531 run_fsw *)
Definition run_fsw (imm : Z) (rs1 : XRegister) (rs2 : FRegister) : coreM unit :=
  let! _ := on_hart check_fs_on in
  let! val := gets (fun c => FRegisters_read c.(hart).(fregisters) rs2) in
  write_to_bus U32 imm rs1 (as_u32 val).

(* interpreter/rv64d.rs:526-533 run_fld *)
Definition run_fld (imm : Z) (rs1 : XRegister) (rd : FRegister) : coreM unit :=
  let! _ := on_hart check_fs_on in
  let! val := read_from_bus U64 imm rs1 in
  on_hart (fwrite rd val).

(* interpreter/rv64d.rs:539-544 run_fsd *)
Definition run_fsd (imm : Z) (rs1 : XRegister) (rs2 : FRegister) : coreM unit :=
  let! _ := on_hart check_fs_on in
  let! val := gets (fun c => FRegisters_read c.(hart).(fregisters) rs2) in
  write_to_bus U64 imm rs1 val.

(* interpreter/rv64dc.rs:32-35 run_cfld *)
Definition run_cfld (imm : Z) (rs1 : XRegister) (rd : FRegister) : coreM unit := run_fld imm rs1 rd.

(* interpreter/rv64dc.rs:44-47 run_cfldsp *)
Definition run_cfldsp (imm : Z) (rd_rs1 : FRegister) : coreM unit := run_fld imm x2 rd_rs1.

(* interpreter/rv64dc.rs:56-59 run_cfsd *)
Definition run_cfsd (imm : Z) (rs1 : XRegister) (rs2 : FRegister) : coreM unit := run_fsd imm rs1 rs2.

(* interpreter/rv64dc.rs:68-71 run_cfsdsp *)
Definition run_cfsdsp (imm : Z) (rs2 : FRegister) : coreM unit := run_fsd imm x2 rs2.

End memory.
