(* ===== verification/FloatSpec.v ===== *)
(** Floating-point instructions against the encodings: what is documented of
    the arithmetic library, the classification, sign injection, NaN boxing and
    the accrual of flags; and a format at the level of bits, which shows that
    the assumptions can hold. *)
From S2P Require Import Prelude Registers CSRegister Traps XStatus CSRegisters CSRegistersSpec.
From S2P Require Import HartState HartStateSpec.
From S2P Require Import Bus Instruction MachineCore CoreInstr Float.

(** ** Encodings *)

(** The interchange format with [ew] exponent bits and [mw] fraction bits. *)
Section encoding.
Context (ew mw : Z).

Definition enc_width : Z := 1 + ew + mw.
Definition enc_sign (b : Z) : bool := Z.testbit b (ew + mw).
Definition enc_exponent (b : Z) : Z := (b / 2 ^ mw) mod 2 ^ ew.
Definition enc_fraction (b : Z) : Z := b mod 2 ^ mw.
Definition enc_special (b : Z) : bool := enc_exponent b =? 2 ^ ew - 1.
Definition enc_nan (b : Z) : bool := enc_special b && negb (enc_fraction b =? 0).
Definition enc_infinite (b : Z) : bool := enc_special b && (enc_fraction b =? 0).
Definition enc_zero (b : Z) : bool := (enc_exponent b =? 0) && (enc_fraction b =? 0).
Definition enc_denormal (b : Z) : bool := (enc_exponent b =? 0) && negb (enc_fraction b =? 0).
Definition enc_normal (b : Z) : bool := negb (enc_exponent b =? 0) && negb (enc_special b).
Definition enc_quiet (b : Z) : bool := Z.testbit b (mw - 1).

(** What is documented of a format of the library. *)
Class FloatOpsLaws (F : FloatOps) : Prop := {
  to_bits_range (x : F) : is_u enc_width (to_bits x);
  to_from_bits b : is_u enc_width b -> to_bits (from_bits (f := F) b) = b;
  is_nan_spec (x : F) : is_nan x = enc_nan (to_bits x);
  is_signaling_spec (x : F) : is_signaling x = enc_nan (to_bits x) && negb (enc_quiet (to_bits x));
  is_negative_spec (x : F) : is_negative x = enc_sign (to_bits x);
  is_normal_spec (x : F) : is_normal x = enc_normal (to_bits x);
  is_denormal_spec (x : F) : is_denormal x = enc_denormal (to_bits x);
  is_pos_infinity_spec (x : F) : is_pos_infinity x = enc_infinite (to_bits x) && negb (enc_sign (to_bits x));
  is_neg_infinity_spec (x : F) : is_neg_infinity x = enc_infinite (to_bits x) && enc_sign (to_bits x);
  is_pos_zero_spec (x : F) : is_pos_zero x = enc_zero (to_bits x) && negb (enc_sign (to_bits x));
  is_neg_zero_spec (x : F) : is_neg_zero x = enc_zero (to_bits x) && enc_sign (to_bits x);
  fneg_spec (x : F) : to_bits (fneg x) = to_bits x ^: 2 ^ (ew + mw);
}.

(** A format whose values are the bits.  Comparisons are those of the encoding;
    the rounding operations give the quiet NaN. *)
Definition enc_key (b : Z) : Z := let m := b mod 2 ^ (ew + mw) in if enc_sign b then - m else m.
Definition enc_qnan : Z := (2 ^ ew - 1) * 2 ^ mw + 2 ^ (mw - 1).
Definition enc_invalid : StatusAnd Z := {| status := Status_INVALID_OP; value := enc_qnan |}.
Definition enc_lt (a b : Z) : bool := negb (enc_nan a || enc_nan b) && (enc_key a <? enc_key b).
Definition enc_le (a b : Z) : bool := negb (enc_nan a || enc_nan b) && (enc_key a <=? enc_key b).

Definition bits_format : FloatOps := {|
  F := Z;
  from_bits := wrap enc_width;
  to_bits := wrap enc_width;
  is_nan b := enc_nan (wrap enc_width b);
  is_signaling b := enc_nan (wrap enc_width b) && negb (enc_quiet (wrap enc_width b));
  is_negative b := enc_sign (wrap enc_width b);
  is_normal b := enc_normal (wrap enc_width b);
  is_denormal b := enc_denormal (wrap enc_width b);
  is_pos_infinity b := enc_infinite (wrap enc_width b) && negb (enc_sign (wrap enc_width b));
  is_neg_infinity b := enc_infinite (wrap enc_width b) && enc_sign (wrap enc_width b);
  is_pos_zero b := enc_zero (wrap enc_width b) && negb (enc_sign (wrap enc_width b));
  is_neg_zero b := enc_zero (wrap enc_width b) && enc_sign (wrap enc_width b);
  INFINITY := (2 ^ ew - 1) * 2 ^ mw;
  feq a b := negb (enc_nan a || enc_nan b) && (enc_key a =? enc_key b);
  flt := enc_lt;
  fle := enc_le;
  fneg b := wrap enc_width b ^: 2 ^ (ew + mw);
  minimum a b := if enc_le a b then a else b;
  maximum a b := if enc_le a b then b else a;
  add_r _ _ _ := enc_invalid;
  sub_r _ _ _ := enc_invalid;
  mul_r _ _ _ := enc_invalid;
  div_r _ _ _ := enc_invalid;
  mul_add_r _ _ _ _ := enc_invalid;
  from_i128_r _ _ := enc_invalid;
  from_u128_r _ _ := enc_invalid;
  to_i128_r _ _ _ := {| status := Status_INVALID_OP; value := 0 |};
  to_u128_r _ _ _ := {| status := Status_INVALID_OP; value := 0 |};
|}.

Lemma bits_format_laws : 0 <= ew -> 0 <= mw -> FloatOpsLaws bits_format.
Proof.
  intros E M. assert (0 <= enc_width) by (unfold enc_width; lia).
  split; try done; simpl.
  - intros. by apply wrap_range.
  - intros b B. rewrite !wrap_small by (done || by rewrite wrap_small). done.
  - intros x. rewrite wrap_small; [done|]. apply lxor_is_u; [done|by apply wrap_range|].
    unfold is_u, enc_width. split; [apply Z.pow_nonneg; lia|]. apply Z.pow_lt_mono_r; lia.
Qed.
End encoding.

Abbreviation single_laws := (FloatOpsLaws 8 23).
Abbreviation double_laws := (FloatOpsLaws 11 52).

(** The laws of both formats, and the ranges of the square roots. *)
Class ApFloatLaws (AP : ApFloat) : Prop := {
  Single_laws :: single_laws Single;
  Double_laws :: double_laws Double;
  sqrt_32_range v rm : is_u 32 (sqrt_accurate_32 v rm).(value);
  sqrt_64_range v rm : is_u 64 (sqrt_accurate_64 v rm).(value);
}.

Definition ApFloat_example : ApFloat := {|
  Single := bits_format 8 23;
  Double := bits_format 11 52;
  convert_single_double _ _ := enc_invalid 11 52;
  convert_double_single _ _ := enc_invalid 8 23;
  sqrt_accurate_32 _ _ := enc_invalid 8 23;
  sqrt_accurate_64 _ _ := enc_invalid 11 52;
|}.

Lemma ApFloat_example_laws : ApFloatLaws ApFloat_example.
Proof.
  split; [by apply bits_format_laws..|intros; vm_compute; intuition congruence|intros; vm_compute; intuition congruence].
Qed.

(** ** Classification *)

(** The class of a value, as the RISC-V specification numbers them. *)
Definition riscv_class (ew mw b : Z) : Z :=
  let s := enc_sign ew mw b in
  if enc_exponent ew mw b =? 2 ^ ew - 1 then
    if enc_fraction mw b =? 0 then (if s then 0 else 7)
    else if enc_quiet mw b then 9 else 8
  else if enc_exponent ew mw b =? 0 then
    if enc_fraction mw b =? 0 then (if s then 3 else 4)
    else (if s then 2 else 5)
  else (if s then 1 else 6).

Lemma fclass_mask_spec ew mw F `{FloatOpsLaws ew mw F} (x : F) :
  0 < ew -> fclass_mask F x = 2 ^ riscv_class ew mw (to_bits x).
Proof.
  intros E. unfold fclass_mask, riscv_class.
  rewrite (is_neg_infinity_spec ew mw), (is_negative_spec ew mw), (is_normal_spec ew mw),
    (is_denormal_spec ew mw), (is_neg_zero_spec ew mw), (is_pos_zero_spec ew mw),
    (is_pos_infinity_spec ew mw), (is_signaling_spec ew mw).
  unfold enc_infinite, enc_normal, enc_denormal, enc_zero, enc_nan, enc_special.
  set (s := enc_sign ew mw _). set (q := enc_quiet mw _).
  assert (2 ^ ew - 1 <> 0).
  { pose proof (Z.pow_gt_1 2 ew ltac:(lia)) as [P _]. specialize (P E). lia. }
  destruct (Z.eqb_spec (enc_exponent ew mw (to_bits x)) (2 ^ ew - 1)),
    (Z.eqb_spec (enc_exponent ew mw (to_bits x)) 0), (Z.eqb_spec (enc_fraction mw (to_bits x)) 0),
    s, q; try lia; reflexivity.
Qed.

(** ** Registers *)

(** The single-precision value of a register: a value that is not NaN-boxed
    counts as the canonical NaN. *)
Definition unboxed (v : Z) : Z := if v / 2 ^ 32 =? 2 ^ 32 - 1 then v mod 2 ^ 32 else F32_CANONICAL_NAN_BITS.
Definition boxed (b : Z) : Z := (2 ^ 32 - 1) * 2 ^ 32 + b.

Lemma unboxed_u32 v : is_u 32 (unboxed v).
Proof.
  unfold unboxed. destruct (_ =? _); [apply (wrap_range 32); lia|by vm_compute].
Qed.

Lemma f32_to_fvalue_boxed b : is_u 32 b -> f32_to_fvalue b = boxed b.
Proof.
  intros U. unfold f32_to_fvalue, boxed.
  change 0xffffffff00000000 with (Z.shiftl (Z.ones 32) 32).
  change ((2 ^ 32 - 1) * 2 ^ 32) with (Z.shiftl (Z.ones 32) 32).
  rewrite Z.add_nocarry_lxor, Z.lxor_lor, Z.lor_comm; [done|..].
  all: bits_eq; autorewrite with bits; rewrite ?(testbit_above 32 b i) by (done || lia);
    destruct (Z.ltb_spec i 32); bool_cases; try lia; rewrite ?andb_false_r; try done;
    rewrite ?(testbit_above 32 b i) by (done || lia); try done; by rewrite ?andb_false_r.
Qed.

Lemma boxed_u64 b : is_u 32 b -> is_u 64 (boxed b).
Proof. unfold is_u, boxed. pow2. lia. Qed.

Lemma unboxed_boxed b : is_u 32 b -> unboxed (boxed b) = b.
Proof.
  unfold is_u, unboxed, boxed. intros U.
  rewrite Z.div_add_l, (Z.div_small b) by lia. rewrite Z.add_0_r, Z.eqb_refl.
  rewrite Z.add_comm, Z.mod_add by lia. apply Z.mod_small. lia.
Qed.

Lemma shr32 v : shr_u 64 v 32 = v / 2 ^ 32.
Proof. unfold shr_u. change (32 mod 64) with 32. by rewrite Z.shiftr_div_pow2 by lia. Qed.

Lemma fvalue_to_f32_bits_spec v : fvalue_to_f32_bits v = unboxed v.
Proof.
  unfold fvalue_to_f32_bits, unboxed. rewrite shr32. change 0xffffffff with (2 ^ 32 - 1).
  by destruct (_ =? _).
Qed.

Section formats.
Context `{AP : ApFloat} `{APL : !ApFloatLaws AP}.

Lemma Single_from_fvalue v : to_bits (from_fvalue (F := Single) v) = unboxed v.
Proof.
  cbn. rewrite shr32. unfold unboxed. change 0xffffffff with (2 ^ 32 - 1).
  destruct (_ =? _); simpl; apply (to_from_bits 8 23).
  - apply (wrap_range 32); lia.
  - by vm_compute.
Qed.

Lemma Single_into_fvalue (x : Single) : into_fvalue x = boxed (to_bits x).
Proof.
  pose proof (to_bits_range 8 23 x) as R. cbn. rewrite wrap_small by exact R.
  by apply f32_to_fvalue_boxed.
Qed.

Lemma Double_from_fvalue v : is_u 64 v -> to_bits (from_fvalue (F := Double) v) = v.
Proof. intros U. cbn. by apply (to_from_bits 11 52). Qed.

Lemma Double_into_fvalue (x : Double) : into_fvalue x = to_bits x.
Proof. pose proof (to_bits_range 11 52 x) as R. cbn. by apply wrap_small. Qed.

Definition fp_on (h : HartState) : Prop := h.(csregisters).(mstatus_cells).(m_fs) <> Off.

Lemma check_fs_on_spec h : fp_on h -> check_fs_on h = (Ok tt, h).
Proof.
  intros O. unfold check_fs_on, checked, floating_disabled. by rewrite bool_decide_false.
Qed.

(** [FCLASS]: when floating point is on, the destination gets the one bit
    that the RISC-V specification assigns to the class of the operand, for
    both formats; a single that is not NaN-boxed is classified as a quiet
    NaN. *)
Theorem fclass_spec h rs1 rd :
  HartState_wf h -> fp_on h ->
  let v := FRegisters_read h.(fregisters) rs1 in
  run_fclass_d rs1 rd h = (Ok tt, xwrite h rd (2 ^ riscv_class 11 52 v)) /\
  run_fclass_s rs1 rd h = (Ok tt, xwrite h rd (2 ^ riscv_class 8 23 (unboxed v))) /\
  (v / 2 ^ 32 <> 2 ^ 32 - 1 -> riscv_class 8 23 (unboxed v) = 9).
Proof.
  intros (_ & W & _) O v. pose proof (FRegisters_read_u64 h.(fregisters) rs1 W) as U.
  unfold run_fclass_d, run_fclass_s, run_fclass, st_bind. rewrite check_fs_on_spec by done.
  unfold fval, gets, hart_xwrite, modify. rewrite (fclass_mask_spec 11 52 Double) by lia.
  rewrite (fclass_mask_spec 8 23 Single) by lia. rewrite Double_from_fvalue, Single_from_fvalue by done.
  split_and!; [done..|]. intros N. unfold unboxed. by rewrite (proj2 (Z.eqb_neq _ _) N).
Qed.

(** ** Sign injection *)

(** The magnitude bits of [b] with the sign [s], in a format of [n + 1] bits. *)
Definition with_sign (n : Z) (s : bool) (b : Z) : Z := b mod 2 ^ n + (if s then 2 ^ n else 0).

Lemma split_sign n b : 0 <= n -> is_u (n + 1) b -> b = with_sign n (Z.testbit b n) b.
Proof.
  intros N [L R]. unfold with_sign. rewrite Z.pow_add_r in R by lia.
  pose proof (pow2_pos n N). pose proof (Z.testbit_spec' b n N) as T.
  assert (D : b / 2 ^ n < 2) by (apply Z.div_lt_upper_bound; lia).
  assert (D0 : 0 <= b / 2 ^ n) by (apply Z.div_pos; lia).
  rewrite Z.mod_small in T by lia. rewrite (Z.div_mod b (2 ^ n)) at 1 by lia.
  destruct (Z.testbit b n); simpl in T; rewrite <- T; lia.
Qed.

Lemma flip_sign n b : 0 <= n -> is_u (n + 1) b -> (b ^: 2 ^ n) = with_sign n (negb (Z.testbit b n)) b.
Proof.
  intros N U.
  assert (U' : is_u (n + 1) (b ^: 2 ^ n)).
  { apply lxor_is_u; [lia|done|]. split; [apply Z.pow_nonneg; lia|apply Z.pow_lt_mono_r; lia]. }
  rewrite (split_sign n (b ^: 2 ^ n)) by done. unfold with_sign.
  assert (((b ^: 2 ^ n) mod 2 ^ n) = b mod 2 ^ n) as ->.
  { rewrite <- !Z.land_ones by done. apply Z.bits_inj'; intros i Hi.
    rewrite !testbit_land, Z.lxor_spec, testbit_pow2 by done.
    destruct (Z.eqb_spec i n) as [->|]; [|by rewrite xorb_false_r].
    rewrite Z.testbit_ones_nonneg by lia. rewrite (proj2 (Z.ltb_ge n n)) by lia. by rewrite !andb_false_r. }
  rewrite Z.lxor_spec, Z.pow2_bits_true by done. by destruct (Z.testbit b n).
Qed.

Lemma inject_sign ew mw F `{FloatOpsLaws ew mw F} s (x : F) :
  0 <= ew -> 0 <= mw ->
  to_bits (if Bool.eqb s (is_negative x) then x else fneg x) = with_sign (ew + mw) s (to_bits x).
Proof.
  intros E M. rewrite (is_negative_spec ew mw). unfold enc_sign.
  pose proof (to_bits_range ew mw x) as U. unfold enc_width in U.
  replace (1 + ew + mw) with (ew + mw + 1) in U by lia.
  destruct (Bool.eqb_spec s (Z.testbit (to_bits x) (ew + mw))) as [->|D].
  - apply split_sign; [lia|done].
  - rewrite (fneg_spec ew mw), flip_sign by (done || lia).
    by destruct s, (Z.testbit _ _).
Qed.

(** Sign injection, for both formats and on every bit pattern (NaNs
    included): the magnitude of the first operand with the sign of the second
    one, its negation, or the product of the signs. *)
Theorem sign_injection_spec h rs1 rs2 rd :
  HartState_wf h -> fp_on h ->
  let v1 := FRegisters_read h.(fregisters) rs1 in
  let v2 := FRegisters_read h.(fregisters) rs2 in
  let put v := (Ok tt, set_fregisters h (FRegisters_write h.(fregisters) rd v)) in
  let s1 := Z.testbit v1 63 in let s2 := Z.testbit v2 63 in
  let t1 := Z.testbit (unboxed v1) 31 in let t2 := Z.testbit (unboxed v2) 31 in
  run_fsgnj_d rs1 rs2 rd h = put (with_sign 63 s2 v1) /\
  run_fsgnjn_d rs1 rs2 rd h = put (with_sign 63 (negb s2) v1) /\
  run_fsgnjx_d rs1 rs2 rd h = put (with_sign 63 (xorb s1 s2) v1) /\
  run_fsgnj_s rs1 rs2 rd h = put (boxed (with_sign 31 t2 (unboxed v1))) /\
  run_fsgnjn_s rs1 rs2 rd h = put (boxed (with_sign 31 (negb t2) (unboxed v1))) /\
  run_fsgnjx_s rs1 rs2 rd h = put (boxed (with_sign 31 (xorb t1 t2) (unboxed v1))).
Proof.
  intros (_ & W & _) O v1 v2 put s1 s2 t1 t2.
  pose proof (FRegisters_read_u64 h.(fregisters) rs1 W) as U1.
  pose proof (FRegisters_read_u64 h.(fregisters) rs2 W) as U2.
  unfold run_fsgnj_d, run_fsgnjn_d, run_fsgnjx_d, run_fsgnj_s, run_fsgnjn_s, run_fsgnjx_s,
    run_fsgnj, run_fsgnjn, run_fsgnjx, f_sign_injection, st_bind.
  rewrite check_fs_on_spec by done. unfold fval, gets, fwrite, modify.
  rewrite !Double_into_fvalue, !Single_into_fvalue, !(inject_sign 11 52 Double), !(inject_sign 8 23 Single) by lia.
  rewrite !(is_negative_spec 11 52 (F := Double)), !(is_negative_spec 8 23 (F := Single)), !Single_from_fvalue.
  fold v1 v2. fold v1 in U1. fold v2 in U2. rewrite !Double_from_fvalue by done.
  split_and!; reflexivity.
Qed.

End formats.

(** ** Rounding and flags *)

Lemma reverse_bits_8_spec z :
  reverse_bits_8 z = fold_left (fun acc i => acc |: Z.shiftl (Z.b2z (Z.testbit z i)) (7 - i)) [0; 1; 2; 3; 4; 5; 6; 7] 0.
Proof.
  assert (B : forall i, 0 <= i -> (Z.shiftr z i & 1) = Z.b2z (Z.testbit z i)).
  { intros i I. change 1 with (Z.ones 1). rewrite Z.land_ones, Z.shiftr_div_pow2 by lia.
    symmetry. by apply Z.testbit_spec'. }
  unfold reverse_bits_8. cbn [fold_left]. rewrite !B by lia. done.
Qed.

(** The five flags of the library, in the order of [fflags]. *)
Lemma status_to_bits_spec st :
  is_u 5 (status_to_bits st) /\
  Z.testbit (status_to_bits st) (Fflag_repr NV) = Z.testbit st 0 /\
  Z.testbit (status_to_bits st) (Fflag_repr DZ) = Z.testbit st 1 /\
  Z.testbit (status_to_bits st) (Fflag_repr OF) = Z.testbit st 2 /\
  Z.testbit (status_to_bits st) (Fflag_repr UF) = Z.testbit st 3 /\
  Z.testbit (status_to_bits st) (Fflag_repr NX) = Z.testbit st 4.
Proof.
  unfold status_to_bits. rewrite reverse_bits_8_spec. cbn [fold_left].
  destruct (Z.testbit st 0), (Z.testbit st 1), (Z.testbit st 2), (Z.testbit st 3), (Z.testbit st 4),
    (Z.testbit st 5), (Z.testbit st 6), (Z.testbit st 7); vm_compute; intuition congruence.
Qed.

Lemma set_fflags_spec s bits :
  is_u 5 bits ->
  let s' := snd (CSRegisters_set_bits s CSR.fflags bits) in
  CSRegisters_read s' CSR.fflags = CSRegisters_read s CSR.fflags |: bits /\
  CSRegisters_read s' CSR.frm = CSRegisters_read s CSR.frm /\
  (forall r, RootCSRegister_from r <> Root.fcsr -> CSRegisters_read s' r = CSRegisters_read s r) /\
  s'.(mstatus_cells) = s.(mstatus_cells).
Proof.
  intros U s'. unfold s', CSRegisters_set_bits; cbn [snd]. split_and!.
  - rewrite read_fflags, raw_write_fflags, fflags_of_fflags. apply wrap_small.
    apply lor_is_u; [lia| |done]. rewrite read_fflags. apply land_is_u_r; [lia|by vm_compute].
  - rewrite read_frm, raw_write_fflags, frm_of_fflags. by rewrite read_frm.
  - intros r R. by apply CSRegisters_write_ne.
  - done.
Qed.

(** What [flag_status] leaves of a hart. *)
Lemma flag_status_spec st h :
  let h' := (flag_status st h).2 in
  (flag_status st h).1 = Ok tt /\
  csr_read h' CSR.fflags = csr_read h CSR.fflags |: status_to_bits st /\
  csr_read h' CSR.frm = csr_read h CSR.frm /\
  (forall r, RootCSRegister_from r <> Root.fcsr -> csr_read h' r = csr_read h r) /\
  (h'.(xregisters), h'.(fregisters), h'.(mode), h'.(pc), h'.(reservation_set)) =
  (h.(xregisters), h.(fregisters), h.(mode), h.(pc), h.(reservation_set)).
Proof.
  unfold flag_status, modify. cbn [fst snd]. split; [done|].
  destruct (Z.eqb_spec st Status_OK) as [->|]; simpl.
  - change (status_to_bits Status_OK) with 0. by rewrite Z.lor_0_r.
  - destruct (set_fflags_spec h.(csregisters) (status_to_bits st)) as (A & B & C & _).
    { apply status_to_bits_spec. }
    exact (conj A (conj B (conj C eq_refl))).
Qed.

(** A dynamic rounding mode is illegal exactly when [frm] holds a reserved value. *)
Lemma f_rounding_mode_spec rm h :
  f_rounding_mode rm h =
  match rm with
  | Static r => Ok (RoundingMode_into r)
  | Dynamic =>
      match csr_read h CSR.frm with
      | 0 => Ok NearestTiesToEven | 1 => Ok TowardZero | 2 => Ok TowardNegative
      | 3 => Ok TowardPositive | 4 => Ok NearestTiesToAway
      | _ => Err IllegalInstruction
      end
  end.
Proof.
  unfold f_rounding_mode. destruct rm as [|r]; [|done]. generalize (csr_read h CSR.frm). intros v.
  destruct v as [|[[[]| |]|[[]|[]|]|]|]; done.
Qed.

(** Two-operand arithmetic ([FADD], [FSUB], [FMUL], [FDIV] in both formats):
    an illegal dynamic rounding mode raises [IllegalInstruction] and changes
    nothing; otherwise the destination gets the library's result under the
    rounding mode in force, a NaN replaced by the canonical NaN, and its
    exception flags are added to [fflags] (invalid, divide by zero, overflow,
    underflow, inexact in bits 4 to 0), with no flag ever cleared and nothing
    else changed. *)
Theorem f_arith_2_spec (F : FloatOps) `{FX : FloatExt F} rs1 rs2 rm rd f h :
  let v r : F := from_fvalue (FRegisters_read h.(fregisters) r) in
  match f_rounding_mode rm h with
  | Err e => e = IllegalInstruction /\ f_arith_2 F rs1 rs2 rm rd f h = (Err e, h)
  | Ok round =>
      let x := f (v rs1) (v rs2) round in
      exists h', f_arith_2 F rs1 rs2 rm rd f h = (Ok tt, h') /\
        h'.(fregisters) = FRegisters_write h.(fregisters) rd
          (into_fvalue (if is_nan x.(value) then canonical_nan else x.(value))) /\
        csr_read h' CSR.fflags = csr_read h CSR.fflags |: status_to_bits x.(status) /\
        csr_read h' CSR.frm = csr_read h CSR.frm /\
        (forall r, RootCSRegister_from r <> Root.fcsr -> csr_read h' r = csr_read h r) /\
        (h'.(xregisters), h'.(mode), h'.(pc), h'.(reservation_set)) =
        (h.(xregisters), h.(mode), h.(pc), h.(reservation_set)) /\
        Forall2 (fun flag i => Z.testbit (status_to_bits x.(status)) (Fflag_repr flag) =
                               Z.testbit x.(status) i) [NV; DZ; OF; UF; NX] [0; 1; 2; 3; 4]
  end.
Proof.
  intros v. unfold f_arith_2, st_bind, fval, gets, rounding.
  destruct (f_rounding_mode rm h) as [round|e] eqn:R.
  - set (x := f (v rs1) (v rs2) round). unfold StatusAnd_map; cbn [status value].
    change (f (from_fvalue _) (from_fvalue _) round) with x.
    pose proof (flag_status_spec x.(status) h) as (E & A & B & C & D).
    destruct (flag_status (status x) h) as [r h0]. cbn [fst snd] in *. subst r.
    injection D as D1 D2 D3 D4 D5.
    eexists. split; [reflexivity|]. unfold fwrite, modify; cbn [snd].
    split; [by cbn; rewrite D2|]. split; [exact A|]. split; [exact B|]. split; [exact C|].
    split; [cbn; congruence|]. pose proof (status_to_bits_spec x.(status)) as (_ & ? & ? & ? & ? & ?).
    by repeat constructor.
  - rewrite f_rounding_mode_spec in R. destruct rm; [|done].
    split; [|done]. by destruct (csr_read h CSR.frm) as [|[[[]| |]|[[]|[]|]|]|]; simplify_eq.
Qed.

(** ** Examples *)

(** A hart with floating point on and the single [-1.0] in a register. *)
Definition fp_cells (m : MStatusValue) : MStatusValue := {|
  m_sie := m.(m_sie); m_mie := m.(m_mie); m_spie := m.(m_spie); m_ube := m.(m_ube);
  m_mpie := m.(m_mpie); m_spp := m.(m_spp); m_mpp := m.(m_mpp); m_fs := Dirty; m_xs := m.(m_xs);
  m_mprv := m.(m_mprv); m_sum := m.(m_sum); m_mxr := m.(m_mxr); m_tvm := m.(m_tvm); m_tw := m.(m_tw);
  m_tsr := m.(m_tsr); m_uxl := m.(m_uxl); m_sxl := m.(m_sxl); m_sbe := m.(m_sbe);
  m_mbe := m.(m_mbe);
|}.

Definition HartState_fp_example : HartState :=
  let h := set_mstatus_cells HartState_example (fp_cells HartState_example.(csregisters).(mstatus_cells)) in
  set_fregisters h (FRegisters_write h.(fregisters) f1 0xffffffffbf800000).

Lemma HartState_fp_example_wf : HartState_wf HartState_fp_example.
Proof.
  destruct HartState_example_wf as (X & Fr & C & P).
  refine (conj X (conj _ (conj C P))). apply FRegisters_write_wf; [exact Fr|by vm_compute].
Qed.

Lemma HartState_fp_example_on : fp_on HartState_fp_example.
Proof. done. Qed.

Lemma fclass_spec_witness :
  (run_fclass_s (AP := ApFloat_example) f1 x5 HartState_fp_example).2 = xwrite HartState_fp_example x5 2.
Proof.
  pose proof (fclass_spec (APL := ApFloat_example_laws) HartState_fp_example f1 x5
    HartState_fp_example_wf HartState_fp_example_on) as (_ & E & _).
  rewrite E. reflexivity.
Defined.

Lemma sign_injection_spec_witness :
  FRegisters_read (run_fsgnjx_s (AP := ApFloat_example) f1 f1 f2 HartState_fp_example).2.(fregisters) f2 =
  0xffffffff3f800000.
Proof.
  pose proof (sign_injection_spec (APL := ApFloat_example_laws) HartState_fp_example f1 f1 f2
    HartState_fp_example_wf HartState_fp_example_on) as (_ & _ & _ & _ & _ & E).
  rewrite E. vm_compute. reflexivity.
Defined.
