(* ===== verification/RunInstr.v ===== *)
(** Running one cacheable instruction: [ProgramCounterUpdate],
    [MachineCoreState::run_instr_cacheable] and the handling of its result
    ([src/riscv/lib/src/machine_state.rs]).

    Each macro of the source ([run_r_type_instr!] and the others) is one of the
    combinators below: what it runs, and the program-counter update it gives. *)
From S2P Require Import Prelude Registers CSRegister Traps XStatus CSRegisters HartState Bus.
From S2P Require Import Instruction.
From S2P Require Import IntInstr MachineCore CoreInstr Float.

(* machine_state.rs:111-116 ProgramCounterUpdate *)
Inductive ProgramCounterUpdate : Set :=
| PC_Set (address : Z)
| PC_Next (width : InstrWidth).

(** An operation on the integer registers, then the next instruction. *)
(* machine_state.rs:126-144 run_r_type_instr!, run_i_type_instr! *)
Definition x_op (f : XRegisters -> XRegisters) (w : InstrWidth) : coreM ProgramCounterUpdate :=
  let! _ := modify (fun c => set_hart c (set_xregisters c.(hart) (f c.(hart).(xregisters)))) in
  st_ret (PC_Next w).

(** An operation on the hart that cannot fail. *)
(* machine_state.rs:153-161 run_u_type_instr! *)
Definition h_op (f : HartState -> HartState) (w : InstrWidth) : coreM ProgramCounterUpdate :=
  let! _ := modify (fun c => set_hart c (f c.(hart))) in
  st_ret (PC_Next w).

(** A branch: the target is computed from the hart, which does not change. *)
(* machine_state.rs:146-151 run_b_type_instr! *)
Definition jump_to (f : HartState -> Z) : coreM ProgramCounterUpdate :=
  gets (fun c => PC_Set (f c.(hart))).

(** A jump that may write a link register. *)
(* machine_state.rs:450-451 run_instr_cacheable *)
Definition jump_link (f : HartState -> Z * HartState) : coreM ProgramCounterUpdate := fun c =>
  let '(a, h) := f c.(hart) in (Ok (PC_Set a), set_hart c h).

(** A fallible operation, then the next instruction. *)
(* machine_state.rs:163-179 run_load_instr!, run_store_instr! *)
Definition next (w : InstrWidth) (m : coreM unit) : coreM ProgramCounterUpdate :=
  let! _ := m in st_ret (PC_Next w).

Section run.
Context `{ML : MainMemoryLayout} `{AP : ApFloat}.

(* machine_state.rs:382-633 run_instr_cacheable *)
Definition run_instr_cacheable (instr : InstrCacheable) : coreM ProgramCounterUpdate :=
  let w := InstrCacheable_width instr in
  match instr with
  | Add args => x_op (fun xs => run_add xs args.(r_rs1) args.(r_rs2) args.(r_rd)) w
  | Sub args => x_op (fun xs => run_sub xs args.(r_rs1) args.(r_rs2) args.(r_rd)) w
  | Xor args => x_op (fun xs => run_xor xs args.(r_rs1) args.(r_rs2) args.(r_rd)) w
  | Or args => x_op (fun xs => run_or xs args.(r_rs1) args.(r_rs2) args.(r_rd)) w
  | And args => x_op (fun xs => run_and xs args.(r_rs1) args.(r_rs2) args.(r_rd)) w
  | Sll args => x_op (fun xs => run_sll xs args.(r_rs1) args.(r_rs2) args.(r_rd)) w
  | Srl args => x_op (fun xs => run_srl xs args.(r_rs1) args.(r_rs2) args.(r_rd)) w
  | Sra args => x_op (fun xs => run_sra xs args.(r_rs1) args.(r_rs2) args.(r_rd)) w
  | Slt args => x_op (fun xs => run_slt xs args.(r_rs1) args.(r_rs2) args.(r_rd)) w
  | Sltu args => x_op (fun xs => run_sltu xs args.(r_rs1) args.(r_rs2) args.(r_rd)) w
  | Addw args => x_op (fun xs => run_addw xs args.(r_rs1) args.(r_rs2) args.(r_rd)) w
  | Subw args => x_op (fun xs => run_subw xs args.(r_rs1) args.(r_rs2) args.(r_rd)) w
  | Sllw args => x_op (fun xs => run_sllw xs args.(r_rs1) args.(r_rs2) args.(r_rd)) w
  | Srlw args => x_op (fun xs => run_srlw xs args.(r_rs1) args.(r_rs2) args.(r_rd)) w
  | Sraw args => x_op (fun xs => run_sraw xs args.(r_rs1) args.(r_rs2) args.(r_rd)) w
  | Addi args => x_op (fun xs => run_addi xs args.(i_imm) args.(i_rs1) args.(i_rd)) w
  | Addiw args => x_op (fun xs => run_addiw xs args.(i_imm) args.(i_rs1) args.(i_rd)) w
  | Xori args => x_op (fun xs => run_xori xs args.(i_imm) args.(i_rs1) args.(i_rd)) w
  | Ori args => x_op (fun xs => run_ori xs args.(i_imm) args.(i_rs1) args.(i_rd)) w
  | Andi args => x_op (fun xs => run_andi xs args.(i_imm) args.(i_rs1) args.(i_rd)) w
  | Slli args => x_op (fun xs => run_slli xs args.(i_imm) args.(i_rs1) args.(i_rd)) w
  | Srli args => x_op (fun xs => run_srli xs args.(i_imm) args.(i_rs1) args.(i_rd)) w
  | Srai args => x_op (fun xs => run_srai xs args.(i_imm) args.(i_rs1) args.(i_rd)) w
  | Slliw args => x_op (fun xs => run_slliw xs args.(i_imm) args.(i_rs1) args.(i_rd)) w
  | Srliw args => x_op (fun xs => run_srliw xs args.(i_imm) args.(i_rs1) args.(i_rd)) w
  | Sraiw args => x_op (fun xs => run_sraiw xs args.(i_imm) args.(i_rs1) args.(i_rd)) w
  | Slti args => x_op (fun xs => run_slti xs args.(i_imm) args.(i_rs1) args.(i_rd)) w
  | Sltiu args => x_op (fun xs => run_sltiu xs args.(i_imm) args.(i_rs1) args.(i_rd)) w
  | Lb args => next w (run_lb args.(i_imm) args.(i_rs1) args.(i_rd))
  | Lh args => next w (run_lh args.(i_imm) args.(i_rs1) args.(i_rd))
  | Lw args => next w (run_lw args.(i_imm) args.(i_rs1) args.(i_rd))
  | Lbu args => next w (run_lbu args.(i_imm) args.(i_rs1) args.(i_rd))
  | Lhu args => next w (run_lhu args.(i_imm) args.(i_rs1) args.(i_rd))
  | Lwu args => next w (run_lwu args.(i_imm) args.(i_rs1) args.(i_rd))
  | Ld args => next w (run_ld args.(i_imm) args.(i_rs1) args.(i_rd))
  | Sb args => next w (run_sb args.(sb_imm) args.(sb_rs1) args.(sb_rs2))
  | Sh args => next w (run_sh args.(sb_imm) args.(sb_rs1) args.(sb_rs2))
  | Sw args => next w (run_sw args.(sb_imm) args.(sb_rs1) args.(sb_rs2))
  | Sd args => next w (run_sd args.(sb_imm) args.(sb_rs1) args.(sb_rs2))
  | Beq args => jump_to (fun h => run_beq h args.(sb_imm) args.(sb_rs1) args.(sb_rs2))
  | Bne args => jump_to (fun h => run_bne h args.(sb_imm) args.(sb_rs1) args.(sb_rs2))
  | Blt args => jump_to (fun h => run_blt h args.(sb_imm) args.(sb_rs1) args.(sb_rs2))
  | Bge args => jump_to (fun h => run_bge h args.(sb_imm) args.(sb_rs1) args.(sb_rs2))
  | Bltu args => jump_to (fun h => run_bltu h args.(sb_imm) args.(sb_rs1) args.(sb_rs2))
  | Bgeu args => jump_to (fun h => run_bgeu h args.(sb_imm) args.(sb_rs1) args.(sb_rs2))
  | Lui args => x_op (fun xs => run_lui xs args.(uj_imm) args.(uj_rd)) w
  | Auipc args => h_op (fun h => run_auipc h args.(uj_imm) args.(uj_rd)) w
  | Jal args => jump_link (fun h => run_jal h args.(uj_imm) args.(uj_rd))
  | Jalr args => jump_link (fun h => run_jalr h args.(i_imm) args.(i_rs1) args.(i_rd))
  | Lrw args =>
      next w (run_lrw args.(amo_rs1) args.(amo_rs2) args.(amo_rd) args.(amo_rl) args.(amo_aq))
  | Scw args =>
      next w (run_scw args.(amo_rs1) args.(amo_rs2) args.(amo_rd) args.(amo_rl) args.(amo_aq))
  | Amoswapw args =>
      next w (run_amoswapw args.(amo_rs1) args.(amo_rs2) args.(amo_rd) args.(amo_rl) args.(amo_aq))
  | Amoaddw args =>
      next w (run_amoaddw args.(amo_rs1) args.(amo_rs2) args.(amo_rd) args.(amo_rl) args.(amo_aq))
  | Amoxorw args =>
      next w (run_amoxorw args.(amo_rs1) args.(amo_rs2) args.(amo_rd) args.(amo_rl) args.(amo_aq))
  | Amoandw args =>
      next w (run_amoandw args.(amo_rs1) args.(amo_rs2) args.(amo_rd) args.(amo_rl) args.(amo_aq))
  | Amoorw args =>
      next w (run_amoorw args.(amo_rs1) args.(amo_rs2) args.(amo_rd) args.(amo_rl) args.(amo_aq))
  | Amominw args =>
      next w (run_amominw args.(amo_rs1) args.(amo_rs2) args.(amo_rd) args.(amo_rl) args.(amo_aq))
  | Amomaxw args =>
      next w (run_amomaxw args.(amo_rs1) args.(amo_rs2) args.(amo_rd) args.(amo_rl) args.(amo_aq))
  | Amominuw args =>
      next w (run_amominuw args.(amo_rs1) args.(amo_rs2) args.(amo_rd) args.(amo_rl) args.(amo_aq))
  | Amomaxuw args =>
      next w (run_amomaxuw args.(amo_rs1) args.(amo_rs2) args.(amo_rd) args.(amo_rl) args.(amo_aq))
  | Lrd args =>
      next w (run_lrd args.(amo_rs1) args.(amo_rs2) args.(amo_rd) args.(amo_rl) args.(amo_aq))
  | Scd args =>
      next w (run_scd args.(amo_rs1) args.(amo_rs2) args.(amo_rd) args.(amo_rl) args.(amo_aq))
  | Amoswapd args =>
      next w (run_amoswapd args.(amo_rs1) args.(amo_rs2) args.(amo_rd) args.(amo_rl) args.(amo_aq))
  | Amoaddd args =>
      next w (run_amoaddd args.(amo_rs1) args.(amo_rs2) args.(amo_rd) args.(amo_rl) args.(amo_aq))
  | Amoxord args =>
      next w (run_amoxord args.(amo_rs1) args.(amo_rs2) args.(amo_rd) args.(amo_rl) args.(amo_aq))
  | Amoandd args =>
      next w (run_amoandd args.(amo_rs1) args.(amo_rs2) args.(amo_rd) args.(amo_rl) args.(amo_aq))
  | Amoord args =>
      next w (run_amoord args.(amo_rs1) args.(amo_rs2) args.(amo_rd) args.(amo_rl) args.(amo_aq))
  | Amomind args =>
      next w (run_amomind args.(amo_rs1) args.(amo_rs2) args.(amo_rd) args.(amo_rl) args.(amo_aq))
  | Amomaxd args =>
      next w (run_amomaxd args.(amo_rs1) args.(amo_rs2) args.(amo_rd) args.(amo_rl) args.(amo_aq))
  | Amominud args =>
      next w (run_amominud args.(amo_rs1) args.(amo_rs2) args.(amo_rd) args.(amo_rl) args.(amo_aq))
  | Amomaxud args =>
      next w (run_amomaxud args.(amo_rs1) args.(amo_rs2) args.(amo_rd) args.(amo_rl) args.(amo_aq))
  | Rem args => x_op (fun xs => run_rem xs args.(r_rs1) args.(r_rs2) args.(r_rd)) w
  | Remu args => x_op (fun xs => run_remu xs args.(r_rs1) args.(r_rs2) args.(r_rd)) w
  | Remw args => x_op (fun xs => run_remw xs args.(r_rs1) args.(r_rs2) args.(r_rd)) w
  | Remuw args => x_op (fun xs => run_remuw xs args.(r_rs1) args.(r_rs2) args.(r_rd)) w
  | Div args => x_op (fun xs => run_div xs args.(r_rs1) args.(r_rs2) args.(r_rd)) w
  | Divu args => x_op (fun xs => run_divu xs args.(r_rs1) args.(r_rs2) args.(r_rd)) w
  | Divw args => x_op (fun xs => run_divw xs args.(r_rs1) args.(r_rs2) args.(r_rd)) w
  | Divuw args => x_op (fun xs => run_divuw xs args.(r_rs1) args.(r_rs2) args.(r_rd)) w
  | Mul args => x_op (fun xs => run_mul xs args.(r_rs1) args.(r_rs2) args.(r_rd)) w
  | Mulh args => x_op (fun xs => run_mulh xs args.(r_rs1) args.(r_rs2) args.(r_rd)) w
  | Mulhsu args => x_op (fun xs => run_mulhsu xs args.(r_rs1) args.(r_rs2) args.(r_rd)) w
  | Mulhu args => x_op (fun xs => run_mulhu xs args.(r_rs1) args.(r_rs2) args.(r_rd)) w
  | Mulw args => x_op (fun xs => run_mulw xs args.(r_rs1) args.(r_rs2) args.(r_rd)) w
  | FclassS args => next w (on_hart (run_fclass_s args.(fx_rs1) args.(fx_rd)))
  | Feqs args => next w (on_hart (run_feq_s args.(fc_rs1) args.(fc_rs2) args.(fc_rd)))
  | Fles args => next w (on_hart (run_fle_s args.(fc_rs1) args.(fc_rs2) args.(fc_rd)))
  | Flts args => next w (on_hart (run_flt_s args.(fc_rs1) args.(fc_rs2) args.(fc_rd)))
  | Fadds args =>
      next w (on_hart (run_fadd_s args.(fr2_rs1) args.(fr2_rs2) args.(fr2_rm) args.(fr2_rd)))
  | Fsubs args =>
      next w (on_hart (run_fsub_s args.(fr2_rs1) args.(fr2_rs2) args.(fr2_rm) args.(fr2_rd)))
  | Fmuls args =>
      next w (on_hart (run_fmul_s args.(fr2_rs1) args.(fr2_rs2) args.(fr2_rm) args.(fr2_rd)))
  | Fdivs args =>
      next w (on_hart (run_fdiv_s args.(fr2_rs1) args.(fr2_rs2) args.(fr2_rm) args.(fr2_rd)))
  | Fsqrts args => next w (on_hart (run_fsqrt_s args.(fr1_rs1) args.(fr1_rm) args.(fr1_rd)))
  | Fmins args => next w (on_hart (run_fmin_s args.(fr_rs1) args.(fr_rs2) args.(fr_rd)))
  | Fmaxs args => next w (on_hart (run_fmax_s args.(fr_rs1) args.(fr_rs2) args.(fr_rd)))
  | Fmadds args =>
      next w (on_hart (run_fmadd_s args.(fr3_rs1) args.(fr3_rs2) args.(fr3_rs3) args.(fr3_rm) args.(fr3_rd)))
  | Fmsubs args =>
      next w (on_hart (run_fmsub_s args.(fr3_rs1) args.(fr3_rs2) args.(fr3_rs3) args.(fr3_rm) args.(fr3_rd)))
  | Fnmsubs args =>
      next w (on_hart (run_fnmsub_s args.(fr3_rs1) args.(fr3_rs2) args.(fr3_rs3) args.(fr3_rm) args.(fr3_rd)))
  | Fnmadds args =>
      next w (on_hart (run_fnmadd_s args.(fr3_rs1) args.(fr3_rs2) args.(fr3_rs3) args.(fr3_rm) args.(fr3_rd)))
  | Flw args => next w (run_flw args.(fld_imm) args.(fld_rs1) args.(fld_rd))
  | Fsw args => next w (run_fsw args.(fst_imm) args.(fst_rs1) args.(fst_rs2))
  | Fcvtsw args => next w (on_hart (run_fcvt_s_w args.(xfr_rs1) args.(xfr_rm) args.(xfr_rd)))
  | Fcvtswu args => next w (on_hart (run_fcvt_s_wu args.(xfr_rs1) args.(xfr_rm) args.(xfr_rd)))
  | Fcvtsl args => next w (on_hart (run_fcvt_s_l args.(xfr_rs1) args.(xfr_rm) args.(xfr_rd)))
  | Fcvtslu args => next w (on_hart (run_fcvt_s_lu args.(xfr_rs1) args.(xfr_rm) args.(xfr_rd)))
  | Fcvtws args => next w (on_hart (run_fcvt_w_s args.(fxr_rs1) args.(fxr_rm) args.(fxr_rd)))
  | Fcvtwus args => next w (on_hart (run_fcvt_wu_s args.(fxr_rs1) args.(fxr_rm) args.(fxr_rd)))
  | Fcvtls args => next w (on_hart (run_fcvt_l_s args.(fxr_rs1) args.(fxr_rm) args.(fxr_rd)))
  | Fcvtlus args => next w (on_hart (run_fcvt_lu_s args.(fxr_rs1) args.(fxr_rm) args.(fxr_rd)))
  | Fsgnjs args => next w (on_hart (run_fsgnj_s args.(fr_rs1) args.(fr_rs2) args.(fr_rd)))
  | Fsgnjns args => next w (on_hart (run_fsgnjn_s args.(fr_rs1) args.(fr_rs2) args.(fr_rd)))
  | Fsgnjxs args => next w (on_hart (run_fsgnjx_s args.(fr_rs1) args.(fr_rs2) args.(fr_rd)))
  | FmvXW args => next w (on_hart (run_fmv_x_w args.(fx_rs1) args.(fx_rd)))
  | FmvWX args => next w (on_hart (run_fmv_w_x args.(xf_rs1) args.(xf_rd)))
  | FclassD args => next w (on_hart (run_fclass_d args.(fx_rs1) args.(fx_rd)))
  | Feqd args => next w (on_hart (run_feq_d args.(fc_rs1) args.(fc_rs2) args.(fc_rd)))
  | Fled args => next w (on_hart (run_fle_d args.(fc_rs1) args.(fc_rs2) args.(fc_rd)))
  | Fltd args => next w (on_hart (run_flt_d args.(fc_rs1) args.(fc_rs2) args.(fc_rd)))
  | Faddd args =>
      next w (on_hart (run_fadd_d args.(fr2_rs1) args.(fr2_rs2) args.(fr2_rm) args.(fr2_rd)))
  | Fsubd args =>
      next w (on_hart (run_fsub_d args.(fr2_rs1) args.(fr2_rs2) args.(fr2_rm) args.(fr2_rd)))
  | Fmuld args =>
      next w (on_hart (run_fmul_d args.(fr2_rs1) args.(fr2_rs2) args.(fr2_rm) args.(fr2_rd)))
  | Fdivd args =>
      next w (on_hart (run_fdiv_d args.(fr2_rs1) args.(fr2_rs2) args.(fr2_rm) args.(fr2_rd)))
  | Fsqrtd args => next w (on_hart (run_fsqrt_d args.(fr1_rs1) args.(fr1_rm) args.(fr1_rd)))
  | Fmind args => next w (on_hart (run_fmin_d args.(fr_rs1) args.(fr_rs2) args.(fr_rd)))
  | Fmaxd args => next w (on_hart (run_fmax_d args.(fr_rs1) args.(fr_rs2) args.(fr_rd)))
  | Fmaddd args =>
      next w (on_hart (run_fmadd_d args.(fr3_rs1) args.(fr3_rs2) args.(fr3_rs3) args.(fr3_rm) args.(fr3_rd)))
  | Fmsubd args =>
      next w (on_hart (run_fmsub_d args.(fr3_rs1) args.(fr3_rs2) args.(fr3_rs3) args.(fr3_rm) args.(fr3_rd)))
  | Fnmsubd args =>
      next w (on_hart (run_fnmsub_d args.(fr3_rs1) args.(fr3_rs2) args.(fr3_rs3) args.(fr3_rm) args.(fr3_rd)))
  | Fnmaddd args =>
      next w (on_hart (run_fnmadd_d args.(fr3_rs1) args.(fr3_rs2) args.(fr3_rs3) args.(fr3_rm) args.(fr3_rd)))
  | Fld args => next w (run_fld args.(fld_imm) args.(fld_rs1) args.(fld_rd))
  | Fsd args => next w (run_fsd args.(fst_imm) args.(fst_rs1) args.(fst_rs2))
  | Fcvtdw args => next w (on_hart (run_fcvt_d_w args.(xfr_rs1) args.(xfr_rm) args.(xfr_rd)))
  | Fcvtdwu args => next w (on_hart (run_fcvt_d_wu args.(xfr_rs1) args.(xfr_rm) args.(xfr_rd)))
  | Fcvtdl args => next w (on_hart (run_fcvt_d_l args.(xfr_rs1) args.(xfr_rm) args.(xfr_rd)))
  | Fcvtdlu args => next w (on_hart (run_fcvt_d_lu args.(xfr_rs1) args.(xfr_rm) args.(xfr_rd)))
  | Fcvtds args => next w (on_hart (run_fcvt_d_s args.(fr1_rs1) args.(fr1_rm) args.(fr1_rd)))
  | Fcvtsd args => next w (on_hart (run_fcvt_s_d args.(fr1_rs1) args.(fr1_rm) args.(fr1_rd)))
  | Fcvtwd args => next w (on_hart (run_fcvt_w_d args.(fxr_rs1) args.(fxr_rm) args.(fxr_rd)))
  | Fcvtwud args => next w (on_hart (run_fcvt_wu_d args.(fxr_rs1) args.(fxr_rm) args.(fxr_rd)))
  | Fcvtld args => next w (on_hart (run_fcvt_l_d args.(fxr_rs1) args.(fxr_rm) args.(fxr_rd)))
  | Fcvtlud args => next w (on_hart (run_fcvt_lu_d args.(fxr_rs1) args.(fxr_rm) args.(fxr_rd)))
  | Fsgnjd args => next w (on_hart (run_fsgnj_d args.(fr_rs1) args.(fr_rs2) args.(fr_rd)))
  | Fsgnjnd args => next w (on_hart (run_fsgnjn_d args.(fr_rs1) args.(fr_rs2) args.(fr_rd)))
  | Fsgnjxd args => next w (on_hart (run_fsgnjx_d args.(fr_rs1) args.(fr_rs2) args.(fr_rd)))
  | FmvXD args => next w (on_hart (run_fmv_x_d args.(fx_rs1) args.(fx_rd)))
  | FmvDX args => next w (on_hart (run_fmv_d_x args.(xf_rs1) args.(xf_rd)))
  | Csrrw args => next w (on_hart (run_csrrw args.(cs_csr) args.(cs_rs1) args.(cs_rd)))
  | Csrrs args => next w (on_hart (run_csrrs args.(cs_csr) args.(cs_rs1) args.(cs_rd)))
  | Csrrc args => next w (on_hart (run_csrrc args.(cs_csr) args.(cs_rs1) args.(cs_rd)))
  | Csrrwi args =>
      next w (on_hart (run_csrrwi args.(csi_csr) (as_u64 args.(csi_imm)) args.(csi_rd)))
  | Csrrsi args =>
      next w (on_hart (run_csrrsi args.(csi_csr) (as_u64 args.(csi_imm)) args.(csi_rd)))
  | Csrrci args =>
      next w (on_hart (run_csrrci args.(csi_csr) (as_u64 args.(csi_imm)) args.(csi_rd)))
  | CLw args => next w (run_clw args.(i_imm) args.(i_rs1) args.(i_rd))
  | CLwsp args => next w (run_clwsp args.(cib_imm) args.(cib_rd_rs1))
  | CSw args => next w (run_csw args.(sb_imm) args.(sb_rs1) args.(sb_rs2))
  | CSwsp args => next w (run_cswsp args.(css_imm) args.(css_rs2))
  | CJ args => jump_link (fun h => run_cj h args.(cj_imm))
  | CJr args => jump_link (fun h => run_cjr h args.(crj_rs1))
  | CJalr args => jump_link (fun h => run_cjalr h args.(crj_rs1))
  | CBeqz args => jump_to (fun h => run_cbeqz h args.(cib_imm) args.(cib_rd_rs1))
  | CBnez args => jump_to (fun h => run_cbnez h args.(cib_imm) args.(cib_rd_rs1))
  | CLi args => x_op (fun xs => run_cli xs args.(cib_imm) args.(cib_rd_rs1)) w
  | CLui args => x_op (fun xs => run_clui xs args.(cib_imm) args.(cib_rd_rs1)) w
  | CAddi args => x_op (fun xs => run_caddi xs args.(cib_imm) args.(cib_rd_rs1)) w
  | CAddi16sp args => x_op (fun xs => run_caddi16sp xs args.(cj_imm)) w
  | CAddi4spn args => x_op (fun xs => run_caddi4spn xs args.(cib_imm) args.(cib_rd_rs1)) w
  | CSlli args => x_op (fun xs => run_cslli xs args.(cib_imm) args.(cib_rd_rs1)) w
  | CSrli args => x_op (fun xs => run_csrli xs args.(cib_imm) args.(cib_rd_rs1)) w
  | CSrai args => x_op (fun xs => run_csrai xs args.(cib_imm) args.(cib_rd_rs1)) w
  | CAndi args => x_op (fun xs => run_candi xs args.(cib_imm) args.(cib_rd_rs1)) w
  | CMv args => x_op (fun xs => run_cmv xs args.(cr_rd_rs1) args.(cr_rs2)) w
  | CAdd args => x_op (fun xs => run_cadd xs args.(cr_rd_rs1) args.(cr_rs2)) w
  | CAnd args => x_op (fun xs => run_cand xs args.(cr_rd_rs1) args.(cr_rs2)) w
  | CXor args => x_op (fun xs => run_cxor xs args.(cr_rd_rs1) args.(cr_rs2)) w
  | COr args => x_op (fun xs => run_cor xs args.(cr_rd_rs1) args.(cr_rs2)) w
  | CSub args => x_op (fun xs => run_csub xs args.(cr_rd_rs1) args.(cr_rs2)) w
  | CNop => next w run_cnop
  | CLd args => next w (run_cld args.(i_imm) args.(i_rs1) args.(i_rd))
  | CLdsp args => next w (run_cldsp args.(cib_imm) args.(cib_rd_rs1))
  | CSd args => next w (run_csd args.(sb_imm) args.(sb_rs1) args.(sb_rs2))
  | CSdsp args => next w (run_csdsp args.(css_imm) args.(css_rs2))
  | CAddiw args => x_op (fun xs => run_caddiw xs args.(cib_imm) args.(cib_rd_rs1)) w
  | CAddw args => x_op (fun xs => run_caddw xs args.(cr_rd_rs1) args.(cr_rs2)) w
  | CSubw args => x_op (fun xs => run_csubw xs args.(cr_rd_rs1) args.(cr_rs2)) w
  | CFld args => next w (run_cfld args.(fld_imm) args.(fld_rs1) args.(fld_rd))
  | CFldsp args => next w (run_cfldsp args.(cibd_imm) args.(cibd_rd_rs1))
  | CFsd args => next w (run_cfsd args.(fst_imm) args.(fst_rs1) args.(fst_rs2))
  | CFsdsp args => next w (run_cfsdsp args.(cssd_imm) args.(cssd_rs2))
  | Unknown _ => throw IllegalInstruction
  | UnknownCompressed _ => throw IllegalInstruction
  end.

End run.

(** ** Handling the result *)

(** [Result<A, EnvironException>] on the core. *)
Definition coreE (A : Type) : Type := stM MachineCoreState Environ.EnvironException A.

Definition core_set_pc (pc : Z) : coreE unit :=
  modify (fun c => set_hart c (set_pc c.(hart) pc)).

(** [take_trap] always gives a handler ([take_trap_result]): the default is the
    [unreachable!] arm of [take_trap_from_mode]. *)
(* machine_state.rs:307-324 address_on_exception *)
Definition address_on_exception (exception : Exception) (current_pc : Z) : coreE Z :=
  match EnvironException_try_from exception with
  | Some exc => let! _ := core_set_pc current_pc in throw exc
  | None => fun c =>
      let '(address, h) := default (current_pc, c.(hart)) (take_trap c.(hart) exception current_pc) in
      (Ok address, set_hart c h)
  end.

(* machine_state.rs:327-349 handle_step_result *)
Definition handle_step_result (instr_pc : Z) (r : result ProgramCounterUpdate Exception) : coreE Z :=
  let! pc_update :=
    match r with
    | Err exc => let! address := address_on_exception exc instr_pc in st_ret (PC_Set address)
    | Ok upd => st_ret upd
    end in
  let pc :=
    match pc_update with
    | PC_Set address => address
    | PC_Next width => instr_pc ⊞ InstrWidth_repr width
    end in
  let! _ := core_set_pc pc in
  st_ret pc.
