(* ===== verification/RunInstrSpec.v ===== *)
(** The type invariant of the hart under every instruction: registers, program
    counter and CSR cells stay 64-bit values. *)
From S2P Require Import Prelude Registers CSRegister Traps XStatus XStatusSpec CSRegisters.
From S2P Require Import CSRegistersSpec.
From S2P Require Import HartState HartStateSpec Bus BusSpec Instruction IntInstr IntInstrSpec.
From S2P Require Import TranslationCache.
From S2P Require Import AddressTranslation MachineCore CoreInstr Float FloatSpec RunInstr.

(** One step of unfolding: the head of an application. *)
Ltac unfold_head m :=
  match m with
  | ?f _ => unfold_head f
  | _ => unfold m
  end.

(** ** Values of 64 bits *)

Create HintDb u64.

Lemma wrapping_sub_u64 a b : is_u 64 (a ⊟ b).
Proof. apply wrap_range. lia. Qed.

Lemma not_u_u64 a : is_u 64 (not_u 64 a).
Proof. apply wrap_range. lia. Qed.

Lemma shl_u_u64 a b : is_u 64 (shl_u 64 a b).
Proof. apply wrap_range. lia. Qed.

Lemma shr_u_u64 a b : is_u 64 a -> is_u 64 (shr_u 64 a b).
Proof. intros A. apply shr_is_u; [lia|apply Z.mod_pos_bound; lia|done]. Qed.

Lemma divu_u64 a b : is_u 64 a -> is_u 64 b -> is_u 64 (if b =? 0 then U64_MAX else Z.quot a b).
Proof. intros A B. apply (unsigned_division_ok 64 U64_MAX a b ltac:(lia) A B ltac:(by vm_compute)). Qed.

Lemma remu_u64 a b : is_u 64 a -> is_u 64 b -> is_u 64 (if b =? 0 then a else Z.rem a b).
Proof. intros A B. apply (unsigned_division_ok 64 U64_MAX a b ltac:(lia) A B ltac:(by vm_compute)). Qed.

Lemma land_u64_l a b : is_u 64 a -> is_u 64 (a & b).
Proof. intros. by apply land_is_u. Qed.

Lemma lor_u64 a b : is_u 64 a -> is_u 64 b -> is_u 64 (a |: b).
Proof. intros. by apply lor_is_u. Qed.

Lemma lxor_u64 a b : is_u 64 a -> is_u 64 b -> is_u 64 (a ^: b).
Proof. intros. by apply lxor_is_u. Qed.

Lemma bool_u64 (b : bool) : is_u 64 (if b then 1 else 0).
Proof. by apply is_u_bool. Qed.

#[export] Hint Resolve u64_of_wrap wrapping_add_u64 wrapping_sub_u64 not_u_u64 shl_u_u64 shr_u_u64 divu_u64 remu_u64
  land_u64_l lor_u64 lxor_u64 bool_u64 XRegisters_read_u64 FRegisters_read_u64 CSRegisters_read_u64 : u64.

(** ** Operations on the integer registers *)

Definition keeps_x (f : XRegisters -> XRegisters) : Prop := forall s, XRegisters_wf s -> XRegisters_wf (f s).

Ltac x_wf :=
  intros s W;
  unfold run_caddi, run_caddi16sp, run_caddi4spn, run_cslli, run_csrli, run_csrai, run_candi, run_cmv,
    run_cadd, run_cand, run_cxor, run_cor, run_csub, run_cli, run_clui, run_caddiw, run_caddw, run_csubw;
  unfold run_addi, run_add, run_sub, run_lui, run_andi, run_ori, run_xori, run_and, run_or, run_xor,
    run_slti, run_sltiu, run_slt, run_sltu, run_addiw, run_addw, run_subw, run_slli, run_srli, run_srai,
    run_slliw, run_srliw, run_sraiw, run_sll, run_srl, run_sra, run_sllw, run_srlw, run_sraw, run_rem,
    run_remu, run_div, run_divu, run_mul, run_mulh, run_mulhsu, run_mulhu, run_remw, run_remuw, run_divw,
    run_divuw, run_mulw;
  cbv zeta; apply XRegisters_write_wf; [exact W|]; auto 6 with u64.

(** ** Computations on the hart *)

Definition hart_wf (c : MachineCoreState) : Prop := HartState_wf c.(hart).

Lemma xwrite_wf h r v : HartState_wf h -> is_u 64 v -> HartState_wf (xwrite h r v).
Proof. intros (X & F & C & P) U. refine (conj _ (conj F (conj C P))). by apply XRegisters_write_wf. Qed.

Lemma set_fregisters_wf h r v :
  HartState_wf h -> is_u 64 v -> HartState_wf (set_fregisters h (FRegisters_write h.(fregisters) r v)).
Proof. intros (X & F & C & P) U. refine (conj X (conj _ (conj C P))). by apply FRegisters_write_wf. Qed.

Lemma set_csregisters_wf h s : HartState_wf h -> CSRegisters_wf s -> HartState_wf (set_csregisters h s).
Proof. intros (X & F & C & P) W. exact (conj X (conj F (conj W P))). Qed.

Lemma set_xregisters_wf h f : HartState_wf h -> keeps_x f -> HartState_wf (set_xregisters h (f h.(xregisters))).
Proof. intros (X & F & C & P) K. exact (conj (K _ X) (conj F (conj C P))). Qed.

Lemma csr_write_wf h r v : HartState_wf h -> HartState_wf (csr_write h r v).
Proof. intros H. apply set_csregisters_wf; [done|]. apply CSRegisters_write_wf, H. Qed.

Lemma csr_read_u64 h r : HartState_wf h -> is_u 64 (csr_read h r).
Proof. intros (_ & _ & C & _). by apply CSRegisters_read_u64. Qed.

Lemma xread_u64 h r : HartState_wf h -> is_u 64 (xread h r).
Proof. intros (X & _). by apply XRegisters_read_u64. Qed.

Lemma fread_u64 h r : HartState_wf h -> is_u 64 (FRegisters_read h.(fregisters) r).
Proof. intros (_ & F & _). by apply FRegisters_read_u64. Qed.

Lemma pc_u64 h : HartState_wf h -> is_u 64 h.(pc).
Proof. by intros (_ & _ & _ & P). Qed.

#[export] Hint Resolve xwrite_wf set_fregisters_wf set_csregisters_wf csr_write_wf csr_read_u64 xread_u64 fread_u64 pc_u64 : u64.

Lemma keeps_checked r : keeps HartState_wf (checked r).
Proof. by intros h H. Qed.

#[export] Hint Resolve keeps_checked : keeps.

(** ** CSR instructions *)

Lemma csr_replace_wf csr v rd : keeps HartState_wf (csr_replace csr v rd).
Proof.
  intros h H. rewrite csr_replace_spec.
  destruct (check_write csr); [|done]. destruct (access_checks _ _ _); [|done]. simpl. auto with u64.
Qed.

Lemma csr_update_wf op f csr update rd :
  (forall s r v, op s r v = (CSRegisters_read s r, CSRegisters_write s r (f (CSRegisters_read s r) v))) ->
  keeps HartState_wf (csr_update op csr update rd).
Proof.
  intros O h H. rewrite (csr_update_spec op f) by done. unfold csr_rmw.
  repeat case_match; simpl; auto with u64.
Qed.

Lemma run_csrrw_wf csr rs1 rd : keeps HartState_wf (run_csrrw csr rs1 rd).
Proof. intros h. apply (csr_replace_wf csr (xread h rs1) rd). Qed.

Lemma csr_set_wf csr update rd : keeps HartState_wf (csr_update CSRegisters_set_bits csr update rd).
Proof. by apply (csr_update_wf _ Z.lor). Qed.

Lemma csr_clear_wf csr update rd : keeps HartState_wf (csr_update CSRegisters_clear_bits csr update rd).
Proof. by apply (csr_update_wf _ (fun old v => old & not_u 64 v)). Qed.

(** ** Floating-point instructions *)

Lemma f32_to_fvalue_u64 v : is_u 32 v -> is_u 64 (f32_to_fvalue v).
Proof. intros. rewrite f32_to_fvalue_boxed by done. by apply boxed_u64. Qed.

Lemma u32_of_wrap v : is_u 32 (as_u32 v).
Proof. apply wrap_range. lia. Qed.

#[export] Hint Resolve f32_to_fvalue_u64 u32_of_wrap : u64.

Lemma keeps_rounding rm : keeps HartState_wf (rounding rm).
Proof. by intros h H. Qed.

Lemma keeps_fval {F} `{FloatExt F} rs : keeps HartState_wf (fval rs).
Proof. by intros h K. Qed.

Lemma keeps_fwrite rd v : is_u 64 v -> keeps HartState_wf (fwrite rd v).
Proof. intros U. apply keeps_modify. auto with u64. Qed.

Lemma keeps_hart_xwrite rd v : is_u 64 v -> keeps HartState_wf (hart_xwrite rd v).
Proof. intros U. apply keeps_modify. auto with u64. Qed.

Lemma keeps_flag_when b : keeps HartState_wf (flag_when b).
Proof.
  apply keeps_modify. intros h H. destruct b; [|done]. apply set_csregisters_wf; [done|].
  apply CSRegisters_write_wf, H.
Qed.

Lemma keeps_flag_status st : keeps HartState_wf (flag_status st).
Proof.
  apply keeps_modify. intros h H. destruct (negb _); [|done]. apply set_csregisters_wf; [done|].
  apply CSRegisters_write_wf, H.
Qed.

#[export] Hint Resolve keeps_rounding keeps_fval keeps_flag_when keeps_flag_status : keeps.
#[export] Hint Extern 2 (keeps _ (fwrite _ _)) => apply keeps_fwrite; auto with u64 : keeps.
#[export] Hint Extern 2 (keeps _ (hart_xwrite _ _)) => apply keeps_hart_xwrite; auto with u64 : keeps.

Lemma fclass_mask_u64 (F : FloatOps) (x : F) : is_u 64 (fclass_mask F x).
Proof. unfold fclass_mask. repeat case_match; by vm_compute. Qed.

#[export] Hint Resolve fclass_mask_u64 : u64.

Section generic.
Context (F : FloatOps) `{FX : FloatExt F} (FX_u64 : forall x : F, is_u 64 (into_fvalue x)).

Hint Resolve FX_u64 : u64.

Lemma fclass_wf rs1 rd : keeps HartState_wf (run_fclass F rs1 rd).
Proof. unfold run_fclass. auto with keeps. Qed.

Lemma feq_wf rs1 rs2 rd : keeps HartState_wf (run_feq F rs1 rs2 rd).
Proof. unfold run_feq. auto 8 with keeps. Qed.

Lemma flt_wf rs1 rs2 rd : keeps HartState_wf (run_flt F rs1 rs2 rd).
Proof. unfold run_flt. auto 8 with keeps. Qed.

Lemma fle_wf rs1 rs2 rd : keeps HartState_wf (run_fle F rs1 rs2 rd).
Proof. unfold run_fle. auto 8 with keeps. Qed.

Lemma f_arith_2_wf rs1 rs2 rm rd f : keeps HartState_wf (f_arith_2 F rs1 rs2 rm rd f).
Proof. unfold f_arith_2. auto 8 with keeps. Qed.

Lemma f_arith_3_wf rs1 rs2 rs3 rm rd f : keeps HartState_wf (f_arith_3 F rs1 rs2 rs3 rm rd f).
Proof. unfold f_arith_3. auto 8 with keeps. Qed.

Lemma f_sign_injection_wf rs1 rs2 rd f : keeps HartState_wf (f_sign_injection F rs1 rs2 rd f).
Proof. unfold f_sign_injection. auto 8 with keeps. Qed.

Lemma min_max_wf rs1 rs2 rd f : keeps HartState_wf (min_max F rs1 rs2 rd f).
Proof. unfold min_max. auto 8 with keeps. Qed.

Lemma fcvt_int_fmt_wf rs1 rm rd cast cvt : keeps HartState_wf (run_fcvt_int_fmt F rs1 rm rd cast cvt).
Proof. unfold run_fcvt_int_fmt. auto 8 with keeps. Qed.

Lemma fcvt_fmt_int_wf rs1 rm rd cast cvt :
  (forall v, is_u 64 (cast v)) -> keeps HartState_wf (run_fcvt_fmt_int F rs1 rm rd cast cvt).
Proof. intros C. unfold run_fcvt_fmt_int. auto 8 with keeps. Qed.

Lemma fcvt_fmt_fmt_wf (T : FloatOps) `{TX : FloatExt T} cvt rs1 rm rd :
  (forall x : T, is_u 64 (into_fvalue x)) -> keeps HartState_wf (run_fcvt_fmt_fmt F T cvt rs1 rm rd).
Proof. intros C. unfold run_fcvt_fmt_fmt. auto 8 with keeps. Qed.
End generic.

#[export] Hint Resolve fclass_wf feq_wf flt_wf fle_wf f_arith_2_wf f_arith_3_wf f_sign_injection_wf min_max_wf fcvt_int_fmt_wf : keeps.
#[export] Hint Extern 2 (keeps _ (run_fcvt_fmt_int _ _ _ _ _ _)) => apply fcvt_fmt_int_wf; auto with u64 : keeps.
#[export] Hint Extern 2 (keeps _ (run_fcvt_fmt_fmt _ _ _ _ _ _)) => apply fcvt_fmt_fmt_wf; auto with u64 : keeps.

(** ** Memory *)

Lemma on_hart_wf {A} (m : hartM A) : keeps HartState_wf m -> keeps hart_wf (on_hart m).
Proof. intros K c H. unfold on_hart. specialize (K _ H). by destruct (m c.(hart)). Qed.

Section memory.
Context `{ML : MainMemoryLayout}.

Lemma translate_wf va acc : keeps hart_wf (translate va acc).
Proof.
  intros c H. unfold translate, translate_cached.
  destruct (TranslationCache_try_translate _ _ _ _ _); [done|].
  by destruct (translate_with_prefetch _ _ _ _ _).
Qed.

Lemma Bus_read_elem T b a v : Bus_read T b a = Ok v -> is_elem T v.
Proof.
  unfold Bus_read, Devices_read, MainMemory_read. destruct (locate a) as [[] l]; try (intros [=]; done).
  case_match; [intros [=]|]. intros [= <-]. apply from_stored_elem.
Qed.

Lemma read_from_address_wf T a : yields hart_wf (is_elem T) (read_from_address T a).
Proof.
  apply (yields_bind _ (fun _ => True)); [apply keeps_yields, translate_wf|]. intros p _ c H.
  split; [done|]. intros v E. cbn in E. destruct (Bus_read T c.(bus) p) eqn:B; [|done].
  injection E as <-. by eapply Bus_read_elem.
Qed.

Lemma read_from_bus_wf T imm rs1 : yields hart_wf (is_elem T) (read_from_bus T imm rs1).
Proof. intros c. apply (read_from_address_wf T (xread c.(hart) rs1 ⊞ as_u64 imm)). Qed.

Lemma write_to_address_wf T a v : keeps hart_wf (write_to_address T a v).
Proof.
  apply keeps_bind; [apply translate_wf|]. intros p c H. by destruct (Bus_write _ _ _ _).
Qed.

Lemma write_to_bus_wf T imm rs1 v : keeps hart_wf (write_to_bus T imm rs1 v).
Proof. intros c. apply (write_to_address_wf T (xread c.(hart) rs1 ⊞ as_u64 imm)). Qed.

Lemma core_xwrite_wf rd v : is_u 64 v -> keeps hart_wf (core_xwrite rd v).
Proof. intros U. apply keeps_modify. intros c H. by apply xwrite_wf. Qed.

Lemma core_xread_wf r : keeps hart_wf (core_xread r).
Proof. by intros c H. Qed.

Hint Resolve translate_wf write_to_address_wf write_to_bus_wf core_xread_wf : keeps.
Hint Extern 2 (keeps _ (core_xwrite _ _)) => apply core_xwrite_wf; auto with u64 : keeps.
Hint Extern 1 (keeps _ (st_bind (read_from_bus _ _ _) _)) =>
  eapply keeps_bind_val; [apply read_from_bus_wf|intros ? ?] : keeps.
Hint Extern 1 (keeps _ (st_bind (read_from_address _ _) _)) =>
  eapply keeps_bind_val; [apply read_from_address_wf|intros ? ?] : keeps.

Lemma load_wf T imm rs1 rd :
  keeps hart_wf (let! value := read_from_bus T imm rs1 in core_xwrite rd (as_u64 value)).
Proof. auto with keeps. Qed.

Lemma store_wf T f imm rs1 rs2 :
  keeps hart_wf (let! value := core_xread rs2 in write_to_bus T imm rs1 (f value)).
Proof. auto with keeps. Qed.

Lemma set_reservation_wf c r : hart_wf c -> hart_wf (set_hart c (set_reservation_set c.(hart) r)).
Proof. by intros H. Qed.

Lemma run_lr_wf T rs1 rd from :
  (forall v, is_elem T v -> is_u 64 (from v)) -> keeps hart_wf (run_lr T rs1 rd from).
Proof.
  intros F. unfold run_lr. apply keeps_bind; [auto with keeps|]. intros a. apply keeps_if; [auto with keeps|].
  eapply keeps_bind_val; [apply read_from_address_wf|]. intros v V.
  apply keeps_bind; [|auto with keeps]. apply keeps_modify. intros c. apply set_reservation_wf.
Qed.

Lemma run_sc_wf T rs1 rs2 rd to : keeps hart_wf (run_sc T rs1 rs2 rd to).
Proof.
  unfold run_sc. apply keeps_bind; [auto with keeps|]. intros a. apply keeps_if.
  - apply keeps_bind; [|auto with keeps]. apply keeps_modify. intros c. apply set_reservation_wf.
  - apply keeps_bind; [by intros c|]. intros b. apply keeps_if.
    + apply keeps_bind; [auto with keeps|]. intros v. apply keeps_bind; [|auto with keeps].
      by apply core_xwrite_wf.
    + by apply core_xwrite_wf.
Qed.

Lemma run_amo_wf T rs1 rs2 rd f to from :
  (forall v, is_elem T v -> is_u 64 (from v)) -> keeps hart_wf (run_amo T rs1 rs2 rd f to from).
Proof. intros F. unfold run_amo. auto 10 with keeps. Qed.

Lemma run_amo_w_wf rs1 rs2 rd f : keeps hart_wf (run_amo_w rs1 rs2 rd f).
Proof. apply run_amo_wf. auto with u64. Qed.

Lemma run_amo_d_wf rs1 rs2 rd f : keeps hart_wf (run_amo_d rs1 rs2 rd f).
Proof. by apply run_amo_wf. Qed.

Lemma fs_checked_wf {A} (m : coreM A) : keeps hart_wf m -> keeps hart_wf (let! _ := on_hart check_fs_on in m).
Proof. intros K. apply keeps_bind; [apply on_hart_wf, keeps_checked|done]. Qed.

Lemma core_fwrite_wf rd v : is_u 64 v -> keeps hart_wf (on_hart (fwrite rd v)).
Proof. intros. apply on_hart_wf. auto with keeps. Qed.

Lemma flw_wf imm rs1 rd : keeps hart_wf (run_flw imm rs1 rd).
Proof.
  apply fs_checked_wf. eapply keeps_bind_val; [apply read_from_bus_wf|]. intros v V.
  by apply core_fwrite_wf, f32_to_fvalue_u64.
Qed.

Lemma fld_wf imm rs1 rd : keeps hart_wf (run_fld imm rs1 rd).
Proof.
  apply fs_checked_wf. eapply keeps_bind_val; [apply read_from_bus_wf|]. intros v V. by apply core_fwrite_wf.
Qed.

Lemma fsw_wf imm rs1 rs2 : keeps hart_wf (run_fsw imm rs1 rs2).
Proof. apply fs_checked_wf. auto with keeps. Qed.

Lemma fsd_wf imm rs1 rs2 : keeps hart_wf (run_fsd imm rs1 rs2).
Proof. apply fs_checked_wf. auto with keeps. Qed.

End memory.

(** ** Instructions *)

Definition update_ok (u : ProgramCounterUpdate) : Prop :=
  match u with PC_Set a => is_u 64 a | PC_Next _ => True end.

(** An instruction leaves a well-formed hart, and the address it jumps to, if
    any, is a 64-bit value. *)
Definition step_ok (m : coreM ProgramCounterUpdate) : Prop := yields hart_wf update_ok m.

Lemma next_ok w m : keeps hart_wf m -> step_ok (next w m).
Proof. intros K. eapply yields_bind; [apply keeps_yields, K|]. intros _ _. by apply yields_ret. Qed.

Lemma h_op_ok w f : (forall h, HartState_wf h -> HartState_wf (f h)) -> step_ok (h_op f w).
Proof. intros K. apply next_ok. apply keeps_modify. intros c. apply K. Qed.

Lemma x_op_ok w f : keeps_x f -> step_ok (x_op f w).
Proof. intros K. apply (h_op_ok w (fun h => set_xregisters h (f h.(xregisters)))). intros. by apply set_xregisters_wf. Qed.

Lemma jump_to_ok f : (forall h, HartState_wf h -> is_u 64 (f h)) -> step_ok (jump_to f).
Proof. intros K. apply yields_gets. intros c. apply K. Qed.

Lemma jump_link_ok f :
  (forall h, HartState_wf h -> is_u 64 (f h).1 /\ HartState_wf (f h).2) -> step_ok (jump_link f).
Proof.
  intros K c H. unfold jump_link. specialize (K _ H). destruct (f c.(hart)) as [a h]. destruct K as [A W].
  split; [exact W|]. by intros ? [= <-].
Qed.

Lemma branch_eq_wf w h imm rs1 rs2 :
  is_u 64 (run_beq_impl w h imm rs1 rs2) /\ is_u 64 (run_bne_impl w h imm rs1 rs2).
Proof. unfold run_beq_impl, run_bne_impl. split; case_match; apply wrapping_add_u64. Qed.

Lemma branch_lt_wf h imm rs1 rs2 :
  is_u 64 (run_blt h imm rs1 rs2) /\ is_u 64 (run_bge h imm rs1 rs2) /\
  is_u 64 (run_bltu h imm rs1 rs2) /\ is_u 64 (run_bgeu h imm rs1 rs2).
Proof.
  unfold run_blt, run_bge, run_bltu, run_bgeu. split_and!; case_match; apply wrapping_add_u64.
Qed.

Lemma jal_wf w h imm rd :
  HartState_wf h -> is_u 64 (run_jal_impl w h imm rd).1 /\ HartState_wf (run_jal_impl w h imm rd).2.
Proof. intros H. unfold run_jal_impl. simpl. auto 6 with u64. Qed.

Lemma jalr_wf w h imm rs1 rd :
  HartState_wf h -> is_u 64 (run_jalr_impl w h imm rs1 rd).1 /\ HartState_wf (run_jalr_impl w h imm rs1 rd).2.
Proof. intros H. unfold run_jalr_impl. simpl. auto 6 with u64. Qed.

Section run.
Context `{ML : MainMemoryLayout} `{AP : ApFloat} {APL : ApFloatLaws AP}.

Lemma into_fvalue_single (x : Single) : is_u 64 (into_fvalue x).
Proof. apply f32_to_fvalue_u64, u32_of_wrap. Qed.

Lemma into_fvalue_double (x : Double) : is_u 64 (into_fvalue x).
Proof. apply u64_of_wrap. Qed.

Hint Resolve into_fvalue_single into_fvalue_double sqrt_32_range sqrt_64_range : u64 keeps.

Lemma fmv_x_d_wf rs1 rd : keeps HartState_wf (run_fmv_x_d rs1 rd).
Proof.
  apply keeps_bind; [apply keeps_checked|intros _].
  eapply keeps_bind_val; [apply (yields_gets _ (is_u 64)); auto with u64|]. intros v V. by apply keeps_hart_xwrite.
Qed.

Lemma fmv_d_x_wf rs1 rd : keeps HartState_wf (run_fmv_d_x rs1 rd).
Proof.
  apply keeps_bind; [apply keeps_checked|intros _].
  eapply keeps_bind_val; [apply (yields_gets _ (is_u 64)); auto with u64|]. intros v V. by apply keeps_fwrite.
Qed.

(** The instructions of the F and D extensions, each after its check that
    floating point is on. *)
Ltac f_wf :=
  apply on_hart_wf;
  match goal with |- keeps _ ?m => unfold_head m end;
  apply keeps_bind; [apply keeps_checked|intros _];
  unfold run_fadd, run_fsub, run_fmul, run_fdiv, run_fmin, run_fmax, run_fmadd, run_fmsub, run_fnmsub,
    run_fnmadd, run_fsgnj, run_fsgnjn, run_fsgnjx;
  auto 8 with keeps.

Ltac op_wf :=
  lazymatch goal with
  | |- keeps _ (on_hart (run_csrrw _ _ _)) => apply on_hart_wf, run_csrrw_wf
  | |- keeps _ (on_hart (run_csrrwi _ _ _)) => apply on_hart_wf, csr_replace_wf
  | |- keeps _ (on_hart (run_csrrs _ _ _)) => apply on_hart_wf, csr_set_wf
  | |- keeps _ (on_hart (run_csrrsi _ _ _)) => apply on_hart_wf, csr_set_wf
  | |- keeps _ (on_hart (run_csrrc _ _ _)) => apply on_hart_wf, csr_clear_wf
  | |- keeps _ (on_hart (run_csrrci _ _ _)) => apply on_hart_wf, csr_clear_wf
  | |- keeps _ (on_hart (run_fmv_x_d _ _)) => apply on_hart_wf, fmv_x_d_wf
  | |- keeps _ (on_hart (run_fmv_d_x _ _)) => apply on_hart_wf, fmv_d_x_wf
  | |- keeps _ (on_hart _) => f_wf
  | |- keeps _ (run_lrw _ _ _ _ _) => apply run_lr_wf; auto with u64
  | |- keeps _ (run_lrd _ _ _ _ _) => by apply run_lr_wf
  | |- keeps _ (run_scw _ _ _ _ _) => apply run_sc_wf
  | |- keeps _ (run_scd _ _ _ _ _) => apply run_sc_wf
  | |- keeps _ run_cnop => apply keeps_ret
  | |- keeps _ (run_ld _ _ _) => apply load_wf
  | |- keeps _ (run_lw _ _ _) => apply load_wf
  | |- keeps _ (run_lh _ _ _) => apply load_wf
  | |- keeps _ (run_lb _ _ _) => apply load_wf
  | |- keeps _ (run_lwu _ _ _) => apply load_wf
  | |- keeps _ (run_lhu _ _ _) => apply load_wf
  | |- keeps _ (run_lbu _ _ _) => apply load_wf
  | |- keeps _ (run_sd _ _ _) => apply (store_wf _ (fun v => v))
  | |- keeps _ (run_sw _ _ _) => apply store_wf
  | |- keeps _ (run_sh _ _ _) => apply store_wf
  | |- keeps _ (run_sb _ _ _) => apply store_wf
  | |- keeps _ (run_flw _ _ _) => apply flw_wf
  | |- keeps _ (run_fsw _ _ _) => apply fsw_wf
  | |- keeps _ (run_fld _ _ _) => apply fld_wf
  | |- keeps _ (run_fsd _ _ _) => apply fsd_wf
  | |- keeps _ (run_amo_w _ _ _ _) => apply run_amo_w_wf
  | |- keeps _ (run_amo_d _ _ _ _) => apply run_amo_d_wf
  | |- keeps _ ?m => unfold_head m; op_wf
  end.

Ltac control_wf :=
  match goal with
  | |- step_ok (jump_to _) => apply jump_to_ok; intros; first [apply branch_eq_wf|apply branch_lt_wf]
  | |- step_ok (jump_link _) => apply jump_link_ok; intros; first [by apply jal_wf|by apply jalr_wf]
  | |- step_ok (h_op _ _) => apply h_op_ok; intros; apply xwrite_wf; auto with u64
  end.

Lemma run_instr_cacheable_ok instr : step_ok (run_instr_cacheable instr).
Proof.
  destruct instr; cbn [run_instr_cacheable];
    lazymatch goal with
    | |- step_ok (x_op _ _) => apply x_op_ok; x_wf
    | |- step_ok (next _ _) => apply next_ok
    | |- step_ok (throw _) => apply yields_throw
    | |- _ => control_wf
    end.
  all: op_wf.
Qed.

End run.
