(* ===== verification/CoreInstrSpec.v ===== *)
(** The instructions that access memory, and the guard of the floating-point
    ones: loads give back what stores wrote, store-conditional succeeds once
    per reservation, what an atomic operation leaves on each of its error
    paths, and what [SFENCE.VMA] does in each mode. *)
From S2P Require Import Prelude Registers CSRegister Traps XStatus CSRegisters HartState.
From S2P Require Import HartStateSpec Bus BusSpec.
From S2P Require Import Instruction TranslationCache TranslationCacheSpec AddressTranslation.
From S2P Require Import MachineCore MachineCoreSpec.
From S2P Require Import CoreInstr Float FloatSpec RunInstr RunInstrSpec.

(** ** Floating point switched off *)

(** The instructions of the F and D extensions and of their compressed forms. *)
Definition is_floating (i : InstrCacheable) : bool :=
  match i with
  | FclassS _ | Feqs _ | Fles _ | Flts _ | Fadds _ | Fsubs _ | Fmuls _ | Fdivs _ | Fsqrts _ | Fmins _
  | Fmaxs _ | Fmadds _ | Fmsubs _ | Fnmsubs _ | Fnmadds _ | Flw _ | Fsw _ | Fcvtsw _ | Fcvtswu _
  | Fcvtsl _ | Fcvtslu _ | Fcvtws _ | Fcvtwus _ | Fcvtls _ | Fcvtlus _ | Fsgnjs _ | Fsgnjns _
  | Fsgnjxs _ | FmvXW _ | FmvWX _ | FclassD _ | Feqd _ | Fled _ | Fltd _ | Faddd _ | Fsubd _ | Fmuld _
  | Fdivd _ | Fsqrtd _ | Fmind _ | Fmaxd _ | Fmaddd _ | Fmsubd _ | Fnmsubd _ | Fnmaddd _ | Fld _
  | Fsd _ | Fcvtdw _ | Fcvtdwu _ | Fcvtdl _ | Fcvtdlu _ | Fcvtds _ | Fcvtsd _ | Fcvtwd _ | Fcvtwud _
  | Fcvtld _ | Fcvtlud _ | Fsgnjd _ | Fsgnjnd _ | Fsgnjxd _ | FmvXD _ | FmvDX _ | CFld _ | CFldsp _
  | CFsd _ | CFsdsp _ => true
  | _ => false
  end.

Section spec.
Context `{ML : MainMemoryLayout} {MLok : MainMemoryLayoutOk} `{AP : ApFloat}.

Lemma on_hart_disabled {A} (m : hartM A) c :
  floating_disabled c.(hart).(csregisters) = true ->
  on_hart (let! _ := check_fs_on in m) c = (Err IllegalInstruction, c).
Proof. intros D. unfold on_hart, st_bind, check_fs_on, checked. rewrite D. by destruct c. Qed.

Lemma core_disabled {A} (m : coreM A) c :
  floating_disabled c.(hart).(csregisters) = true ->
  (let! _ := on_hart check_fs_on in m) c = (Err IllegalInstruction, c).
Proof. intros D. unfold on_hart, st_bind, check_fs_on, checked. rewrite D. by destruct c. Qed.

Lemma next_err w (m : coreM unit) e c : m c = (Err e, c) -> next w m c = (Err e, c).
Proof. intros E. unfold next, st_bind. by rewrite E. Qed.

(** With the floating-point unit off ([mstatus.FS] is [Off]), every
    floating-point instruction raises an illegal-instruction exception and
    changes neither the registers, nor the memory, nor the translation
    cache: a store does not reach memory and a load does not fault first. *)
Theorem floating_off_illegal i c :
  is_floating i = true -> floating_disabled c.(hart).(csregisters) = true ->
  run_instr_cacheable i c = (Err IllegalInstruction, c).
Proof.
  intros I D. destruct i; try discriminate I; cbn [run_instr_cacheable]; apply next_err;
    lazymatch goal with
    | |- on_hart ?m _ = _ => unfold_head m; by apply on_hart_disabled
    | |- _ => unfold run_cfld, run_cfldsp, run_cfsd, run_cfsdsp; by apply core_disabled
    end.
Qed.

(** ** Loads and stores *)

Lemma translate_same va acc c :
  let '(_, c') := translate va acc c in c'.(hart) = c.(hart) /\ c'.(bus) = c.(bus).
Proof.
  unfold translate, translate_cached. destruct (TranslationCache_try_translate _ _ _ _ _); [done|].
  by destruct (translate_with_prefetch _ _ _ _ _).
Qed.

(** A store that succeeds: where it wrote. *)
Lemma write_to_address_ok T va v c c' :
  write_to_address T va v c = (Ok tt, c') ->
  exists pa b', (translate va AStore c).1 = Ok pa /\ Bus_write T c.(bus) pa v = (Ok tt, b') /\
    c'.(hart) = c.(hart) /\ c'.(bus) = b'.
Proof.
  unfold write_to_address, st_bind. pose proof (translate_same va AStore c) as S.
  destruct (translate va AStore c) as [[pa|e] c1]; [|done]. destruct S as [Sh Sb].
  rewrite Sb. destruct (Bus_write T c.(bus) pa v) as [[[]|e] b'] eqn:W; [|done]. intros [= <-].
  by exists pa, b'.
Qed.

Lemma read_from_address_ok T va c pa v :
  (translate va ALoad c).1 = Ok pa -> Bus_read T c.(bus) pa = Ok v ->
  exists c', read_from_address T va c = (Ok v, c') /\ c'.(hart) = c.(hart) /\ c'.(bus) = c.(bus).
Proof.
  intros Tr R. unfold read_from_address, st_bind. pose proof (translate_same va ALoad c) as S.
  destruct (translate va ALoad c) as [r c1]. simpl in Tr. subst r. destruct S as [Sh Sb].
  exists c1. by rewrite Sb, R.
Qed.

(** Reading, at any type of the same size, what was written at another. *)
Lemma Bus_read_written T T' b a v b' :
  is_u 64 a -> size_of T' = size_of T -> Bus_write T b a v = (Ok tt, b') ->
  Bus_read T' b' a = Ok (from_stored T' (to_stored T v)).
Proof.
  intros U S. rewrite Bus_write_eq by done. destruct (in_memory a (size_of T)) eqn:M; [|done].
  intros [= <-]. rewrite Bus_read_eq, S, M by done. cbn [memory data]. f_equal.
  rewrite region_read_write_size by done. done.
Qed.

(** A store instruction of one width, a load instruction of the same width,
    and what the register holds after the round trip. *)
Record round_trip : Type := {
  rt_store : Z -> XRegister -> XRegister -> coreM unit;
  rt_load : Z -> XRegister -> XRegister -> coreM unit;
  rt_value : Z -> Z;
}.

Definition round_trips : list round_trip := [
  {| rt_store := run_sd; rt_load := run_ld; rt_value v := v |};
  {| rt_store := run_sw; rt_load := run_lw; rt_value v := as_u64 (as_i32 v) |};
  {| rt_store := run_sw; rt_load := run_lwu; rt_value v := v mod 2 ^ 32 |};
  {| rt_store := run_sh; rt_load := run_lh; rt_value v := as_u64 (as_i16 v) |};
  {| rt_store := run_sh; rt_load := run_lhu; rt_value v := v mod 2 ^ 16 |};
  {| rt_store := run_sb; rt_load := run_lb; rt_value v := as_u64 (as_i8 v) |};
  {| rt_store := run_sb; rt_load := run_lbu; rt_value v := v mod 2 ^ 8 |}
].

Lemma store_load_generic T T' cast imm rs1 rs2 rd c c1 pa :
  size_of T' = size_of T -> is_u 64 pa ->
  (let! value := core_xread rs2 in write_to_bus T imm rs1 (cast value)) c = (Ok tt, c1) ->
  (translate (xread c.(hart) rs1 ⊞ as_u64 imm) AStore c).1 = Ok pa ->
  (translate (xread c.(hart) rs1 ⊞ as_u64 imm) ALoad c1).1 = Ok pa ->
  exists c2,
    (let! value := read_from_bus T' imm rs1 in core_xwrite rd (as_u64 value)) c1 = (Ok tt, c2) /\
    c2.(bus) = c1.(bus) /\
    c2.(hart) = xwrite c.(hart) rd (as_u64 (from_stored T' (to_stored T (cast (xread c.(hart) rs2))))).
Proof.
  intros S U. change ((let! value := core_xread rs2 in write_to_bus T imm rs1 (cast value)) c)
    with (write_to_address T (xread c.(hart) rs1 ⊞ as_u64 imm) (cast (xread c.(hart) rs2)) c).
  set (va := xread c.(hart) rs1 ⊞ as_u64 imm). intros W Ts Tl.
  apply write_to_address_ok in W as (pa' & b' & Tp & W & Hh & Hb).
  rewrite Ts in Tp. injection Tp as <-. apply (Bus_read_written T T') in W; [|done..].
  rewrite <- Hb in W. destruct (read_from_address_ok T' va c1 pa _ Tl W) as (c2 & R & Hh2 & Hb2).
  exists (set_hart c2 (xwrite c2.(hart) rd (as_u64 (from_stored T' (to_stored T (cast (xread c.(hart) rs2))))))).
  split; [|split; [exact Hb2|cbn [hart set_hart]; by rewrite Hh2, Hh]].
  unfold st_bind at 1. change (read_from_bus T' imm rs1 c1) with
    (read_from_address T' (xread c1.(hart) rs1 ⊞ as_u64 imm) c1).
  rewrite Hh. fold va. by rewrite R.
Qed.

Lemma stored_signed w v : 0 < w -> swrap w (wrap w (wrap w v)) = swrap w v.
Proof. intros. rewrite wrap_wrap_le by lia. by apply swrap_wrap. Qed.

Lemma stored_unsigned w v : 0 <= w <= 64 -> v mod 2 ^ w = wrap 64 (wrap w (wrap w (wrap w v))).
Proof.
  intros W. rewrite !(wrap_wrap_le w w) by lia. symmetry. apply wrap_small.
  pose proof (wrap_range w v ltac:(lia)) as [? ?]. split; [done|].
  pose proof (Z.pow_le_mono_r 2 w 64 ltac:(lia) ltac:(lia)). fold (wrap w v). lia.
Qed.

(** C35. A load gives back what a store of the same width wrote at the same
    physical address: the value of the register for doublewords, its low
    bits sign- or zero-extended for the narrower widths.  The load leaves
    memory alone, and writes no other register. *)
Theorem store_load_roundtrip p imm rs1 rs2 rd c c1 pa :
  p ∈ round_trips -> hart_wf c -> is_u 64 pa ->
  rt_store p imm rs1 rs2 c = (Ok tt, c1) ->
  (translate (xread c.(hart) rs1 ⊞ as_u64 imm) AStore c).1 = Ok pa ->
  (translate (xread c.(hart) rs1 ⊞ as_u64 imm) ALoad c1).1 = Ok pa ->
  exists c2, rt_load p imm rs1 rd c1 = (Ok tt, c2) /\ c2.(bus) = c1.(bus) /\
    c2.(hart) = xwrite c.(hart) rd (rt_value p (xread c.(hart) rs2)).
Proof.
  intros Hp H U St Ts Tl. pose proof (xread_u64 c.(hart) rs2 H) as V.
  unfold round_trips in Hp. rewrite !elem_of_cons in Hp.
  assert (F : forall T T' cast,
    size_of T' = size_of T ->
    rt_store p = (fun imm rs1 rs2 => let! value := core_xread rs2 in write_to_bus T imm rs1 (cast value)) ->
    rt_load p = (fun imm rs1 rd => let! value := read_from_bus T' imm rs1 in core_xwrite rd (as_u64 value)) ->
    rt_value p (xread c.(hart) rs2) = as_u64 (from_stored T' (to_stored T (cast (xread c.(hart) rs2)))) ->
    exists c2, rt_load p imm rs1 rd c1 = (Ok tt, c2) /\ c2.(bus) = c1.(bus) /\
      c2.(hart) = xwrite c.(hart) rd (rt_value p (xread c.(hart) rs2))).
  { intros T T' cast S Es El Ev. rewrite Es in St. rewrite El, Ev.
    exact (store_load_generic T T' cast imm rs1 rs2 rd c c1 pa S U St Ts Tl). }
  set (v := xread c.(hart) rs2) in *.
  destruct Hp as [->|[->|[->|[->|[->|[->|[->|Hp]]]]]]].
  - apply (F U64 I64 (fun v => v)); try reflexivity.
    change (v = wrap 64 (swrap 64 (wrap 64 v))). rewrite wrap_swrap, !wrap_small by (done || lia || by rewrite wrap_small). done.
  - apply (F U32 I32 as_u32); try reflexivity. symmetry. exact (f_equal as_u64 (stored_signed 32 v eq_refl)).
  - apply (F U32 U32 as_u32); try reflexivity. apply (stored_unsigned 32). lia.
  - apply (F U16 I16 as_u16); try reflexivity. symmetry. exact (f_equal as_u64 (stored_signed 16 v eq_refl)).
  - apply (F U16 U16 as_u16); try reflexivity. apply (stored_unsigned 16). lia.
  - apply (F U8 I8 as_u8); try reflexivity. symmetry. exact (f_equal as_u64 (stored_signed 8 v eq_refl)).
  - apply (F U8 U8 as_u8); try reflexivity. apply (stored_unsigned 8). lia.
  - by apply not_elem_of_nil in Hp.
Qed.

(** ** Load-reserved and store-conditional *)

Lemma align_address_mod a : is_u 64 a -> align_address a RESERVATION_SIZE mod 8 = 0.
Proof.
  unfold is_u, align_address, RESERVATION_SIZE, wrapping_sub, wrapping_add, wrap. pow2. intros [? ?].
  bool_cases; Z.to_euclidean_division_equations; lia.
Qed.

Lemma reserved_after_set s a : is_u 64 a -> (ReservationSet_test_and_unset (ReservationSet_set s a) a).1 = true.
Proof.
  intros U. pose proof (align_address_mod a U) as M. unfold ReservationSet_test_and_unset, ReservationSet_set.
  cbn [fst start_addr]. rewrite Z.eqb_refl, andb_true_r.
  destruct (Z.eqb_spec (align_address a RESERVATION_SIZE) UNSET_VALUE) as [E|]; [|done].
  rewrite E in M. by vm_compute in M.
Qed.

(** The state after a store-conditional: the reservation is gone, [rd] says
    how it went. *)
Definition sc_state (c : MachineCoreState) (rd : XRegister) (v : Z) : MachineCoreState :=
  set_hart c (xwrite (set_reservation_set c.(hart) (ReservationSet_reset c.(hart).(reservation_set))) rd v).

Lemma run_sc_aligned T rs1 rs2 rd to c :
  xread c.(hart) rs1 mod size_of T = 0 ->
  run_sc T rs1 rs2 rd to c =
  if (ReservationSet_test_and_unset c.(hart).(reservation_set) (xread c.(hart) rs1)).1
  then write_to_address T (xread c.(hart) rs1) (to (xread c.(hart) rs2)) (sc_state c rd SC_SUCCESS)
  else (Ok tt, sc_state c rd SC_FAILURE).
Proof.
  intros A. unfold run_sc, st_bind, core_xread, gets. rewrite A. cbn [negb Z.eqb].
  change (ReservationSet_test_and_unset ?s ?a) with
    ((ReservationSet_test_and_unset s a).1, ReservationSet_reset s) at 1.
  by destruct (ReservationSet_test_and_unset _ _).1.
Qed.

Lemma write_to_address_hart T va v c : (write_to_address T va v c).2.(hart) = c.(hart).
Proof.
  unfold write_to_address, st_bind. pose proof (translate_same va AStore c) as S.
  destruct (translate va AStore c) as [[pa|e] c1]; [|by destruct S]. destruct S as [S _].
  by destruct (Bus_write _ _ _ _).
Qed.

Lemma run_lr_ok T rs1 rd from c c1 :
  run_lr T rs1 rd from c = (Ok tt, c1) ->
  xread c.(hart) rs1 mod size_of T = 0 /\
  c1.(hart).(reservation_set) = ReservationSet_set c.(hart).(reservation_set) (xread c.(hart) rs1).
Proof.
  unfold run_lr, st_bind, core_xread, gets. destruct (Z.eqb_spec (xread c.(hart) rs1 mod size_of T) 0) as [A|]; [|done].
  cbn [negb]. unfold read_from_address, st_bind.
  pose proof (translate_same (xread c.(hart) rs1) ALoad c) as S.
  destruct (translate _ ALoad c) as [[pa|e] c2]; [|done]. destruct S as [S _].
  destruct (Bus_read T c2.(bus) pa); [|done]. intros [= <-]. split; [done|]. cbn. by rewrite S.
Qed.

(** C36. Load-reserved and store-conditional pair up exactly once.  After a
    load-reserved that succeeded, a store-conditional to the same address,
    from any state in which the reservation still stands, performs the
    store with [rd] set to 0 (the store may still fault); whatever
    came of that store, a store-conditional that finds the reservation as it was left,
    at any aligned address, writes 1 to [rd] and leaves memory alone. *)
Theorem lr_sc_once T rs1 rd from c c1 :
  hart_wf c -> run_lr T rs1 rd from c = (Ok tt, c1) ->
  forall c2 rs1' rs2 rd' to,
    c2.(hart).(reservation_set) = c1.(hart).(reservation_set) ->
    xread c2.(hart) rs1' = xread c.(hart) rs1 ->
    let r := run_sc T rs1' rs2 rd' to c2 in
    r = write_to_address T (xread c.(hart) rs1) (to (xread c2.(hart) rs2)) (sc_state c2 rd' 0) /\
    forall c3 rs1'' rs2' rd'' to',
      c3.(hart).(reservation_set) = r.2.(hart).(reservation_set) ->
      xread c3.(hart) rs1'' mod size_of T = 0 ->
      run_sc T rs1'' rs2' rd'' to' c3 = (Ok tt, sc_state c3 rd'' 1).
Proof.
  intros H L c2 rs1' rs2 rd' to R A r. apply run_lr_ok in L as [Al Res].
  assert (E : r = write_to_address T (xread c.(hart) rs1) (to (xread c2.(hart) rs2)) (sc_state c2 rd' 0)).
  { unfold r. rewrite run_sc_aligned by by rewrite A. rewrite R, A, Res, reserved_after_set; [done|].
    by apply xread_u64. }
  split; [exact E|]. intros c3 rs1'' rs2' rd'' to' R3 A3. rewrite run_sc_aligned by done.
  rewrite R3, E, write_to_address_hart. done.
Qed.

(** ** Atomic memory operations *)

(** What a load and a store at a virtual address give in a state, with the
    translation that the state has for it, from its cache or from a walk. *)
Definition loads (T : Elem) (va : Z) (c : MachineCoreState) : result Z Exception :=
  let? pa := (translate va ALoad c).1 in
  result_map_err (fun _ => LoadAccessFault pa) (Bus_read T c.(bus) pa).

Definition stores (T : Elem) (va v : Z) (c : MachineCoreState) : result unit Exception * Bus :=
  match (translate va AStore c).1 with
  | Ok pa => let '(r, b) := Bus_write T c.(bus) pa v in (result_map_err (fun _ => StoreAMOAccessFault pa) r, b)
  | Err e => (Err e, c.(bus))
  end.

(** A translation changes the cache of its access type at most. *)
Lemma translate_frame va acc c :
  exists t, (translate va acc c).2 = set_translation_cache c t /\
    forall md satp acc' va', acc' <> acc ->
      TranslationCache_try_translate t md satp acc' va' =
      TranslationCache_try_translate c.(translation_cache) md satp acc' va'.
Proof.
  assert (I : c = set_translation_cache c c.(translation_cache)) by by destruct c.
  unfold translate, translate_cached. destruct (TranslationCache_try_translate _ _ _ _ _); [by eexists|].
  destruct (translate_with_prefetch _ _ _ _ _); [|by eexists]. eexists. split; [done|].
  intros md satp acc' va' N. unfold TranslationCache_try_translate, TranslationCache_cache_translation. cbn [tc_entries].
  by rewrite fupd_ne by (intros E; by apply access_type_index_inj in E).
Qed.

Lemma read_from_address_loads T va c :
  exists t, read_from_address T va c = (loads T va c, set_translation_cache c t) /\
    forall md satp va', TranslationCache_try_translate t md satp AStore va' =
      TranslationCache_try_translate c.(translation_cache) md satp AStore va'.
Proof.
  destruct (translate_frame va ALoad c) as (t & E & F). exists t. split; [|intros; by apply F].
  unfold read_from_address, st_bind, loads. destruct (translate va ALoad c) as [[pa|e] c1]; cbn [fst snd] in *; by subst.
Qed.

Lemma write_to_address_stores T va v c :
  exists t, write_to_address T va v c = ((stores T va v c).1, set_bus (set_translation_cache c t) (stores T va v c).2).
Proof.
  destruct (translate_frame va AStore c) as (t & E & _). exists t.
  unfold write_to_address, st_bind, stores. destruct (translate va AStore c) as [[pa|e] c1]; cbn [fst snd] in *; subst.
  - cbn [bus set_translation_cache]. by destruct (Bus_write _ _ _ _).
  - by destruct c.
Qed.

(** The translation for a store after one for a load and a write to a register. *)
Lemma stores_after T va v c t rd x :
  (forall md satp va', TranslationCache_try_translate t md satp AStore va' =
     TranslationCache_try_translate c.(translation_cache) md satp AStore va') ->
  stores T va v (set_hart (set_translation_cache c t) (xwrite c.(hart) rd x)) = stores T va v c.
Proof.
  intros F. unfold stores. set (c2 := set_hart _ _).
  assert (E : (translate va AStore c2).1 = (translate va AStore c).1); [|by rewrite E].
  unfold translate, translate_cached. change (translation_cache c2) with t. rewrite F.
  change (mode (hart c2)) with (mode (hart c)). change (csr_read (hart c2) CSR.satp) with (csr_read (hart c) CSR.satp).
  destruct (TranslationCache_try_translate _ _ _ _ _); [done|].
  change (translate_with_prefetch c2) with (translate_with_prefetch c). by destruct (translate_with_prefetch _ _ _ _ _).
Qed.

(** C37. What an atomic memory operation leaves, in every state and on every
    path.  A misaligned address is a store access fault that changes nothing.
    A failing read gives the exception of a load and changes neither registers
    nor memory.  When the read succeeds, [rd] holds the old value even if the
    store then fails; memory and the result are those of storing the combined
    value.  Addresses are translated as the state translates them, from its
    translation cache where that has an entry. *)
Theorem amo_outcome T rs1 rs2 rd f to from c :
  let a := xread c.(hart) rs1 in
  let '(r, c') := run_amo T rs1 rs2 rd f to from c in
  if a mod size_of T =? 0 then
    match loads T a c with
    | Err e => r = Err e /\ c'.(hart) = c.(hart) /\ c'.(bus) = c.(bus)
    | Ok old =>
        c'.(hart) = xwrite c.(hart) rd (from old) /\
        (r, c'.(bus)) = stores T a (f old (to (xread c.(hart) rs2))) c
    end
  else r = Err (StoreAMOAccessFault a) /\ c' = c.
Proof.
  intros a. unfold run_amo. unfold st_bind at 1, core_xread at 1, gets at 1. fold a.
  destruct (Z.eqb_spec (a mod size_of T) 0) as [Al|]; [|done]. cbn [negb]. unfold st_bind at 1.
  destruct (read_from_address_loads T a c) as (t & -> & F). destruct (loads T a c) as [old|e]; [|done].
  unfold core_xread, core_xwrite, st_bind, gets, modify. cbn [hart set_translation_cache].
  set (v := f old _). destruct (write_to_address_stores T a v
    (set_hart (set_translation_cache c t) (xwrite c.(hart) rd (from old)))) as (t' & ->).
  rewrite stores_after by done. split; [done|]. cbn [bus set_bus]. by destruct (stores T a v c).
Qed.

(** ** The supervisor fence *)

(** Each of the three caches stands for some abstract cache, as after a reset
    and any number of fences and insertions ([cache_rel_exec]). *)
Definition tlb_wf (c : TranslationCache) : Prop :=
  forall acc, exists a, cache_rel (c.(tc_entries) (access_type_index acc)) a.

Lemma tlb_wf_cache c md satp acc va pa :
  tlb_wf c -> tlb_wf (TranslationCache_cache_translation c md satp acc va pa).
Proof.
  intros W acc'. unfold TranslationCache_cache_translation. cbn [tc_entries].
  destruct (decide (acc' = acc)) as [->|N].
  - rewrite fupd_eq. destruct (W acc) as [a R]. eexists. by apply cache_rel_cache.
  - rewrite fupd_ne by (intros E; by apply access_type_index_inj in E). apply W.
Qed.

Lemma invalidate_all c acc :
  (TranslationCache_invalidate c [AInstruction; ALoad; AStore]).(tc_entries) (access_type_index acc) =
  AccessCache_invalidate (c.(tc_entries) (access_type_index acc)).
Proof. by destruct acc. Qed.

(** [SFENCE.VMA] forgets every translation, of every access type, address
    space and page, whatever its operands, and changes nothing else.  It traps
    exactly in supervisor mode with [mstatus.TVM] set, and it has forgotten the
    translations then too; user mode may execute it. *)
Theorem sfence_vma_spec asid vaddr c :
  tlb_wf c.(translation_cache) ->
  let '(r, c') := run_sfence_vma asid vaddr c in
  (r = Err IllegalInstruction <->
     c.(hart).(mode) = Supervisor /\ c.(hart).(csregisters).(mstatus_cells).(m_tvm) = true) /\
  (r = Ok tt \/ r = Err IllegalInstruction) /\
  c'.(hart) = c.(hart) /\ c'.(bus) = c.(bus) /\ tlb_wf c'.(translation_cache) /\ coherent c' /\
  forall md satp acc va, TranslationCache_try_translate c'.(translation_cache) md satp acc va = None.
Proof.
  intros W. unfold run_sfence_vma, st_bind, modify, gets.
  set (c1 := set_translation_cache c _).
  assert (N : forall md satp acc va, TranslationCache_try_translate c1.(translation_cache) md satp acc va = None).
  { intros md satp acc va. unfold TranslationCache_try_translate, c1. cbn [translation_cache set_translation_cache].
    rewrite invalidate_all. destruct (W acc) as [a R].
    by rewrite (cache_rel_lookup _ abs_empty) by by apply cache_rel_invalidate with a. }
  assert (W1 : tlb_wf c1.(translation_cache)).
  { intros acc. exists abs_empty. unfold c1. cbn [translation_cache set_translation_cache].
    rewrite invalidate_all. destruct (W acc) as [a R]. by apply cache_rel_invalidate with a. }
  assert (C1 : coherent c1) by (intros md satp acc va pa _; by rewrite N).
  change (c1.(hart)) with c.(hart).
  destruct (m_tvm _) eqn:T; [destruct (bool_decide_reflect (c.(hart).(mode) = Supervisor)) as [M|M]|]; cbn [andb];
    (split; [split; intros; destruct_and?; simplify_eq; auto|]); (split; [auto|]); done.
Qed.

End spec.

(** ** Examples *)

#[local] Existing Instances M1K ApFloat_example.

(** [x1] points into the main memory; [x2] holds a value. *)
Definition core_memory_example : MachineCoreState :=
  set_hart core_example (xwrite (xwrite core_example.(hart) x1 0x80000010) x2 0x12ff).

Lemma core_memory_example_wf : hart_wf core_memory_example.
Proof. apply xwrite_wf; [apply xwrite_wf; [exact HartState_example_wf|]|]; vm_compute; intuition congruence. Qed.

Lemma core_memory_example_coherent : coherent core_memory_example.
Proof. exact (core_example_coherent M1K core_memory_example.(hart) core_memory_example.(bus)). Qed.

Definition core_floating_off : MachineCoreState :=
  set_hart core_example (csr_write core_example.(hart) CSR.mstatus 0).

Lemma floating_off_illegal_witness :
  run_instr_cacheable (CFldsp {| cibd_rd_rs1 := f1; cibd_imm := 8 |}) core_floating_off =
  (Err IllegalInstruction, core_floating_off).
Proof. apply floating_off_illegal; vm_compute; reflexivity. Defined.

(** Storing the low byte 0xff and loading it with sign extension. *)
Lemma store_load_roundtrip_witness :
  exists c1 c2, run_sb 4 x1 x2 core_memory_example = (Ok tt, c1) /\ run_lb 4 x1 x3 c1 = (Ok tt, c2) /\
    xread c2.(hart) x3 = 2 ^ 64 - 1.
Proof.
  destruct (run_sb 4 x1 x2 core_memory_example) as [r c1] eqn:E.
  assert (R : r = Ok tt).
  { change r with (r, c1).1. rewrite <- E. vm_compute. reflexivity. }
  subst r. destruct (store_load_roundtrip {| rt_store := run_sb; rt_load := run_lb; rt_value v := as_u64 (as_i8 v) |}
    4 x1 x2 x3 core_memory_example c1 0x80000014) as (c2 & L & _ & H).
  - unfold round_trips. do 5 apply elem_of_cons, or_intror. apply elem_of_cons. left. reflexivity.
  - exact core_memory_example_wf.
  - vm_compute. intuition congruence.
  - exact E.
  - vm_compute. reflexivity.
  - change c1 with (Ok (E := Exception) tt, c1).2. rewrite <- E. vm_compute. reflexivity.
  - exists c1, c2. split; [reflexivity|]. split; [exact L|]. rewrite H. vm_compute. reflexivity.
Defined.

Lemma amo_outcome_witness :
  let '(r, c') := run_amo_w x1 x2 x3 (fun a b => as_i32 (a + b)) core_memory_example in
  r = Ok tt /\ xread c'.(hart) x3 = 0 /\ Bus_read U32 c'.(bus) 0x80000010 = Ok 0x12ff.
Proof.
  pose proof (amo_outcome I32 x1 x2 x3 (fun a b => as_i32 (a + b)) as_i32 as_u64 core_memory_example) as H.
  cbv zeta in H. unfold run_amo_w. destruct (run_amo _ _ _ _ _ _ _ _) as [r c'].
  change (xread core_memory_example.(hart) x1) with 0x80000010 in H.
  change (0x80000010 mod size_of I32 =? 0) with true in H. cbv iota in H.
  assert (L : loads I32 0x80000010 core_memory_example = Ok 0) by (vm_compute; reflexivity).
  rewrite L in H. destruct H as [Hh Hb]. rewrite Hh.
  assert (Hr : r = (r, bus c').1) by reflexivity. assert (B : bus c' = (r, bus c').2) by reflexivity.
  rewrite Hb in Hr, B. rewrite Hr, B. split; [vm_compute; reflexivity|]. split; vm_compute; reflexivity.
Defined.

(** A reserved store that succeeds, then one that fails. *)
Lemma lr_sc_once_witness :
  exists c1, run_lrd x1 x0 x3 false false core_memory_example = (Ok tt, c1) /\
    let r := run_scd x1 x2 x4 false false c1 in
    r = write_to_address U64 0x80000010 0x12ff (sc_state c1 x4 0) /\
    run_scd x1 x2 x5 false false r.2 = (Ok tt, sc_state r.2 x5 1).
Proof.
  unfold run_lrd, run_scd. destruct (run_lr U64 x1 x3 (fun x => x) core_memory_example) as [r c1] eqn:E.
  assert (R : r = Ok tt) by (change r with (r, c1).1; rewrite <- E; vm_compute; reflexivity). subst r.
  exists c1. split; [reflexivity|].
  destruct (lr_sc_once U64 x1 x3 (fun x => x) core_memory_example c1 core_memory_example_wf E
    c1 x1 x2 x4 (fun x => x)) as [H1 H2].
  - reflexivity.
  - change c1 with (Ok (E := Exception) tt, c1).2. rewrite <- E. vm_compute. reflexivity.
  - split.
    + refine (eq_trans H1 _). f_equal.
      change c1 with (Ok (E := Exception) tt, c1).2. rewrite <- E. vm_compute. reflexivity.
    + apply H2; [reflexivity|].
      change c1 with (Ok (E := Exception) tt, c1).2. rewrite <- E. vm_compute. reflexivity.
Defined.

Lemma core_memory_example_tlb i : cache_rel (core_memory_example.(translation_cache).(tc_entries) i) abs_empty.
Proof. split; [by vm_compute|]. intros k K. by left. Qed.

(** A translation that is cached, then forgotten. *)
Lemma sfence_vma_spec_witness :
  let c := (translate 0x80000010 ALoad core_memory_example).2 in
  let lookup c := TranslationCache_try_translate c.(translation_cache) Machine 0 ALoad 0x80000018 in
  lookup c = Some 0x80000018 /\ lookup (run_sfence_vma x0 x0 c).2 = None.
Proof.
  intros c lookup.
  assert (W : tlb_wf c.(translation_cache)).
  { assert (E : c.(translation_cache) = TranslationCache_cache_translation core_memory_example.(translation_cache)
      Machine 0 ALoad 0x80000010 0x80000010) by reflexivity.
    rewrite E. apply tlb_wf_cache. intros acc. exists abs_empty. apply core_memory_example_tlb. }
  split; [vm_compute; reflexivity|].
  pose proof (sfence_vma_spec x0 x0 c W) as H. unfold lookup.
  destruct (run_sfence_vma x0 x0 c) as [r c']. apply H.
Defined.
