(* ===== verification/InstructionCache.v ===== *)
(** The instruction cache: [src/riscv/lib/src/machine_state/instruction_cache.rs]
    and the index of [src/riscv/lib/src/cache_utils.rs].

    [bits] is the constant parameter [BITS] of the layout; the array of entries
    is a function from indices. *)
From S2P Require Import Prelude Instruction Parser AddressTranslation TranslationCache.

(** ** Sizes *)

(* cache_utils.rs:46-50 CACHE_SIZE *)
Definition CACHE_SIZE (bits : Z) : Z := shl_u 64 1 bits.

(* cache_utils.rs:52-55 CACHE_MASK *)
Definition CACHE_MASK (bits : Z) : Z := CACHE_SIZE bits - 1.

(* cache_utils.rs:61-63 cache_index *)
Definition cache_index (bits phys_addr : Z) : Z := shr_u 64 phys_addr 1 & CACHE_MASK bits.

(** The compile-time assertion of [Sizes]: the fence counter does not wrap
    before every entry was invalidated. *)
(* cache_utils.rs:67-75 fence_counter_wrapping_protection *)
Definition fence_counter_wrapping_protection (bits : Z) : bool := CACHE_SIZE bits <? 2 ^ 32 - 1.

(* machine_state/instruction_cache.rs:52-52 ValidatedCacheEntry *)
Record ValidatedCacheEntry : Set := { entry_address : Z; entry_instr : InstrCacheable }.

(* machine_state/instruction_cache.rs:80-84 Cached *)
Record ICached : Set := { ic_fence_counter : Z; ic_phys_addr : Z; ic_instr : InstrCacheable }.

(* machine_state/instruction_cache.rs:97-104 Cached::reset *)
Definition ICached_reset (c : ICached) : ICached :=
  {| ic_fence_counter := FenceCounter_INITIAL; ic_phys_addr := 0; ic_instr := Unknown 0 |}.

(* machine_state/instruction_cache.rs:118-123 Cached::invalidate *)
Definition ICached_invalidate (c : ICached) : ICached :=
  {| ic_fence_counter := c.(ic_fence_counter); ic_phys_addr := not_u 64 0; ic_instr := c.(ic_instr) |}.

(* machine_state/instruction_cache.rs:241-244 InstructionCache *)
Record InstructionCache : Type := { ic_counter : Z; ic_entries : Z -> ICached }.

(* machine_state/instruction_cache.rs:371-377 cacheable_uncompressed *)
Definition cacheable_uncompressed (phys_addr : Z) : bool :=
  let END_OF_PAGE := PAGE_SIZE - 2 in
  negb (phys_addr mod PAGE_SIZE =? END_OF_PAGE).

Section cache.
Context `{AI : ArbitraryInt} (bits : Z).

(* machine_state/instruction_cache.rs:253-259 InstructionCache::reset *)
Definition ICache_reset (c : InstructionCache) : InstructionCache :=
  {| ic_counter := FenceCounter_INITIAL; ic_entries := fun i => ICached_reset (c.(ic_entries) i) |}.

(* machine_state/instruction_cache.rs:262-272 InstructionCache::invalidate *)
Definition ICache_invalidate (c : InstructionCache) : InstructionCache :=
  let n := c.(ic_counter) in
  let i := cache_index bits n in
  {| ic_counter := FenceCounter_next n;
     ic_entries := fupd c.(ic_entries) i (ICached_invalidate (c.(ic_entries) i)) |}.

(* machine_state/instruction_cache.rs:281-299 InstructionCache::fetch_instr *)
Definition ICache_fetch_instr (c : InstructionCache) (a : Z) : option InstrCacheable :=
  if a =? 0 then None
  else
    let cached := c.(ic_entries) (cache_index bits a) in
    if (cached.(ic_phys_addr) =? a) && (cached.(ic_fence_counter) =? c.(ic_counter))
    then Some cached.(ic_instr) else None.

(* machine_state/instruction_cache.rs:348-358 cache_inner *)
Definition ICache_cache_inner (c : InstructionCache) (a : Z) (i : InstrCacheable) : InstructionCache :=
  {| ic_counter := c.(ic_counter);
     ic_entries := fupd c.(ic_entries) (cache_index bits a)
                  {| ic_instr := i; ic_phys_addr := a; ic_fence_counter := c.(ic_counter) |} |}.

(** [push_to_block] acts on a state [B] of the caller. *)
(* machine_state/instruction_cache.rs:303-320 cache_compressed *)
Definition ICache_cache_compressed {B} (push_to_block : ValidatedCacheEntry -> B -> B)
  (c : InstructionCache) (b : B) (a raw : Z) : Instr * InstructionCache * B :=
  let i := parse_compressed_instruction raw in
  match i with
  | Cacheable j =>
      (i, ICache_cache_inner c a j, push_to_block {| entry_address := a; entry_instr := j |} b)
  | Uncacheable _ => (i, c, b)
  end.

(* machine_state/instruction_cache.rs:326-345 cache_uncompressed *)
Definition ICache_cache_uncompressed {B} (push_to_block : ValidatedCacheEntry -> B -> B)
  (c : InstructionCache) (b : B) (a raw : Z) : Instr * InstructionCache * B :=
  let i := parse_uncompressed_instruction raw in
  match i with
  | Cacheable j =>
      if cacheable_uncompressed a
      then (i, ICache_cache_inner c a j, push_to_block {| entry_address := a; entry_instr := j |} b)
      else (i, c, b)
  | Uncacheable _ => (i, c, b)
  end.

End cache.
