(* ===== verification/InstructionCacheSpec.v ===== *)
(** The instruction cache refines a cache that an invalidation empties.  The
    argument on the wrapping fence counter is shared with the block cache. *)
From S2P Require Import Prelude Instruction Parser AddressTranslation TranslationCache.
From S2P Require Import TranslationCacheSpec.
From S2P Require Import InstructionCache.

(** ** Sizes *)

(** What the compile-time checks of [Sizes] say of the index width. *)
Definition bits_ok (bits : Z) : Prop := 0 <= bits < 64 /\ fence_counter_wrapping_protection bits = true.

Lemma bits_ok_spec bits : bits_ok bits -> 0 <= bits <= 31 /\ CACHE_SIZE bits = 2 ^ bits.
Proof.
  intros [R P]. unfold fence_counter_wrapping_protection in P. apply Z.ltb_lt in P.
  assert (E : CACHE_SIZE bits = 2 ^ bits).
  { unfold CACHE_SIZE, shl_u. rewrite Z.mod_small by lia. rewrite Z.shiftl_1_l. apply wrap_small.
    split; [apply Z.pow_nonneg; lia|apply Z.pow_lt_mono_r; lia]. }
  split; [|done]. rewrite E in P. destruct (Z_lt_ge_dec bits 32); [lia|].
  assert (2 ^ 32 <= 2 ^ bits) by (apply Z.pow_le_mono_r; lia). lia.
Qed.

Section fence.
Context (bits : Z) (OK : bits_ok bits).

Lemma cache_index_spec a : cache_index bits a = (a / 2) mod 2 ^ bits.
Proof.
  destruct (bits_ok_spec bits OK) as [R E]. unfold cache_index, CACHE_MASK, shr_u. rewrite E.
  change (1 mod 64) with 1. rewrite Z.shiftr_div_pow2 by lia. change (2 ^ 1) with 2.
  replace (2 ^ bits - 1) with (Z.ones bits) by (rewrite Z.ones_equiv; lia). by rewrite Z.land_ones by lia.
Qed.

Lemma cache_index_range a : 0 <= cache_index bits a < 2 ^ bits.
Proof.
  rewrite cache_index_spec. apply Z.mod_pos_bound, pow2_pos. apply (bits_ok_spec bits OK).
Qed.

(** An entry at index [i], populated when the counter was [f], has survived [k]
    invalidations: none of them cleared its index. *)
Definition survived (counter f i k : Z) : Prop :=
  is_u 32 f /\ 0 <= k /\ counter = wrap 32 (f + k) /\
  forall j, 0 <= j < k -> cache_index bits (wrap 32 (f + j)) <> i.

Lemma survived_now counter i : is_u 32 counter -> survived counter counter i 0.
Proof.
  intros U. split_and!; [done..|lia| |intros; lia].
  rewrite Z.add_0_r. by rewrite wrap_small.
Qed.

(** The counter does not come back to [f] before the index was cleared. *)
Lemma survived_same counter i k :
  0 <= i < 2 ^ bits -> survived counter counter i k -> k = 0.
Proof.
  intros I (U & K & E & N). destruct (bits_ok_spec bits OK) as [R _].
  destruct (Z_lt_ge_dec k (2 ^ 32)) as [L|L].
  - unfold is_u, wrap in *. revert E U L K. pow2. intros. Z.to_euclidean_division_equations; lia.
  - exfalso. set (j := (2 * i - counter) mod 2 ^ 32).
    assert (J : 0 <= j < 2 ^ 32) by (apply Z.mod_pos_bound; lia).
    apply (N j); [lia|].
    assert (2 ^ bits <= 2 ^ 31) by (apply Z.pow_le_mono_r; lia).
    assert (wrap 32 (counter + j) = 2 * i) as ->.
    { unfold wrap, j. rewrite Zplus_mod_idemp_r. replace (counter + (2 * i - counter)) with (2 * i) by lia.
      apply Z.mod_small. lia. }
    rewrite cache_index_spec. rewrite (Z.mul_comm 2), Z.div_mul by lia. apply Z.mod_small. lia.
Qed.

Lemma survived_next counter f i k :
  survived counter f i k -> cache_index bits counter <> i ->
  survived (FenceCounter_next counter) f i (k + 1).
Proof.
  intros (U & K & E & N) I. split_and!; [done|lia| |].
  - unfold FenceCounter_next, wrapping_add. rewrite E. unfold wrap. rewrite Zplus_mod_idemp_l. f_equal. lia.
  - intros j J. destruct (decide (j = k)) as [->|]; [by rewrite <- E|apply N; lia].
Qed.

Lemma counter_next_u32 c : is_u 32 (FenceCounter_next c).
Proof. apply wrap_range. lia. Qed.

(** ** The abstract cache *)

(** A direct-mapped cache; an invalidation makes it empty. *)
Definition AbsICache : Type := Z -> option (Z * InstrCacheable).

Definition abs_fetch (m : AbsICache) (a : Z) : option InstrCacheable :=
  match m (cache_index bits a) with
  | Some (a', i) => if a' =? a then Some i else None
  | None => None
  end.

Inductive icache_op : Set :=
| IC_cache (phys_addr : Z) (i : InstrCacheable)
| IC_invalidate
| IC_reset.

Definition icache_exec (c : InstructionCache) (o : icache_op) : InstructionCache :=
  match o with
  | IC_cache a i => ICache_cache_inner bits c a i
  | IC_invalidate => ICache_invalidate bits c
  | IC_reset => ICache_reset c
  end.

Definition abs_icache_exec (m : AbsICache) (o : icache_op) : AbsICache :=
  match o with
  | IC_cache a i => fupd m (cache_index bits a) (Some (a, i))
  | IC_invalidate | IC_reset => fun _ => None
  end.

(** ** The simulation *)

Definition ientry_rel (counter i : Z) (e : ICached) (x : option (Z * InstrCacheable)) : Prop :=
  ((e.(ic_phys_addr) = not_u 64 0 \/ e.(ic_phys_addr) = 0) /\ x = None) \/
  exists k, survived counter e.(ic_fence_counter) i k /\
    x = if k =? 0 then Some (e.(ic_phys_addr), e.(ic_instr)) else None.

Definition icache_rel (c : InstructionCache) (m : AbsICache) : Prop :=
  is_u 32 c.(ic_counter) /\
  forall i, 0 <= i < 2 ^ bits -> ientry_rel c.(ic_counter) i (c.(ic_entries) i) (m i).

Lemma icache_rel_fetch c m a :
  icache_rel c m -> a <> 0 -> a <> not_u 64 0 -> ICache_fetch_instr bits c a = abs_fetch m a.
Proof.
  intros [U R] N0 N1. unfold ICache_fetch_instr, abs_fetch. rewrite (proj2 (Z.eqb_neq _ _) N0).
  pose proof (cache_index_range a) as I. specialize (R _ I).
  set (i := cache_index bits a) in *. set (e := ic_entries c i) in *.
  destruct R as [[P ->]|(k & S & ->)].
  - rewrite (proj2 (Z.eqb_neq _ _)); [done|]. destruct P; congruence.
  - destruct (Z.eqb_spec (ic_fence_counter e) (ic_counter c)) as [E|E].
    + rewrite E in S. apply survived_same in S as ->; [|done]. simpl. by rewrite andb_true_r.
    + rewrite andb_false_r. destruct (Z.eqb_spec k 0) as [->|]; [|done].
      destruct S as (F & _ & C & _). exfalso. apply E. rewrite C, Z.add_0_r. by rewrite wrap_small.
Qed.

Lemma icache_rel_exec c m o :
  icache_rel c m \/ o = IC_reset -> icache_rel (icache_exec c o) (abs_icache_exec m o).
Proof.
  destruct o as [a j| |]; simpl.
  - intros [[U R]|]; [|done]. split; [done|]. intros i I. cbn [ICache_cache_inner ICache_invalidate ic_entries ic_counter]. unfold fupd. case_decide as E.
    + right. exists 0. split; [by apply survived_now|done].
    + by apply R.
  - intros [[U R]|]; [|done]. split; [apply counter_next_u32|]. intros i I. cbn [ICache_cache_inner ICache_invalidate ic_entries ic_counter]. unfold fupd. case_decide as E.
    + left. split; [by left|done].
    + destruct (R i I) as [[P X]|(k & S & X)]; [by left|].
      right. exists (k + 1). split; [by apply survived_next|].
      rewrite (proj2 (Z.eqb_neq (k + 1) 0)); [done|]. destruct S as (_ & ? & _). lia.
  - intros _. split; [by vm_compute|]. intros i I. left. split; [by right|done].
Qed.

Lemma icache_rel_run ops : forall c m,
  icache_rel c m -> icache_rel (fold_left icache_exec ops c) (fold_left abs_icache_exec ops m).
Proof.
  induction ops as [|o ops IH]; intros c m R; [done|]. simpl. apply IH. apply icache_rel_exec. by left.
Qed.

(** C5. The instruction cache refines a cache that every invalidation empties:
    after a reset and any sequence of insertions, invalidations and resets, a
    fetch returns the instruction that was last cached for the address since
    the last invalidation, if no other address took its place; the wrapping of
    the 32-bit fence counter never revives an older entry.  Address zero is
    never a hit. *)
Theorem instruction_cache_refines c ops a :
  a <> not_u 64 0 ->
  ICache_fetch_instr bits (fold_left icache_exec ops (ICache_reset c)) a =
  (if a =? 0 then None else abs_fetch (fold_left abs_icache_exec ops (fun _ => None)) a).
Proof.
  intros N. destruct (Z.eqb_spec a 0) as [->|Z0]; [done|].
  apply icache_rel_fetch; [|done..]. apply icache_rel_run.
  apply (icache_rel_exec c (fun _ => None) IC_reset). by right.
Qed.

End fence.

Lemma bits_ok_test : bits_ok 12.
Proof. split; [lia|reflexivity]. Qed.

Lemma instruction_cache_refines_witness :
  ICache_fetch_instr 12
    (fold_left (icache_exec 12) [IC_cache 0x80000000 CNop; IC_invalidate; IC_cache 0x80000002 CNop]
       (ICache_reset {| ic_counter := 7; ic_entries := fun _ =>
          {| ic_fence_counter := 7; ic_phys_addr := 0x80000000; ic_instr := Unknown 1 |} |})) 0x80000000 = None.
Proof.
  rewrite (instruction_cache_refines 12 bits_ok_test) by (vm_compute; congruence).
  vm_compute. reflexivity.
Defined.
