(* ===== verification/BlockCache.v ===== *)
(** The block cache: [src/riscv/lib/src/machine_state/block_cache.rs].

    [bits] is the constant parameter [BITS] of the layout; the array of entries
    is a function from indices, the instruction buffer of an entry a list of
    [CACHE_INSTR] cells.  The counters [steps] and [max_steps] are [usize]; they
    never pass [max_steps], so no addition on them wraps. *)
From S2P Require Import Prelude CSRegister Traps HartState Bus Instruction TranslationCache.
From S2P Require Import MachineCore.
From S2P Require Import Float RunInstr InstructionCache.

(* machine_state/block_cache.rs:96-96 PAGE_OFFSET_MASK *)
Definition PAGE_OFFSET_MASK : Z := shl_u 64 1 12 - 1.

(* machine_state/block_cache.rs:99-99 CACHE_INSTR *)
Definition CACHE_INSTR : Z := 20.

(** ** Entries *)

(* machine_state/block_cache.rs:113-118 Cached *)
Record BCached : Set := {
  bc_address : Z;
  bc_fence_counter : Z;
  bc_len_instr : Z;
  bc_instr : list InstrCacheable;
}.

(* machine_state/block_cache.rs:130-136 Cached::invalidate *)
Definition BCached_invalidate (c : BCached) : BCached :=
  {| bc_address := 0; bc_fence_counter := c.(bc_fence_counter); bc_len_instr := 0;
     bc_instr := c.(bc_instr) |}.

(* machine_state/block_cache.rs:138-148 Cached::reset *)
Definition BCached_reset (c : BCached) : BCached :=
  {| bc_address := 0; bc_fence_counter := FenceCounter_INITIAL; bc_len_instr := 0;
     bc_instr := map (fun _ => Unknown 0) c.(bc_instr) |}.

(* machine_state/block_cache.rs:150-157 start_block *)
Definition BCached_start_block (c : BCached) (block_addr fence_counter : Z) : BCached :=
  {| bc_address := block_addr; bc_fence_counter := fence_counter; bc_len_instr := 0;
     bc_instr := c.(bc_instr) |}.

(** The instructions of the block: the first [len_instr] cells. *)
(* machine_state/block_cache.rs:159-166 Cached::block *)
Definition BCached_block (c : BCached) : list InstrCacheable :=
  take (Z.to_nat c.(bc_len_instr)) c.(bc_instr).

(** Writing the cell at [len_instr], and the new length. *)
Definition BCached_append (c : BCached) (len_instr : Z) (i : InstrCacheable) : BCached :=
  {| bc_address := c.(bc_address); bc_fence_counter := c.(bc_fence_counter);
     bc_len_instr := len_instr + 1;
     bc_instr := <[Z.to_nat len_instr := i]> c.(bc_instr) |}.

(* machine_state/block_cache.rs:212-216 PartialBlock *)
Record PartialBlock : Set := { pb_phys_addr : Z; pb_in_progress : bool; pb_progress : Z }.

(* machine_state/block_cache.rs:245-252 PartialBlock::reset *)
Definition PartialBlock_reset (p : PartialBlock) : PartialBlock :=
  {| pb_in_progress := false; pb_phys_addr := 0; pb_progress := 0 |}.

(* machine_state/block_cache.rs:350-356 BlockCache *)
Record BlockCache : Type := {
  current_block_addr : Z;
  next_instr_addr : Z;
  bl_fence_counter : Z;
  partial_block : PartialBlock;
  bl_entries : Z -> BCached;
}.

Definition set_partial_block (b : BlockCache) (p : PartialBlock) : BlockCache :=
  {| current_block_addr := b.(current_block_addr); next_instr_addr := b.(next_instr_addr);
     bl_fence_counter := b.(bl_fence_counter); partial_block := p; bl_entries := b.(bl_entries) |}.

(* machine_state/block_cache.rs:411-417 reset_to *)
Definition BlockCache_reset_to (b : BlockCache) (phys_addr : Z) : BlockCache :=
  {| current_block_addr := phys_addr; next_instr_addr := 0;
     bl_fence_counter := b.(bl_fence_counter); partial_block := b.(partial_block);
     bl_entries := b.(bl_entries) |}.

Definition set_bl_entry (b : BlockCache) (i : Z) (e : BCached) : BlockCache :=
  {| current_block_addr := b.(current_block_addr); next_instr_addr := b.(next_instr_addr);
     bl_fence_counter := b.(bl_fence_counter); partial_block := b.(partial_block);
     bl_entries := fupd b.(bl_entries) i e |}.

Definition set_next_instr_addr (b : BlockCache) (a : Z) : BlockCache :=
  {| current_block_addr := b.(current_block_addr); next_instr_addr := a;
     bl_fence_counter := b.(bl_fence_counter); partial_block := b.(partial_block);
     bl_entries := b.(bl_entries) |}.

Definition set_bl_fence_counter (b : BlockCache) (n : Z) : BlockCache :=
  {| current_block_addr := b.(current_block_addr); next_instr_addr := b.(next_instr_addr);
     bl_fence_counter := n; partial_block := b.(partial_block); bl_entries := b.(bl_entries) |}.

(* machine_state/block_cache.rs:376-384 BlockCache::reset *)
Definition BlockCache_reset (b : BlockCache) : BlockCache :=
  {| current_block_addr := 0; next_instr_addr := 0; bl_fence_counter := FenceCounter_INITIAL;
     partial_block := PartialBlock_reset b.(partial_block);
     bl_entries := fun i => BCached_reset (b.(bl_entries) i) |}.

Section cache.
Context (bits : Z).

Definition bl_entry (b : BlockCache) (a : Z) : BCached := b.(bl_entries) (cache_index bits a).

(* machine_state/block_cache.rs:365-373 BlockCache::invalidate *)
Definition BlockCache_invalidate (b : BlockCache) : BlockCache :=
  let counter := b.(bl_fence_counter) in
  let b := set_bl_fence_counter b (FenceCounter_next counter) in
  let b := BlockCache_reset_to b 0 in
  set_bl_entry b (cache_index bits counter) (BCached_invalidate (bl_entry b counter)).

(** [WIDTH] is the constant parameter of the source. *)
(* machine_state/block_cache.rs:422-458 cache_inner *)
Definition BlockCache_cache_inner (WIDTH : Z) (b : BlockCache) (phys_addr : Z) (instr : InstrCacheable) :
  BlockCache :=
  let block_addr := b.(current_block_addr) in
  let fence_counter := b.(bl_fence_counter) in
  let entry := bl_entry b block_addr in
  let start := entry.(bc_address) in
  let len_instr := entry.(bc_len_instr) in
  let '(b, block_addr, entry, len_instr) :=
    if negb (start =? block_addr) || (entry.(bc_address) =? phys_addr)
    then (b, block_addr, BCached_start_block entry block_addr fence_counter, 0)
    else if len_instr =? CACHE_INSTR then
      let b := BlockCache_reset_to b phys_addr in
      (b, phys_addr, BCached_start_block (bl_entry b phys_addr) phys_addr fence_counter, 0)
    else (b, block_addr, entry, len_instr) in
  let b := set_bl_entry b (cache_index bits block_addr) (BCached_append entry len_instr instr) in
  set_next_instr_addr b (phys_addr ⊞ WIDTH).

(* machine_state/block_cache.rs:394-409 push_instr *)
Definition BlockCache_push_instr (WIDTH : Z) (entry : ValidatedCacheEntry) (b : BlockCache) : BlockCache :=
  let phys_addr := entry.(entry_address) in
  let instr := entry.(entry_instr) in
  let next_addr := b.(next_instr_addr) in
  let b := if ((phys_addr & PAGE_OFFSET_MASK) =? 0) || negb (phys_addr =? next_addr)
           then BlockCache_reset_to b phys_addr else b in
  BlockCache_cache_inner WIDTH b phys_addr instr.

(* machine_state/block_cache.rs:462-480 get_block *)
Definition get_block (b : BlockCache) (phys_addr : Z) : option (list InstrCacheable) :=
  let entry := bl_entry b phys_addr in
  if (entry.(bc_address) =? phys_addr) && (b.(bl_fence_counter) =? entry.(bc_fence_counter))
  then Some (BCached_block entry) else None.

(** ** Running blocks *)

Section run.
Context `{ML : MainMemoryLayout} `{AP : ApFloat}.

Definition core_pc (c : MachineCoreState) : Z := c.(hart).(pc).
Definition write_pc (c : MachineCoreState) (a : Z) : MachineCoreState := set_hart c (set_pc c.(hart) a).

(** How the loop of [run_partial_inner] ends: at the end of the range or when
    the steps are used up, with the progress made; or by leaving the block
    early, after which the partial block is reset. *)
Inductive partial_exit : Set :=
| PE_end (progress : Z)
| PE_left (r : result unit Environ.EnvironException).

(* machine_state/block_cache.rs:549-584 run_partial_inner *)
Fixpoint run_partial_loop (instrs : list InstrCacheable) (core : MachineCoreState)
  (instr_pc steps max_steps progress : Z) : partial_exit * MachineCoreState * Z :=
  match instrs with
  | [] => (PE_end progress, core, steps)
  | i :: rest =>
      match run_instr_cacheable i core with
      | (Ok (PC_Next width), core) =>
          let instr_pc := instr_pc ⊞ InstrWidth_repr width in
          let core := write_pc core instr_pc in
          let steps := steps + 1 in
          let progress := progress + 1 in
          if max_steps <=? steps then (PE_end progress, core, steps)
          else run_partial_loop rest core instr_pc steps max_steps progress
      | (Ok (PC_Set instr_pc), core) =>
          (PE_left (Ok tt), write_pc core instr_pc, steps + 1)
      | (Err e, core) =>
          match handle_step_result instr_pc (Err e) core with
          | (Ok _, core) => (PE_left (Ok tt), core, steps + 1)
          | (Err ee, core) => (PE_left (Err ee), core, steps)
          end
      end
  end.

(* machine_state/block_cache.rs:526-597 run_partial_inner *)
Definition run_partial_inner (b : BlockCache) (core : MachineCoreState) (steps max_steps : Z) :
  result unit Environ.EnvironException * BlockCache * MachineCoreState * Z :=
  if max_steps <=? steps then (Ok tt, b, core, steps)
  else
    let progress := b.(partial_block).(pb_progress) in
    let address := b.(partial_block).(pb_phys_addr) in
    let entry := bl_entry b address in
    let instr_pc := core_pc core in
    let instrs := drop (Z.to_nat progress) (BCached_block entry) in
    match run_partial_loop instrs core instr_pc steps max_steps progress with
    | (PE_left r, core, steps) =>
        (r, set_partial_block b (PartialBlock_reset b.(partial_block)), core, steps)
    | (PE_end progress, core, steps) =>
        let p := if progress =? entry.(bc_len_instr)
                 then PartialBlock_reset b.(partial_block)
                 else {| pb_phys_addr := b.(partial_block).(pb_phys_addr);
                         pb_in_progress := b.(partial_block).(pb_in_progress);
                         pb_progress := progress |} in
        (Ok tt, set_partial_block b p, core, steps)
    end.

(* machine_state/block_cache.rs:486-500 complete_current_block *)
Definition complete_current_block (b : BlockCache) (core : MachineCoreState) (steps max_steps : Z) :
  result unit Environ.EnvironException * BlockCache * MachineCoreState * Z :=
  if negb b.(partial_block).(pb_in_progress) then (Ok tt, b, core, steps)
  else run_partial_inner b core steps max_steps.

(* machine_state/block_cache.rs:507-524 run_block_partial *)
Definition run_block_partial (b : BlockCache) (core : MachineCoreState)
  (block_addr steps max_steps : Z) :
  result unit Environ.EnvironException * BlockCache * MachineCoreState * Z :=
  let b := set_partial_block b
    {| pb_in_progress := true; pb_progress := 0; pb_phys_addr := block_addr |} in
  run_partial_inner b core steps max_steps.

(** The program counter is passed by reference and read by the caller on an
    error; after a jump the caller's copy is left alone. *)
(* machine_state/block_cache.rs:649-688 run_block_inner *)
Fixpoint run_block_inner (instrs : list InstrCacheable) (core : MachineCoreState)
  (instr_pc steps : Z) : result unit Exception * MachineCoreState * Z * Z :=
  match instrs with
  | [] => (Ok tt, core, instr_pc, steps)
  | i :: rest =>
      match run_instr_cacheable i core with
      | (Ok (PC_Next width), core) =>
          let instr_pc := instr_pc ⊞ InstrWidth_repr width in
          run_block_inner rest (write_pc core instr_pc) instr_pc (steps + 1)
      | (Ok (PC_Set a), core) => (Ok tt, write_pc core a, instr_pc, steps + 1)
      | (Err e, core) => (Err e, core, instr_pc, steps)
      end
  end.

(* machine_state/block_cache.rs:630-647 run_block *)
Definition run_block (instrs : list InstrCacheable) (core : MachineCoreState) (instr_pc steps : Z) :
  result unit Environ.EnvironException * MachineCoreState * Z :=
  match run_block_inner instrs core instr_pc steps with
  | (Ok _, core, _, steps) => (Ok tt, core, steps)
  | (Err e, core, instr_pc, steps) =>
      match handle_step_result instr_pc (Err e) core with
      | (Ok _, core) => (Ok tt, core, steps + 1)
      | (Err ee, core) => (Err ee, core, steps)
      end
  end.

End run.
End cache.
