(* ===== verification/MachineState.v ===== *)
(** The machine: [MachineState] of [src/riscv/lib/src/machine_state.rs], its
    fetch and step functions, [FENCE.I]
    ([src/riscv/lib/src/interpreter/rv64zifencei.rs]) and the step bounds of
    [src/riscv/lib/src/range_utils.rs].

    The loops of the source run until a condition on the machine holds.  They
    take fuel here, one unit per iteration; running out is a result of its own
    ([None]) that keeps the state reached. *)
From S2P Require Import Prelude Registers CSRegister Traps XStatus CSRegisters HartState Bus.
From S2P Require Import Instruction Parser.
From S2P Require Import IntInstr AddressTranslation TranslationCache MachineCore CoreInstr Float.
From S2P Require Import RunInstr.
From S2P Require Import InstructionCache BlockCache.

(** ** Step bounds *)

(** [std::ops::Bound<usize>]. *)
Inductive Bound : Set := Included (x : Z) | Excluded (x : Z) | Unbounded.

Definition USIZE_MAX : Z := 2 ^ 64 - 1.

Definition saturating_add_usize (a b : Z) : Z := Z.min USIZE_MAX (a + b).

(* range_utils.rs:10-16 bound_saturating_sub *)
Definition bound_saturating_sub (bound : Bound) (shift : Z) : Bound :=
  match bound with
  | Included x => Included (saturating_sub x shift)
  | Excluded x => Excluded (saturating_sub x shift)
  | Unbounded => Unbounded
  end.

(* range_utils.rs:20-26 less_than_bound *)
Definition less_than_bound (num : Z) (bound : Bound) : bool :=
  match bound with
  | Included x => num <? x
  | Excluded x => num <? saturating_sub x 1
  | Unbounded => true
  end.

(* range_utils.rs:33-39 unwrap_bound *)
Definition unwrap_bound (bound : Bound) : Z :=
  match bound with
  | Included x => x
  | Excluded x => saturating_sub x 1
  | Unbounded => USIZE_MAX
  end.

(** ** State *)

(** The sizes of the caches; the bit widths satisfy the compile-time checks. *)
(* machine_state/cache_layouts.rs:24-30 CacheLayouts *)
Class CacheLayouts := {
  INSTRUCTION_CACHE_BITS : Z;
  BLOCK_CACHE_BITS : Z;
}.

(* machine_state/cache_layouts.rs:47-52 DefaultCacheLayouts *)
Definition DefaultCacheLayouts : CacheLayouts :=
  {| INSTRUCTION_CACHE_BITS := 16; BLOCK_CACHE_BITS := 20 |}.

(* machine_state/cache_layouts.rs:55-60 TestCacheLayouts *)
Definition TestCacheLayouts : CacheLayouts :=
  {| INSTRUCTION_CACHE_BITS := 12; BLOCK_CACHE_BITS := 12 |}.

(* machine_state.rs:88-96 MachineState *)
Record MachineState : Type := {
  core : MachineCoreState;
  instruction_cache : InstructionCache;
  block_cache : BlockCache;
}.

Definition set_core (s : MachineState) (c : MachineCoreState) : MachineState :=
  {| core := c; instruction_cache := s.(instruction_cache); block_cache := s.(block_cache) |}.
Definition set_caches (s : MachineState) (i : InstructionCache) (b : BlockCache) : MachineState :=
  {| core := s.(core); instruction_cache := i; block_cache := b |}.
Definition set_block_core (s : MachineState) (b : BlockCache) (c : MachineCoreState) : MachineState :=
  {| core := c; instruction_cache := s.(instruction_cache); block_cache := b |}.

Definition machineM (A : Type) : Type := stM MachineState Exception A.

(** Runs a method of the core on the machine. *)
Definition on_core {A E} (m : stM MachineCoreState E A) : stM MachineState E A := fun s =>
  let '(r, c) := m s.(core) in (r, set_core s c).

(* machine_state.rs:121-124 StepManyResult *)
Record StepManyResult (E : Type) : Type := { smr_steps : Z; smr_error : option E }.
Arguments smr_steps {E} _.
Arguments smr_error {E} _.

Section machine.
Context `{ML : MainMemoryLayout} `{AP : ApFloat} `{AI : ArbitraryInt} `{CL : CacheLayouts}.

(* machine_state.rs:660-667 MachineState::reset *)
Definition MachineState_reset (s : MachineState) : MachineState := {|
  core := MachineCoreState_reset s.(core);
  instruction_cache := ICache_reset s.(instruction_cache);
  block_cache := BlockCache_reset s.(block_cache);
|}.

(* interpreter/rv64zifencei.rs:20-26 run_fencei *)
Definition run_fencei : machineM unit := modify (fun s => {|
  core := set_translation_cache s.(core)
            (TranslationCache_invalidate s.(core).(translation_cache) [AInstruction]);
  instruction_cache := ICache_invalidate INSTRUCTION_CACHE_BITS s.(instruction_cache);
  block_cache := BlockCache_invalidate BLOCK_CACHE_BITS s.(block_cache);
|}).

(** ** Fetch *)

(* machine_state.rs:671-713 translate_instr_address *)
Definition translate_instr_address (mode : Mode) (satp virt_addr : Z) : machineM Z :=
  on_core (translate_cached mode satp virt_addr AInstruction).

(* machine_state.rs:717-725 fetch_instr_halfword *)
Definition fetch_instr_halfword (phys_addr : Z) : machineM Z := fun s =>
  (result_map_err (fun _ => InstructionAccessFault phys_addr)
     (Bus_read U16 s.(core).(bus) phys_addr), s).

(** The instruction is parsed, entered in the instruction cache and pushed to
    the current block. *)
(* machine_state.rs:747-755 fetch_instr *)
Definition cache_fetched_compressed (phys_addr first_halfword : Z) : machineM Instr := fun s =>
  let '(i, ic, bc) :=
    ICache_cache_compressed INSTRUCTION_CACHE_BITS (BlockCache_push_instr BLOCK_CACHE_BITS 2)
      s.(instruction_cache) s.(block_cache) phys_addr first_halfword in
  (Ok i, set_caches s ic bc).

(* machine_state.rs:772-780 fetch_instr *)
Definition cache_fetched_uncompressed (phys_addr combined : Z) : machineM Instr := fun s =>
  let '(i, ic, bc) :=
    ICache_cache_uncompressed INSTRUCTION_CACHE_BITS (BlockCache_push_instr BLOCK_CACHE_BITS 4)
      s.(instruction_cache) s.(block_cache) phys_addr combined in
  (Ok i, set_caches s ic bc).

(* machine_state.rs:731-783 fetch_instr *)
Definition fetch_instr (mode : Mode) (satp virt_addr phys_addr : Z) : machineM Instr :=
  let! first_halfword := fetch_instr_halfword phys_addr in
  if is_compressed first_halfword then cache_fetched_compressed phys_addr first_halfword
  else
    let next_addr := phys_addr ⊞ 2 in
    let! upper_addr :=
      if next_addr mod PAGE_SIZE =? 0 then translate_instr_address mode satp (virt_addr ⊞ 2)
      else st_ret next_addr in
    let! upper := fetch_instr_halfword upper_addr in
    let combined := shl_u 32 upper 16 |: first_halfword in
    cache_fetched_uncompressed phys_addr combined.

(** ** Running one instruction *)

(* machine_state.rs:786-826 run_instr_uncacheable *)
Definition run_instr_uncacheable (instr : InstrUncacheable) : machineM ProgramCounterUpdate :=
  let w := InstrUncacheable_width instr in
  match instr with
  | Fence args => on_core (next w (run_fence args.(fa_pred) args.(fa_succ)))
  | FenceTso _ => throw IllegalInstruction
  | Ecall => fun s => (Err (run_ecall s.(core).(hart)), s)
  | Ebreak => fun s => (Err (run_ebreak s.(core).(hart)), s)
  | Mret => on_core (on_hart (let! a := run_mret in st_ret (PC_Set a)))
  | Sret => on_core (on_hart (let! a := run_sret in st_ret (PC_Set a)))
  | Mnret => throw IllegalInstruction
  | Wfi => on_core (next w run_wfi)
  | SFenceVma asid vaddr => on_core (next w (run_sfence_vma asid vaddr))
  | CEbreak => fun s => (Err (run_cebreak s.(core).(hart)), s)
  | FenceI => let! _ := run_fencei in st_ret (PC_Next w)
  end.

(* machine_state.rs:829-837 run_instr *)
Definition run_instr (instr : Instr) : machineM ProgramCounterUpdate :=
  match instr with
  | Cacheable i => on_core (run_instr_cacheable i)
  | Uncacheable i => run_instr_uncacheable i
  end.

(* machine_state.rs:840-856 run_instr_at *)
Definition run_instr_at (current_mode : Mode) (satp instr_pc phys_addr : Z) :
  machineM ProgramCounterUpdate := fun s =>
  match ICache_fetch_instr INSTRUCTION_CACHE_BITS s.(instruction_cache) phys_addr with
  | Some instr => on_core (run_instr_cacheable instr) s
  | None => (let! instr := fetch_instr current_mode satp instr_pc phys_addr in run_instr instr) s
  end.

(** ** Steps *)

(** The result of one iteration or of a loop: [None] when the fuel ran out. *)
Definition step_result : Type := option (result unit Environ.EnvironException) * Z * MachineState.

(** Fetching and running the instruction at the program counter, which is what
    an iteration does when no block starts there. *)
(* machine_state.rs:910-911 step_max_inner *)
Definition step_instr (r : result ProgramCounterUpdate Exception) (instr_pc steps : Z) (s : MachineState) :
  result unit Environ.EnvironException * Z * MachineState :=
  match on_core (handle_step_result instr_pc r) s with
  | (Ok _, s) => (Ok tt, steps + 1, s)
  | (Err e, s) => (Err e, steps, s)
  end.

(** One iteration of the loop of [step_max_inner]. *)
(* machine_state.rs:883-911 step_max_inner *)
Definition step_iter (steps max_steps : Z) (s : MachineState) :
  result unit Environ.EnvironException * Z * MachineState :=
  let current_mode := s.(core).(hart).(mode) in
  let instr_pc := s.(core).(hart).(pc) in
  let satp := csr_read s.(core).(hart) CSR.satp in
  match translate_instr_address current_mode satp instr_pc s with
  | (Ok phys_addr, s) =>
      match get_block BLOCK_CACHE_BITS s.(block_cache) phys_addr with
      | Some block =>
          if Z.of_nat (length block) <=? max_steps - steps then
            let '(r, c, steps) := run_block block s.(core) instr_pc steps in
            (r, steps, set_core s c)
          else
            let '(r, b, c, steps) :=
              run_block_partial BLOCK_CACHE_BITS s.(block_cache) s.(core) phys_addr steps max_steps in
            (r, steps, set_block_core s b c)
      | None =>
          let '(res, s) := run_instr_at current_mode satp instr_pc phys_addr s in
          step_instr res instr_pc steps s
      end
  | (Err e, s) => step_instr (Err e) instr_pc steps s
  end.

(* machine_state.rs:882-912 step_max_inner *)
Fixpoint step_loop (fuel : nat) (steps max_steps : Z) (s : MachineState) : step_result :=
  if steps <? max_steps then
    match fuel with
    | O => (None, steps, s)
    | S fuel =>
        match step_iter steps max_steps s with
        | (Ok _, steps, s) => step_loop fuel steps max_steps s
        | (Err e, steps, s) => (Some (Err e), steps, s)
        end
    end
  else (Some (Ok tt), steps, s).

(* machine_state.rs:871-915 step_max_inner *)
Definition step_max_inner (fuel : nat) (steps max_steps : Z) (s : MachineState) : step_result :=
  let '(r, b, c, steps) :=
    complete_current_block BLOCK_CACHE_BITS s.(block_cache) s.(core) steps max_steps in
  let s := set_block_core s b c in
  match r with
  | Err e => (Some (Err e), steps, s)
  | Ok _ => step_loop fuel steps max_steps s
  end.

(* machine_state.rs:864-869 step *)
Definition step (fuel : nat) (s : MachineState) :
  option (result unit Environ.EnvironException) * MachineState :=
  let '(r, _, s) := step_max_inner fuel 0 1 s in (r, s).

(** Each turn of the loop of [step_max] runs [step_max_inner]; [None] when the
    fuel ran out. *)
(* machine_state.rs:926-940 step_max *)
Fixpoint step_max_loop (fuel : nat) (steps : Z) (max_steps : Bound) (s : MachineState) :
  option (StepManyResult Environ.EnvironException) * MachineState :=
  match fuel with
  | O => (None, s)
  | S fuel' =>
      match step_max_inner fuel steps (unwrap_bound max_steps) s with
      | (Some (Ok _), steps, s) =>
          if negb (less_than_bound steps max_steps)
          then (Some {| smr_steps := steps; smr_error := None |}, s)
          else step_max_loop fuel' steps max_steps s
      | (Some (Err e), steps, s) => (Some {| smr_steps := steps; smr_error := Some e |}, s)
      | (None, _, s) => (None, s)
      end
  end.

(* machine_state.rs:920-943 step_max *)
Definition step_max (fuel : nat) (max_steps : Bound) (s : MachineState) :
  option (StepManyResult Environ.EnvironException) * MachineState :=
  step_max_loop fuel 0 max_steps s.

(** The handler of the caller is a parameter: a closure with a state of its own
    ([FnMut]), it acts on the machine and says whether to continue. *)
(* machine_state.rs:948-987 step_max_handle *)
Fixpoint step_max_handle {S E} (fuel : nat) (steps : Z) (step_bounds : Bound)
  (handle : S -> MachineState -> Environ.EnvironException -> result bool E * S * MachineState)
  (h : S) (s : MachineState) : option (StepManyResult E) * S * MachineState :=
  match fuel with
  | O => (None, h, s)
  | Datatypes.S fuel' =>
      match step_max fuel step_bounds s with
      | (None, s) => (None, h, s)
      | (Some result, s) =>
          let steps := saturating_add_usize steps result.(smr_steps) in
          let step_bounds := bound_saturating_sub step_bounds result.(smr_steps) in
          match result.(smr_error) with
          | Some cause =>
              let steps := saturating_add_usize steps 1 in
              let step_bounds := bound_saturating_sub step_bounds 1 in
              match handle h s cause with
              | (Ok true, h, s) => step_max_handle fuel' steps step_bounds handle h s
              | (Ok false, h, s) => (Some {| smr_steps := steps; smr_error := None |}, h, s)
              | (Err error, h, s) => (Some {| smr_steps := steps; smr_error := Some error |}, h, s)
              end
          | None => (Some {| smr_steps := steps; smr_error := None |}, h, s)
          end
      end
  end.

End machine.
