(* ===== verification/BlockCacheSpec.v ===== *)
(** The block cache: what the running of a block in parts has to do with
    running it at once, the well-formedness invariant, and the page boundary. *)
From S2P Require Import Prelude CSRegister Traps HartState Bus Instruction TranslationCache.
From S2P Require Import TranslationCacheSpec.
From S2P Require Import MachineCore Float RunInstr InstructionCache BlockCache.

(** ** Well-formedness *)

(** An entry has room for its instructions, and only the address that marks an
    invalid entry has none. *)
Definition BCached_wf (e : BCached) : Prop :=
  0 <= e.(bc_len_instr) <= CACHE_INSTR /\ length e.(bc_instr) = Z.to_nat CACHE_INSTR /\
  (e.(bc_len_instr) = 0 -> e.(bc_address) = 0).

Definition PartialBlock_none : PartialBlock :=
  {| pb_in_progress := false; pb_phys_addr := 0; pb_progress := 0 |}.

Section wf.
Context (bits : Z).

(** A partial block in progress has instructions left in the entry it names. *)
Definition partial_wf (b : BlockCache) : Prop :=
  let p := b.(partial_block) in
  if p.(pb_in_progress)
  then 0 <= p.(pb_progress) < (bl_entry bits b p.(pb_phys_addr)).(bc_len_instr)
  else p = PartialBlock_none.

Definition BlockCache_wf (b : BlockCache) : Prop :=
  (forall i, BCached_wf (b.(bl_entries) i)) /\ partial_wf b.

(** No partial block is in progress. *)
Definition idle (b : BlockCache) : Prop := b.(partial_block) = PartialBlock_none.

Lemma idle_wf b : (forall i, BCached_wf (b.(bl_entries) i)) -> idle b -> BlockCache_wf b.
Proof. intros E I. split; [done|]. unfold partial_wf. by rewrite I. Qed.

Lemma wf_idle b : BlockCache_wf b -> b.(partial_block).(pb_in_progress) = false -> idle b.
Proof. intros [_ P] I. unfold partial_wf in P. by rewrite I in P. Qed.

Lemma BCached_block_length e : BCached_wf e -> Z.of_nat (length (BCached_block e)) = e.(bc_len_instr).
Proof. intros (L & E & _). unfold BCached_block. rewrite length_take, E. unfold CACHE_INSTR in *. lia. Qed.

Lemma entries_fupd_wf f i e :
  (forall j, BCached_wf (f j)) -> BCached_wf e -> forall j, BCached_wf (fupd f i e j).
Proof. intros F E j. unfold fupd. by case_decide. Qed.

Lemma BCached_append_wf e n i :
  length e.(bc_instr) = Z.to_nat CACHE_INSTR -> 0 <= n < CACHE_INSTR ->
  BCached_wf (BCached_append e n i).
Proof. intros E N. split; simpl; [lia|]. rewrite length_insert. split; [done|lia]. Qed.

(** The entry an instruction is appended to, and the length it has. *)
Lemma cache_inner_entries W b a i :
  (forall j, BCached_wf (b.(bl_entries) j)) ->
  forall j, BCached_wf ((BlockCache_cache_inner bits W b a i).(bl_entries) j).
Proof.
  intros E. unfold BlockCache_cache_inner.
  destruct (negb _ || _) eqn:S; [|destruct (_ =? CACHE_INSTR) eqn:L]; simpl; apply entries_fupd_wf; try done.
  - apply BCached_append_wf; [apply E|unfold CACHE_INSTR; lia].
  - apply BCached_append_wf; [apply E|unfold CACHE_INSTR; lia].
  - apply BCached_append_wf; [apply E|]. apply Z.eqb_neq in L.
    pose proof (E (cache_index bits (current_block_addr b))) as [? _]. unfold bl_entry in *. lia.
Qed.

Lemma cache_inner_partial W b a i :
  (BlockCache_cache_inner bits W b a i).(partial_block) = b.(partial_block).
Proof.
  unfold BlockCache_cache_inner. destruct (negb _ || _); [done|]. by destruct (_ =? CACHE_INSTR).
Qed.

Lemma push_instr_wf W e b :
  BlockCache_wf b -> idle b ->
  BlockCache_wf (BlockCache_push_instr bits W e b) /\ idle (BlockCache_push_instr bits W e b).
Proof.
  intros [E _] I. unfold BlockCache_push_instr.
  match goal with |- context [if ?c then BlockCache_reset_to b ?a else b] =>
    set (b' := if c then BlockCache_reset_to b a else b) end.
  assert (E' : forall j, BCached_wf (b'.(bl_entries) j)) by (unfold b'; by destruct (_ || _)).
  assert (I' : idle b') by (unfold b'; by destruct (_ || _)).
  assert (Id : idle (BlockCache_cache_inner bits W b' (entry_address e) (entry_instr e))).
  { unfold idle. by rewrite cache_inner_partial. }
  split; [|done]. apply idle_wf; [|done]. by apply cache_inner_entries.
Qed.

Lemma invalidate_wf b :
  BlockCache_wf b -> idle b -> BlockCache_wf (BlockCache_invalidate bits b) /\ idle (BlockCache_invalidate bits b).
Proof.
  intros [E _] I. assert (idle (BlockCache_invalidate bits b)) as I' by exact I.
  split; [|done]. apply idle_wf; [|done]. simpl. apply entries_fupd_wf; [done|].
  destruct (E (cache_index bits b.(bl_fence_counter))) as (_ & L & _). split; [unfold CACHE_INSTR; simpl; lia|done].
Qed.

Lemma reset_wf b :
  (forall i, length (b.(bl_entries) i).(bc_instr) = Z.to_nat CACHE_INSTR) ->
  BlockCache_wf (BlockCache_reset b) /\ idle (BlockCache_reset b).
Proof.
  intros E. assert (idle (BlockCache_reset b)) as I by done. split; [|done].
  apply idle_wf; [|done]. intros i. split; [unfold CACHE_INSTR; simpl; lia|].
  simpl. by rewrite length_map, E.
Qed.

(** ** Running a block *)

Section run.
Context `{ML : MainMemoryLayout} `{AP : ApFloat}.

(** The counters only enter through their difference. *)
Lemma run_partial_loop_shift d l : forall core pc steps max p,
  run_partial_loop l core pc (steps + d) (max + d) p =
  let '(e, c, k) := run_partial_loop l core pc steps max p in (e, c, k + d).
Proof.
  induction l as [|i l IH]; intros core pc steps max p; [done|]. simpl.
  destruct (run_instr_cacheable i core) as [[[a|w]|e] c].
  - f_equal. lia.
  - replace (steps + d + 1) with (steps + 1 + d) by lia.
    replace (max + d <=? steps + 1 + d) with (max <=? steps + 1) by (apply eq_true_iff_eq; rewrite !Z.leb_le; lia).
    destruct (max <=? steps + 1); [done|]. apply IH.
  - destruct (handle_step_result _ _ _) as [[?|?] ?]; [f_equal; lia|done].
Qed.

Lemma run_partial_inner_shift d b core steps max :
  run_partial_inner bits b core (steps + d) (max + d) =
  let '(r, b, c, k) := run_partial_inner bits b core steps max in (r, b, c, k + d).
Proof.
  unfold run_partial_inner.
  replace (max + d <=? steps + d) with (max <=? steps) by (apply eq_true_iff_eq; rewrite !Z.leb_le; lia).
  destruct (max <=? steps); [done|]. rewrite run_partial_loop_shift.
  by destruct (run_partial_loop _ _ _ _ _ _) as [[[p|r] c] k].
Qed.

(** One instruction of the loop, and the rest. *)
Definition partial_then (l : list InstrCacheable) (max : Z)
  (x : partial_exit * MachineCoreState * Z) : partial_exit * MachineCoreState * Z :=
  match x with
  | (PE_end p, c, k) =>
      match l with [] => (PE_end p, c, k) | _ => run_partial_loop l c (core_pc c) k max p end
  | (PE_left r, c, k) => (PE_left r, c, k)
  end.

Lemma run_partial_loop_cons i l core pc steps max p :
  steps + 1 < max ->
  run_partial_loop (i :: l) core pc steps max p =
  partial_then l max (run_partial_loop (i :: l) core pc steps (steps + 1) p).
Proof.
  intros L. simpl. destruct (run_instr_cacheable i core) as [[[a|w]|e] c]; simpl; [done| |].
  - rewrite (proj2 (Z.leb_gt max (steps + 1))) by lia.
    rewrite Z.leb_refl. simpl. by destruct l.
  - by destruct (handle_step_result _ _ _) as [[?|?] ?].
Qed.

(** A loop that ends by its steps has run one instruction per step. *)
Lemma run_partial_loop_end l : forall core pc steps max p p' c k,
  steps < max -> run_partial_loop l core pc steps max p = (PE_end p', c, k) ->
  p' - p = k - steps /\ 0 <= p' - p <= Z.of_nat (length l) /\
  (p' - p < Z.of_nat (length l) -> k = max) /\ k <= max.
Proof.
  induction l as [|i l IH]; intros core pc steps max p p' c k L; simpl.
  - intros [= <- <- <-]. lia.
  - destruct (run_instr_cacheable i core) as [[[a|w]|e] c']; [done| |by destruct (handle_step_result _ _ _) as [[?|?] ?]].
    destruct (Z.leb_spec max (steps + 1)).
    + intros [= <- <- <-]. lia.
    + intros R. apply IH in R; [|lia]. lia.
Qed.

Lemma run_partial_loop_left l : forall core pc steps max p r c k,
  steps < max -> run_partial_loop l core pc steps max p = (PE_left r, c, k) ->
  match r with Ok _ => steps < k <= max | Err _ => steps <= k < max end.
Proof.
  induction l as [|i l IH]; intros core pc steps max p r c k L; simpl; [done|].
  destruct (run_instr_cacheable i core) as [[[a|w]|e] c'].
  - intros [= <- <- <-]. lia.
  - destruct (Z.leb_spec max (steps + 1)); [done|]. intros R. apply IH in R; [|lia]. destruct r; lia.
  - destruct (handle_step_result _ _ _) as [[?|?] ?]; intros [= <- <- <-]; lia.
Qed.

(** The instructions left in a partial block. *)
Lemma drop_cons {A} (l : list A) p :
  0 <= p < Z.of_nat (length l) ->
  exists i, drop (Z.to_nat p) l = i :: drop (Z.to_nat (p + 1)) l.
Proof.
  intros H. destruct (lookup_lt_is_Some_2 l (Z.to_nat p)) as [i E]; [lia|].
  exists i. rewrite (drop_S l i _ E). f_equal. f_equal. lia.
Qed.

(** Running a partial block for one step, then for the rest. *)
Lemma run_partial_inner_split b core steps max :
  BlockCache_wf b -> b.(partial_block).(pb_in_progress) = true -> steps + 1 < max ->
  run_partial_inner bits b core steps max =
  match run_partial_inner bits b core steps (steps + 1) with
  | (Ok _, b', c', k) =>
      if b'.(partial_block).(pb_in_progress) then run_partial_inner bits b' c' k max
      else (Ok tt, b', c', k)
  | (Err e, b', c', k) => (Err e, b', c', k)
  end.
Proof.
  intros [E P] I L. unfold partial_wf in P. rewrite I in P.
  set (p := b.(partial_block)) in *. set (e := bl_entry bits b p.(pb_phys_addr)) in *.
  pose proof (BCached_block_length e (E _)) as B.
  destruct (drop_cons (BCached_block e) p.(pb_progress)) as [i D]; [lia|].
  unfold run_partial_inner. rewrite !(proj2 (Z.leb_gt _ _)) by lia.
  fold p. fold e. rewrite D, run_partial_loop_cons by done.
  destruct (run_partial_loop _ _ _ _ (steps + 1) _) as [[[p'|r] c] k] eqn:R; [|by destruct r as [[]|]].
  apply run_partial_loop_end in R as (R1 & R2 & R3 & R4); [|lia].
  assert (k = steps + 1 /\ p' = pb_progress p + 1) as [-> ->].
  { rewrite length_cons, length_drop in *. lia. }
  cbn [partial_then set_partial_block partial_block].
  destruct (Z.eqb_spec (pb_progress p + 1) (bc_len_instr e)) as [F|F].
  - rewrite drop_ge by lia. simpl. by rewrite (proj2 (Z.eqb_eq _ _) F).
  - destruct (drop_cons (BCached_block e) (pb_progress p + 1)) as [j D']; [lia|].
    rewrite D'. cbn [pb_in_progress]. rewrite I.
    rewrite (proj2 (Z.leb_gt _ _)) by lia. cbn [pb_progress pb_phys_addr].
    change (bl_entry bits (set_partial_block b _) (pb_phys_addr p)) with e. rewrite D'.
    by destruct (run_partial_loop _ _ _ _ _ _) as [[[p'|r] c'] k'].
Qed.

(** With enough steps, the loop over a partial block runs the block. *)
Lemma run_partial_loop_block l : forall core pc steps max p,
  steps < max -> Z.of_nat (length l) <= max - steps ->
  match run_partial_loop l core pc steps max p with
  | (PE_end p', c, k) => run_block l core pc steps = (Ok tt, c, k) /\ p' = p + Z.of_nat (length l)
  | (PE_left r, c, k) => run_block l core pc steps = (r, c, k)
  end.
Proof.
  induction l as [|i l IH]; intros core pc steps max p L N; unfold run_block; simpl.
  { split; [done|lia]. }
  destruct (run_instr_cacheable i core) as [[[a|w]|e] c]; [done| |].
  - destruct (Z.leb_spec max (steps + 1)).
    + destruct l; simpl in *; [|lia]. split; [done|lia].
    + specialize (IH (write_pc c (pc ⊞ InstrWidth_repr w)) (pc ⊞ InstrWidth_repr w) (steps + 1) max (p + 1)
        ltac:(lia) ltac:(simpl in N; lia)).
      destruct (run_partial_loop _ _ _ _ _ _) as [[[p'|r] c'] k']; [|exact IH].
      destruct IH as [IH ->]. split; [exact IH|lia].
  - by destruct (handle_step_result _ _ _) as [[?|?] ?].
Qed.

Lemma set_partial_none b : idle b -> set_partial_block b PartialBlock_none = b.
Proof. intros I. destruct b. unfold idle in I. simpl in *. by subst. Qed.

Lemma run_block_as_partial b core addr steps max :
  idle b -> BCached_wf (bl_entry bits b addr) -> steps < max ->
  let block := BCached_block (bl_entry bits b addr) in
  Z.of_nat (length block) <= max - steps ->
  run_block_partial bits b core addr steps max =
  let '(r, c, k) := run_block block core (core_pc core) steps in (r, b, c, k).
Proof.
  intros I W L block N. unfold run_block_partial, run_partial_inner.
  rewrite (proj2 (Z.leb_gt _ _)) by lia. cbn [set_partial_block partial_block pb_progress pb_phys_addr].
  change (bl_entry bits (set_partial_block b _) addr) with (bl_entry bits b addr).
  fold block. change (drop (Z.to_nat 0) block) with block.
  pose proof (run_partial_loop_block block core (core_pc core) steps max 0 L N) as R.
  pose proof (set_partial_none b I) as B. unfold PartialBlock_none in B.
  destruct (run_partial_loop _ _ _ _ _ _) as [[[p'|r] c] k].
  - destruct R as [R P]. rewrite R. pose proof (BCached_block_length _ W) as BL. fold block in BL.
    rewrite (proj2 (Z.eqb_eq _ _)) by lia. unfold PartialBlock_reset, set_partial_block in *; simpl.
    by rewrite B.
  - rewrite R. unfold PartialBlock_reset, set_partial_block in *; simpl. by rewrite B.
Qed.

(** What running a partial block leaves: the entries are the same, the cache is
    well-formed, and unless the steps are used up no block is in progress. *)
Lemma run_partial_inner_wf b core steps max r b' c k :
  BlockCache_wf b -> b.(partial_block).(pb_in_progress) = true -> steps < max ->
  run_partial_inner bits b core steps max = (r, b', c, k) ->
  BlockCache_wf b' /\ b'.(bl_entries) = b.(bl_entries) /\
  (k < max -> idle b') /\
  match r with Ok _ => steps < k <= max | Err _ => steps <= k < max /\ idle b' end.
Proof.
  intros [E P] I L. unfold partial_wf in P. rewrite I in P. unfold run_partial_inner.
  rewrite (proj2 (Z.leb_gt _ _)) by lia.
  set (p := b.(partial_block)) in *. set (e := bl_entry bits b p.(pb_phys_addr)) in *.
  pose proof (BCached_block_length e (E _)) as B.
  destruct (run_partial_loop _ _ _ _ _ _) as [[[p'|r'] c'] k'] eqn:R; intros [= <- <- <- <-].
  - apply run_partial_loop_end in R as (R1 & R2 & R3 & R4); [|done].
    rewrite length_drop in *.
    destruct (Z.eqb_spec p' (bc_len_instr e)) as [F|F].
    + split; [by apply idle_wf|]. split_and!; [done..|lia|lia].
    + split; [|split_and!; [done|lia..]]. split; [exact E|]. unfold partial_wf.
      cbn [set_partial_block partial_block pb_in_progress pb_progress pb_phys_addr]. rewrite I.
      change (bl_entry bits (set_partial_block b _) (pb_phys_addr p)) with e. fold p in R1. lia.
  - apply run_partial_loop_left in R; [|done]. split; [by apply idle_wf|].
    split_and!; [done..|]. by destruct r'.
Qed.

End run.
End wf.
