(* ===== verification/BlockCacheSound.v ===== *)
(** What the blocks of the block cache hold: instructions that were pushed at
    consecutive addresses since the last invalidation, within one page. *)
From S2P Require Import Prelude Instruction AddressTranslation TranslationCache.
From S2P Require Import TranslationCacheSpec.
From S2P Require Import InstructionCache InstructionCacheSpec BlockCache BlockCacheSpec.

Definition instr_bytes (i : InstrCacheable) : Z := InstrWidth_repr (InstrCacheable_width i).

Fixpoint block_bytes (l : list InstrCacheable) : Z :=
  match l with [] => 0 | i :: l => instr_bytes i + block_bytes l end.

(** The instructions of [l], from address [a] on, are in the log of pushes. *)
Fixpoint logged (log : list (Z * InstrCacheable)) (a : Z) (l : list InstrCacheable) : Prop :=
  match l with [] => True | i :: l => (a, i) ∈ log /\ logged log (a + instr_bytes i) l end.

Lemma instr_bytes_pos i : instr_bytes i = 2 \/ instr_bytes i = 4.
Proof. unfold instr_bytes. destruct (InstrCacheable_width i); [by left|by right]. Qed.

Lemma block_bytes_app l l' : block_bytes (l ++ l') = block_bytes l + block_bytes l'.
Proof. induction l as [|i l IH]; simpl; lia. Qed.

Lemma block_bytes_pos l : 0 <= block_bytes l /\ (l <> [] -> 0 < block_bytes l).
Proof. induction l as [|i l [IH _]]; simpl; [done|]. pose proof (instr_bytes_pos i). lia. Qed.

Lemma logged_app log l l' : forall a,
  logged log a (l ++ l') <-> logged log a l /\ logged log (a + block_bytes l) l'.
Proof.
  induction l as [|i l IH]; intros a; simpl; [rewrite Z.add_0_r; tauto|].
  rewrite IH, Z.add_assoc. tauto.
Qed.

Lemma logged_cons log x a l : logged log a l -> logged (x :: log) a l.
Proof.
  revert a. induction l as [|i l IH]; intros a; simpl; [done|]. intros [H1 H2].
  split; [by apply elem_of_cons; right|by apply IH].
Qed.

Lemma logged_lookup log l k i : forall a,
  logged log a l -> l !! k = Some i -> (a + block_bytes (take k l), i) ∈ log.
Proof.
  revert k. induction l as [|j l IH]; intros k a; [done|]. intros [H1 H2].
  destruct k as [|k]; simpl; [intros [= <-]; by rewrite Z.add_0_r|].
  intros E. rewrite Z.add_assoc. by apply IH.
Qed.

(** What a fetch pushes: an instruction at an even address, that does not cross
    the end of its page. *)
Definition valid_entry (e : ValidatedCacheEntry) : Prop :=
  is_u 64 e.(entry_address) /\ Z.even e.(entry_address) = true /\
  (InstrCacheable_width e.(entry_instr) = Compressed \/ cacheable_uncompressed e.(entry_address) = true).

Lemma valid_entry_page e :
  valid_entry e -> e.(entry_address) mod 2 ^ 12 + instr_bytes e.(entry_instr) <= 2 ^ 12.
Proof.
  intros (U & Ev & V). apply Z.even_spec in Ev as [n Ev]. unfold instr_bytes.
  unfold cacheable_uncompressed in V. change PAGE_SIZE with (2 ^ 12) in V.
  rewrite Ev in *. pose proof (Z.mod_pos_bound (2 * n) (2 ^ 12) ltac:(lia)).
  assert (M : (2 * n) mod 2 ^ 12 <> 4095 /\ (2 * n) mod 2 ^ 12 <> 4093).
  { change (2 ^ 12) with (2 * 2048). rewrite Zmult_mod_distr_l. lia. }
  destruct (InstrCacheable_width _); simpl; [lia|].
  destruct V as [|V]; [done|]. apply negb_true_iff, Z.eqb_neq in V. lia.
Qed.

(** ** Operations on the cache *)

Inductive block_op : Set :=
| BL_push (e : ValidatedCacheEntry)
| BL_invalidate.

Definition block_op_ok (o : block_op) : Prop :=
  match o with BL_push e => valid_entry e | _ => True end.

Section cache.
Context (bits : Z) (OK : bits_ok bits).

Definition block_exec (b : BlockCache) (o : block_op) : BlockCache :=
  match o with
  | BL_push e => BlockCache_push_instr bits (instr_bytes e.(entry_instr)) e b
  | BL_invalidate => BlockCache_invalidate bits b
  end.

(** The pushes since the last invalidation. *)
Definition log_exec (log : list (Z * InstrCacheable)) (o : block_op) : list (Z * InstrCacheable) :=
  match o with
  | BL_push e => (e.(entry_address), e.(entry_instr)) :: log
  | BL_invalidate => []
  end.

(** ** The invariant *)

Definition block_ok (log : list (Z * InstrCacheable)) (a : Z) (l : list InstrCacheable) : Prop :=
  is_u 64 a /\ a mod 2 ^ 12 + block_bytes l <= 2 ^ 12 /\ logged log a l.

Definition entry_ok (counter : Z) (log : list (Z * InstrCacheable)) (i : Z) (e : BCached) : Prop :=
  BCached_wf e /\
  (0 < e.(bc_len_instr) ->
   exists k, survived bits counter e.(bc_fence_counter) i k /\
     (k = 0 -> block_ok log e.(bc_address) (BCached_block e))).

(** The block under construction, when the next address does not start a page. *)
Definition current_ok (b : BlockCache) : Prop :=
  b.(next_instr_addr) mod 2 ^ 12 <> 0 ->
  let e := bl_entry bits b b.(current_block_addr) in
  e.(bc_address) = b.(current_block_addr) /\ e.(bc_fence_counter) = b.(bl_fence_counter) /\
  0 < e.(bc_len_instr) /\ b.(next_instr_addr) = e.(bc_address) + block_bytes (BCached_block e).

Definition blocks_ok (b : BlockCache) (log : list (Z * InstrCacheable)) : Prop :=
  is_u 32 b.(bl_fence_counter) /\
  (forall i, 0 <= i < 2 ^ bits -> entry_ok b.(bl_fence_counter) log i (b.(bl_entries) i)) /\
  current_ok b.

(** Appending to the instruction buffer appends to the block. *)
Lemma BCached_block_append e n i :
  length e.(bc_instr) = Z.to_nat CACHE_INSTR -> 0 <= n < CACHE_INSTR ->
  BCached_block (BCached_append e n i) = take (Z.to_nat n) e.(bc_instr) ++ [i].
Proof.
  intros L N. unfold BCached_block, BCached_append; simpl.
  replace (Z.to_nat (n + 1)) with (S (Z.to_nat n)) by lia.
  assert ((Z.to_nat n < length e.(bc_instr))%nat) by lia.
  rewrite (take_S_r _ _ i) by by rewrite list_lookup_insert_eq.
  by rewrite take_insert_ge by lia.
Qed.

Lemma block_ok_log log x a l : block_ok log a l -> block_ok (x :: log) a l.
Proof. intros (U & P & L). split_and!; [done..|by apply logged_cons]. Qed.

Lemma entry_ok_log counter log x i e : entry_ok counter log i e -> entry_ok counter (x :: log) i e.
Proof.
  intros [W H]. split; [done|]. intros L. destruct (H L) as (k & S & B). exists k.
  split; [done|]. intros K. by apply block_ok_log, B.
Qed.

(** An entry of the current generation. *)
Lemma entry_ok_now counter log i e :
  is_u 32 counter -> e.(bc_fence_counter) = counter -> BCached_wf e ->
  block_ok log e.(bc_address) (BCached_block e) -> entry_ok counter log i e.
Proof.
  intros U F W B. split; [done|]. intros _. exists 0. split; [|done]. rewrite F. by apply survived_now.
Qed.

(** The next address, when it does not start a page, has not wrapped. *)
Lemma next_no_wrap a w :
  is_u 64 a -> 0 <= w -> a mod 2 ^ 12 + w <= 2 ^ 12 -> (a ⊞ w) mod 2 ^ 12 <> 0 -> a ⊞ w = a + w.
Proof.
  intros U W P N. unfold wrapping_add in *. apply wrap_small.
  assert ((a + w) mod 2 ^ 12 <> 0).
  { intros E. apply N. unfold wrap. rewrite <- E. change (2 ^ 64) with (2 ^ 12 * 2 ^ 52).
    rewrite Z.rem_mul_r by lia. rewrite Z.mul_comm, Z.mod_add, Z.mod_mod by lia. done. }
  unfold is_u in *. revert U P H. pow2. intros. Z.to_euclidean_division_equations; lia.
Qed.

Lemma block_ok_single log a i :
  is_u 64 a -> a mod 2 ^ 12 + instr_bytes i <= 2 ^ 12 -> block_ok ((a, i) :: log) a [i].
Proof.
  intros U P. split_and!; [done|simpl; lia|]. simpl. split; [by apply elem_of_cons; left|done].
Qed.

(** Replacing the entry of the current block by one of the current generation. *)
Lemma blocks_ok_set b log c e next :
  is_u 32 b.(bl_fence_counter) ->
  (forall i, 0 <= i < 2 ^ bits -> entry_ok b.(bl_fence_counter) log i (b.(bl_entries) i)) ->
  b.(current_block_addr) = c -> e.(bc_address) = c -> e.(bc_fence_counter) = b.(bl_fence_counter) ->
  BCached_wf e -> 0 < e.(bc_len_instr) -> block_ok log c (BCached_block e) ->
  (next mod 2 ^ 12 <> 0 -> next = c + block_bytes (BCached_block e)) ->
  blocks_ok (set_next_instr_addr (set_bl_entry b (cache_index bits c) e) next) log.
Proof.
  intros U E C A F W L B N. split; [done|]. split.
  - intros i I. simpl. unfold fupd. case_decide; [|by apply E].
    apply entry_ok_now; [done..|by rewrite A].
  - intros X. simpl in X |- *. unfold bl_entry; simpl. rewrite C, fupd_eq.
    split_and!; [done..|]. rewrite A. by apply N.
Qed.

(** A block that starts at the pushed address. *)
Lemma start_ok b log a i :
  is_u 32 b.(bl_fence_counter) ->
  (forall j, 0 <= j < 2 ^ bits -> entry_ok b.(bl_fence_counter) log j (b.(bl_entries) j)) ->
  b.(current_block_addr) = a -> is_u 64 a -> a mod 2 ^ 12 + instr_bytes i <= 2 ^ 12 ->
  blocks_ok (set_next_instr_addr (set_bl_entry b (cache_index bits a)
    (BCached_append (BCached_start_block (bl_entry bits b a) a b.(bl_fence_counter)) 0 i))
    (a ⊞ instr_bytes i)) ((a, i) :: log).
Proof.
  intros U E C A P. pose proof (instr_bytes_pos i) as IB.
  destruct (E (cache_index bits a) (cache_index_range bits OK a)) as [(_ & L & _) _].
  fold (bl_entry bits b a) in L.
  assert (B : BCached_block (BCached_append (BCached_start_block (bl_entry bits b a) a b.(bl_fence_counter)) 0 i) = [i]).
  { by rewrite BCached_block_append by done. }
  apply blocks_ok_set; [done| |done..| |simpl; lia| |].
  - intros j J. by apply entry_ok_log, E.
  - by apply BCached_append_wf.
  - rewrite B. by apply block_ok_single.
  - rewrite B. intros N. simpl. rewrite Z.add_0_r. by apply next_no_wrap; [..|lia| |].
Qed.

Lemma push_ok b log e :
  blocks_ok b log -> valid_entry e ->
  blocks_ok (block_exec b (BL_push e)) (log_exec log (BL_push e)).
Proof.
  intros (U & E & C) V. pose proof (valid_entry_page e V) as P. destruct V as (Ua & _ & _).
  destruct e as [a i]. cbn [entry_address entry_instr] in *. simpl block_exec. simpl log_exec.
  unfold BlockCache_push_instr. cbn [entry_address entry_instr].
  change PAGE_OFFSET_MASK with (Z.ones 12). rewrite Z.land_ones by lia.
  destruct (_ || _) eqn:R.
  - unfold BlockCache_cache_inner. cbn [BlockCache_reset_to current_block_addr].
    replace (negb (bc_address (bl_entry bits (BlockCache_reset_to b a) a) =? a)
      || (bc_address (bl_entry bits (BlockCache_reset_to b a) a) =? a)) with true
      by (symmetry; rewrite orb_comm; apply orb_negb_r).
    by apply (start_ok (BlockCache_reset_to b a)).
  - apply orb_false_iff in R as [R1 R2]. apply Z.eqb_neq in R1. apply negb_false_iff, Z.eqb_eq in R2.
    destruct C as (CA & CF & CL & CN); [by rewrite <- R2|].
    set (c := b.(current_block_addr)) in *. set (x := bl_entry bits b c) in *.
    destruct (E _ (cache_index_range bits OK c)) as [W B]. fold (bl_entry bits b c) in W, B. fold x in W, B.
    destruct (B CL) as (k & S & Bk). rewrite CF in S. apply survived_same in S; [|done|apply cache_index_range; done].
    destruct (Bk S) as (Uc & Pc & Lg). destruct W as (W1 & W2 & W3).
    assert (NE : BCached_block x <> []).
    { intros Nl. pose proof (BCached_block_length x (conj W1 (conj W2 W3))) as Le. rewrite Nl in Le. simpl in Le. lia. }
    pose proof (proj2 (block_bytes_pos (BCached_block x)) NE) as Pos.
    unfold BlockCache_cache_inner. fold c. fold x.
    rewrite CA, Z.eqb_refl. rewrite (proj2 (Z.eqb_neq c a)) by lia. cbn [negb orb].
    destruct (Z.eqb_spec (bc_len_instr x) CACHE_INSTR) as [Fu|Fu].
    + by apply (start_ok (BlockCache_reset_to b a)).
    + pose proof (instr_bytes_pos i) as IB.
      assert (Bl : BCached_block (BCached_append x (bc_len_instr x) i) = BCached_block x ++ [i]).
      { apply BCached_block_append; [done|lia]. }
      assert (Am : a mod 2 ^ 12 = c mod 2 ^ 12 + block_bytes (BCached_block x)).
      { rewrite R2, CN, CA in *. revert R1 Pc Pos. pow2. intros. Z.to_euclidean_division_equations; lia. }
      apply blocks_ok_set; [done| |done..| |simpl; lia| |].
      * intros j J. by apply entry_ok_log, E.
      * apply BCached_append_wf; [done|lia].
      * rewrite Bl. rewrite CA in *. split_and!; [done|rewrite block_bytes_app; simpl; lia|].
        apply logged_app. split; [by apply logged_cons|]. simpl. split; [|done].
        rewrite <- CN, <- R2. by apply elem_of_cons; left.
      * rewrite Bl, block_bytes_app. simpl. intros N. rewrite next_no_wrap by (done || lia).
        rewrite CA in CN. lia.
Qed.

Lemma invalidate_ok b log :
  blocks_ok b log -> blocks_ok (BlockCache_invalidate bits b) [].
Proof.
  intros (U & E & C). split; [apply counter_next_u32|]. split; [|by intros []].
  intros i I. unfold BlockCache_invalidate. cbn [set_bl_entry bl_entries bl_fence_counter BlockCache_reset_to
    set_bl_fence_counter bl_entry]. unfold fupd. destruct (E i I) as [W B].
  case_decide as D.
  - split; [|simpl; lia]. destruct (E _ (cache_index_range bits OK (bl_fence_counter b))) as [(_ & L & _) _].
    split_and!; [simpl; unfold CACHE_INSTR; lia..|exact L|done].
  - split; [done|]. intros L. destruct (B L) as (k & S & _). exists (k + 1).
    assert (0 <= k) by (by destruct S as (_ & ? & _)).
    split; [|lia]. by apply survived_next.
Qed.

Lemma reset_ok b :
  (forall i, length (b.(bl_entries) i).(bc_instr) = Z.to_nat CACHE_INSTR) -> blocks_ok (BlockCache_reset b) [].
Proof.
  intros L. split; [by vm_compute|]. split; [|by intros []].
  intros i I. split; [|simpl; lia]. apply (reset_wf bits b L).
Qed.

Lemma block_exec_ok ops : forall b log,
  Forall block_op_ok ops -> blocks_ok b log ->
  blocks_ok (fold_left block_exec ops b) (fold_left log_exec ops log).
Proof.
  induction ops as [|o ops IH]; intros b log V B; [done|]. inversion_clear V as [|? ? V1 V2].
  cbn [fold_left]. apply IH; [done|]. destruct o as [e|]; [by apply push_ok|by eapply invalidate_ok].
Qed.

(** C6. Blocks are sound: after a reset and any sequence of pushes and
    invalidations, a block that is found for an address has at most 20
    instructions, lies within the page of the address, and each of its
    instructions was pushed, since the last invalidation, for exactly the
    address it has in the block.  The wrapping of the fence counter never
    revives an older block. *)
Theorem blocks_sound b ops a block :
  (forall i, length (b.(bl_entries) i).(bc_instr) = Z.to_nat CACHE_INSTR) ->
  Forall block_op_ok ops ->
  get_block bits (fold_left block_exec ops (BlockCache_reset b)) a = Some block -> block <> [] ->
  is_u 64 a /\ Z.of_nat (length block) <= CACHE_INSTR /\ a mod 2 ^ 12 + block_bytes block <= 2 ^ 12 /\
  forall k i, block !! k = Some i ->
    (a + block_bytes (take k block), i) ∈ fold_left log_exec ops [].
Proof.
  intros L V G N. pose proof (block_exec_ok ops _ _ V (reset_ok b L)) as (U & E & _).
  set (b' := fold_left block_exec ops (BlockCache_reset b)) in *. unfold get_block in G.
  destruct (Z.eqb_spec (bc_address (bl_entry bits b' a)) a) as [A|]; [|done].
  destruct (Z.eqb_spec (bl_fence_counter b') (bc_fence_counter (bl_entry bits b' a))) as [F|]; [|done].
  injection G as <-. destruct (E _ (cache_index_range bits OK a)) as [W B].
  fold (bl_entry bits b' a) in W, B. pose proof (BCached_block_length _ W) as Le.
  assert (0 < bc_len_instr (bl_entry bits b' a)) as Pos.
  { destruct (BCached_block _); [done|]. rewrite length_cons in Le. lia. }
  destruct (B Pos) as (k & S & Bk). rewrite <- F in S.
  apply survived_same in S; [|done|by apply cache_index_range].
  destruct (Bk S) as (Ua & P & Lg). rewrite A in *. destruct W as (W1 & _).
  split_and!; [done|lia|done|]. intros j i J. by apply logged_lookup.
Qed.

End cache.

Lemma blocks_sound_witness :
  let i := {| entry_address := 0x80000ffe; entry_instr := CNop |} in
  let j := {| entry_address := 0x80001000; entry_instr := CNop |} in
  get_block 12 (fold_left (block_exec 12) [BL_push i; BL_push j]
    (BlockCache_reset {| current_block_addr := 0; next_instr_addr := 0; bl_fence_counter := 0;
       partial_block := PartialBlock_none;
       bl_entries := fun _ => {| bc_address := 0; bc_fence_counter := 0; bc_len_instr := 0;
                                 bc_instr := replicate 20 (Unknown 0) |} |})) 0x80000ffe = Some [CNop] /\
  0x80000ffe mod 2 ^ 12 + block_bytes [CNop] <= 2 ^ 12.
Proof.
  intros i j. split; [vm_compute; reflexivity|].
  refine (proj1 (proj2 (proj2 (blocks_sound 12 bits_ok_test
    {| current_block_addr := 0; next_instr_addr := 0; bl_fence_counter := 0;
       partial_block := PartialBlock_none;
       bl_entries := fun _ => {| bc_address := 0; bc_fence_counter := 0; bc_len_instr := 0;
                                 bc_instr := replicate 20 (Unknown 0) |} |}
    [BL_push i; BL_push j] 0x80000ffe [CNop] _ _ _ _)))).
  - intros. reflexivity.
  - repeat constructor; vm_compute; intuition congruence.
  - vm_compute. reflexivity.
  - discriminate.
Defined.
