(* ===== verification/StepSpec.v ===== *)
(** Stepping: running many steps at once is running them one at a time,
    whatever the blocks are, and it terminates unless the program counter
    reaches an empty block. *)
From S2P Require Import Prelude Registers CSRegister Traps XStatus CSRegisters HartState Bus.
From S2P Require Import Instruction Parser.
From S2P Require Import ParserSpec HartStateSpec BusSpec FloatSpec.
From S2P Require Import IntInstr AddressTranslation TranslationCache TranslationCacheSpec.
From S2P Require Import MachineCore MachineCoreSpec.
From S2P Require Import CoreInstr Float RunInstr InstructionCache BlockCache MachineState.
From S2P Require Import BlockCacheSpec.

Section step.
Context `{ML : MainMemoryLayout} `{AP : ApFloat} `{AI : ArbitraryInt} `{CL : CacheLayouts}.

(** The block cache of the machine is well-formed. *)
Definition blocks_wf (s : MachineState) : Prop := BlockCache_wf BLOCK_CACHE_BITS s.(block_cache).

(** ... and no partial block is in progress. *)
Definition blocks_idle (s : MachineState) : Prop := blocks_wf s /\ idle s.(block_cache).

Lemma on_core_idle {A E} (m : stM MachineCoreState E A) : keeps blocks_idle (on_core m).
Proof. intros s H. unfold on_core. by destruct (m _). Qed.

Lemma fetch_halfword_idle a : keeps blocks_idle (fetch_instr_halfword a).
Proof. by intros s H. Qed.

Lemma cache_compressed_idle a w : keeps blocks_idle (cache_fetched_compressed a w).
Proof.
  intros s [W I]. unfold cache_fetched_compressed, ICache_cache_compressed.
  destruct (parse_compressed_instruction w); [|done]. by apply push_instr_wf.
Qed.

Lemma cache_uncompressed_idle a w : keeps blocks_idle (cache_fetched_uncompressed a w).
Proof.
  intros s [W I]. unfold cache_fetched_uncompressed, ICache_cache_uncompressed.
  destruct (parse_uncompressed_instruction w); [|done].
  destruct (cacheable_uncompressed a); [|done]. by apply push_instr_wf.
Qed.

Lemma fencei_idle : keeps blocks_idle run_fencei.
Proof. apply keeps_modify. intros s [W I]. by apply invalidate_wf. Qed.

Hint Resolve on_core_idle fetch_halfword_idle cache_compressed_idle cache_uncompressed_idle fencei_idle : keeps.

Lemma fetch_instr_idle md satp va pa : keeps blocks_idle (fetch_instr md satp va pa).
Proof. unfold fetch_instr, translate_instr_address. auto 10 with keeps. Qed.

Lemma run_instr_idle i : keeps blocks_idle (run_instr i).
Proof.
  destruct i as [c|u]; simpl; [auto with keeps|].
  destruct u; unfold run_instr_uncacheable; auto with keeps; by intros s H.
Qed.

Hint Resolve fetch_instr_idle run_instr_idle : keeps.

Lemma run_instr_at_idle md satp va pa : keeps blocks_idle (run_instr_at md satp va pa).
Proof.
  intros s H. unfold run_instr_at. destruct (ICache_fetch_instr _ _ _).
  - by apply on_core_idle.
  - apply (keeps_bind blocks_idle (fetch_instr md satp va pa) run_instr); auto with keeps.
Qed.

(** ** Partial blocks *)

Lemma set_block_core_id s : set_block_core s s.(block_cache) s.(core) = s.
Proof. by destruct s. Qed.

Lemma step_loop_done fuel k s : step_loop fuel k k s = (Some (Ok tt), k, s).
Proof. destruct fuel; simpl; by rewrite Z.ltb_irrefl. Qed.

Lemma step_max_inner_done fuel k s : step_max_inner fuel k k s = (Some (Ok tt), k, s).
Proof.
  unfold step_max_inner, complete_current_block, run_partial_inner. rewrite Z.leb_refl.
  destruct (negb _); by rewrite set_block_core_id, step_loop_done.
Qed.

(** Running the partial block of [b], then the loop. *)
Definition partial_then_loop (fuel : nat) (b : BlockCache) (c : MachineCoreState) (steps max_steps : Z)
  (s : MachineState) : step_result :=
  let '(r, b, c, steps) := run_partial_inner BLOCK_CACHE_BITS b c steps max_steps in
  let s := set_block_core s b c in
  match r with
  | Err e => (Some (Err e), steps, s)
  | Ok _ => step_loop fuel steps max_steps s
  end.

Lemma step_max_inner_progress fuel steps max s :
  s.(block_cache).(partial_block).(pb_in_progress) = true ->
  step_max_inner fuel steps max s = partial_then_loop fuel s.(block_cache) s.(core) steps max s.
Proof. intros I. unfold step_max_inner, complete_current_block. by rewrite I. Qed.

Lemma step_max_inner_idle fuel steps max s :
  s.(block_cache).(partial_block).(pb_in_progress) = false ->
  step_max_inner fuel steps max s = step_loop fuel steps max s.
Proof.
  intros I. unfold step_max_inner, complete_current_block. rewrite I. cbn [negb]. by rewrite set_block_core_id.
Qed.

(** One step of a partial block, and what follows it. *)
Lemma partial_then_loop_step b c steps max s :
  BlockCache_wf BLOCK_CACHE_BITS b -> b.(partial_block).(pb_in_progress) = true -> steps < max ->
  match run_partial_inner BLOCK_CACHE_BITS b c 0 1 with
  | (Ok _, b', c', k) =>
      BlockCache_wf BLOCK_CACHE_BITS b' /\ k = 1 /\
      forall fuel, partial_then_loop fuel b c steps max s =
                   step_max_inner fuel (steps + 1) max (set_block_core s b' c')
  | (Err e, b', c', k) =>
      forall fuel, k = 0 /\
      partial_then_loop fuel b c steps max s = (Some (Err e), steps, set_block_core s b' c')
  end.
Proof.
  intros W I L.
  pose proof (run_partial_inner_shift BLOCK_CACHE_BITS steps b c 0 1) as Sh.
  destruct (run_partial_inner BLOCK_CACHE_BITS b c 0 1) as [[[r b'] c'] k] eqn:R.
  apply run_partial_inner_wf in R as (W' & _ & _ & K); [|done..|lia].
  replace (0 + steps) with steps in Sh by lia. replace (1 + steps) with (steps + 1) in Sh by lia.
  assert (Sp : run_partial_inner BLOCK_CACHE_BITS b c steps max =
    match r with
    | Ok _ => if b'.(partial_block).(pb_in_progress)
              then run_partial_inner BLOCK_CACHE_BITS b' c' (k + steps) max
              else (Ok tt, b', c', k + steps)
    | Err e => (Err e, b', c', k + steps)
    end).
  { destruct (decide (max = steps + 1)) as [->|].
    - rewrite Sh. destruct r as [[]|e]; [|done].
      replace (k + steps) with (steps + 1) by lia. unfold run_partial_inner. rewrite Z.leb_refl.
      by case_match.
    - rewrite run_partial_inner_split by (done || lia). by rewrite Sh. }
  destruct r as [u|e].
  - split_and!; [done|lia|]. assert (k = 1) as -> by lia.
    intros fuel. unfold partial_then_loop. rewrite Sp. replace (1 + steps) with (steps + 1) by lia.
    destruct (pb_in_progress (partial_block b')) eqn:I'.
    + by rewrite step_max_inner_progress.
    + by rewrite step_max_inner_idle.
  - intros fuel. assert (k = 0) as -> by lia. split; [done|].
    unfold partial_then_loop. by rewrite Sp.
Qed.

(** ** One iteration *)

Lemma translate_cached_hart md satp va acc c : (translate_cached md satp va acc c).2.(hart) = c.(hart).
Proof.
  unfold translate_cached. destruct (TranslationCache_try_translate _ _ _ _ _); [done|].
  by destruct (translate_with_prefetch _ _ _ _ _).
Qed.

(** The start of a block, as a partial block. *)
Definition start_partial (b : BlockCache) (phys_addr : Z) : BlockCache :=
  set_partial_block b {| pb_in_progress := true; pb_progress := 0; pb_phys_addr := phys_addr |}.

(** Where an iteration starts: the translated address and the state after the
    translation. *)
Definition fetch_address (s : MachineState) : result Z Exception * MachineState :=
  translate_instr_address s.(core).(hart).(mode) (csr_read s.(core).(hart) CSR.satp)
    s.(core).(hart).(pc) s.

(** The program counter points at an empty block. *)
Definition stalled (s : MachineState) : Prop :=
  exists a, (fetch_address s).1 = Ok a /\ get_block BLOCK_CACHE_BITS s.(block_cache) a = Some [].

Lemma fetch_address_block_cache s :
  (fetch_address s).2.(block_cache) = s.(block_cache) /\
  (fetch_address s).2.(core).(hart) = s.(core).(hart).
Proof.
  unfold fetch_address, translate_instr_address, on_core.
  pose proof (translate_cached_hart s.(core).(hart).(mode) (csr_read s.(core).(hart) CSR.satp)
    s.(core).(hart).(pc) AInstruction s.(core)) as H.
  destruct (translate_cached _ _ _ _ _). split; [done|exact H].
Qed.

Lemma fetch_address_idle s : blocks_idle s -> blocks_idle (fetch_address s).2.
Proof. apply on_core_idle. Qed.

(** An iteration that starts in a block runs it as a partial block. *)
Lemma step_iter_block fuel steps max s a s1 block :
  blocks_idle s -> steps < max -> fetch_address s = (Ok a, s1) ->
  get_block BLOCK_CACHE_BITS s1.(block_cache) a = Some block ->
  match step_iter steps max s with
  | (Ok _, k, s') => step_loop fuel k max s'
  | (Err e, k, s') => (Some (Err e), k, s')
  end = partial_then_loop fuel (start_partial s1.(block_cache) a) s1.(core) steps max s1.
Proof.
  intros I L T B. pose proof (fetch_address_block_cache s) as [_ Hh].
  pose proof (fetch_address_idle s I) as [W1 I1]. rewrite T in Hh, W1, I1; simpl in Hh, W1, I1.
  unfold step_iter. unfold fetch_address in T. rewrite T, B.
  change (partial_then_loop fuel (start_partial s1.(block_cache) a) s1.(core) steps max s1) with
    (let '(r, b, c, steps) := run_block_partial BLOCK_CACHE_BITS s1.(block_cache) s1.(core) a steps max in
     let s := set_block_core s1 b c in
     match r with Err e => (Some (Err e), steps, s) | Ok _ => step_loop fuel steps max s end).
  assert (block = BCached_block (bl_entry BLOCK_CACHE_BITS s1.(block_cache) a)) as ->.
  { unfold get_block in B. destruct (_ && _); [by injection B|done]. }
  destruct (Z.leb_spec (Z.of_nat (length (BCached_block (bl_entry BLOCK_CACHE_BITS s1.(block_cache) a))))
              (max - steps)).
  - rewrite run_block_as_partial by (done || apply W1).
    unfold core_pc. rewrite Hh.
    by destruct (run_block _ _ _ _) as [[[u|e] c] k].
  - by destruct (run_block_partial _ _ _ _ _ _) as [[[[u|e] b] c] k].
Qed.

Lemma start_partial_wf s a block :
  blocks_wf s -> get_block BLOCK_CACHE_BITS s.(block_cache) a = Some block -> block <> [] ->
  BlockCache_wf BLOCK_CACHE_BITS (start_partial s.(block_cache) a).
Proof.
  intros [E _] B N. split; [exact E|].
  change (0 <= 0 < (bl_entry BLOCK_CACHE_BITS (start_partial s.(block_cache) a) a).(bc_len_instr)).
  change (bl_entry BLOCK_CACHE_BITS (start_partial s.(block_cache) a) a) with
    (bl_entry BLOCK_CACHE_BITS s.(block_cache) a).
  unfold get_block in B. destruct (_ && _); [|done]. injection B as <-.
  pose proof (BCached_block_length _ (E (cache_index BLOCK_CACHE_BITS a))) as Le.
  fold (bl_entry BLOCK_CACHE_BITS s.(block_cache) a) in Le.
  destruct (BCached_block _); [done|]. rewrite length_cons in Le. lia.
Qed.

(** An iteration that does not start in a block runs one instruction. *)
Definition step_fetched (s : MachineState) : result ProgramCounterUpdate Exception * MachineState :=
  match fetch_address s with
  | (Ok a, s1) => run_instr_at s.(core).(hart).(mode) (csr_read s.(core).(hart) CSR.satp)
                    s.(core).(hart).(pc) a s1
  | (Err e, s1) => (Err e, s1)
  end.

Lemma step_iter_instr steps max s :
  match fetch_address s with
  | (Ok a, s1) => get_block BLOCK_CACHE_BITS s1.(block_cache) a = None
  | (Err _, _) => True
  end ->
  step_iter steps max s = step_instr (step_fetched s).1 s.(core).(hart).(pc) steps (step_fetched s).2.
Proof.
  unfold step_iter, step_fetched, fetch_address.
  destruct (translate_instr_address _ _ _ s) as [[a|e] s1]; [|done].
  intros ->. by destruct (run_instr_at _ _ _ _ _).
Qed.

Lemma step_fetched_idle s : blocks_idle s -> blocks_idle (step_fetched s).2.
Proof.
  intros I. unfold step_fetched. pose proof (fetch_address_idle s I) as I1.
  destruct (fetch_address s) as [[a|e] s1]; [|done]. by apply run_instr_at_idle.
Qed.

Lemma step_instr_shift r pc steps s :
  step_instr r pc steps s = let '(x, k, s') := step_instr r pc 0 s in (x, k + steps, s').
Proof.
  unfold step_instr. destruct (on_core _ _) as [[a|e] s']; [|done]. do 2 f_equal. lia.
Qed.

(** ** One step *)

(** What [step] does, in terms of a run of many steps from the same state. *)
Definition decomposes (s : MachineState) (steps max : Z) : Prop :=
  match step 1 s with
  | (Some (Ok _), s') =>
      blocks_wf s' /\
      exists d, forall fuel, step_max_inner (S fuel) steps max s = step_max_inner (d + fuel) (steps + 1) max s'
  | (Some (Err e), s') => forall fuel, step_max_inner (S fuel) steps max s = (Some (Err e), steps, s')
  | (None, s') => idle s.(block_cache) /\ stalled s
  end.

Lemma step_max_inner_iter fuel steps max s :
  idle s.(block_cache) -> steps < max ->
  step_max_inner (S fuel) steps max s =
  match step_iter steps max s with
  | (Ok _, k, s') => step_loop fuel k max s'
  | (Err e, k, s') => (Some (Err e), k, s')
  end.
Proof.
  intros I L. rewrite step_max_inner_idle by by rewrite I.
  cbn [step_loop]. by rewrite (proj2 (Z.ltb_lt _ _) L).
Qed.

(** The steps of a partial block, however it is reached. *)
Lemma decompose_partial d s s1 b c steps max :
  BlockCache_wf BLOCK_CACHE_BITS b -> b.(partial_block).(pb_in_progress) = true -> steps < max ->
  (forall fuel steps max, steps < max ->
     step_max_inner (S fuel) steps max s = partial_then_loop (d + fuel) b c steps max s1) ->
  decomposes s steps max.
Proof.
  intros W P L U. unfold decomposes, step. rewrite U by lia.
  pose proof (partial_then_loop_step b c 0 1 s1 W P ltac:(lia)) as H1.
  pose proof (partial_then_loop_step b c steps max s1 W P L) as H2.
  destruct (run_partial_inner _ _ _ 0 1) as [[[[u|e] b'] c'] k].
  - destruct H1 as (W' & -> & H1), H2 as (_ & _ & H2). rewrite H1, step_max_inner_done.
    split; [exact W'|]. exists d. intros fuel. rewrite U by done. apply H2.
  - destruct (H1 (d + 0)%nat) as [-> ->]. intros fuel. rewrite U by done. apply H2.
Qed.

Lemma decompose_instr s steps max :
  blocks_idle s -> steps < max ->
  match fetch_address s with
  | (Ok a, s1) => get_block BLOCK_CACHE_BITS s1.(block_cache) a = None
  | (Err _, _) => True
  end ->
  decomposes s steps max.
Proof.
  intros I L N. unfold decomposes, step.
  rewrite step_max_inner_iter by (apply I || lia). rewrite (step_iter_instr 0 1 s N).
  pose proof (step_fetched_idle s I) as I2.
  pose proof (on_core_idle (handle_step_result s.(core).(hart).(pc) (step_fetched s).1) _ I2) as I3.
  unfold step_instr. destruct (on_core _ _) as [[x|e] s3] eqn:O; simpl in I3.
  - rewrite step_loop_done. split; [apply I3|]. exists 0%nat. intros fuel.
    rewrite step_max_inner_iter by (apply I || lia).
    rewrite (step_iter_instr steps max s N). unfold step_instr. rewrite O.
    by rewrite step_max_inner_idle by by rewrite (proj2 I3).
  - intros fuel. rewrite step_max_inner_iter by (apply I || lia).
    rewrite (step_iter_instr steps max s N). unfold step_instr. by rewrite O.
Qed.

Lemma decompose_block s a s1 block steps max :
  blocks_idle s -> steps < max -> fetch_address s = (Ok a, s1) ->
  get_block BLOCK_CACHE_BITS s1.(block_cache) a = Some block ->
  decomposes s steps max.
Proof.
  intros I L T B. pose proof (fetch_address_idle s I) as I1.
  pose proof (fetch_address_block_cache s) as [Bc _]. rewrite T in I1, Bc. simpl in I1, Bc.
  destruct block as [|i block].
  - unfold decomposes, step. rewrite step_max_inner_iter by (apply I || lia).
    unfold step_iter. pose proof T as T'. unfold fetch_address in T'. rewrite T', B. simpl.
    split; [apply I|]. exists a. by rewrite T, <- Bc.
  - apply (decompose_partial 0 s s1 (start_partial s1.(block_cache) a) s1.(core)); [|done..|].
    + by eapply start_partial_wf; [apply I1|exact B|].
    + intros fuel k m K. rewrite step_max_inner_iter by (apply I || done).
      by apply step_iter_block with (block := i :: block).
Qed.

Lemma step_decompose s steps max : blocks_wf s -> steps < max -> decomposes s steps max.
Proof.
  intros W L. destruct (s.(block_cache).(partial_block).(pb_in_progress)) eqn:P.
  - apply (decompose_partial 1 s s s.(block_cache) s.(core)); [done..|].
    intros fuel k m K. by apply step_max_inner_progress.
  - assert (I : blocks_idle s) by (split; [done|by eapply wf_idle]).
    destruct (fetch_address s) as [[a|e] s1] eqn:T.
    + destruct (get_block BLOCK_CACHE_BITS s1.(block_cache) a) as [block|] eqn:B.
      * by eapply decompose_block.
      * apply decompose_instr; [done..|]. by rewrite T.
    + apply decompose_instr; [done..|]. by rewrite T.
Qed.

(** ** Many steps *)

(** [n] calls of [step], up to the first one that does not succeed; the count
    is that of the successful ones. *)
Fixpoint steps_one_by_one (n : nat) (s : MachineState) : step_result :=
  match n with
  | O => (Some (Ok tt), 0, s)
  | S n =>
      match step 1 s with
      | (Some (Ok _), s') =>
          let '(r, k, s'') := steps_one_by_one n s' in (r, k + 1, s'')
      | (r, s') => (r, 0, s')
      end
  end.

Lemma steps_one_by_one_run n : forall s fuel steps,
  blocks_wf s -> (n <= fuel)%nat ->
  let '(r, k, s') := steps_one_by_one n s in
  r <> None -> step_max_inner fuel steps (steps + Z.of_nat n) s = (r, steps + k, s').
Proof.
  induction n as [|n IH]; intros s fuel steps W F.
  { intros _. change (Z.of_nat 0) with 0. rewrite !Z.add_0_r. apply step_max_inner_done. }
  destruct fuel as [|fuel]; [lia|].
  pose proof (step_decompose s steps (steps + Z.of_nat (S n)) W ltac:(lia)) as D.
  unfold decomposes in D. cbn [steps_one_by_one].
  destruct (step 1 s) as [[[u|e]|] s'].
  - destruct D as (W' & d & D). specialize (IH s' (d + fuel)%nat (steps + 1) W' ltac:(lia)).
    destruct (steps_one_by_one n s') as [[r k] s'']. intros R. rewrite D.
    replace (steps + Z.of_nat (S n)) with (steps + 1 + Z.of_nat n) by lia.
    rewrite IH by done. do 2 f_equal. lia.
  - intros _. by rewrite D, Z.add_0_r.
  - done.
Qed.

(** Only an empty block stops the steps, and only the address zero has one. *)
Lemma steps_one_by_one_stalled n : forall s k s',
  blocks_wf s -> steps_one_by_one n s = (None, k, s') ->
  0 <= k < Z.of_nat n /\
  exists s0, steps_one_by_one (Z.to_nat k) s = (Some (Ok tt), k, s0) /\ blocks_wf s0 /\ stalled s0.
Proof.
  induction n as [|n IH]; intros s k s' W; cbn [steps_one_by_one]; [done|].
  pose proof (step_decompose s 0 1 W ltac:(lia)) as D. unfold decomposes in D.
  destruct (step 1 s) as [[[u|e]|] s1] eqn:S1; [|done|].
  - destruct D as (W' & _). destruct (steps_one_by_one n s1) as [[r k1] s2] eqn:R.
    intros [= -> <- <-]. apply IH in R as (K & s0 & R & St); [|done]. split; [lia|].
    exists s0. split; [|done]. replace (Z.to_nat (k1 + 1)) with (S (Z.to_nat k1)) by lia.
    cbn [steps_one_by_one]. by rewrite S1, R.
  - intros [= <- <-]. split; [lia|]. exists s. split; [done|]. by destruct D.
Qed.

Lemma stalled_zero s : blocks_wf s -> stalled s -> (fetch_address s).1 = Ok 0.
Proof.
  intros [E _] (a & T & B). unfold get_block in B.
  destruct (Z.eqb_spec (bl_entry BLOCK_CACHE_BITS s.(block_cache) a).(bc_address) a) as [A|]; [|done].
  destruct (_ =? _); [|done]. injection B as B.
  pose proof (BCached_block_length _ (E (cache_index BLOCK_CACHE_BITS a))) as Le.
  fold (bl_entry BLOCK_CACHE_BITS s.(block_cache) a) in Le. rewrite B in Le.
  destruct (E (cache_index BLOCK_CACHE_BITS a)) as (_ & _ & Z0). rewrite T. f_equal.
  rewrite <- A. apply Z0. symmetry. exact Le.
Qed.

(** C1. Running up to [n] steps at once, with whole blocks, partial blocks that
    are saved and resumed, and single instructions, gives exactly what [n]
    calls of [step] give: the same machine state, the same number of
    completed steps and the same environment exception, and [n] units of fuel
    are enough.  The only other case is a program counter at an empty block,
    which a well-formed block cache has for the physical address zero only. *)
Theorem step_max_one_by_one n s :
  blocks_wf s ->
  let '(r, k, s') := steps_one_by_one n s in
  match r with
  | Some x => step_max_inner n 0 (Z.of_nat n) s = (Some x, k, s') /\
              (forall fuel, (n <= fuel)%nat -> step_max_inner fuel 0 (Z.of_nat n) s = (Some x, k, s'))
  | None => exists s0, steps_one_by_one (Z.to_nat k) s = (Some (Ok tt), k, s0) /\
                       0 <= k < Z.of_nat n /\ (fetch_address s0).1 = Ok 0 /\ stalled s0
  end.
Proof.
  intros W. destruct (steps_one_by_one n s) as [[[x|] k] s'] eqn:R.
  - assert (H : forall fuel, (n <= fuel)%nat -> step_max_inner fuel 0 (Z.of_nat n) s = (Some x, k, s')).
    { intros fuel F. pose proof (steps_one_by_one_run n s fuel 0 W F) as H. rewrite R in H. by apply H. }
    split; [by apply H|exact H].
  - apply steps_one_by_one_stalled in R as (K & s0 & R & W0 & St); [|done].
    exists s0. split_and!; [done|lia..|by apply stalled_zero|done].
Qed.

Lemma steps_one_by_one_app n m : forall s,
  steps_one_by_one (n + m) s =
  match steps_one_by_one n s with
  | (Some (Ok _), k, s1) => let '(r, k', s2) := steps_one_by_one m s1 in (r, k + k', s2)
  | x => x
  end.
Proof.
  induction n as [|n IH]; intros s; simpl.
  { by destruct (steps_one_by_one m s) as [[r k] s']. }
  destruct (step 1 s) as [[[u|e]|] s1]; [|done..]. rewrite IH.
  destruct (steps_one_by_one n s1) as [[[[u'|e]|] k] s2]; [|done..].
  destruct (steps_one_by_one m s2) as [[r k'] s3]. do 2 f_equal. lia.
Qed.

Lemma steps_one_by_one_wf n : forall s k s',
  blocks_wf s -> steps_one_by_one n s = (Some (Ok tt), k, s') -> blocks_wf s' /\ k = Z.of_nat n.
Proof.
  induction n as [|n IH]; intros s k s' W; cbn [steps_one_by_one]; [by intros [= <- <-]|].
  pose proof (step_decompose s 0 1 W ltac:(lia)) as D. unfold decomposes in D.
  destruct (step 1 s) as [[[u|e]|] s1]; [|done..]. destruct D as [W' _].
  destruct (steps_one_by_one n s1) as [[r k1] s2] eqn:R. intros [= -> <- <-].
  apply IH in R as [? ->]; [|done]. split; [done|lia].
Qed.

(** C2. Determinism of interrupted runs: stopping after [n] steps, in the middle
    of a block or not, and resuming for [m] more gives the state, the count
    and the error of one uninterrupted run of [n + m] steps. *)
Theorem step_max_split n m s k s1 :
  blocks_wf s ->
  step_max_inner n 0 (Z.of_nat n) s = (Some (Ok tt), k, s1) ->
  fst (fst (steps_one_by_one (n + m) s)) <> None ->
  step_max_inner (n + m) 0 (Z.of_nat (n + m)) s =
  let '(r, k', s2) := step_max_inner m 0 (Z.of_nat m) s1 in (r, k + k', s2).
Proof.
  intros W R T. rewrite steps_one_by_one_app in T.
  pose proof (steps_one_by_one_run (n + m) s (n + m) 0 W ltac:(lia)) as Rnm.
  pose proof (steps_one_by_one_run n s n 0 W ltac:(lia)) as Rn.
  rewrite steps_one_by_one_app in Rnm.
  destruct (steps_one_by_one n s) as [[[x|] k0] s0] eqn:E; [|done].
  specialize (Rn ltac:(done)). rewrite !Z.add_0_l in Rn. rewrite R in Rn. injection Rn as <- -> ->.
  apply steps_one_by_one_wf in E as [W1 _]; [|done].
  pose proof (steps_one_by_one_run m s0 m 0 W1 ltac:(lia)) as Rm.
  destruct (steps_one_by_one m s0) as [[[x|] k'] s2]; [|done].
  specialize (Rm ltac:(done)). rewrite !Z.add_0_l in Rm. rewrite Rm. rewrite !Z.add_0_l in Rnm. by apply Rnm.
Qed.

(** ** The empty block at address zero *)

(** In machine mode, at address zero, with an empty block there. *)
Definition at_empty_block (s : MachineState) : Prop :=
  s.(core).(hart).(mode) = Machine /\ s.(core).(hart).(pc) = 0 /\ idle s.(block_cache) /\
  coherent s.(core) /\ get_block BLOCK_CACHE_BITS s.(block_cache) 0 = Some [].

Lemma machine_mode_bare c satp va : translate_with_prefetch c Machine satp va AInstruction = Ok va.
Proof. done. Qed.

Lemma at_empty_block_iter s steps max :
  at_empty_block s -> steps < max ->
  exists s', step_iter steps max s = (Ok tt, steps, s') /\ at_empty_block s'.
Proof.
  intros (M & P & I & Co & B) L. unfold step_iter, translate_instr_address, on_core. rewrite M, P.
  pose proof (translate_cached_spec s.(core) Machine (csr_read s.(core).(hart) CSR.satp) 0 AInstruction
    Co ltac:(by vm_compute)) as T.
  destruct (translate_cached _ _ _ _ _) as [r c']. destruct T as (-> & Co' & Hh & Hb).
  rewrite machine_mode_bare. cbn [set_core block_cache core]. rewrite B.
  rewrite (proj2 (Z.leb_le _ _)) by (simpl; lia). simpl.
  eexists. split; [reflexivity|]. unfold at_empty_block. simpl. rewrite Hh. done.
Qed.

(** C40. A machine in machine mode whose program counter is zero never completes a
    step while the block cache has the empty block that a reset or an
    invalidation leaves at index zero: the loop of [step] spins on it, whatever
    the fuel, instead of raising an access fault for the address. *)
Theorem step_at_zero_diverges s fuel : at_empty_block s -> (step fuel s).1 = None.
Proof.
  intros H. unfold step. rewrite step_max_inner_idle by by destruct H as (_ & _ & -> & _).
  assert (D : (step_loop fuel 0 1 s).1.1 = None).
  { revert s H. induction fuel as [|fuel IH]; intros s H; cbn [step_loop Z.ltb Z.compare]; [done|].
    destruct (at_empty_block_iter s 0 1 H ltac:(lia)) as (s' & -> & H'). by apply IH. }
  by destruct (step_loop fuel 0 1 s) as [[r k] s'].
Qed.

Lemma reset_at_empty_block s :
  at_empty_block (set_core (MachineState_reset s) (write_pc (MachineState_reset s).(core) 0)).
Proof.
  unfold at_empty_block. refine (conj eq_refl (conj eq_refl (conj eq_refl (conj _ eq_refl)))).
  exact (coherent_reset_cache (set_bus (set_hart s.(core) _) _)).
Qed.

End step.

(** ** Examples *)

#[local] Existing Instances M1K TestCacheLayouts ApFloat_example ArbitraryInt_ref.

(** A machine with a loop of three instructions: [addi x1, x0, 5],
    [addi x2, x1, 7], [jal x0, -8]. *)
Definition machine_example : MachineState := {|
  core := set_bus core_example
    (Bus_write_all U32 core_example.(bus) start_of_main_memory [0x00500093; 0x00708113; 0xff9ff06f]).2;
  instruction_cache := {| ic_counter := 0; ic_entries := fun _ =>
    {| ic_fence_counter := 0; ic_phys_addr := 0; ic_instr := Unknown 0 |} |};
  block_cache := BlockCache_reset
    {| current_block_addr := 0; next_instr_addr := 0; bl_fence_counter := 0;
       partial_block := PartialBlock_none;
       bl_entries := fun _ => {| bc_address := 0; bc_fence_counter := 0; bc_len_instr := 0;
                                 bc_instr := replicate 20 (Unknown 0) |} |};
|}.

Lemma machine_example_wf : blocks_wf machine_example.
Proof. apply (reset_wf BLOCK_CACHE_BITS). intros i. reflexivity. Qed.

(** Eleven steps: the first turn of the loop builds a block, the next two run
    it, and the last one stops in its middle. *)
Lemma step_max_one_by_one_witness :
  exists s', step_max_inner 11 0 11 machine_example = (Some (Ok tt), 11, s') /\
    xread s'.(core).(hart) x2 = 12 /\ s'.(core).(hart).(pc) = 0x80000008 /\
    s'.(block_cache).(partial_block).(pb_in_progress) = true.
Proof.
  pose proof (step_max_one_by_one 11 machine_example machine_example_wf) as H.
  destruct (steps_one_by_one 11 machine_example) as [[r k] s'] eqn:E.
  assert (r = Some (Ok tt)) as -> by (change r with (r, k, s').1.1; rewrite <- E; vm_compute; reflexivity).
  assert (k = 11) as -> by (change k with (Some (Ok (E := Environ.EnvironException) tt), k, s').1.2; rewrite <- E; vm_compute; reflexivity).
  exists s'. destruct H as [H _]. split; [exact H|].
  change s' with (Some (Ok (E := Environ.EnvironException) tt), 11, s').2. rewrite <- E.
  vm_compute. auto.
Defined.

Lemma step_max_split_witness :
  exists s1, step_max_inner 7 0 7 machine_example = (Some (Ok tt), 7, s1) /\
    s1.(block_cache).(partial_block).(pb_in_progress) = true /\
    step_max_inner (7 + 4) 0 (Z.of_nat (7 + 4)) machine_example =
    let '(r, k', s2) := step_max_inner 4 0 (Z.of_nat 4) s1 in (r, 7 + k', s2).
Proof.
  destruct (step_max_inner 7 0 7 machine_example) as [[r k] s1] eqn:E1.
  assert ((r, k) = (Some (Ok tt), 7)) as [= -> ->].
  { change (r, k) with (r, k, s1).1. rewrite <- E1. vm_compute. reflexivity. }
  exists s1. split; [reflexivity|]. split.
  - change s1 with (Some (Ok (E := Environ.EnvironException) tt), 7, s1).2. rewrite <- E1. vm_compute. reflexivity.
  - apply (step_max_split 7 4 machine_example 7 s1 machine_example_wf E1). vm_compute. congruence.
Defined.

(** A jump to zero in a machine that was just reset. *)
Lemma step_at_zero_diverges_witness :
  (step 5 (set_core (MachineState_reset machine_example)
             (write_pc (MachineState_reset machine_example).(core) 0))).1 = None.
Proof. apply step_at_zero_diverges. apply reset_at_empty_block. Defined.
