(* ===== verification/StepWf.v ===== *)
(** The invariant of the whole machine: 64-bit registers, program counter and
    CSR cells, and a well-formed block cache.  Every way of stepping keeps it,
    whether it ends with success, with an environment exception or out of
    fuel. *)
From S2P Require Import Prelude Registers CSRegister Traps XStatus CSRegisters HartState Bus.
From S2P Require Import Instruction Parser.
From S2P Require Import ParserSpec HartStateSpec BusSpec FloatSpec.
From S2P Require Import IntInstr AddressTranslation TranslationCache TranslationCacheSpec.
From S2P Require Import MachineCore MachineCoreSpec.
From S2P Require Import CoreInstr Float RunInstr RunInstrSpec InstructionCache BlockCache.
From S2P Require Import MachineState.
From S2P Require Import BlockCacheSpec StepSpec.

(** ** Traps and the program counter *)

Lemma set_pc_wf h p : HartState_wf h -> is_u 64 p -> HartState_wf (set_pc h p).
Proof. intros (X & F & C & _) P. exact (conj X (conj F (conj C P))). Qed.

Lemma set_mode_wf h m : HartState_wf h -> HartState_wf (set_mode h m).
Proof. done. Qed.

Lemma set_mstatus_cells_wf h m : HartState_wf h -> HartState_wf (set_mstatus_cells h m).
Proof. intros (X & F & C & P). exact (conj X (conj F (conj C P))). Qed.

Lemma trap_result_wf {TC} `{TrapContext TC} h (t : TC) p : HartState_wf h -> HartState_wf (trap_result h t p).
Proof.
  intros W. unfold trap_result.
  destruct (trap_registers _) as [[[r1 r2] r3] r4].
  apply set_mode_wf, set_mstatus_cells_wf. auto with u64.
Qed.

Lemma address_on_exception_ok e p : is_u 64 p -> yields hart_wf (is_u 64) (address_on_exception e p).
Proof.
  intros U. unfold address_on_exception. destruct (EnvironException_try_from e).
  - eapply yields_bind; [apply keeps_yields, keeps_modify|intros _ _; apply yields_throw].
    intros c H. by apply set_pc_wf.
  - intros c H. rewrite take_trap_result. cbn [default].
    pose proof (trap_result_wf c.(hart) e p H) as W. split; [exact W|].
    intros a [= <-]. apply land_u64_l. by apply csr_read_u64.
Qed.

Lemma handle_step_result_ok p r :
  is_u 64 p -> (forall u, r = Ok u -> update_ok u) -> yields hart_wf (is_u 64) (handle_step_result p r).
Proof.
  intros U R. unfold handle_step_result. eapply (yields_bind _ update_ok).
  - destruct r as [u|e]; [apply yields_ret; by apply R|].
    eapply yields_bind; [by apply address_on_exception_ok|]. intros a A. by apply yields_ret.
  - intros u Up. set (a := match u with PC_Set a => a | PC_Next w => _ end).
    assert (A : is_u 64 a) by (destruct u; [done|apply wrapping_add_u64]).
    eapply yields_bind; [apply keeps_yields, keeps_modify|intros _ _; by apply yields_ret].
    intros c H. by apply set_pc_wf.
Qed.

Lemma write_pc_wf c a : hart_wf c -> is_u 64 a -> hart_wf (write_pc c a).
Proof. apply set_pc_wf. Qed.

Section step.
Context `{ML : MainMemoryLayout} `{AP : ApFloat} `{AI : ArbitraryInt} `{CL : CacheLayouts} {APL : ApFloatLaws AP}.

(** ** Blocks *)

Lemma run_partial_loop_hart l : forall c p steps max progress,
  hart_wf c -> is_u 64 p -> hart_wf (run_partial_loop l c p steps max progress).1.2.
Proof.
  induction l as [|i l IH]; intros c p steps max progress H U; [done|]. cbn [run_partial_loop].
  pose proof (run_instr_cacheable_ok i c H) as [W V].
  destruct (run_instr_cacheable i c) as [[[a|w]|e] c']; cbn [fst snd] in W, V.
  - apply write_pc_wf; [done|]. exact (V _ eq_refl).
  - cbv zeta. pose proof (wrapping_add_u64 p (InstrWidth_repr w)) as U'.
    destruct (max <=? steps + 1); [by apply write_pc_wf|]. apply IH; [by apply write_pc_wf|done].
  - pose proof (handle_step_result_ok p (Err e) U ltac:(done) c' W) as [W' _].
    by destruct (handle_step_result p (Err e) c') as [[u|ee] c''].
Qed.

Lemma run_partial_inner_hart b c steps max :
  hart_wf c -> hart_wf (run_partial_inner BLOCK_CACHE_BITS b c steps max).1.2.
Proof.
  intros H. unfold run_partial_inner. destruct (max <=? steps); [done|]. cbv zeta.
  pose proof (run_partial_loop_hart
    (drop (Z.to_nat b.(partial_block).(pb_progress))
       (BCached_block (bl_entry BLOCK_CACHE_BITS b b.(partial_block).(pb_phys_addr))))
    c (core_pc c) steps max b.(partial_block).(pb_progress) H (pc_u64 _ H)) as W.
  by destruct (run_partial_loop _ _ _ _ _ _) as [[[p|r] c'] k].
Qed.

Lemma run_block_inner_hart l : forall c p steps,
  hart_wf c -> is_u 64 p ->
  let '(_, c', p', _) := run_block_inner l c p steps in hart_wf c' /\ is_u 64 p'.
Proof.
  induction l as [|i l IH]; intros c p steps H U; [done|]. cbn [run_block_inner].
  pose proof (run_instr_cacheable_ok i c H) as [W V].
  destruct (run_instr_cacheable i c) as [[[a|w]|e] c']; cbn [fst snd] in W, V.
  - split; [|done]. apply write_pc_wf; [done|]. exact (V _ eq_refl).
  - apply IH; [apply write_pc_wf; [done|]|]; apply wrapping_add_u64.
  - done.
Qed.

Lemma run_block_hart l c p steps : hart_wf c -> is_u 64 p -> hart_wf (run_block l c p steps).1.2.
Proof.
  intros H U. unfold run_block. pose proof (run_block_inner_hart l c p steps H U) as W.
  destruct (run_block_inner l c p steps) as [[[[u|e] c'] p'] k]; destruct W as [W V]; [done|].
  pose proof (handle_step_result_ok p' (Err e) V ltac:(done) c' W) as [W' _].
  by destruct (handle_step_result p' (Err e) c') as [[u|ee] c''].
Qed.

(** ** Single instructions *)

Definition regs_wf (s : MachineState) : Prop := hart_wf s.(core).

Lemma on_core_wf {A E} (P : A -> Prop) (m : stM MachineCoreState E A) :
  yields hart_wf P m -> yields regs_wf P (on_core m).
Proof. intros Y s H. unfold on_core. specialize (Y _ H). by destruct (m s.(core)). Qed.

Lemma translate_instr_wf md satp va : keeps regs_wf (translate_instr_address md satp va).
Proof.
  apply (yields_keeps _ (fun _ => True)), on_core_wf, keeps_yields. intros c H. unfold hart_wf.
  by rewrite translate_cached_hart.
Qed.

Lemma cache_fetched_wf a w :
  keeps regs_wf (cache_fetched_compressed a w) /\ keeps regs_wf (cache_fetched_uncompressed a w).
Proof.
  split; intros s H; unfold cache_fetched_compressed, cache_fetched_uncompressed; by repeat case_match.
Qed.

Lemma fetch_halfword_wf a : keeps regs_wf (fetch_instr_halfword a).
Proof. by intros s H. Qed.

Lemma fetch_instr_wf md satp va pa : keeps regs_wf (fetch_instr md satp va pa).
Proof.
  apply keeps_bind; [apply fetch_halfword_wf|]. intros lo. apply keeps_if; [apply cache_fetched_wf|].
  apply keeps_bind; [apply keeps_if; [apply translate_instr_wf|apply keeps_ret]|]. intros ua.
  apply keeps_bind; [apply fetch_halfword_wf|]. intros hi. apply cache_fetched_wf.
Qed.

Lemma Ok_inj {A E} (a b : A) : @Ok A E a = Ok b -> a = b.
Proof. congruence. Qed.

Lemma run_mret_wf : yields HartState_wf (is_u 64) run_mret.
Proof.
  intros h W. unfold run_mret. destruct h.(mode) eqn:M; [done..|]. cbv zeta.
  set (h' := set_mode _ _). assert (W' : HartState_wf h') by apply set_mode_wf, set_mstatus_cells_wf, W.
  split; [done|]. intros a A. apply Ok_inj in A as <-. by apply csr_read_u64.
Qed.

Lemma run_sret_wf : yields HartState_wf (is_u 64) run_sret.
Proof.
  intros h W. unfold run_sret. destruct h.(mode) eqn:M; [done|..]; (destruct (m_tsr _); [done|]); cbv zeta;
    set (h' := set_mode _ _); (assert (W' : HartState_wf h') by apply set_mode_wf, set_mstatus_cells_wf, W);
    (split; [done|]); intros a A; apply Ok_inj in A as <-; by apply csr_read_u64.
Qed.

Lemma return_wf (m : hartM Z) :
  yields HartState_wf (is_u 64) m -> yields hart_wf update_ok (on_hart (let! a := m in st_ret (PC_Set a))).
Proof.
  intros Y c H. unfold on_hart, st_bind. specialize (Y _ H) as [W V].
  destruct (m c.(hart)) as [[a|e] h]; [|done]. split; [exact W|]. intros u [= <-]. exact (V _ eq_refl).
Qed.

Lemma sfence_vma_wf asid va : keeps hart_wf (run_sfence_vma asid va).
Proof.
  apply keeps_bind; [by apply keeps_modify|]. intros _. auto with keeps.
Qed.

Lemma run_instr_uncacheable_ok i : yields regs_wf update_ok (run_instr_uncacheable i).
Proof.
  destruct i; unfold run_instr_uncacheable; cbv zeta; try (by intros s H);
    try (apply on_core_wf; first [apply next_ok|apply return_wf]).
  - apply keeps_ret.
  - eapply yields_bind; [apply keeps_yields; by apply keeps_modify|]. intros _ _. by apply yields_ret.
  - apply run_mret_wf.
  - apply run_sret_wf.
  - apply keeps_ret.
  - apply sfence_vma_wf.
Qed.

Lemma run_instr_at_ok md satp va pa : yields regs_wf update_ok (run_instr_at md satp va pa).
Proof.
  intros s H. unfold run_instr_at. destruct (ICache_fetch_instr _ _ _) as [i|].
  - apply (on_core_wf update_ok (run_instr_cacheable i)); [apply run_instr_cacheable_ok|done].
  - apply (yields_bind regs_wf (fun _ => True) update_ok (fetch_instr md satp va pa) run_instr); [|intros i _|done].
    + apply keeps_yields, fetch_instr_wf.
    + destruct i as [c|u]; [|apply run_instr_uncacheable_ok].
      apply (on_core_wf update_ok), run_instr_cacheable_ok.
Qed.

(** ** Stepping *)

(** The invariant of the machine. *)
Definition machine_wf (s : MachineState) : Prop := regs_wf s /\ blocks_wf s.

Lemma step_instr_wf r p steps s :
  regs_wf s -> blocks_idle s -> is_u 64 p -> (forall u, r = Ok u -> update_ok u) ->
  let s' := (step_instr r p steps s).2 in regs_wf s' /\ blocks_idle s'.
Proof.
  intros H I U R. unfold step_instr.
  pose proof (on_core_wf _ _ (handle_step_result_ok p r U R) s H) as [H' _].
  pose proof (on_core_idle (handle_step_result p r) s I) as I'.
  by destruct (on_core (handle_step_result p r) s) as [[a|e] s'].
Qed.

Lemma step_fetched_wf s :
  regs_wf s -> blocks_idle s ->
  let '(r, s') := step_fetched s in
  regs_wf s' /\ blocks_idle s' /\ forall u, r = Ok u -> update_ok u.
Proof.
  intros H I. unfold step_fetched.
  pose proof (fetch_address_idle s I) as I1.
  assert (H1 : regs_wf (fetch_address s).2) by by apply translate_instr_wf.
  destruct (fetch_address s) as [[a|e] s1]; [|done]. cbn [snd] in H1, I1.
  set (m := run_instr_at _ _ _ a).
  pose proof (run_instr_at_ok s.(core).(hart).(mode) (csr_read s.(core).(hart) CSR.satp)
    s.(core).(hart).(pc) a s1 H1) as [H2 V].
  pose proof (run_instr_at_idle s.(core).(hart).(mode) (csr_read s.(core).(hart) CSR.satp)
    s.(core).(hart).(pc) a s1 I1) as I2.
  fold m in H2, V, I2. by destruct (m s1).
Qed.

Lemma partial_inner_wf b c steps max s :
  BlockCache_wf BLOCK_CACHE_BITS b -> b.(partial_block).(pb_in_progress) = true -> hart_wf c ->
  steps < max ->
  let '(r, b', c', k) := run_partial_inner BLOCK_CACHE_BITS b c steps max in
  machine_wf (set_block_core s b' c') /\ (k < max -> idle b') /\ k <= max.
Proof.
  intros W I H L. pose proof (run_partial_inner_hart b c steps max H) as H'.
  destruct (run_partial_inner _ _ _ _ _) as [[[r b'] c'] k] eqn:R.
  apply run_partial_inner_wf in R as (W' & _ & J & K); [|done..].
  split; [by split|]. split; [exact J|]. destruct r; lia.
Qed.

Lemma step_iter_instr_wf steps max s :
  regs_wf s -> blocks_idle s ->
  match fetch_address s with
  | (Ok a, s1) => get_block BLOCK_CACHE_BITS s1.(block_cache) a = None
  | (Err _, _) => True
  end ->
  let '(r, k, s') := step_iter steps max s in machine_wf s' /\ (k < max -> idle s'.(block_cache)).
Proof.
  intros H I T. rewrite step_iter_instr by done.
  pose proof (step_fetched_wf s H I) as F. destruct (step_fetched s) as [r s2]. destruct F as (H2 & I2 & V).
  pose proof (step_instr_wf r s.(core).(hart).(pc) steps s2 H2 I2 (pc_u64 _ H) V) as F. cbn [fst snd].
  destruct (step_instr _ _ _ _) as [[r' k] s']. destruct F as (F1 & F2 & F3). by split; [split|].
Qed.

(** An iteration of the loop keeps the invariant, and only leaves a block in
    progress when the steps are used up. *)
Lemma step_iter_wf steps max s :
  regs_wf s -> blocks_idle s -> steps < max ->
  let '(r, k, s') := step_iter steps max s in machine_wf s' /\ (k < max -> idle s'.(block_cache)).
Proof.
  intros H I L. destruct (fetch_address s) as [[a|e] s1] eqn:T.
  - destruct (get_block BLOCK_CACHE_BITS s1.(block_cache) a) as [block|] eqn:B.
    + pose proof (fetch_address_idle s I) as [W1 I1].
      assert (H1 : regs_wf (fetch_address s).2) by by apply translate_instr_wf.
      rewrite T in W1, I1, H1; cbn [snd] in W1, I1, H1.
      unfold step_iter. unfold fetch_address in T. rewrite T, B.
      destruct (Z.leb_spec (Z.of_nat (length block)) (max - steps)) as [S|S].
      * pose proof (run_block_hart block s1.(core) s.(core).(hart).(pc) steps H1 (pc_u64 _ H)) as H2.
        by destruct (run_block _ _ _ _) as [[r c] k].
      * assert (N : block <> []) by (intros ->; simpl in S; lia).
        pose proof (partial_inner_wf (start_partial s1.(block_cache) a) s1.(core) steps max s1
          (start_partial_wf s1 a block W1 B N) eq_refl H1 L) as P.
        unfold run_block_partial. cbv zeta. fold (start_partial s1.(block_cache) a).
        destruct (run_partial_inner _ _ _ _ _) as [[[r b'] c'] k]. by destruct P as (P & J & _).
    + apply step_iter_instr_wf; [done..|]. by rewrite T.
  - apply step_iter_instr_wf; [done..|]. by rewrite T.
Qed.

Lemma step_loop_wf fuel : forall steps max s,
  machine_wf s -> (steps < max -> idle s.(block_cache)) ->
  machine_wf (step_loop fuel steps max s).2.
Proof.
  induction fuel as [|fuel IH]; intros steps max s M I; simpl; destruct (Z.ltb_spec steps max) as [L|L]; try done.
  destruct M as [H W]. pose proof (step_iter_wf steps max s H (conj W (I L)) L) as P.
  destruct (step_iter steps max s) as [[[u|e] k] s']; destruct P as [P J]; [by apply IH|done].
Qed.

Lemma step_max_inner_wf fuel steps max s : machine_wf s -> machine_wf (step_max_inner fuel steps max s).2.
Proof.
  intros [H W]. destruct (s.(block_cache).(partial_block).(pb_in_progress)) eqn:P.
  - rewrite step_max_inner_progress by done. unfold partial_then_loop.
    destruct (Z.lt_ge_cases steps max) as [L|L].
    + pose proof (partial_inner_wf s.(block_cache) s.(core) steps max s W P H L) as F.
      destruct (run_partial_inner _ _ _ _ _) as [[[[u|e] b'] c'] k]; destruct F as (F & J & _); [|done].
      by apply step_loop_wf.
    + unfold run_partial_inner. rewrite (proj2 (Z.leb_le _ _)) by lia. rewrite set_block_core_id.
      apply step_loop_wf; [done|lia].
  - rewrite step_max_inner_idle by done. apply step_loop_wf; [done|]. intros _. by eapply wf_idle.
Qed.

Lemma step_max_loop_wf fuel : forall steps bound s,
  machine_wf s -> machine_wf (step_max_loop fuel steps bound s).2.
Proof.
  induction fuel as [|fuel IH]; intros steps bound s M; [done|].
  pose proof (step_max_inner_wf (S fuel) steps (unwrap_bound bound) s M) as W.
  cbn [step_max_loop]. destruct (step_max_inner _ _ _ _) as [[[[u|e]|] k] s']; [|done..].
  destruct (negb _); [done|]. by apply IH.
Qed.

Lemma MachineState_reset_wf s :
  HartState_wf s.(core).(hart) -> (forall i, length (s.(block_cache).(bl_entries) i).(bc_instr) = Z.to_nat CACHE_INSTR) ->
  machine_wf (MachineState_reset s).
Proof.
  intros H B. split.
  - by apply HartState_reset_wf.
  - by apply (reset_wf BLOCK_CACHE_BITS).
Qed.

Lemma step_max_handle_wf {S E} (handle : S -> MachineState -> Environ.EnvironException -> result bool E * S * MachineState) fuel :
  (forall h s e, machine_wf s -> machine_wf (handle h s e).2) ->
  forall steps bound h s, machine_wf s -> machine_wf (step_max_handle fuel steps bound handle h s).2.
Proof.
  intros Hh. induction fuel as [|fuel IH]; intros steps bound h s M; [done|].
  pose proof (step_max_loop_wf (Datatypes.S fuel) 0 bound s M) as W.
  cbn [step_max_handle]. unfold step_max. destruct (step_max_loop _ _ _ _) as [[[k [c|]]|] s']; [|done..].
  cbn [smr_error smr_steps]. specialize (Hh h s' c W). destruct (handle h s' c) as [[[[|]|e] h'] s'']; [|done..].
  by apply IH.
Qed.

Lemma step_wf fuel s : machine_wf s -> machine_wf (step fuel s).2.
Proof.
  intros M. unfold step. pose proof (step_max_inner_wf fuel 0 1 s M) as W.
  by destruct (step_max_inner fuel 0 1 s) as [[r k] s'].
Qed.

(** C4. The invariant of the machine.  Resetting a machine of the right shape
    establishes it: 64-bit registers, program counter and CSR cells, block
    entries within their capacity, and a partial block that has instructions
    left.  Every run keeps it, whatever the instructions, the traps and
    the way it ends, and so does a run whose environment calls are
    served by a handler that keeps it. *)
Theorem machine_invariant {S E} fuel bound steps s h
  (handle : S -> MachineState -> Environ.EnvironException -> result bool E * S * MachineState) :
  (forall h s e, machine_wf s -> machine_wf (handle h s e).2) ->
  (regs_wf s -> (forall i, length (s.(block_cache).(bl_entries) i).(bc_instr) = Z.to_nat CACHE_INSTR) ->
   machine_wf (MachineState_reset s)) /\
  (machine_wf s ->
   machine_wf (step fuel s).2 /\ machine_wf (step_max fuel bound s).2 /\
   machine_wf (step_max_handle fuel steps bound handle h s).2).
Proof.
  intros Hh. split; [apply MachineState_reset_wf|]. intros M. split; [by apply step_wf|].
  split; [by apply step_max_loop_wf|by apply step_max_handle_wf].
Qed.

End step.

(** ** Example *)

#[local] Existing Instances M1K TestCacheLayouts ApFloat_example ArbitraryInt_ref ApFloat_example_laws.

Lemma machine_example_machine_wf : machine_wf machine_example.
Proof. split; [exact HartState_example_wf|exact machine_example_wf]. Qed.

Lemma machine_invariant_witness :
  machine_wf (step_max_handle 11 0 (Included 11) (fun h s _ => (Ok (E := unit) false, h, s)) tt machine_example).2.
Proof.
  apply (machine_invariant 11 (Included 11) 0 machine_example tt (fun h s _ => (Ok (E := unit) false, h, s))
           (fun h s e M => M)).
  exact machine_example_machine_wf.
Defined.
