(* ===== verification/HandleSpec.v ===== *)
(** [step_max_handle] with any handler: running many steps at once, with the
    handler called at each environment exception, is running them one at a
    time. *)
From S2P Require Import Prelude Registers CSRegister Traps XStatus CSRegisters HartState Bus.
From S2P Require Import Instruction Parser ParserSpec HartStateSpec FloatSpec IntInstr.
From S2P Require Import AddressTranslation TranslationCache MachineCore MachineCoreSpec CoreInstr.
From S2P Require Import Float.
From S2P Require Import RunInstr RunInstrSpec.
From S2P Require Import InstructionCache BlockCache BlockCacheSpec MachineState StepSpec StepWf.

Lemma saturating_add_small a b : a + b < 2 ^ 64 -> saturating_add_usize a b = a + b.
Proof. unfold saturating_add_usize, USIZE_MAX. pow2. lia. Qed.

Lemma bound_sub_steps n k : 0 <= k -> k <= Z.of_nat n ->
  bound_saturating_sub (Included (Z.of_nat n)) k = Included (Z.of_nat (n - Z.to_nat k)).
Proof. intros. unfold bound_saturating_sub, saturating_sub. f_equal. lia. Qed.

Section handle.
Context `{ML : MainMemoryLayout} `{AP : ApFloat} `{AI : ArbitraryInt} `{CL : CacheLayouts}.
Context {APL : ApFloatLaws AP}.

(** A bounded run of the machine, in terms of single steps. *)
Lemma step_max_steps n s fuel :
  blocks_wf s -> (n < fuel)%nat ->
  let '(r, k, s') := steps_one_by_one n s in
  match r with
  | Some (Ok _) => step_max fuel (Included (Z.of_nat n)) s =
                     (Some {| smr_steps := Z.of_nat n; smr_error := None |}, s')
  | Some (Err e) => step_max fuel (Included (Z.of_nat n)) s =
                     (Some {| smr_steps := k; smr_error := Some e |}, s')
  | None => True
  end.
Proof.
  intros W F. pose proof (steps_one_by_one_run n s fuel 0 W ltac:(lia)) as R.
  destruct (steps_one_by_one n s) as [[[[u|e]|] k] s'] eqn:E; [..|done];
    specialize (R ltac:(done)); rewrite !Z.add_0_l in R; unfold step_max;
    (destruct fuel as [|fuel]; [lia|]); cbn [step_max_loop unwrap_bound]; rewrite R; [|done].
  destruct u. apply steps_one_by_one_wf in E as [_ ->]; [|done]. cbn [less_than_bound].
  by rewrite Z.ltb_irrefl.
Qed.

Lemma steps_one_by_one_machine_wf n : forall s, machine_wf s -> machine_wf (steps_one_by_one n s).2.
Proof.
  induction n as [|n IH]; intros s W; [done|]. cbn [steps_one_by_one].
  pose proof (step_wf 1 s W) as W1. destruct (step 1 s) as [[[u|e]|] s1]; [|done..].
  specialize (IH s1 W1). by destruct (steps_one_by_one n s1) as [[r k] s2].
Qed.

Context {S E : Type}.
Context (handle : S -> MachineState -> Environ.EnvironException -> result bool E * S * MachineState).
Context (handle_wf : forall h m e, machine_wf m -> machine_wf (handle h m e).2).

(** The result with [d] more steps. *)
Definition add_result_steps (d : Z) (r : option (StepManyResult E) * S * MachineState) :
  option (StepManyResult E) * S * MachineState :=
  let '(o, h, s) := r in
  (option_map (fun x => {| smr_steps := d + x.(smr_steps); smr_error := x.(smr_error) |}) o, h, s).

(** [n] calls of [step], with the handler called at each exception, up to a
    call of it that does not ask to continue. *)
Fixpoint handled_one_by_one (n : nat) (h : S) (s : MachineState) : option (StepManyResult E) * S * MachineState :=
  match n with
  | O => (Some {| smr_steps := 0; smr_error := None |}, h, s)
  | Datatypes.S n =>
      match step 1 s with
      | (Some (Ok _), s) => add_result_steps 1 (handled_one_by_one n h s)
      | (Some (Err exc), s) =>
          match handle h s exc with
          | (Ok true, h, s) => add_result_steps 1 (handled_one_by_one n h s)
          | (Ok false, h, s) => (Some {| smr_steps := 1; smr_error := None |}, h, s)
          | (Err error, h, s) => (Some {| smr_steps := 1; smr_error := Some error |}, h, s)
          end
      | (None, s) => (None, h, s)
      end
  end.

Lemma add_result_steps_plus d d' r : add_result_steps d (add_result_steps d' r) = add_result_steps (d + d') r.
Proof. destruct r as [[[[k e]|] h] s]; [|done]. simpl. do 4 f_equal. lia. Qed.

(** What follows a run of [k] steps that ended in an exception, with [n] more
    steps allowed after the call. *)
Definition after_exception (k : Z) (n : nat) (h : S) (s : MachineState) (exc : Environ.EnvironException) :
  option (StepManyResult E) * S * MachineState :=
  match handle h s exc with
  | (Ok true, h, s) => add_result_steps (k + 1) (handled_one_by_one n h s)
  | (Ok false, h, s) => (Some {| smr_steps := k + 1; smr_error := None |}, h, s)
  | (Err error, h, s) => (Some {| smr_steps := k + 1; smr_error := Some error |}, h, s)
  end.

Lemma after_exception_plus d k n h s exc :
  add_result_steps d (after_exception k n h s exc) = after_exception (d + k) n h s exc.
Proof.
  unfold after_exception. destruct (handle h s exc) as [[[[]|err] h'] s'];
    rewrite ?add_result_steps_plus; cbn; rewrite ?Z.add_assoc; done.
Qed.

(** The steps of the machine that need no call, then the call. *)
Lemma handled_steps n : forall h s,
  let '(r, k, s') := steps_one_by_one n s in
  handled_one_by_one n h s =
  match r with
  | Some (Ok _) => (Some {| smr_steps := k; smr_error := None |}, h, s')
  | Some (Err exc) => after_exception k (n - Datatypes.S (Z.to_nat k)) h s' exc
  | None => (None, h, s')
  end /\ match r with Some (Err _) => 0 <= k < Z.of_nat n | _ => 0 <= k end.
Proof.
  induction n as [|n IH]; intros h s; [done|]. cbn [steps_one_by_one handled_one_by_one].
  destruct (step 1 s) as [[[u|exc]|] s1].
  - specialize (IH h s1). destruct (steps_one_by_one n s1) as [[r k] s']. destruct IH as [-> K].
    destruct r as [[u'|exc]|]; [|rewrite after_exception_plus|]; (split; [|lia]).
    + simpl. by rewrite Z.add_comm.
    + rewrite Z.add_comm. f_equal. lia.
    + done.
  - split; [|lia]. by rewrite Nat.sub_succ, Nat.sub_0_r.
  - done.
Qed.

(** A run with a bound of [n] steps is [n] single steps; more than [n] units
    of fuel are enough, unless a single step runs out of fuel, which it does
    at an empty block only. *)
Lemma step_max_handle_one_by_one n : forall fuel acc h s,
  machine_wf s -> (n < fuel)%nat -> 0 <= acc -> acc + Z.of_nat n < 2 ^ 64 ->
  (handled_one_by_one n h s).1.1 <> None ->
  step_max_handle fuel acc (Included (Z.of_nat n)) handle h s = add_result_steps acc (handled_one_by_one n h s).
Proof.
  induction n as [n IH] using lt_wf_ind. intros fuel acc h s W F A B T.
  pose proof (handled_steps n h s) as H. pose proof (step_max_steps n s fuel (proj2 W) F) as M.
  pose proof (steps_one_by_one_machine_wf n s W) as W1. destruct fuel as [|fuel]; [lia|].
  destruct (steps_one_by_one n s) as [[[[u|exc]|] k] s1] eqn:R; destruct H as [H K];
    rewrite H in T |- *; [| |done]; cbn [step_max_handle]; rewrite M; cbn [smr_steps smr_error].
  - destruct u. apply steps_one_by_one_wf in R as [_ ->]; [|apply W]. by rewrite saturating_add_small by lia.
  - unfold after_exception in T |- *. pose proof (handle_wf h s1 exc W1) as W2.
    rewrite !saturating_add_small by (rewrite ?saturating_add_small; lia). rewrite !bound_sub_steps by lia.
    destruct (handle h s1 exc) as [[[[]|err] h'] s2]; [|simpl; do 4 f_equal; lia..].
    replace (n - Z.to_nat k - Z.to_nat 1)%nat with (n - Datatypes.S (Z.to_nat k))%nat by lia.
    rewrite IH, add_result_steps_plus by (done || lia || (intros O; apply T; destruct (handled_one_by_one _ h' s2) as [[[]]]; done)).
    f_equal. lia.
Qed.

(** A rule for runs: an invariant of the handler's state that each call which
    asks to continue keeps, and what holds of the result of a run that used up
    its steps, or that a call ended. *)
Lemma step_max_handle_rule (I : S -> Prop) (Q : option E -> S -> MachineState -> Prop) :
  (forall h s, I h -> Q None h s) ->
  (forall h s exc, I h ->
    match handle h s exc with
    | (Ok true, h', _) => I h'
    | (Ok false, h', s') => Q None h' s'
    | (Err error, h', s') => Q (Some error) h' s'
    end) ->
  forall fuel acc bound h s, I h ->
  match step_max_handle fuel acc bound handle h s with
  | (Some r, h', s') => Q r.(smr_error) h' s'
  | (None, _, _) => True
  end.
Proof.
  intros Q0 H. induction fuel as [|fuel IH]; intros acc bound h s Ih; [done|]. cbn [step_max_handle].
  destruct (step_max _ bound s) as [[[k [exc|]]|] s1]; cbn [smr_error smr_steps]; [|by apply Q0|done].
  specialize (H h s1 exc Ih). destruct (handle h s1 exc) as [[[[]|error] h'] s2]; [by apply IH|done..].
Qed.
End handle.
