(* ===== verification/Sbi.v ===== *)
(** The supervisor binary interface of the PVM
    ([src/riscv/lib/src/pvm/sbi.rs]): how environment calls are served and
    how input and metadata are handed to the machine.

    All of it works on the core of the machine.  A Rust panic is an outcome of
    its own: the only one that a guest can reach is the allocation of a
    buffer whose size it chooses ([vec!] panics above [isize::MAX] bytes). *)
From S2P Require Import Prelude Registers CSRegister Traps XStatus CSRegisters HartState Bus.
From S2P Require Import Instruction AddressTranslation TranslationCache MachineCore.

(** ** Constants *)

(* kernel_sdk/constants/src/riscv.rs:6-6 SBI_CONSOLE_PUTCHAR *)
Definition SBI_CONSOLE_PUTCHAR : Z := 0x01.
(* kernel_sdk/constants/src/riscv.rs:9-9 SBI_SHUTDOWN *)
Definition SBI_SHUTDOWN : Z := 0x08.
(* kernel_sdk/constants/src/riscv.rs:12-12 SBI_DBCN *)
Definition SBI_DBCN : Z := 0x4442434E.
(* kernel_sdk/constants/src/riscv.rs:15-15 SBI_DBCN_CONSOLE_WRITE_BYTE *)
Definition SBI_DBCN_CONSOLE_WRITE_BYTE : Z := 0x02.
(* kernel_sdk/constants/src/riscv.rs:18-18 SBI_SRST *)
Definition SBI_SRST : Z := 0x53525354.
(* kernel_sdk/constants/src/riscv.rs:21-21 SBI_SRST_SYSTEM_RESET *)
Definition SBI_SRST_SYSTEM_RESET : Z := 0x00.
(* kernel_sdk/constants/src/riscv.rs:25-25 SBI_FIRMWARE_TEZOS *)
Definition SBI_FIRMWARE_TEZOS : Z := 0x0A000000.
(* kernel_sdk/constants/src/riscv.rs:28-28 SBI_TEZOS_INBOX_NEXT *)
Definition SBI_TEZOS_INBOX_NEXT : Z := 0x01.
(* kernel_sdk/constants/src/riscv.rs:31-31 SBI_TEZOS_METADATA_REVEAL *)
Definition SBI_TEZOS_METADATA_REVEAL : Z := 0x08.
(* kernel_sdk/constants/src/riscv.rs:34-34 SBI_TEZOS_ED25519_VERIFY *)
Definition SBI_TEZOS_ED25519_VERIFY : Z := 0x05.
(* kernel_sdk/constants/src/riscv.rs:37-37 SBI_TEZOS_ED25519_SIGN *)
Definition SBI_TEZOS_ED25519_SIGN : Z := 0x06.
(* kernel_sdk/constants/src/riscv.rs:40-40 SBI_TEZOS_BLAKE2B_HASH256 *)
Definition SBI_TEZOS_BLAKE2B_HASH256 : Z := 0x07.
(* kernel_sdk/constants/src/core.rs:11-11 MAX_INPUT_MESSAGE_SIZE *)
Definition MAX_INPUT_MESSAGE_SIZE : Z := 4096.

(* kernel_sdk/constants/src/riscv.rs:43-56 SbiError *)
Inductive SbiError : Set :=
| Failed | NotSupported | InvalidParam | Denied | InvalidAddress | AlreadyAvailable | AlreadyStarted
| AlreadyStopped | NoSharedMemory | UnknownError.

(* kernel_sdk/constants/src/riscv.rs:45-56 SbiError *)
Definition SbiError_repr (e : SbiError) : Z :=
  match e with
  | Failed => -1 | NotSupported => -2 | InvalidParam => -3 | Denied => -4 | InvalidAddress => -5
  | AlreadyAvailable => -6 | AlreadyStarted => -7 | AlreadyStopped => -8 | NoSharedMemory => -9
  | UnknownError => - 2 ^ 63
  end.

(* kernel_sdk/constants/src/riscv.rs:60-74 SbiError::from_result *)
Definition SbiError_from_result (result : Z) : option SbiError :=
  if result =? -1 then Some Failed
  else if result =? -2 then Some NotSupported
  else if result =? -3 then Some InvalidParam
  else if result =? -4 then Some Denied
  else if result =? -5 then Some InvalidAddress
  else if result =? -6 then Some AlreadyAvailable
  else if result =? -7 then Some AlreadyStarted
  else if result =? -8 then Some AlreadyStopped
  else if result =? -9 then Some NoSharedMemory
  else if result <? 0 then Some UnknownError
  else None.

(* traps.rs:105-121 From<Exception> for SbiError *)
Definition SbiError_from_Exception (value : Exception) : SbiError :=
  match value with
  | InstructionAccessFault _ | InstructionPageFault _ | LoadAccessFault _ | LoadPageFault _
  | StoreAMOAccessFault _ | StoreAMOPageFault _ => InvalidAddress
  | IllegalInstruction | Breakpoint | EnvCallFromUMode | EnvCallFromSMode | EnvCallFromMMode => Failed
  end.

(* machine_state/bus.rs:20-24 From<OutOfBounds> for SbiError *)
Definition SbiError_from_OutOfBounds (_ : OutOfBounds) : SbiError := InvalidAddress.

(* machine_state/registers.rs:73-73 a0 *)
Definition a0 : XRegister := x10.
(* machine_state/registers.rs:74-74 a1 *)
Definition a1 : XRegister := x11.
(* machine_state/registers.rs:75-75 a2 *)
Definition a2 : XRegister := x12.
(* machine_state/registers.rs:76-76 a3 *)
Definition a3 : XRegister := x13.
(* machine_state/registers.rs:79-79 a6 *)
Definition a6 : XRegister := x16.
(* machine_state/registers.rs:80-80 a7 *)
Definition a7 : XRegister := x17.

(* pvm/common.rs:75-79 PvmStatus *)
Inductive PvmStatus : Set := Evaluating | WaitingForInput | WaitingForMetadata.
#[export] Instance PvmStatus_eq_dec : EqDecision PvmStatus.
Proof. solve_decision. Defined.

(** ** Services that are not part of this repository

    Ed25519 (crate [ed25519-dalek]) and BLAKE2b (crate [tezos_crypto_rs]), on
    sequences of bytes. *)
Class TezosCrypto := {
  SigningKey : Type;
  SigningKey_try_from : list Z -> option SigningKey;
  sign : SigningKey -> list Z -> list Z;
  VerifyingKey : Type;
  VerifyingKey_try_from : list Z -> option VerifyingKey;
  Signature : Type;
  Signature_from_slice : list Z -> option Signature;
  verify_strict : VerifyingKey -> list Z -> Signature -> bool;
  digest_256 : list Z -> list Z;
}.

(** ** Return values *)

(** How a closure passed to [sbi_wrap] ends without a value. *)
Inductive sbi_failure : Set := SbiErr (e : SbiError) | SbiPanic.

Definition sbiM (A : Type) : Type := stM MachineCoreState sbi_failure A.

Definition write_xreg (c : MachineCoreState) (r : XRegister) (v : Z) : MachineCoreState :=
  set_hart c (xwrite c.(hart) r v).

(* pvm/sbi.rs:29-34 sbi_return_error *)
Definition sbi_return_error (c : MachineCoreState) (code : SbiError) : MachineCoreState :=
  write_xreg c a0 (as_u64 (SbiError_repr code)).

(* pvm/sbi.rs:38-49 sbi_return1 *)
Definition sbi_return1 (c : MachineCoreState) (value : Z) : MachineCoreState :=
  if as_i64 value <? 0 then sbi_return_error c Failed else write_xreg c a0 value.

(* pvm/sbi.rs:53-64 sbi_return_sbiret *)
Definition sbi_return_sbiret (c : MachineCoreState) (error : option SbiError) (value : Z) :
  MachineCoreState :=
  let c := write_xreg c a0 (match error with Some err => as_u64 (SbiError_repr err) | None => 0 end) in
  write_xreg c a1 value.

(** [None] is a panic. *)
(* pvm/sbi.rs:68-79 sbi_wrap *)
Definition sbi_wrap (c : MachineCoreState) (inner : sbiM Z) : option MachineCoreState :=
  match inner c with
  | (Ok value, c) => Some (sbi_return1 c value)
  | (Err (SbiErr error), c) => Some (sbi_return_error c error)
  | (Err SbiPanic, _) => None
  end.

(** ** Access to the machine *)

(** The steps of the closures; the [?] operator converts their errors. *)
Definition sbi_reg (r : XRegister) : sbiM Z := gets (fun c => xread c.(hart) r).

Section sbi.
Context `{ML : MainMemoryLayout}.

Definition sbi_translate (va : Z) (acc : AccessType) : sbiM Z := fun c =>
  let '(r, c) := translate va acc c in
  (result_map_err (fun e => SbiErr (SbiError_from_Exception e)) r, c).

Definition sbi_oob {A} (r : result A OutOfBounds) : result A sbi_failure :=
  result_map_err (fun e => SbiErr (SbiError_from_OutOfBounds e)) r.

Definition sbi_write_all (addr : Z) (bytes : list Z) : sbiM unit := fun c =>
  let '(r, b) := Bus_write_all U8 c.(bus) addr bytes in (sbi_oob r, set_bus c b).

Definition sbi_write_u32 (addr value : Z) : sbiM unit := fun c =>
  let '(r, b) := Bus_write U32 c.(bus) addr value in (sbi_oob r, set_bus c b).

Definition sbi_read_all (addr : Z) (len : nat) : sbiM (list Z) := fun c =>
  (sbi_oob (Bus_read_all U8 c.(bus) addr len), c).

Definition sbi_require {A} (o : option A) : sbiM A :=
  match o with Some a => st_ret a | None => throw (SbiErr Failed) end.

(** [vec![0; len]]: the capacity of a vector is at most [isize::MAX] bytes. *)
Definition ISIZE_MAX : Z := 2 ^ 63 - 1.
Definition vec_zeroed (len : Z) : sbiM unit := if ISIZE_MAX <? len then throw SbiPanic else st_ret tt.

(** ** Input *)

(* pvm/sbi.rs:83-102 provide_no_input *)
Definition sbi_provide_no_input (status : PvmStatus) (c : MachineCoreState) :
  bool * PvmStatus * MachineCoreState :=
  match status with
  | WaitingForInput => (true, Evaluating, sbi_return1 c 0)
  | _ => (false, status, c)
  end.

(* pvm/sbi.rs:128-161 provide_input *)
Definition write_input (level counter : Z) (payload : list Z) : sbiM Z :=
  let! arg_buffer_addr := sbi_reg a0 in
  let! arg_buffer_size := sbi_reg a1 in
  let! arg_level_addr := sbi_reg a2 in
  let! arg_counter_addr := sbi_reg a3 in
  let! phys_buffer_addr := sbi_translate arg_buffer_addr AStore in
  let! phys_level_addr := sbi_translate arg_level_addr AStore in
  let! phys_counter_addr := sbi_translate arg_counter_addr AStore in
  let max_buffer_size :=
    Z.min (Z.min (Z.of_nat (length payload)) arg_buffer_size) MAX_INPUT_MESSAGE_SIZE in
  let! _ := sbi_write_all phys_buffer_addr (take (Z.to_nat max_buffer_size) payload) in
  let! _ := sbi_write_u32 phys_level_addr level in
  let! _ := sbi_write_u32 phys_counter_addr counter in
  st_ret max_buffer_size.

(* pvm/sbi.rs:106-164 provide_input *)
Definition sbi_provide_input (status : PvmStatus) (c : MachineCoreState) (level counter : Z)
  (payload : list Z) : option (bool * PvmStatus * MachineCoreState) :=
  match status with
  | WaitingForInput =>
      c ← sbi_wrap c (write_input level counter payload);
      Some (true, Evaluating, c)
  | _ => Some (false, status, c)
  end.

(* pvm/sbi.rs:189-204 provide_metadata *)
Definition write_metadata (rollup_address : list Z) (origination_level : Z) : sbiM Z :=
  let! arg_buffer_addr := sbi_reg a0 in
  let! phys_dest_addr := sbi_translate arg_buffer_addr AStore in
  let! _ := sbi_write_all phys_dest_addr rollup_address in
  st_ret origination_level.

(* pvm/sbi.rs:168-207 provide_metadata *)
Definition sbi_provide_metadata (status : PvmStatus) (c : MachineCoreState) (rollup_address : list Z)
  (origination_level : Z) : option (bool * PvmStatus * MachineCoreState) :=
  match status with
  | WaitingForMetadata =>
      c ← sbi_wrap c (write_metadata rollup_address origination_level);
      Some (true, Evaluating, c)
  | _ => Some (false, status, c)
  end.

End sbi.

(** ** Calls *)

(** What a call works on: the status cell, the core and the bytes passed to
    the [putchar] hook so far. *)
Record sbi_state : Type := { ss_status : PvmStatus; ss_core : MachineCoreState; ss_output : list Z }.

Definition with_core (s : sbi_state) (c : MachineCoreState) : sbi_state :=
  {| ss_status := s.(ss_status); ss_core := c; ss_output := s.(ss_output) |}.
Definition with_status (s : sbi_state) (v : PvmStatus) : sbi_state :=
  {| ss_status := v; ss_core := s.(ss_core); ss_output := s.(ss_output) |}.
Definition putchar (s : sbi_state) (c : Z) : sbi_state :=
  {| ss_status := s.(ss_status); ss_core := s.(ss_core); ss_output := s.(ss_output) ++ [c] |}.

(* pvm/sbi.rs:211-217 handle_tezos_inbox_next *)
Definition handle_tezos_inbox_next (s : sbi_state) : sbi_state := with_status s WaitingForInput.

(* pvm/sbi.rs:221-227 handle_tezos_metadata_reveal *)
Definition handle_tezos_metadata_reveal (s : sbi_state) : sbi_state := with_status s WaitingForMetadata.

(* pvm/sbi.rs:383-392 handle_not_supported *)
Definition handle_not_supported (s : sbi_state) : sbi_state :=
  with_core s (sbi_return_error s.(ss_core) NotSupported).

(* pvm/sbi.rs:326-334 handle_legacy_shutdown *)
Definition handle_legacy_shutdown (s : sbi_state) : sbi_state := handle_not_supported s.

(* pvm/sbi.rs:338-351 handle_legacy_console_putchar *)
Definition handle_legacy_console_putchar (s : sbi_state) : sbi_state :=
  let char := as_u8 (xread s.(ss_core).(hart) a0) in
  let s := putchar s char in
  with_core s (sbi_return1 s.(ss_core) 0).

(* pvm/sbi.rs:355-368 handle_debug_console_write_byte *)
Definition handle_debug_console_write_byte (s : sbi_state) : sbi_state :=
  let char := as_u8 (xread s.(ss_core).(hart) a0) in
  let s := putchar s char in
  with_core s (sbi_return_sbiret s.(ss_core) None 0).

(* pvm/sbi.rs:372-379 handle_system_reset *)
Definition handle_system_reset (s : sbi_state) : sbi_state :=
  with_core s (sbi_return_sbiret s.(ss_core) (Some NotSupported) 0).

Section calls.
Context `{ML : MainMemoryLayout} `{TCR : TezosCrypto}.

(* pvm/sbi.rs:231-261 handle_tezos_ed25519_sign *)
Definition handle_tezos_ed25519_sign : sbiM Z :=
  let! arg_sk_addr := sbi_reg a0 in
  let! arg_msg_addr := sbi_reg a1 in
  let! arg_msg_len := sbi_reg a2 in
  let! arg_sig_addr := sbi_reg a3 in
  let! sk_addr := sbi_translate arg_sk_addr ALoad in
  let! msg_addr := sbi_translate arg_msg_addr ALoad in
  let! sig_addr := sbi_translate arg_sig_addr AStore in
  let! sk_bytes := sbi_read_all sk_addr 32 in
  let! sk := sbi_require (SigningKey_try_from sk_bytes) in
  let! _ := vec_zeroed arg_msg_len in
  let! msg_bytes := sbi_read_all msg_addr (Z.to_nat arg_msg_len) in
  let sig_bytes := sign sk msg_bytes in
  let! _ := sbi_write_all sig_addr sig_bytes in
  st_ret (Z.of_nat (length sig_bytes)).

(* pvm/sbi.rs:265-296 handle_tezos_ed25519_verify *)
Definition handle_tezos_ed25519_verify : sbiM Z :=
  let! arg_pk_addr := sbi_reg a0 in
  let! arg_sig_addr := sbi_reg a1 in
  let! arg_msg_addr := sbi_reg a2 in
  let! arg_msg_len := sbi_reg a3 in
  let! pk_addr := sbi_translate arg_pk_addr ALoad in
  let! sig_addr := sbi_translate arg_sig_addr AStore in
  let! msg_addr := sbi_translate arg_msg_addr ALoad in
  let! pk_bytes := sbi_read_all pk_addr 32 in
  let! sig_bytes := sbi_read_all sig_addr 64 in
  let! _ := vec_zeroed arg_msg_len in
  let! msg_bytes := sbi_read_all msg_addr (Z.to_nat arg_msg_len) in
  let! pk := sbi_require (VerifyingKey_try_from pk_bytes) in
  let! sig := sbi_require (Signature_from_slice sig_bytes) in
  let valid := verify_strict pk msg_bytes sig in
  st_ret (if valid then 1 else 0).

(* pvm/sbi.rs:300-322 handle_tezos_blake2b_hash256 *)
Definition handle_tezos_blake2b_hash256 : sbiM Z :=
  let! arg_out_addr := sbi_reg a0 in
  let! arg_msg_addr := sbi_reg a1 in
  let! arg_msg_len := sbi_reg a2 in
  let! out_addr := sbi_translate arg_out_addr AStore in
  let! msg_addr := sbi_translate arg_msg_addr ALoad in
  let! _ := vec_zeroed arg_msg_len in
  let! msg_bytes := sbi_read_all msg_addr (Z.to_nat arg_msg_len) in
  let hash := digest_256 msg_bytes in
  let! _ := sbi_write_all out_addr hash in
  st_ret (Z.of_nat (length hash)).

Definition wrapped (s : sbi_state) (inner : sbiM Z) : option sbi_state :=
  c ← sbi_wrap s.(ss_core) inner; Some (with_core s c).

(** The dispatch on the extension ([a7]) and the function ([a6]). *)
(* pvm/sbi.rs:420-450 handle_call *)
Definition sbi_dispatch (s : sbi_state) : option sbi_state :=
  let sbi_extension := xread s.(ss_core).(hart) a7 in
  let sbi_function := xread s.(ss_core).(hart) a6 in
  if sbi_extension =? SBI_CONSOLE_PUTCHAR then Some (handle_legacy_console_putchar s)
  else if sbi_extension =? SBI_SHUTDOWN then Some (handle_legacy_shutdown s)
  else if sbi_extension =? SBI_DBCN then
    Some (if sbi_function =? SBI_DBCN_CONSOLE_WRITE_BYTE
          then handle_debug_console_write_byte s else handle_not_supported s)
  else if sbi_extension =? SBI_SRST then
    Some (if sbi_function =? SBI_SRST_SYSTEM_RESET
          then handle_system_reset s else handle_not_supported s)
  else if sbi_extension =? SBI_FIRMWARE_TEZOS then
    if sbi_function =? SBI_TEZOS_INBOX_NEXT then Some (handle_tezos_inbox_next s)
    else if sbi_function =? SBI_TEZOS_METADATA_REVEAL then Some (handle_tezos_metadata_reveal s)
    else if sbi_function =? SBI_TEZOS_ED25519_SIGN then wrapped s handle_tezos_ed25519_sign
    else if sbi_function =? SBI_TEZOS_ED25519_VERIFY then wrapped s handle_tezos_ed25519_verify
    else if sbi_function =? SBI_TEZOS_BLAKE2B_HASH256 then wrapped s handle_tezos_blake2b_hash256
    else Some (handle_not_supported s)
  else Some (handle_not_supported s).

(** Whether to continue, and the state; [None] is a panic. *)
(* pvm/sbi.rs:396-453 handle_call *)
Definition handle_call (s : sbi_state) (env_exception : Environ.EnvironException) :
  option (bool * sbi_state) :=
  match env_exception with
  | Environ.EnvCallFromMMode => Some (true, with_core s (sbi_return_error s.(ss_core) Failed))
  | _ =>
      let h := s.(ss_core).(hart) in
      let pc := h.(pc) ⊞ InstrWidth_repr (InstrUncacheable_width Ecall) in
      let s := with_core s (set_hart s.(ss_core) (set_pc h pc)) in
      s ← sbi_dispatch s;
      Some (bool_decide (s.(ss_status) = Evaluating), s)
  end.

End calls.
