(* ===== verification/SbiSpec.v ===== *)
(** The supervisor binary interface: what a call changes, when it panics, and
    where input ends up. *)
From S2P Require Import Prelude Registers CSRegister Traps XStatus CSRegisters HartState.
From S2P Require Import HartStateSpec Bus BusSpec.
From S2P Require Import Instruction AddressTranslation TranslationCache MachineCore.
From S2P Require Import MachineCoreSpec.
From S2P Require Import IntInstrSpec RunInstrSpec CoreInstrSpec Sbi.

(** What the services promise: the sizes of their outputs. *)
Class TezosCryptoLaws (TCR : TezosCrypto) : Prop := {
  sign_length k m : length (sign k m) = 64%nat;
  sign_bytes k m : Forall (is_elem U8) (sign k m);
  digest_length m : length (digest_256 m) = 32%nat;
  digest_bytes m : Forall (is_elem U8) (digest_256 m);
}.

(** ** Closures leave the hart alone *)

Section hart.
Context `{ML : MainMemoryLayout} `{TCR : TezosCrypto}.

Definition hart_is (h : HartState) (c : MachineCoreState) : Prop := c.(hart) = h.

Lemma sbi_reg_hart h r : keeps (hart_is h) (sbi_reg r).
Proof. by intros c H. Qed.

Lemma sbi_translate_hart h va acc : keeps (hart_is h) (sbi_translate va acc).
Proof.
  intros c H. unfold sbi_translate. pose proof (translate_same va acc c) as S.
  destruct (translate va acc c) as [r c']. destruct S as [S _]. unfold hart_is in *. simpl. by rewrite S.
Qed.

Lemma sbi_write_all_hart h a l : keeps (hart_is h) (sbi_write_all a l).
Proof. intros c H. unfold sbi_write_all. by destruct (Bus_write_all _ _ _ _). Qed.

Lemma sbi_write_u32_hart h a v : keeps (hart_is h) (sbi_write_u32 a v).
Proof. intros c H. unfold sbi_write_u32. by destruct (Bus_write _ _ _ _). Qed.

Lemma sbi_read_all_hart h a n : keeps (hart_is h) (sbi_read_all a n).
Proof. by intros c H. Qed.

Lemma sbi_require_hart {A} h (o : option A) : keeps (hart_is h) (sbi_require o).
Proof. destruct o; by intros c H. Qed.

Lemma vec_zeroed_hart h n : keeps (hart_is h) (vec_zeroed n).
Proof. unfold vec_zeroed. by destruct (_ <? _); intros c H. Qed.

Hint Resolve sbi_reg_hart sbi_translate_hart sbi_write_all_hart sbi_write_u32_hart sbi_read_all_hart
  sbi_require_hart vec_zeroed_hart : keeps.

Lemma services_hart h :
  keeps (hart_is h) handle_tezos_ed25519_sign /\ keeps (hart_is h) handle_tezos_ed25519_verify /\
  keeps (hart_is h) handle_tezos_blake2b_hash256.
Proof.
  unfold handle_tezos_ed25519_sign, handle_tezos_ed25519_verify, handle_tezos_blake2b_hash256.
  split_and!; auto 40 with keeps.
Qed.

Lemma write_input_hart h lvl counter payload : keeps (hart_is h) (write_input lvl counter payload).
Proof. unfold write_input. auto 40 with keeps. Qed.

Lemma sbi_return1_hart c v : exists w, (sbi_return1 c v).(hart) = xwrite c.(hart) a0 w.
Proof. unfold sbi_return1. destruct (_ <? 0); by eexists. Qed.

Lemma sbi_wrap_hart c inner c' :
  (forall h, keeps (hart_is h) inner) -> sbi_wrap c inner = Some c' ->
  exists w, c'.(hart) = xwrite c.(hart) a0 w.
Proof.
  intros K. unfold sbi_wrap. specialize (K c.(hart) c eq_refl). unfold hart_is in K.
  destruct (inner c) as [[v|[e|]] c1]; cbn [snd] in K; intros [= <-].
  - rewrite <- K. apply sbi_return1_hart.
  - rewrite <- K. by eexists.
Qed.

(** ** Panics *)

Definition no_panic {A} (m : sbiM A) : Prop := forall c, (m c).1 <> Err SbiPanic.

Lemma no_panic_bind {A B} (m : sbiM A) (k : A -> sbiM B) :
  no_panic m -> (forall a, no_panic (k a)) -> no_panic (st_bind m k).
Proof.
  intros M K c. unfold st_bind. specialize (M c). destruct (m c) as [[a|e] c']; [apply K|].
  cbn [fst] in *. congruence.
Qed.

Lemma no_panic_translate va acc : no_panic (sbi_translate va acc).
Proof. intros c. unfold sbi_translate. by destruct (translate va acc c) as [[?|?] ?]. Qed.

Lemma no_panic_write_all a l : no_panic (sbi_write_all a l).
Proof. intros c. unfold sbi_write_all. by destruct (Bus_write_all _ _ _ _) as [[?|?] ?]. Qed.

Lemma no_panic_write_u32 a v : no_panic (sbi_write_u32 a v).
Proof. intros c. unfold sbi_write_u32. by destruct (Bus_write _ _ _ _) as [[?|?] ?]. Qed.

Lemma no_panic_read_all a n : no_panic (sbi_read_all a n).
Proof. intros c. unfold sbi_read_all. by destruct (Bus_read_all _ _ _ _). Qed.

Lemma no_panic_require {A} (o : option A) : no_panic (sbi_require o).
Proof. intros c. by destruct o. Qed.

Lemma no_panic_vec n : n <= ISIZE_MAX -> no_panic (vec_zeroed n).
Proof. intros L c. unfold vec_zeroed. destruct (Z.ltb_spec ISIZE_MAX n); [lia|done]. Qed.

Lemma no_panic_reg r : no_panic (sbi_reg r).
Proof. by intros c. Qed.

Lemma no_panic_ret {A} (a : A) : no_panic (st_ret a).
Proof. by intros c. Qed.

Ltac no_panic_steps :=
  cbv zeta;
  repeat (apply no_panic_bind;
    [first [apply no_panic_translate|apply no_panic_write_all|apply no_panic_write_u32|apply no_panic_read_all
           |apply no_panic_require|by apply no_panic_vec|apply no_panic_reg]|intros ?; cbv zeta]);
  apply no_panic_ret.

Lemma bind_reg {A} r (k : Z -> sbiM A) c : st_bind (sbi_reg r) k c = k (xread c.(hart) r) c.
Proof. done. Qed.

Lemma no_panic_apply {A} (m : sbiM A) c : no_panic m -> (m c).1 <> Err SbiPanic.
Proof. intros H. apply H. Qed.

Ltac no_panic_call :=
  rewrite !bind_reg;
  lazymatch goal with |- fst (?m ?c) <> _ => apply (no_panic_apply m c) end;
  no_panic_steps.

Lemma sign_no_panic c :
  xread c.(hart) a2 <= ISIZE_MAX -> (handle_tezos_ed25519_sign c).1 <> Err SbiPanic.
Proof. intros L. unfold handle_tezos_ed25519_sign. no_panic_call. Qed.

Lemma verify_no_panic c :
  xread c.(hart) a3 <= ISIZE_MAX -> (handle_tezos_ed25519_verify c).1 <> Err SbiPanic.
Proof. intros L. unfold handle_tezos_ed25519_verify. no_panic_call. Qed.

Lemma blake2b_no_panic c :
  xread c.(hart) a2 <= ISIZE_MAX -> (handle_tezos_blake2b_hash256 c).1 <> Err SbiPanic.
Proof. intros L. unfold handle_tezos_blake2b_hash256. no_panic_call. Qed.

Lemma write_input_no_panic lvl counter payload : no_panic (write_input lvl counter payload).
Proof. unfold write_input. no_panic_steps. Qed.

Lemma write_metadata_no_panic addr lvl : no_panic (write_metadata addr lvl).
Proof. unfold write_metadata. no_panic_steps. Qed.

Lemma sbi_wrap_total c inner : (inner c).1 <> Err SbiPanic -> is_Some (sbi_wrap c inner).
Proof. unfold sbi_wrap. by destruct (inner c) as [[v|[e|]] c1]. Qed.

(** ** Calls *)

(** The two harts differ in the integer registers only. *)
Definition same_control (h h' : HartState) : Prop :=
  exists xs, h' = set_xregisters h xs.

Lemma same_control_xwrite h r v : same_control h (xwrite h r v).
Proof. by eexists. Qed.

Lemma same_control_refl h : same_control h h.
Proof. exists h.(xregisters). by destruct h. Qed.

(** The size of the buffer that a service allocates. *)
Definition buffer_size (h : HartState) : Z :=
  if xread h a6 =? SBI_TEZOS_ED25519_VERIFY then xread h a3 else xread h a2.

(** The calls that allocate one. *)
Definition allocates (h : HartState) : Prop :=
  xread h a7 = SBI_FIRMWARE_TEZOS /\
  (xread h a6 = SBI_TEZOS_ED25519_SIGN \/ xread h a6 = SBI_TEZOS_ED25519_VERIFY \/
   xread h a6 = SBI_TEZOS_BLAKE2B_HASH256).

Definition asks_input (h : HartState) : Prop :=
  xread h a7 = SBI_FIRMWARE_TEZOS /\ xread h a6 = SBI_TEZOS_INBOX_NEXT.

Definition asks_metadata (h : HartState) : Prop :=
  xread h a7 = SBI_FIRMWARE_TEZOS /\ xread h a6 = SBI_TEZOS_METADATA_REVEAL.

(** What a call leaves, apart from the program counter. *)
Record dispatched (s s' : sbi_state) : Prop := {
  d_control : same_control s.(ss_core).(hart) s'.(ss_core).(hart);
  d_input : s'.(ss_status) = (if decide (asks_input s.(ss_core).(hart)) then WaitingForInput
                              else if decide (asks_metadata s.(ss_core).(hart)) then WaitingForMetadata
                              else s.(ss_status));
  d_output : s'.(ss_output) = s.(ss_output) \/
             s'.(ss_output) = s.(ss_output) ++ [xread s.(ss_core).(hart) a0 mod 256];
  d_waiting : asks_input s.(ss_core).(hart) \/ asks_metadata s.(ss_core).(hart) ->
              s'.(ss_core) = s.(ss_core) /\ s'.(ss_output) = s.(ss_output);
}.

Lemma dispatched_simple s s' :
  same_control s.(ss_core).(hart) s'.(ss_core).(hart) -> s'.(ss_status) = s.(ss_status) ->
  (s'.(ss_output) = s.(ss_output) \/ s'.(ss_output) = s.(ss_output) ++ [xread s.(ss_core).(hart) a0 mod 256]) ->
  ~ asks_input s.(ss_core).(hart) -> ~ asks_metadata s.(ss_core).(hart) -> dispatched s s'.
Proof. intros C St O I M. split; [done| |done|tauto]. by rewrite !decide_False. Qed.

Lemma wrapped_dispatched s inner s' :
  (forall h, keeps (hart_is h) inner) -> wrapped s inner = Some s' ->
  ~ asks_input s.(ss_core).(hart) -> ~ asks_metadata s.(ss_core).(hart) -> dispatched s s'.
Proof.
  intros K. unfold wrapped. destruct (sbi_wrap s.(ss_core) inner) as [c|] eqn:E; [|done]. intros [= <-] I M.
  destruct (sbi_wrap_hart _ _ _ K E) as [w Hw].
  apply dispatched_simple; auto. cbn [ss_core with_core]. rewrite Hw. apply same_control_xwrite.
Qed.

Lemma wrapped_None s inner : wrapped s inner = None -> (inner s.(ss_core)).1 = Err SbiPanic.
Proof.
  unfold wrapped, sbi_wrap. by destruct (inner s.(ss_core)) as [[v|[e|]] c1].
Qed.

Ltac not_asked :=
  unfold asks_input, asks_metadata; intros [A7 A6];
  first [congruence
        |match goal with E : xread _ a7 = _ |- _ => rewrite E in A7; discriminate A7 end
        |match goal with E : xread _ a6 = _ |- _ => rewrite E in A6; discriminate A6 end].

Lemma sbi_dispatch_spec s :
  match sbi_dispatch s with
  | Some s' => dispatched s s'
  | None => allocates s.(ss_core).(hart) /\ ISIZE_MAX < buffer_size s.(ss_core).(hart)
  end.
Proof.
  assert (K1 : forall h, keeps (hart_is h) handle_tezos_ed25519_sign) by apply services_hart.
  assert (K2 : forall h, keeps (hart_is h) handle_tezos_ed25519_verify) by apply services_hart.
  assert (K3 : forall h, keeps (hart_is h) handle_tezos_blake2b_hash256) by apply services_hart.
  unfold sbi_dispatch. cbv zeta.
  destruct (Z.eqb_spec (xread s.(ss_core).(hart) a7) SBI_CONSOLE_PUTCHAR) as [E|N1].
  { apply dispatched_simple; [by eexists|done|by right|not_asked..]. }
  destruct (Z.eqb_spec (xread s.(ss_core).(hart) a7) SBI_SHUTDOWN) as [E|N2].
  { apply dispatched_simple; [apply same_control_xwrite|done|by left|not_asked..]. }
  destruct (Z.eqb_spec (xread s.(ss_core).(hart) a7) SBI_DBCN) as [E|N3].
  { destruct (_ =? SBI_DBCN_CONSOLE_WRITE_BYTE).
    - apply dispatched_simple; [by eexists|done|by right|not_asked..].
    - apply dispatched_simple; [apply same_control_xwrite|done|by left|not_asked..]. }
  destruct (Z.eqb_spec (xread s.(ss_core).(hart) a7) SBI_SRST) as [E|N4].
  { destruct (_ =? SBI_SRST_SYSTEM_RESET).
    - apply dispatched_simple; [by eexists|done|by left|not_asked..].
    - apply dispatched_simple; [apply same_control_xwrite|done|by left|not_asked..]. }
  destruct (Z.eqb_spec (xread s.(ss_core).(hart) a7) SBI_FIRMWARE_TEZOS) as [E|N5].
  2: { apply dispatched_simple; [apply same_control_xwrite|done|by left|not_asked..]. }
  destruct (Z.eqb_spec (xread s.(ss_core).(hart) a6) SBI_TEZOS_INBOX_NEXT) as [F|M1].
  { split; [apply same_control_refl| |by left|done].
    rewrite decide_True by done. done. }
  destruct (Z.eqb_spec (xread s.(ss_core).(hart) a6) SBI_TEZOS_METADATA_REVEAL) as [F|M2].
  { split; [apply same_control_refl| |by left|done].
    rewrite decide_False by not_asked. rewrite decide_True by done. done. }
  destruct (Z.eqb_spec (xread s.(ss_core).(hart) a6) SBI_TEZOS_ED25519_SIGN) as [F|M3].
  { destruct (wrapped s _) eqn:W; [eapply wrapped_dispatched; [exact K1|exact W|not_asked..]|].
    apply wrapped_None in W. unfold allocates, buffer_size. rewrite F. split; [auto|]. cbn.
    destruct (Z.le_gt_cases (xread s.(ss_core).(hart) a2) ISIZE_MAX) as [L|L]; [by apply sign_no_panic in L|done]. }
  destruct (Z.eqb_spec (xread s.(ss_core).(hart) a6) SBI_TEZOS_ED25519_VERIFY) as [F|M4].
  { destruct (wrapped s _) eqn:W; [eapply wrapped_dispatched; [exact K2|exact W|not_asked..]|].
    apply wrapped_None in W. unfold allocates, buffer_size. rewrite F. split; [auto|]. cbn.
    destruct (Z.le_gt_cases (xread s.(ss_core).(hart) a3) ISIZE_MAX) as [L|L]; [by apply verify_no_panic in L|done]. }
  destruct (Z.eqb_spec (xread s.(ss_core).(hart) a6) SBI_TEZOS_BLAKE2B_HASH256) as [F|M5].
  { destruct (wrapped s _) eqn:W; [eapply wrapped_dispatched; [exact K3|exact W|not_asked..]|].
    apply wrapped_None in W. unfold allocates, buffer_size. rewrite F. split; [auto|]. cbn.
    destruct (Z.le_gt_cases (xread s.(ss_core).(hart) a2) ISIZE_MAX) as [L|L]; [by apply blake2b_no_panic in L|done]. }
  apply dispatched_simple; [apply same_control_xwrite|done|by left|not_asked..].
Qed.

(** C33. Environment calls.  A call from user or supervisor mode advances the
    program counter by 4 and changes nothing of the hart but that and the integer
    registers.  The PVM then waits for input exactly after the inbox call
    and for metadata exactly after the metadata call, with the registers that hold the
    arguments of the answer and the memory as they were; evaluation continues
    exactly when it does not wait.  At most one byte is printed, the low
    byte of [a0].  A call from machine mode is refused, and
    leaves the program counter at the call.  A panic needs a buffer size above
    [isize::MAX], chosen by the guest. *)
Theorem handle_call_spec s e :
  let h := s.(ss_core).(hart) in
  match e with
  | Environ.EnvCallFromMMode =>
      handle_call s e = Some (true, with_core s (write_xreg s.(ss_core) a0 (2 ^ 64 - 1)))
  | _ =>
      match handle_call s e with
      | Some (b, s') =>
          b = bool_decide (s'.(ss_status) = Evaluating) /\
          same_control (set_pc h (h.(pc) ⊞ 4)) s'.(ss_core).(hart) /\
          s'.(ss_status) = (if decide (asks_input h) then WaitingForInput
                            else if decide (asks_metadata h) then WaitingForMetadata
                            else s.(ss_status)) /\
          (asks_input h \/ asks_metadata h ->
           s'.(ss_core) = set_hart s.(ss_core) (set_pc h (h.(pc) ⊞ 4)) /\ s'.(ss_output) = s.(ss_output)) /\
          (s'.(ss_output) = s.(ss_output) \/ s'.(ss_output) = s.(ss_output) ++ [xread h a0 mod 256])
      | None => allocates h /\ ISIZE_MAX < buffer_size h
      end
  end.
Proof.
  intros h. destruct e; [| |reflexivity]; cbn [handle_call]; cbv zeta;
    set (s1 := with_core s _); pose proof (sbi_dispatch_spec s1) as D;
    destruct (sbi_dispatch s1) as [s'|]; try exact D; destruct D as [C St O Wt];
    exact (conj eq_refl (conj C (conj St (conj Wt O)))).
Qed.

End hart.

(** ** Translations of arguments *)

Section memory.
Context `{ML : MainMemoryLayout} {MLok : MainMemoryLayoutOk} `{TCR : TezosCrypto}.

Lemma translate_without_cache_ext c c' va acc :
  c'.(hart) = c.(hart) -> c'.(bus) = c.(bus) ->
  translate_without_cache c' va acc = translate_without_cache c va acc.
Proof. intros H B. destruct c, c'; simpl in *; by subst. Qed.

(** A state in which a chain of translations has got to: nothing but the cache
    has changed. *)
Definition translated (c c' : MachineCoreState) : Prop :=
  coherent c' /\ c'.(hart) = c.(hart) /\ c'.(bus) = c.(bus).

Lemma sbi_translate_ok {A} (k : Z -> sbiM A) c c' va acc pa :
  translated c c' -> is_u 64 va -> translate_without_cache c va acc = Ok pa ->
  exists c'', translated c c'' /\ st_bind (sbi_translate va acc) k c' = k pa c''.
Proof.
  intros (C & H & B) U T. rewrite <- (translate_without_cache_ext c c') in T by done.
  pose proof (translate_cached_spec c' c'.(hart).(mode) (csr_read c'.(hart) CSR.satp) va acc C U) as S.
  change (translate_with_prefetch c' _ _ va acc) with (translate_without_cache c' va acc) in S. rewrite T in S.
  unfold st_bind, sbi_translate. change (translate va acc c') with
    (translate_cached c'.(hart).(mode) (csr_read c'.(hart) CSR.satp) va acc c').
  destruct (translate_cached _ _ _ _ c') as [r c'']. destruct S as (-> & C'' & H'' & B'').
  exists c''. split; [|done]. exact (conj C'' (conj (eq_trans H'' H) (eq_trans B'' B))).
Qed.

(** The guest can make the host panic: a digest of more than [isize::MAX]
    bytes, with addresses that translate, panics in the allocation
    of the buffer, before the range of the message is checked. *)
Theorem oversized_buffer_panics s e pa1 pa2 :
  let h := s.(ss_core).(hart) in
  e <> Environ.EnvCallFromMMode -> coherent s.(ss_core) -> hart_wf s.(ss_core) ->
  xread h a7 = SBI_FIRMWARE_TEZOS -> xread h a6 = SBI_TEZOS_BLAKE2B_HASH256 ->
  translate_without_cache s.(ss_core) (xread h a0) AStore = Ok pa1 ->
  translate_without_cache s.(ss_core) (xread h a1) ALoad = Ok pa2 ->
  ISIZE_MAX < xread h a2 ->
  handle_call s e = None.
Proof.
  intros h NM C W E7 E6 T1 T2 L.
  assert (D : forall c, xread c.(hart) a7 = SBI_FIRMWARE_TEZOS -> xread c.(hart) a6 = SBI_TEZOS_BLAKE2B_HASH256 ->
    sbi_dispatch (with_core s c) = wrapped (with_core s c) handle_tezos_blake2b_hash256).
  { intros c F7 F6. unfold sbi_dispatch. cbn [ss_core with_core]. by rewrite F7, F6. }
  set (c := set_hart s.(ss_core) (set_pc h (h.(pc) ⊞ 4))).
  assert (T : translated c c) by (split; [exact C|done]).
  assert (P : wrapped (with_core s c) handle_tezos_blake2b_hash256 = None).
  { unfold wrapped, sbi_wrap, handle_tezos_blake2b_hash256. cbn [ss_core with_core]. rewrite !bind_reg.
    edestruct (sbi_translate_ok (A := Z)) as (c1 & T' & ->); [exact T|exact (xread_u64 h a0 W)|exact T1|].
    edestruct (sbi_translate_ok (A := Z)) as (c2 & T'' & ->); [exact T'|exact (xread_u64 h a1 W)|exact T2|].
    unfold st_bind at 1, vec_zeroed. change (xread c.(hart) a2) with (xread h a2).
    destruct (Z.ltb_spec ISIZE_MAX (xread h a2)); [done|lia]. }
  destruct e; [| |done]; cbn [handle_call]; cbv zeta; fold h;
    change (InstrWidth_repr (InstrUncacheable_width Ecall)) with 4; fold c; rewrite D by done; by rewrite P.
Qed.

(** ** Input *)

(** The regions of the buffer, the level and the counter do not overlap. *)
Definition apart (a n b m : Z) : Prop := a + n <= b \/ b + m <= a.

(** The addresses translate, and the writes follow. *)
Lemma write_input_translates c level counter payload pb pl pk :
  let h := c.(hart) in
  let n := Z.min (Z.min (Z.of_nat (length payload)) (xread h a1)) MAX_INPUT_MESSAGE_SIZE in
  coherent c -> hart_wf c ->
  translate_without_cache c (xread h a0) AStore = Ok pb ->
  translate_without_cache c (xread h a2) AStore = Ok pl ->
  translate_without_cache c (xread h a3) AStore = Ok pk ->
  exists c', translated c c' /\
    write_input level counter payload c =
    (let! _ := sbi_write_all pb (take (Z.to_nat n) payload) in let! _ := sbi_write_u32 pl level in
     let! _ := sbi_write_u32 pk counter in st_ret n) c'.
Proof.
  intros h n C W Tb Tl Tk. assert (T : translated c c) by done. unfold write_input. rewrite !bind_reg.
  edestruct (sbi_translate_ok (A := Z)) as (c1 & T1 & ->); [exact T|by apply xread_u64|exact Tb|].
  edestruct (sbi_translate_ok (A := Z)) as (c2 & T2 & ->); [exact T1|by apply xread_u64|exact Tl|].
  edestruct (sbi_translate_ok (A := Z)) as (c3 & T3 & ->); [exact T2|by apply xread_u64|exact Tk|].
  by exists c3.
Qed.

(** The memory after a sequence of bytes and two words were written. *)
Definition input_memory (d : DynRegion) (pb : Z) (msg : list Z) (pl level pk counter : Z) : DynRegion :=
  dyn_region_write U32 (dyn_region_write U32 (dyn_region_write_all U8 d (local pb) msg) (local pl) level)
    (local pk) counter.

Lemma input_writes {A} (r : A) (c : MachineCoreState) pb msg pl level pk counter :
  msg <> [] -> is_u 64 pl -> is_u 64 pk -> in_memory pb (Z.of_nat (length msg)) = true ->
  in_memory pl 4 = true -> in_memory pk 4 = true ->
  (let! _ := sbi_write_all pb msg in let! _ := sbi_write_u32 pl level in
   let! _ := sbi_write_u32 pk counter in st_ret r) c =
  (Ok r, set_bus c {| devices := c.(bus).(devices);
                      memory := {| data := input_memory c.(bus).(memory).(data) pb msg pl level pk counter |} |}).
Proof.
  intros N Ul Uk Mb Ml Mk. change (in_memory pl (size_of U32) = true) in Ml.
  change (in_memory pk (size_of U32) = true) in Mk. unfold st_bind, sbi_write_all, sbi_write_u32.
  rewrite Bus_write_all_eq; [|done|by change (size_of U8) with 1; rewrite Z.mul_1_l].
  cbn [sbi_oob result_map_err bus set_bus]. rewrite Bus_write_eq, Ml by done.
  cbn [sbi_oob result_map_err bus set_bus devices memory data]. rewrite Bus_write_eq, Mk by done. reflexivity.
Qed.

Lemma input_memory_reads d pb msg pl level pk counter :
  let n := Z.of_nat (length msg) in
  let d' := input_memory d pb msg pl level pk counter in
  Forall (is_elem U8) msg -> is_u 32 level -> is_u 32 counter ->
  apart pb n pl 4 -> apart pb n pk 4 -> apart pl 4 pk 4 ->
  dyn_region_read_all U8 d' (local pb) (length msg) = msg /\
  dyn_region_read U32 d' (local pl) = level /\ dyn_region_read U32 d' (local pk) = counter /\
  forall T a, apart a (size_of T) pb n -> apart a (size_of T) pl 4 -> apart a (size_of T) pk 4 ->
    dyn_region_read T d' (local a) = dyn_region_read T d (local a).
Proof.
  intros n d' F Ul Uk A1 A2 A3. unfold d', input_memory. split_and!.
  - set (d1 := dyn_region_write_all U8 d (local pb) msg). rewrite (region_read_all_ext U8 _ _ d1).
    + by apply region_read_write_all.
    + intros a Ha. change (size_of U8) with 1 in Ha.
      rewrite !byte_at_region_write; [done|..]; unfold local, apart, n in *; simpl size_of; lia.
  - rewrite region_read_write_ne by (unfold local, apart in *; simpl size_of; lia).
    by rewrite region_read_write_eq, from_to_stored_id.
  - by rewrite region_read_write_eq, from_to_stored_id.
  - intros T a P1 P2 P3. rewrite !region_read_write_ne by (unfold local, apart in *; simpl size_of; lia).
    apply region_read_ext. intros x Hx. apply byte_at_write_all. unfold local, apart, n in *. simpl size_of. lia.
Qed.

(** Input reaches the guest: when it waits for input and the three
    addresses it gave translate to disjoint ranges of the main memory, the
    buffer holds the first bytes of the message, at most as many as the
    guest asked for and 4096, [a0] their number, the other two ranges the level and the
    counter, all other memory and registers are as before, and evaluation
    goes on.  Otherwise nothing changes and the answer is [false]. *)
Theorem provide_input_spec st c level counter payload pb pl pk :
  let h := c.(hart) in
  let n := Z.min (Z.min (Z.of_nat (length payload)) (xread h a1)) MAX_INPUT_MESSAGE_SIZE in
  coherent c -> hart_wf c -> Forall (is_elem U8) payload -> is_u 32 level -> is_u 32 counter -> 0 < n ->
  translate_without_cache c (xread h a0) AStore = Ok pb ->
  translate_without_cache c (xread h a2) AStore = Ok pl ->
  translate_without_cache c (xread h a3) AStore = Ok pk ->
  is_u 64 pl -> is_u 64 pk ->
  in_memory pb n = true -> in_memory pl 4 = true -> in_memory pk 4 = true ->
  apart pb n pl 4 -> apart pb n pk 4 -> apart pl 4 pk 4 ->
  match st with
  | WaitingForInput =>
      exists c', sbi_provide_input st c level counter payload = Some (true, Evaluating, c') /\
        c'.(hart) = xwrite h a0 n /\
        Bus_read_all U8 c'.(bus) pb (Z.to_nat n) = Ok (take (Z.to_nat n) payload) /\
        Bus_read U32 c'.(bus) pl = Ok level /\ Bus_read U32 c'.(bus) pk = Ok counter /\
        forall T a, is_u 64 a -> apart a (size_of T) pb n -> apart a (size_of T) pl 4 ->
          apart a (size_of T) pk 4 -> Bus_read T c'.(bus) a = Bus_read T c.(bus) a
  | _ => sbi_provide_input st c level counter payload = Some (false, st, c)
  end.
Proof.
  intros h n C W Fp Ul Uk Np Tb Tl Tk Upl Upk Mb Ml Mk A1 A2 A3. destruct st; [done| |done].
  destruct (write_input_translates c level counter payload pb pl pk C W Tb Tl Tk) as (c' & (_ & Hc & Bc) & E).
  fold h n in E. set (msg := take (Z.to_nat n) payload) in *.
  assert (Lm : Z.of_nat (length msg) = n) by (unfold msg; rewrite length_take; lia).
  rewrite <- Lm in Mb, A1, A2.
  rewrite input_writes in E by (done || by destruct msg; simpl in Lm; [lia|]). rewrite Bc in E.
  destruct (input_memory_reads c.(bus).(memory).(data) pb msg pl level pk counter) as (R1 & R2 & R3 & R4);
    [by apply Forall_take|done..|].
  set (d' := input_memory _ _ _ _ _ _ _) in *. set (b' := {| devices := _; memory := _ |}) in E.
  exists (write_xreg (set_bus c' b') a0 n).
  assert (Nn : (as_i64 n <? 0) = false).
  { rewrite swrap_small; [lia|lia|]. unfold is_i, n, MAX_INPUT_MESSAGE_SIZE. pow2. lia. }
  split; [|split_and!]; cbn [bus write_xreg set_hart set_bus].
  - unfold sbi_provide_input, sbi_wrap. rewrite E. unfold sbi_return1. by rewrite Nn.
  - cbn. by rewrite Hc.
  - rewrite <- Lm, Nat2Z.id, Bus_read_all_eq by (lia || (change (size_of U8) with 1; by rewrite Z.mul_1_l)).
    by rewrite <- R1 at 2.
  - rewrite Bus_read_eq by done. change (size_of U32) with 4. rewrite Ml. cbn [memory data b']. by rewrite R2.
  - rewrite Bus_read_eq by done. change (size_of U32) with 4. rewrite Mk. cbn [memory data b']. by rewrite R3.
  - intros T' a Ua P1 P2 P3. rewrite !Bus_read_eq by done. cbn [memory data b'].
    by rewrite R4 by (rewrite ?Lm; done).
Qed.
End memory.

(** ** Examples *)

#[local] Existing Instance M1K.

(** Services with outputs of the right size. *)
Definition TezosCrypto_example : TezosCrypto := {|
  SigningKey := list Z; SigningKey_try_from := Some; sign _ _ := replicate 64 0;
  VerifyingKey := list Z; VerifyingKey_try_from := Some; Signature := list Z; Signature_from_slice := Some;
  verify_strict k m s := bool_decide (s = replicate 64 0);
  digest_256 _ := replicate 32 0;
|}.

Lemma TezosCrypto_example_laws : TezosCryptoLaws TezosCrypto_example.
Proof.
  split; intros; [reflexivity| |reflexivity|]; apply Forall_replicate; by vm_compute.
Qed.

#[local] Existing Instance TezosCrypto_example.

(** The registers of a call. *)
Definition call_example (v0 v1 v2 v3 v6 v7 : Z) : MachineCoreState :=
  set_hart core_example
    (xwrite (xwrite (xwrite (xwrite (xwrite (xwrite core_example.(hart) a0 v0) a1 v1) a2 v2) a3 v3) a6 v6) a7 v7).

Lemma call_example_wf v0 v1 v2 v3 v6 v7 :
  is_u 64 v0 -> is_u 64 v1 -> is_u 64 v2 -> is_u 64 v3 -> is_u 64 v6 -> is_u 64 v7 ->
  hart_wf (call_example v0 v1 v2 v3 v6 v7).
Proof. intros. do 6 (apply xwrite_wf; [|done]). exact HartState_example_wf. Qed.

Lemma call_example_coherent v0 v1 v2 v3 v6 v7 : coherent (call_example v0 v1 v2 v3 v6 v7).
Proof.
  exact (core_example_coherent M1K (call_example v0 v1 v2 v3 v6 v7).(hart) (call_example v0 v1 v2 v3 v6 v7).(bus)).
Qed.

Lemma oversized_buffer_panics_witness :
  handle_call {| ss_status := Evaluating; ss_output := [];
                 ss_core := call_example 0x80000010 0x80000020 (2 ^ 63) 0 SBI_TEZOS_BLAKE2B_HASH256 SBI_FIRMWARE_TEZOS |}
    Environ.EnvCallFromSMode = None.
Proof.
  apply (oversized_buffer_panics _ _ 0x80000010 0x80000020).
  - discriminate.
  - apply call_example_coherent.
  - apply call_example_wf; vm_compute; intuition congruence.
  - vm_compute. reflexivity.
  - vm_compute. reflexivity.
  - vm_compute. reflexivity.
  - vm_compute. reflexivity.
  - vm_compute. reflexivity.
Defined.

(** Four bytes for a buffer of three. *)
Lemma provide_input_spec_witness :
  exists c', sbi_provide_input WaitingForInput (call_example 0x80000010 3 0x80000100 0x80000104 0 0) 7 42 [1; 2; 3; 4] =
      Some (true, Evaluating, c') /\
    xread c'.(hart) a0 = 3 /\ Bus_read_all U8 c'.(bus) 0x80000010 3 = Ok [1; 2; 3] /\
    Bus_read U32 c'.(bus) 0x80000100 = Ok 7 /\ Bus_read U32 c'.(bus) 0x80000104 = Ok 42.
Proof.
  destruct (provide_input_spec WaitingForInput (call_example 0x80000010 3 0x80000100 0x80000104 0 0) 7 42 [1; 2; 3; 4]
    0x80000010 0x80000100 0x80000104) as (c' & P & H & B & L & K & _).
  - apply call_example_coherent.
  - apply call_example_wf; vm_compute; intuition congruence.
  - repeat constructor; vm_compute; intuition congruence.
  - vm_compute. intuition congruence.
  - vm_compute. intuition congruence.
  - vm_compute. reflexivity.
  - vm_compute. reflexivity.
  - vm_compute. reflexivity.
  - vm_compute. reflexivity.
  - vm_compute. intuition congruence.
  - vm_compute. intuition congruence.
  - vm_compute. reflexivity.
  - vm_compute. reflexivity.
  - vm_compute. reflexivity.
  - left. vm_compute. congruence.
  - left. vm_compute. congruence.
  - left. vm_compute. congruence.
  - exists c'. split; [exact P|]. split; [rewrite H; vm_compute; reflexivity|]. exact (conj B (conj L K)).
Defined.
