(* ===== verification/Pvm.v ===== *)
(** The PVM around the machine ([src/riscv/lib/src/pvm/common.rs]) and the PVM
    of the rollup node ([src/riscv/lib/src/pvm/node_pvm.rs]): evaluation,
    environment calls, input, ticks. *)
From S2P Require Import Prelude Registers CSRegister Traps XStatus CSRegisters HartState Bus.
From S2P Require Import Instruction Parser IntInstr AddressTranslation TranslationCache.
From S2P Require Import MachineCore CoreInstr Float.
From S2P Require Import RunInstr InstructionCache BlockCache MachineState Sbi.

(** ** The PVM *)

(* pvm/common.rs:96-96 INITIAL_VERSION *)
Definition INITIAL_VERSION : Z := 0.

(* pvm/common.rs:100-108 Pvm *)
Record Pvm : Type := { version : Z; machine_state : MachineState; status : PvmStatus }.

Definition set_machine_status (p : Pvm) (m : MachineState) (st : PvmStatus) : Pvm :=
  {| version := p.(version); machine_state := m; status := st |}.

(** The machine after a call was served on its core. *)
Definition after_call (m : MachineState) (s : sbi_state) : MachineState := set_core m s.(ss_core).

Section pvm.
Context `{ML : MainMemoryLayout} `{AP : ApFloat} `{AI : ArbitraryInt} `{CL : CacheLayouts} `{TCR : TezosCrypto}.

(* pvm/common.rs:137-144 reset *)
Definition Pvm_reset (p : Pvm) : Pvm :=
  {| version := INITIAL_VERSION; machine_state := MachineState_reset p.(machine_state);
     status := Evaluating |}.

(** The output of the hook is threaded through. *)
(* pvm/common.rs:147-156 handle_exception *)
Definition handle_exception (p : Pvm) (out : list Z) (exception : Environ.EnvironException) :
  option (bool * Pvm * list Z) :=
  '(b, s) ← handle_call {| ss_status := p.(status); ss_core := p.(machine_state).(core); ss_output := out |}
              exception;
  Some (b, set_machine_status p (after_call p.(machine_state) s) s.(ss_status), s.(ss_output)).

(* pvm/common.rs:159-166 eval_one *)
Definition eval_one (fuel : nat) (p : Pvm) (out : list Z) : outcome (Pvm * list Z) :=
  match step fuel p.(machine_state) with
  | (None, _) => OutOfFuel
  | (Some (Ok _), m) => Done (set_machine_status p m p.(status), out)
  | (Some (Err exc), m) =>
      match handle_exception (set_machine_status p m p.(status)) out exc with
      | Some (_, p, out) => Done (p, out)
      | None => Panicked
      end
  end.

(** The closure passed to [step_max_handle]: its state is the status cell and
    the hook.  Its error type is [Infallible] in the source; the error stands
    for a panic here, which ends the run in the same way. *)
(* pvm/common.rs:187-194 eval_max *)
Definition eval_handler (h : PvmStatus * list Z) (m : MachineState) (exc : Environ.EnvironException) :
  result bool unit * (PvmStatus * list Z) * MachineState :=
  match handle_call {| ss_status := h.1; ss_core := m.(core); ss_output := h.2 |} exc with
  | Some (b, s) => (Ok b, (s.(ss_status), s.(ss_output)), after_call m s)
  | None => (Err tt, h, m)
  end.

(* pvm/common.rs:182-196 eval_max *)
Definition eval_max (fuel : nat) (p : Pvm) (out : list Z) (step_bounds : Bound) :
  outcome (Z * Pvm * list Z) :=
  match step_max_handle fuel 0 step_bounds eval_handler (p.(status), out) p.(machine_state) with
  | (None, _, _) => OutOfFuel
  | (Some {| smr_steps := steps; smr_error := None |}, (st, out), m) =>
      Done (steps, set_machine_status p m st, out)
  | (Some {| smr_error := Some _ |}, _, _) => Panicked
  end.

(** The core and the status after input was provided. *)
Definition provided (p : Pvm) (r : bool * PvmStatus * MachineCoreState) : bool * Pvm :=
  let '(b, st, c) := r in (b, set_machine_status p (set_core p.(machine_state) c) st).

(* pvm/common.rs:200-205 provide_no_input *)
Definition provide_no_input (p : Pvm) : bool * Pvm :=
  provided p (sbi_provide_no_input p.(status) p.(machine_state).(core)).

(* pvm/common.rs:209-220 provide_input *)
Definition provide_input (p : Pvm) (level counter : Z) (payload : list Z) : option (bool * Pvm) :=
  provided p <$> sbi_provide_input p.(status) p.(machine_state).(core) level counter payload.

(* pvm/common.rs:224-234 provide_metadata *)
Definition provide_metadata (p : Pvm) (rollup_address : list Z) (origination_level : Z) :
  option (bool * Pvm) :=
  provided p <$> sbi_provide_metadata p.(status) p.(machine_state).(core) rollup_address origination_level.

End pvm.

(** ** The PVM of the rollup node *)

(* pvm/node_pvm.rs:24-30 State *)
Record NodeState : Type := {
  pvm : Pvm;
  level_is_set : bool;
  level : Z;
  message_counter : Z;
  tick : Z;
}.

Definition set_pvm_tick (s : NodeState) (p : Pvm) (t : Z) : NodeState :=
  {| pvm := p; level_is_set := s.(level_is_set); level := s.(level);
     message_counter := s.(message_counter); tick := t |}.

Section node.
Context `{ML : MainMemoryLayout} `{AP : ApFloat} `{AI : ArbitraryInt} `{CL : CacheLayouts} `{TCR : TezosCrypto}.

(* pvm/node_pvm.rs:122-124 get_status *)
Definition get_status (s : NodeState) : PvmStatus := s.(pvm).(status).

(* pvm/node_pvm.rs:126-128 get_tick *)
Definition get_tick (s : NodeState) : Z := s.(tick).

(* pvm/node_pvm.rs:130-138 get_current_level *)
Definition get_current_level (s : NodeState) : option Z :=
  if s.(level_is_set) then Some s.(level) else None.

(* pvm/node_pvm.rs:140-142 get_message_counter *)
Definition get_message_counter (s : NodeState) : Z := s.(message_counter).

(* pvm/node_pvm.rs:156-161 compute_step *)
Definition compute_step (fuel : nat) (s : NodeState) (out : list Z) : outcome (NodeState * list Z) :=
  outcome_map (fun '(p, out) => (set_pvm_tick s p (s.(tick) ⊞ 1), out)) (eval_one fuel s.(pvm) out).

(** The count is returned as an [i64]. *)
(* pvm/node_pvm.rs:163-169 compute_step_many *)
Definition compute_step_many (fuel : nat) (s : NodeState) (out : list Z) (max_steps : Z) :
  outcome (Z * NodeState * list Z) :=
  outcome_map (fun '(steps, p, out) =>
      (as_i64 steps, set_pvm_tick s p (s.(tick) ⊞ as_u64 steps), out))
    (eval_max fuel s.(pvm) out (Included max_steps)).

(** The assertion that the input is accepted panics. *)
(* pvm/node_pvm.rs:175-189 set_input_message *)
Definition set_input_message (s : NodeState) (lvl counter : Z) (input : list Z) : outcome NodeState :=
  match provide_input s.(pvm) lvl (as_u32 counter) input with
  | Some (true, p) =>
      Done {| pvm := p; level_is_set := true; level := lvl; message_counter := counter;
              tick := s.(tick) ⊞ 1 |}
  | _ => Panicked
  end.

(* pvm/node_pvm.rs:191-202 set_metadata *)
Definition set_metadata (s : NodeState) (rollup_address : list Z) (origination_level : Z) :
  outcome NodeState :=
  match provide_metadata s.(pvm) rollup_address origination_level with
  | Some (true, p) => Done (set_pvm_tick s p (s.(tick) ⊞ 1))
  | _ => Panicked
  end.

End node.
