(* ===== verification/PvmSpec.v ===== *)
(** The PVM: environment calls keep the machine well-formed, many evaluation
    steps are single ones repeated, and input reaches the buffers that were
    asked for. *)
From S2P Require Import Prelude Registers CSRegister Traps XStatus CSRegisters HartState Bus.
From S2P Require Import BusSpec.
From S2P Require Import Instruction Parser ParserSpec HartStateSpec FloatSpec IntInstr.
From S2P Require Import IntInstrSpec.
From S2P Require Import AddressTranslation TranslationCache.
From S2P Require Import MachineCore MachineCoreSpec CoreInstr Float RunInstr RunInstrSpec.
From S2P Require Import CoreInstrSpec.
From S2P Require Import InstructionCache BlockCache BlockCacheSpec MachineState StepSpec StepWf.
From S2P Require Import HandleSpec.
From S2P Require Import Sbi SbiSpec Pvm.

(** ** Environment calls keep the hart well-formed *)

Section wf.
Context `{ML : MainMemoryLayout} `{TCR : TezosCrypto} {TCL : TezosCryptoLaws TCR}.

Lemma write_xreg_wf c r v : hart_wf c -> is_u 64 v -> hart_wf (write_xreg c r v).
Proof. intros H U. by apply xwrite_wf. Qed.

Lemma sbi_return_error_wf c e : hart_wf c -> hart_wf (sbi_return_error c e).
Proof. intros H. by apply write_xreg_wf, u64_of_wrap. Qed.

Lemma sbi_return1_wf c v : hart_wf c -> is_u 64 v -> hart_wf (sbi_return1 c v).
Proof.
  intros H U. unfold sbi_return1. destruct (_ <? 0); [by apply sbi_return_error_wf|by apply write_xreg_wf].
Qed.

Lemma sbi_return_sbiret_wf c e v : hart_wf c -> is_u 64 v -> hart_wf (sbi_return_sbiret c e v).
Proof.
  intros H U. unfold sbi_return_sbiret. apply write_xreg_wf; [|done]. apply write_xreg_wf; [done|].
  destruct e; [apply u64_of_wrap|by vm_compute].
Qed.

Lemma sbi_wrap_wf c inner c' :
  yields hart_wf (is_u 64) inner -> hart_wf c -> sbi_wrap c inner = Some c' -> hart_wf c'.
Proof.
  intros Y H. unfold sbi_wrap. specialize (Y c H) as [W V].
  destruct (inner c) as [[v|[e|]] c1]; cbn [fst snd] in W, V; intros [= <-].
  - apply sbi_return1_wf; [done|]. by apply V.
  - by apply sbi_return_error_wf.
Qed.

Lemma sbi_reg_wf r : yields hart_wf (is_u 64) (sbi_reg r).
Proof. apply yields_gets. intros c H. by apply xread_u64. Qed.

Lemma sbi_translate_wf va acc : keeps hart_wf (sbi_translate va acc).
Proof.
  intros c H. unfold sbi_translate. pose proof (translate_same va acc c) as S.
  destruct (translate va acc c) as [r c']. destruct S as [S _]. unfold hart_wf. simpl. by rewrite S.
Qed.

Lemma sbi_write_all_wf a l : keeps hart_wf (sbi_write_all a l).
Proof. intros c H. unfold sbi_write_all. by destruct (Bus_write_all _ _ _ _). Qed.

Lemma sbi_write_u32_wf a v : keeps hart_wf (sbi_write_u32 a v).
Proof. intros c H. unfold sbi_write_u32. by destruct (Bus_write _ _ _ _). Qed.

Lemma sbi_read_all_wf a n : keeps hart_wf (sbi_read_all a n).
Proof. by intros c H. Qed.

Lemma sbi_require_wf {A} (o : option A) : keeps hart_wf (sbi_require o).
Proof. destruct o; by intros c H. Qed.

Lemma vec_zeroed_wf n : keeps hart_wf (vec_zeroed n).
Proof. unfold vec_zeroed. by destruct (_ <? _); intros c H. Qed.

(** One step of a closure whose value does not matter. *)
Lemma yields_next {A B} (P : B -> Prop) (m : sbiM A) (k : A -> sbiM B) :
  keeps hart_wf m -> (forall a, yields hart_wf P (k a)) -> yields hart_wf P (st_bind m k).
Proof. intros M K. eapply yields_bind; [by apply keeps_yields|]. intros a _. apply K. Qed.

Ltac sbi_steps :=
  repeat (apply yields_next;
    [first [apply sbi_translate_wf|apply sbi_write_all_wf|apply sbi_write_u32_wf|apply sbi_read_all_wf
           |apply sbi_require_wf|apply vec_zeroed_wf|eapply yields_keeps, sbi_reg_wf]|intros ?]);
  cbv zeta;
  repeat (apply yields_next;
    [first [apply sbi_write_all_wf|apply sbi_write_u32_wf]|intros ?]);
  apply yields_ret.

Lemma sign_wf : yields hart_wf (is_u 64) handle_tezos_ed25519_sign.
Proof. unfold handle_tezos_ed25519_sign. sbi_steps. by rewrite sign_length. Qed.

Lemma verify_wf : yields hart_wf (is_u 64) handle_tezos_ed25519_verify.
Proof. unfold handle_tezos_ed25519_verify. sbi_steps. apply bool_u64. Qed.

Lemma blake2b_wf : yields hart_wf (is_u 64) handle_tezos_blake2b_hash256.
Proof. unfold handle_tezos_blake2b_hash256. sbi_steps. by rewrite digest_length. Qed.

Lemma write_metadata_wf addr lvl : is_u 32 lvl -> yields hart_wf (is_u 64) (write_metadata addr lvl).
Proof. intros [? ?]. unfold write_metadata. sbi_steps. unfold is_u. pow2. lia. Qed.

Lemma write_input_wf lvl counter payload : yields hart_wf (is_u 64) (write_input lvl counter payload).
Proof.
  unfold write_input.
  apply yields_next; [eapply yields_keeps, sbi_reg_wf|intros ?].
  eapply yields_bind; [apply sbi_reg_wf|]. intros size [? ?].
  sbi_steps. unfold is_u, MAX_INPUT_MESSAGE_SIZE. pow2. lia.
Qed.

Definition call_wf (s : sbi_state) : Prop := hart_wf s.(ss_core).

Lemma wrapped_wf s inner s' :
  yields hart_wf (is_u 64) inner -> call_wf s -> wrapped s inner = Some s' -> call_wf s'.
Proof.
  intros Y H. unfold wrapped. destruct (sbi_wrap s.(ss_core) inner) as [c|] eqn:E; [|done].
  intros [= <-]. by eapply sbi_wrap_wf.
Qed.

Lemma sbi_dispatch_wf s s' : call_wf s -> sbi_dispatch s = Some s' -> call_wf s'.
Proof.
  intros H. unfold sbi_dispatch. cbv zeta.
  assert (N : call_wf (handle_not_supported s)) by by apply sbi_return_error_wf.
  assert (Z0 : is_u 64 0) by by vm_compute.
  repeat match goal with |- context [if ?b then _ else _] => destruct b end; intros E;
    first [ by apply (wrapped_wf s handle_tezos_ed25519_sign s' sign_wf H E)
          | by apply (wrapped_wf s handle_tezos_ed25519_verify s' verify_wf H E)
          | by apply (wrapped_wf s handle_tezos_blake2b_hash256 s' blake2b_wf H E)
          | injection E as <-; first [done|by apply sbi_return1_wf|by apply sbi_return_sbiret_wf] ].
Qed.

Lemma handle_call_wf s e b s' : call_wf s -> handle_call s e = Some (b, s') -> call_wf s'.
Proof.
  intros H. assert (P : call_wf (with_core s (set_hart s.(ss_core) (set_pc s.(ss_core).(hart)
      (s.(ss_core).(hart).(pc) ⊞ InstrWidth_repr (InstrUncacheable_width Ecall)))))).
  { apply set_pc_wf; [exact H|apply wrapping_add_u64]. }
  destruct e; cbn [handle_call]; cbv zeta;
    [| |by intros [= <- <-]; apply sbi_return_error_wf];
    (destruct (sbi_dispatch _) as [s1|] eqn:D; [|done]); intros [= <- <-];
    by eapply sbi_dispatch_wf.
Qed.
End wf.

(** ** Many steps are single steps *)

Section eval.
Context `{ML : MainMemoryLayout} `{AP : ApFloat} `{AI : ArbitraryInt} `{CL : CacheLayouts} `{TCR : TezosCrypto}.
Context {APL : ApFloatLaws AP} {TCL : TezosCryptoLaws TCR}.

(** [n] calls of [eval_one], up to the first one after which the PVM waits for
    input or metadata; the count is that of the calls. *)
Fixpoint evals_one_by_one (n : nat) (p : Pvm) (out : list Z) : outcome (Z * Pvm * list Z) :=
  match n with
  | O => Done (0, p, out)
  | S n =>
      match eval_one 1 p out with
      | Done (p, out) =>
          if decide (p.(status) = Evaluating)
          then outcome_map (fun '(k, p, out) => (k + 1, p, out)) (evals_one_by_one n p out)
          else Done (1, p, out)
      | Panicked => Panicked
      | OutOfFuel => OutOfFuel
      end
  end.

Lemma outcome_map_map {A B C} (f : A -> B) (g : B -> C) (o : outcome A) :
  outcome_map g (outcome_map f o) = outcome_map (fun a => g (f a)) o.
Proof. by destruct o. Qed.

Lemma outcome_map_ext {A B} (f g : A -> B) (o : outcome A) :
  (forall a, f a = g a) -> outcome_map f o = outcome_map g o.
Proof. intros E. destruct o; simpl; by rewrite ?E. Qed.

Lemma outcome_map_id {A} (f : A -> A) (o : outcome A) : (forall a, f a = a) -> outcome_map f o = o.
Proof. intros E. destruct o; simpl; by rewrite ?E. Qed.

Lemma set_machine_status_id p : set_machine_status p p.(machine_state) p.(status) = p.
Proof. by destruct p. Qed.

(** ** The invariant *)

Definition pvm_wf (p : Pvm) : Prop := machine_wf p.(machine_state).

Lemma after_call_wf m s : machine_wf m -> call_wf s -> machine_wf (after_call m s).
Proof. intros [_ B] H. exact (conj H B). Qed.

Lemma handle_exception_wf p out e b p' out' :
  pvm_wf p -> handle_exception p out e = Some (b, p', out') -> pvm_wf p'.
Proof.
  intros W. unfold handle_exception.
  destruct (handle_call _ e) as [[b1 s]|] eqn:H; [|done]. intros [= <- <- <-].
  apply after_call_wf; [done|]. eapply handle_call_wf; [|exact H]. exact (proj1 W).
Qed.

Lemma eval_handler_wf h m e : machine_wf m -> machine_wf (eval_handler h m e).2.
Proof.
  intros W. unfold eval_handler. destruct (handle_call _ e) as [[b s]|] eqn:H; [|done].
  apply after_call_wf; [done|]. eapply handle_call_wf; [|exact H]. exact (proj1 W).
Qed.

(** The result of a run, as [eval_max] gives it. *)
Definition run_result (p : Pvm) (r : option (StepManyResult unit) * (PvmStatus * list Z) * MachineState) :
  outcome (Z * Pvm * list Z) :=
  match r with
  | (None, _, _) => OutOfFuel
  | (Some {| smr_steps := steps; smr_error := None |}, (st, out), m) =>
      Done (steps, set_machine_status p m st, out)
  | (Some {| smr_error := Some _ |}, _, _) => Panicked
  end.

Lemma eval_max_result fuel p out bound :
  eval_max fuel p out bound =
  run_result p (step_max_handle fuel 0 bound eval_handler (p.(status), out) p.(machine_state)).
Proof. done. Qed.

Lemma run_result_add p r :
  run_result p (add_result_steps 1 r) = outcome_map (fun '(k, p, out) => (k + 1, p, out)) (run_result p r).
Proof. destruct r as [[[[k [e|]]|] [st o]] m]; [done| |done]. simpl. by rewrite Z.add_comm. Qed.

(** The handler of [eval_max], in terms of [handle_exception]. *)
Lemma eval_handler_exception p out e :
  eval_handler (p.(status), out) p.(machine_state) e =
  match handle_exception p out e with
  | Some (b, p', out') => (Ok b, (p'.(status), out'), p'.(machine_state))
  | None => (Err tt, (p.(status), out), p.(machine_state))
  end.
Proof.
  unfold eval_handler, handle_exception. cbn [fst snd].
  by destruct (handle_call _ e) as [[b s]|].
Qed.

(** A call that is served while the PVM evaluates continues exactly when the
    PVM still evaluates, and keeps the version. *)
Lemma handle_exception_continue p out e b p' out' :
  p.(status) = Evaluating -> handle_exception p out e = Some (b, p', out') ->
  b = bool_decide (p'.(status) = Evaluating) /\ p'.(version) = p.(version).
Proof.
  intros St. unfold handle_exception. destruct (handle_call _ e) as [[b1 s]|] eqn:H; [|done].
  intros [= <- <- <-]. split; [|done]. cbn [status set_machine_status].
  destruct e; cbn [handle_call] in H; cbv zeta in H;
    [destruct (sbi_dispatch _) as [s1|]; [|done]; by injection H as <- <-..|].
  injection H as <- <-. cbn [ss_status with_core]. by rewrite St.
Qed.

(** The steps of the machine with its handler are the steps of the PVM. *)
Lemma evals_handled p0 n : forall p out,
  p.(status) = Evaluating -> p.(version) = p0.(version) ->
  run_result p0 (handled_one_by_one eval_handler n (p.(status), out) p.(machine_state)) =
  evals_one_by_one n p out.
Proof.
  induction n as [|n IH]; intros p out St V.
  { destruct p, p0; simpl in *; by subst. }
  cbn [handled_one_by_one evals_one_by_one]. unfold eval_one.
  destruct (step 1 p.(machine_state)) as [[[u|e]|] s1]; [| |done].
  - rewrite decide_True by done.
    rewrite <- (IH (set_machine_status p s1 p.(status)) out St V). apply run_result_add.
  - rewrite (eval_handler_exception (set_machine_status p s1 p.(status))).
    destruct (handle_exception _ out e) as [[[b p2] out2]|] eqn:H; [|done].
    apply handle_exception_continue in H as [-> V2]; [|done]. cbn [version set_machine_status] in V2.
    destruct (decide (p2.(status) = Evaluating)) as [S2|S2].
    + rewrite bool_decide_true, <- (IH p2 out2 S2) by (done || congruence). apply run_result_add.
    + rewrite bool_decide_false by done. simpl. do 3 f_equal. destruct p2, p0; simpl in *; by subst.
Qed.

(** A bounded evaluation is single evaluations. *)
Lemma eval_max_evals n fuel p out :
  p.(status) = Evaluating -> pvm_wf p -> (n < fuel)%nat -> Z.of_nat n < 2 ^ 64 ->
  evals_one_by_one n p out <> OutOfFuel ->
  eval_max fuel p out (Included (Z.of_nat n)) = evals_one_by_one n p out.
Proof.
  intros St W F B T. rewrite eval_max_result. rewrite <- (evals_handled p n p out St eq_refl) in T |- *.
  rewrite step_max_handle_one_by_one; try done; [|exact eval_handler_wf|].
  - by destruct (handled_one_by_one _ _ _ _) as [[[[k err]|] [st o]] m].
  - intros O. apply T. by destruct (handled_one_by_one _ _ _ _) as [[[x|] [st o]] m].
Qed.

(** ** The node *)

(** [n] calls of [compute_step], as above. *)
Fixpoint computes_one_by_one (n : nat) (s : NodeState) (out : list Z) : outcome (Z * NodeState * list Z) :=
  match n with
  | O => Done (0, s, out)
  | S n =>
      match compute_step 1 s out with
      | Done (s, out) =>
          if decide (get_status s = Evaluating)
          then outcome_map (fun '(k, s, out) => (k + 1, s, out)) (computes_one_by_one n s out)
          else Done (1, s, out)
      | Panicked => Panicked
      | OutOfFuel => OutOfFuel
      end
  end.

Lemma tick_add t a b : (t ⊞ a) ⊞ b = t ⊞ (a + b).
Proof. unfold wrapping_add, wrap. rewrite Zplus_mod_idemp_l. f_equal. lia. Qed.

Lemma computes_evals n : forall s out,
  is_u 64 s.(tick) ->
  computes_one_by_one n s out =
  outcome_map (fun '(k, p, out) => (k, set_pvm_tick s p (s.(tick) ⊞ k), out))
    (evals_one_by_one n s.(pvm) out).
Proof.
  induction n as [|n IH]; intros s out U.
  { simpl. do 3 f_equal. unfold wrapping_add. rewrite Z.add_0_r, wrap_small by done. by destruct s. }
  cbn [computes_one_by_one evals_one_by_one]. unfold compute_step.
  destruct (eval_one 1 s.(pvm) out) as [[p1 out1]| |]; [|done..]. cbn [outcome_map].
  unfold get_status. cbn [pvm set_pvm_tick].
  destruct (decide (p1.(status) = Evaluating)); [|done].
  rewrite IH by apply wrapping_add_u64. cbn [pvm set_pvm_tick tick]. rewrite !outcome_map_map.
  apply outcome_map_ext. intros [[k p2] out2]. rewrite tick_add. do 2 f_equal.
  unfold set_pvm_tick. cbn [level_is_set level message_counter]. do 2 f_equal. lia.
Qed.

Lemma evals_bound n : forall p out k p' out',
  evals_one_by_one n p out = Done (k, p', out') -> 0 <= k <= Z.of_nat n.
Proof.
  induction n as [|n IH]; intros p out k p' out'; cbn [evals_one_by_one]; [intros [= <- _ _]; lia|].
  destruct (eval_one 1 p out) as [[p1 out1]| |]; [|done..]. destruct (decide _); [|intros [= <- _ _]; lia].
  destruct (evals_one_by_one n p1 out1) as [[[k1 p2] out2]| |] eqn:E; [|done..].
  intros [= <- _ _]. apply IH in E. lia.
Qed.

Definition node_wf (s : NodeState) : Prop := pvm_wf s.(pvm) /\ is_u 64 s.(tick).

(** C12. Computing many steps is computing them one at a time: while the PVM
    evaluates, [compute_step_many] with a bound of [n] gives the machine state,
    the status, the console output, the tick and the count of [n] calls of
    [compute_step], up to the call after which the PVM waits for input or
    metadata; it panics exactly when they do.  An environment call that is
    handled is one of the steps, and evaluation goes on after it unless the PVM
    has to wait; the doc of [eval_max] says that evaluation returns at a raised
    environment trap and that the instruction is not counted, which is not what
    the code does.  [n] is below 2^63, the state is well formed, and more than
    [n] units of fuel are enough.  The hypothesis on fuel excludes the program
    counter at an empty block, where a single step does not terminate. *)
Theorem compute_step_many_one_by_one n s out fuel :
  node_wf s -> get_status s = Evaluating -> Z.of_nat n < 2 ^ 63 -> (n < fuel)%nat ->
  computes_one_by_one n s out <> OutOfFuel ->
  compute_step_many fuel s out (Z.of_nat n) = computes_one_by_one n s out.
Proof.
  intros [W U] St B F T. rewrite computes_evals in T |- * by done. unfold compute_step_many.
  rewrite eval_max_evals; try done; [|pow2; lia|].
  - destruct (evals_one_by_one n s.(pvm) out) as [[[k p] out']| |] eqn:E; [|done..].
    cbn [outcome_map]. apply evals_bound in E.
    rewrite swrap_small, wrap_small by (unfold is_i, is_u; pow2; lia). done.
  - intros O. by rewrite O in T.
Qed.

(** ** Operations of the node *)

Inductive node_op : Type :=
| NStep
| NStepMany (max_steps : Z)
| NInput (lvl counter : Z) (input : list Z)
| NMetadata (rollup_address : list Z) (origination_level : Z).

Definition exec_node (fuel : nat) (o : node_op) (s : NodeState) (out : list Z) : outcome (NodeState * list Z) :=
  match o with
  | NStep => compute_step fuel s out
  | NStepMany n => outcome_map (fun '(_, s, out) => (s, out)) (compute_step_many fuel s out n)
  | NInput l c i => outcome_map (fun s => (s, out)) (set_input_message s l c i)
  | NMetadata a l => outcome_map (fun s => (s, out)) (set_metadata s a l)
  end.

Fixpoint exec_nodes (fuel : nat) (ops : list node_op) (s : NodeState) (out : list Z) :
  outcome (NodeState * list Z) :=
  match ops with
  | [] => Done (s, out)
  | o :: ops =>
      match exec_node fuel o s out with
      | Done (s, out) => exec_nodes fuel ops s out
      | Panicked => Panicked
      | OutOfFuel => OutOfFuel
      end
  end.

(** The arguments have the types of the source. *)
Definition node_op_ok (o : node_op) : Prop :=
  match o with
  | NMetadata _ l => is_u 32 l
  | _ => True
  end.

Lemma eval_one_wf fuel p out p' out' :
  pvm_wf p -> eval_one fuel p out = Done (p', out') -> pvm_wf p'.
Proof.
  intros W. unfold eval_one. pose proof (step_wf fuel p.(machine_state) W) as W1.
  destruct (step fuel p.(machine_state)) as [[[u|e]|] m]; [by intros [= <- _]| |done].
  destruct (handle_exception _ out e) as [[[b p1] out1]|] eqn:H; [|done]. intros [= <- _].
  by apply handle_exception_wf in H.
Qed.

Lemma eval_max_wf fuel p out bound k p' out' :
  pvm_wf p -> eval_max fuel p out bound = Done (k, p', out') -> pvm_wf p'.
Proof.
  intros W. rewrite eval_max_result.
  pose proof (step_max_handle_wf eval_handler fuel eval_handler_wf 0 bound (p.(status), out) p.(machine_state) W) as W1.
  destruct (step_max_handle _ _ _ _ _ _) as [[[[n [e|]]|] [st o]] m]; [done| |done].
  intros [= _ <- _]. exact W1.
Qed.

Lemma sbi_wrap_machine_wf p inner c st :
  pvm_wf p -> yields hart_wf (is_u 64) inner -> sbi_wrap p.(machine_state).(core) inner = Some c ->
  pvm_wf (set_machine_status p (set_core p.(machine_state) c) st).
Proof. intros [H B] Y E. split; [|exact B]. by eapply sbi_wrap_wf. Qed.

Lemma provide_input_wf p lvl counter payload b p' :
  pvm_wf p -> provide_input p lvl counter payload = Some (b, p') -> pvm_wf p'.
Proof.
  intros W. unfold provide_input, sbi_provide_input, provided. destruct p.(status); try by intros [= _ <-].
  destruct (sbi_wrap _ _) as [c|] eqn:E; [|done]. intros [= _ <-].
  eapply sbi_wrap_machine_wf; [done| |exact E]. apply write_input_wf.
Qed.

Lemma provide_metadata_wf p addr lvl b p' :
  pvm_wf p -> is_u 32 lvl -> provide_metadata p addr lvl = Some (b, p') -> pvm_wf p'.
Proof.
  intros W U. unfold provide_metadata, sbi_provide_metadata, provided. destruct p.(status); try by intros [= _ <-].
  destruct (sbi_wrap _ _) as [c|] eqn:E; [|done]. intros [= _ <-].
  eapply sbi_wrap_machine_wf; [done| |exact E]. by apply write_metadata_wf.
Qed.

Lemma exec_node_wf fuel o s out s' out' :
  node_op_ok o -> node_wf s -> exec_node fuel o s out = Done (s', out') -> node_wf s'.
Proof.
  intros O [W U]. destruct o; cbn [exec_node].
  - unfold compute_step. destruct (eval_one fuel s.(pvm) out) as [[p o]| |] eqn:E; [|done..].
    intros [= <- _]. split; [by eapply eval_one_wf|apply wrapping_add_u64].
  - unfold compute_step_many. destruct (eval_max _ _ _ _) as [[[k p] o]| |] eqn:E; [|done..].
    intros [= <- _]. split; [by eapply eval_max_wf|apply wrapping_add_u64].
  - unfold set_input_message. destruct (provide_input _ _ _ _) as [[[] p]|] eqn:E; [|done..].
    intros [= <- _]. split; [by eapply provide_input_wf|apply wrapping_add_u64].
  - unfold set_metadata. destruct (provide_metadata _ _ _) as [[[] p]|] eqn:E; [|done..].
    intros [= <- _]. split; [by eapply provide_metadata_wf|apply wrapping_add_u64].
Qed.

(** ** Output *)

Lemma handle_exception_output p out e b p' out' :
  handle_exception p out e = Some (b, p', out') -> out `prefix_of` out'.
Proof.
  unfold handle_exception. set (s0 := {| ss_status := _ |}).
  destruct e; cbn [handle_call]; cbv zeta; try (by intros [= _ _ <-]);
    set (s1 := with_core s0 _); pose proof (sbi_dispatch_spec s1) as D;
    (destruct (sbi_dispatch s1) as [s2|]; [|done]); intros [= _ _ <-];
    destruct (d_output _ _ D) as [-> | ->]; first [done|by apply prefix_app_r].
Qed.

Lemma step_max_handle_output fuel : forall acc bound h m,
  h.2 `prefix_of` (step_max_handle fuel acc bound eval_handler h m).1.2.2.
Proof.
  induction fuel as [|fuel IH]; intros acc bound [st out] m; [done|]. cbn [step_max_handle].
  destruct (step_max _ _ _) as [[[k [e|]]|] m1]; [|done..]. cbn [smr_error smr_steps].
  pose proof (eval_handler_exception (set_machine_status {| version := 0; machine_state := m1; status := st |} m1 st) out e) as H.
  cbn [status machine_state set_machine_status] in H. rewrite H.
  destruct (handle_exception _ out e) as [[[b p1] out1]|] eqn:E; [|done].
  apply handle_exception_output in E. destruct b; [|done].
  etrans; [exact E|]. apply (IH _ _ (status p1, out1)).
Qed.

Lemma exec_node_output fuel o s out s' out' :
  exec_node fuel o s out = Done (s', out') ->
  out `prefix_of` out' /\ (s.(level_is_set) = true -> s'.(level_is_set) = true).
Proof.
  destruct o; cbn [exec_node].
  - unfold compute_step, eval_one. destruct (step _ _) as [[[u|e]|] m]; [by intros [= <- <-]| |done].
    destruct (handle_exception _ out e) as [[[b p1] out1]|] eqn:H; [|done]. intros [= <- <-].
    split; [by eapply handle_exception_output|done].
  - unfold compute_step_many. rewrite eval_max_result.
    pose proof (step_max_handle_output fuel 0 (Included max_steps) (s.(pvm).(status), out) s.(pvm).(machine_state)) as P.
    destruct (step_max_handle _ _ _ _ _ _) as [[[[k [e|]]|] [st o]] m]; [done| |done]. by intros [= <- <-].
  - unfold set_input_message. destruct (provide_input _ _ _ _) as [[[] p]|]; [|done..]. by intros [= <- <-].
  - unfold set_metadata. destruct (provide_metadata _ _ _) as [[[] p]|]; [|done..]. by intros [= <- <-].
Qed.

(** C25. The node PVM keeps its invariant along any sequence of operations:
    however steps, runs of steps, inputs and metadata are
    interleaved, the machine stays well-formed, the tick is a 64-bit number, console output is
    only ever appended to, and a level once set stays set. *)
Theorem node_invariant fuel ops s out s' out' :
  Forall node_op_ok ops -> node_wf s -> exec_nodes fuel ops s out = Done (s', out') ->
  node_wf s' /\ out `prefix_of` out' /\ (s.(level_is_set) = true -> s'.(level_is_set) = true).
Proof.
  intros F. revert s out. induction F as [|o ops O F IH]; intros s out W; cbn [exec_nodes].
  { by intros [= <- <-]. }
  destruct (exec_node fuel o s out) as [[s1 out1]| |] eqn:E; [|done..]. intros R.
  pose proof (exec_node_wf _ _ _ _ _ _ O W E) as W1. apply exec_node_output in E as [P L].
  destruct (IH _ _ W1 R) as (W2 & P2 & L2). split; [done|]. split; [by etrans|auto].
Qed.

Lemma provide_input_total p lvl counter payload :
  exists p', provide_input p lvl counter payload = Some (bool_decide (p.(status) = WaitingForInput), p') /\
    p'.(status) = if decide (p.(status) = WaitingForInput) then Evaluating else p.(status).
Proof.
  unfold provide_input, sbi_provide_input. destruct p.(status) eqn:St; [by eexists| |by eexists].
  destruct (sbi_wrap_total p.(machine_state).(core) (write_input lvl counter payload)) as [c ->];
    [apply write_input_no_panic|]. by eexists.
Qed.

Lemma provide_metadata_total p addr lvl :
  exists p', provide_metadata p addr lvl = Some (bool_decide (p.(status) = WaitingForMetadata), p') /\
    p'.(status) = if decide (p.(status) = WaitingForMetadata) then Evaluating else p.(status).
Proof.
  unfold provide_metadata, sbi_provide_metadata. destruct p.(status) eqn:St; [by eexists|by eexists|].
  destruct (sbi_wrap_total p.(machine_state).(core) (write_metadata addr lvl)) as [c ->];
    [apply write_metadata_no_panic|]. by eexists.
Qed.

(** Input and metadata are accepted exactly when the PVM waits for them,
    whatever addresses the guest gave for them; the assertion of the node
    fails in every other status.  Accepting takes one tick, goes back to
    evaluation, and records the level and the counter of an input. *)
Theorem node_input_status s lvl counter input addr origination :
  match set_input_message s lvl counter input with
  | Done s' => get_status s = WaitingForInput /\ get_status s' = Evaluating /\
               get_tick s' = get_tick s ⊞ 1 /\ get_current_level s' = Some lvl /\
               get_message_counter s' = counter
  | Panicked => get_status s <> WaitingForInput
  | OutOfFuel => False
  end /\
  match set_metadata s addr origination with
  | Done s' => get_status s = WaitingForMetadata /\ get_status s' = Evaluating /\
               get_tick s' = get_tick s ⊞ 1 /\ get_current_level s' = get_current_level s /\
               get_message_counter s' = get_message_counter s
  | Panicked => get_status s <> WaitingForMetadata
  | OutOfFuel => False
  end.
Proof.
  unfold set_input_message, set_metadata, get_status. split.
  - destruct (provide_input_total s.(pvm) lvl (as_u32 counter) input) as (p' & -> & St).
    destruct (decide (s.(pvm).(status) = WaitingForInput)) as [W|W].
    + by rewrite bool_decide_true.
    + by rewrite bool_decide_false.
  - destruct (provide_metadata_total s.(pvm) addr origination) as (p' & -> & St).
    destruct (decide (s.(pvm).(status) = WaitingForMetadata)) as [W|W].
    + by rewrite bool_decide_true.
    + by rewrite bool_decide_false.
Qed.
End eval.

(** ** Examples *)

#[local] Existing Instances M1K TestCacheLayouts ApFloat_example ArbitraryInt_ref ApFloat_example_laws.
#[local] Existing Instances TezosCrypto_example TezosCrypto_example_laws.

(** A supervisor that prints the letter [A] in a loop: [addi a7, x0, 1],
    [addi a0, x0, 65], [ecall], [jal x0, -8]. *)
Definition node_example : NodeState := {|
  pvm := {| version := 0; status := Evaluating;
            machine_state := set_core machine_example
              (set_bus (set_hart core_example (set_mode core_example.(hart) Supervisor))
                 (Bus_write_all U32 core_example.(bus) start_of_main_memory
                    [0x00100893; 0x04100513; 0x00000073; 0xff9ff06f]).2) |};
  level_is_set := false; level := 0; message_counter := 0; tick := 0;
|}.

Lemma node_example_wf : node_wf node_example.
Proof.
  split; [split; [apply set_mode_wf; exact HartState_example_wf|exact machine_example_wf]|by vm_compute].
Qed.

Definition is_done {A} (o : outcome A) : bool := match o with Done _ => true | _ => false end.

(** Ten steps print three letters. *)
Lemma compute_step_many_one_by_one_witness :
  exists s', compute_step_many 12 node_example [] 10 = Done (10, s', [65; 65; 65]) /\
    s'.(tick) = 10 /\ s'.(pvm).(machine_state).(core).(hart).(pc) = 0x80000004.
Proof.
  assert (D : is_done (computes_one_by_one 10 node_example []) = true) by (vm_compute; reflexivity).
  destruct (computes_one_by_one 10 node_example []) as [[[k s'] o]| |] eqn:E; [|discriminate D..].
  - assert (K : Some (k, tick s', pc (hart (core (machine_state (pvm s')))), o) = Some (10, 10, 0x80000004, [65; 65; 65])).
    { change (match Done (k, s', o) with
              | Done (k, s, o) => Some (k, tick s, pc (hart (core (machine_state (pvm s)))), o) = Some (10, 10, 0x80000004, [65; 65; 65])
              | _ => False end). rewrite <- E. vm_compute. reflexivity. }
    exists s'. injection K as -> T P ->. split; [|split; [exact T|exact P]].
    refine (eq_trans (compute_step_many_one_by_one 10 node_example [] 12 node_example_wf _ _ _ _) E).
    + reflexivity.
    + vm_compute. reflexivity.
    + lia.
    + rewrite E. discriminate.
Defined.

Lemma node_invariant_witness :
  exists s' out', exec_nodes 12 [NStep; NStepMany 4; NStep] node_example [] = Done (s', out') /\ node_wf s'.
Proof.
  assert (D : is_done (exec_nodes 12 [NStep; NStepMany 4; NStep] node_example []) = true) by (vm_compute; reflexivity).
  destruct (exec_nodes 12 [NStep; NStepMany 4; NStep] node_example []) as [[s' out']| |] eqn:E; [|discriminate D..].
  - exists s', out'. split; [reflexivity|].
    apply (node_invariant 12 [NStep; NStepMany 4; NStep] node_example [] s' out'); [|exact node_example_wf|exact E].
    repeat constructor.
Defined.
