(* ===== verification/Program.v ===== *)
(** Programs ([src/riscv/lib/src/program.rs]) and the ELF loader
    ([src/riscv/lib/src/kernel_loader.rs]).

    The segments of a program are a map from addresses to byte sequences, a
    [BTreeMap] in the source: iteration goes by increasing address.  Parsing
    an ELF file is the goblin crate's; its result is a record here, and the
    parser a parameter of [load_elf].  [None] is a panic. *)
From S2P Require Import Prelude Bus.
From stdpp Require Import sorting.
#[local] Open Scope Z_scope.

(** ** Ordered maps *)

Abbreviation segments := (gmap Z (list Z)).

(** The keys that satisfy a condition, in increasing order. *)
Definition seg_keys (m : segments) (P : Z -> bool) : list Z :=
  merge_sort Z.le (filter (fun k => P k = true) (map fst (map_to_list m))).

(** ** Writing into a program *)

(* program.rs:13-27 Program *)
Record Program : Type := { entrypoint : Z; prog_segments : segments }.

(* program.rs:39-48 write_bytes *)
Definition shrink_previous (m : segments) (paddr : Z) : segments :=
  match last (seg_keys m (fun k => k <? paddr)) with
  | Some prev_paddr =>
      match m !! prev_paddr with
      | Some prev_bytes =>
          if paddr <? prev_paddr + Z.of_nat (length prev_bytes)
          then <[prev_paddr := take (Z.to_nat (paddr - prev_paddr)) prev_bytes]> m
          else m
      | None => m
      end
  | None => m
  end.

(** The pieces before each existing chunk, and what is left. *)
(* program.rs:53-66 write_bytes *)
Fixpoint split_chunks (keys : list Z) (paddr : Z) (bytes : list Z) (new_segments : segments) :
  segments * Z * list Z :=
  match keys with
  | [] => (new_segments, paddr, bytes)
  | next_paddr :: keys =>
      let nonoverlapping_len := Z.to_nat (next_paddr - paddr) in
      let nonoverlapping := take nonoverlapping_len bytes in
      let overlapping := drop nonoverlapping_len bytes in
      let new_segments :=
        match nonoverlapping with
        | [] => new_segments
        | _ => <[paddr := nonoverlapping]> new_segments
        end in
      split_chunks keys next_paddr overlapping new_segments
  end.

(* program.rs:71-93 write_bytes *)
Definition write_last (m : segments) (paddr : Z) (bytes : list Z) : segments :=
  match bytes with
  | [] => m
  | _ =>
      match m !! paddr with
      | Some chunk =>
          if (length bytes <=? length chunk)%nat
          then <[paddr := bytes ++ drop (length bytes) chunk]> m
          else <[paddr := bytes]> m
      | None => <[paddr := bytes]> m
      end
  end.

(** A range whose end is before its start panics. *)
(* program.rs:30-94 write_bytes *)
Definition write_bytes (m : segments) (paddr : Z) (bytes : list Z) : option segments :=
  match bytes with
  | [] => Some m
  | _ =>
      let m := shrink_previous m paddr in
      let paddr_after := paddr ⊞ Z.of_nat (length bytes) in
      if paddr_after <? paddr then None
      else
        let keys := seg_keys m (fun k => (paddr <=? k) && (k <? paddr_after)) in
        let '(new_segments, paddr, bytes) := split_chunks keys paddr bytes ∅ in
        Some (write_last (new_segments ∪ m) paddr bytes)
  end.

(** [vec!] panics above [isize::MAX] bytes. *)
(* kernel_loader.rs:33-36 set_zero *)
Definition set_zero (m : segments) (paddr len : Z) : option segments :=
  if 2 ^ 63 <=? len then None else write_bytes m paddr (replicate (Z.to_nat len) 0).

(** ** ELF files *)

(** What the loader reads of a parsed file. *)
Record ProgramHeader : Type := {
  p_type : Z; p_offset : Z; p_vaddr : Z; p_paddr : Z; p_filesz : Z; p_memsz : Z;
}.
Record Reloc : Type := { r_offset : Z; r_addend : option Z; r_type : Z }.
Record Elf : Type := {
  e_type : Z; e_entry : Z; program_headers : list ProgramHeader; dynrelas : list Reloc;
}.

Definition PT_LOAD : Z := 1.
Definition ET_EXEC : Z := 2.
Definition ET_DYN : Z := 3.
Definition R_RISCV_RELATIVE : Z := 3.

(* kernel_loader.rs:20-25 LoadResult *)
Record LoadResult : Type := { entry : Z; last_written : Z }.

(** [contents[segment.file_range()]]: out of range is a panic. *)
Definition file_slice (contents : list Z) (ph : ProgramHeader) : option (list Z) :=
  if ph.(p_offset) + ph.(p_filesz) <=? Z.of_nat (length contents)
  then Some (take (Z.to_nat ph.(p_filesz)) (drop (Z.to_nat ph.(p_offset)) contents))
  else None.

Definition loadable_segments (elf : Elf) : list ProgramHeader :=
  filter (fun ph => ph.(p_type) = PT_LOAD) elf.(program_headers).

(** One segment, at [dest]: its bytes, then zeroes up to its size in memory. *)
(* kernel_loader.rs:53-62 load_elf_nonreloc *)
Definition load_segment (contents : list Z) (m : segments) (dest : Z) (ph : ProgramHeader) :
  option segments :=
  bytes ← file_slice contents ph;
  m ← write_bytes m dest bytes;
  if ph.(p_filesz) <? ph.(p_memsz) then
    set_zero m (dest ⊞ ph.(p_filesz)) (ph.(p_memsz) - ph.(p_filesz))
  else Some m.

Definition load_segments (contents : list Z) (dest : ProgramHeader -> Z) (phs : list ProgramHeader)
  (m : segments) (last_written : Z) : option (segments * Z) :=
  foldl (fun acc ph =>
      '(m, _) ← acc;
      m ← load_segment contents m (dest ph) ph;
      Some (m, dest ph ⊞ ph.(p_memsz)))
    (Some (m, last_written)) phs.

(* kernel_loader.rs:40-71 load_elf_nonreloc *)
Definition load_elf_nonreloc (m : segments) (elf : Elf) (contents : list Z) :
  option (segments * LoadResult) :=
  '(m, last) ← load_segments contents (fun ph => ph.(p_paddr)) (loadable_segments elf) m 0;
  Some (m, {| entry := elf.(e_entry); last_written := last |}).

(** The bytes of a 64-bit value in memory order (little-endian hosts). *)
Definition i64_to_ne_bytes (v : Z) : list Z :=
  map (fun i => (as_u64 v / 2 ^ (8 * Z.of_nat i)) mod 256) (seq 0 8).

(** An unsupported relocation is [unimplemented!]. *)
(* kernel_loader.rs:113-128 load_elf_reloc *)
Definition relocate (start : Z) (m : segments) (r : Reloc) : option segments :=
  if r.(r_type) =? R_RISCV_RELATIVE then
    let relocated := i64_to_ne_bytes (as_i64 start + default 0 r.(r_addend)) in
    write_bytes m (start ⊞ r.(r_offset)) relocated
  else None.

(* kernel_loader.rs:85-134 load_elf_reloc *)
Definition load_elf_reloc (m : segments) (start : Z) (elf : Elf) (contents : list Z) :
  option (segments * LoadResult) :=
  '(m, last) ← load_segments contents (fun ph => start ⊞ ph.(p_vaddr)) (loadable_segments elf) m start;
  m ← foldl (fun acc r => m ← acc; relocate start m r) (Some m) elf.(dynrelas);
  Some (m, {| entry := elf.(e_entry) ⊞ start; last_written := last |}).

(* kernel_loader.rs:74-81 mem_size *)
Definition mem_size (phs : list ProgramHeader) : Z :=
  let phs := filter (fun ph => ph.(p_type) = PT_LOAD) phs in
  let ends := map (fun ph => ph.(p_vaddr) ⊞ ph.(p_memsz)) phs in
  match map p_vaddr phs, ends with
  | v :: vs, e :: es => wrapping_sub 64 (foldl Z.max e es) (foldl Z.min v vs)
  | _, _ => 0
  end.

(** [parse] is [Elf::parse]; [None] is its error.  Other types of file are
    [todo!]. *)
Inductive load_outcome : Type :=
| Loaded (m : segments) (r : LoadResult)
| ParseError
| LoadPanic.

Definition loaded (o : option (segments * LoadResult)) : load_outcome :=
  match o with Some (m, r) => Loaded m r | None => LoadPanic end.

(* kernel_loader.rs:138-145 load_elf *)
Definition load_elf (parse : list Z -> option Elf) (m : segments) (start : Z) (contents : list Z) :
  load_outcome :=
  match parse contents with
  | None => ParseError
  | Some elf =>
      if elf.(e_type) =? ET_EXEC then loaded (load_elf_nonreloc m elf contents)
      else if elf.(e_type) =? ET_DYN then loaded (load_elf_reloc m start elf contents)
      else LoadPanic
  end.

Section program.
Context `{ML : MainMemoryLayout}.

(** The program, unless parsing failed or something panicked. *)
(* program.rs:101-113 from_elf *)
Definition Program_from_elf (parse : list Z -> option Elf) (elf : list Z) : option Program :=
  let start_if_reloc := start_of_main_memory in
  match load_elf parse ∅ start_if_reloc elf with
  | Loaded m r => Some {| entrypoint := r.(entry); prog_segments := m |}
  | _ => None
  end.

(* program.rs:116-123 from_raw *)
Definition Program_from_raw (code : list Z) : Program :=
  {| entrypoint := start_of_main_memory; prog_segments := {[ start_of_main_memory := code ]} |}.
End program.
