(* ===== verification/ProgramSpec.v ===== *)
(** Writing into a program: the bytes written are there, bytes before them are
    kept, and so are bytes after them unless the chunk that contains the
    start of the write goes on past its end. *)
From S2P Require Import Prelude Bus Program.
From stdpp Require Import sorting.
#[local] Open Scope Z_scope.

(** ** Keys *)

Lemma elem_of_seg_keys m P k : k ∈ seg_keys m P <-> is_Some (m !! k) /\ P k = true.
Proof.
  unfold seg_keys. rewrite merge_sort_Permutation, list_elem_of_filter, list_elem_of_fmap. split.
  - intros (H & [k' v] & -> & E). split; [|done]. exists v. by apply elem_of_map_to_list.
  - intros [[v E] H]. split; [done|]. exists (k, v). split; [done|]. by apply elem_of_map_to_list.
Qed.

Lemma seg_keys_sorted m P : StronglySorted Z.lt (seg_keys m P).
Proof.
  assert (S : StronglySorted Z.le (seg_keys m P)).
  { apply Sorted_StronglySorted; [intros ???; lia|]. apply Sorted_merge_sort. intros x y. lia. }
  assert (N : NoDup (seg_keys m P)).
  { unfold seg_keys. rewrite merge_sort_Permutation. apply NoDup_filter, NoDup_fst_map_to_list. }
  induction S as [|x l S IH F]; [constructor|]. apply NoDup_cons in N as [N1 N2]. constructor; [by apply IH|].
  rewrite Forall_forall in F |- *. intros y Y. specialize (F y Y). destruct (decide (x = y)) as [->|]; [done|lia].
Qed.

Lemma last_seg_keys m P k :
  last (seg_keys m P) = Some k -> k ∈ seg_keys m P /\ forall k', k' ∈ seg_keys m P -> k' <= k.
Proof.
  pose proof (seg_keys_sorted m P) as S. revert S. generalize (seg_keys m P) as l. intros l S L.
  split; [by apply last_Some_elem_of|].
  induction S as [|x l S IH F]; [done|]. intros k' E. rewrite Forall_forall in F.
  destruct l as [|y l].
  - injection L as <-. apply list_elem_of_singleton in E as ->. lia.
  - assert (L' : last (y :: l) = Some k) by done.
    apply elem_of_cons in E as [->|E]; [|by apply IH].
    specialize (IH L' y (list_elem_of_here _ _)). specialize (F y (list_elem_of_here _ _)). lia.
Qed.

(** ** Bytes of a program *)

Definition chunk_end (k : Z) (v : list Z) : Z := k + Z.of_nat (length v).

(** The byte [b] is at address [a]. *)
Definition byte_of (m : segments) (a b : Z) : Prop :=
  exists k v, m !! k = Some v /\ k <= a /\ v !! Z.to_nat (a - k) = Some b.

(** Chunks do not overlap: the invariant of [Program::segments]. *)
Definition nonoverlapping (m : segments) : Prop :=
  forall k k' v v', m !! k = Some v -> m !! k' = Some v' -> k < k' -> chunk_end k v <= k'.

Lemma byte_of_range m a b : byte_of m a b -> exists k v, m !! k = Some v /\ k <= a < chunk_end k v.
Proof.
  intros (k & v & E & L & B). exists k, v. apply lookup_lt_Some in B. unfold chunk_end. split; [done|lia].
Qed.

(** The byte of an address is that of the chunk around it. *)
Lemma byte_of_chunk m k v a b :
  nonoverlapping m -> m !! k = Some v -> k <= a < chunk_end k v ->
  byte_of m a b <-> v !! Z.to_nat (a - k) = Some b.
Proof.
  intros N E R. split; [|intros B; exists k, v; by split_and!; [| lia|]].
  intros (k' & v' & E' & L' & B). pose proof (lookup_lt_Some _ _ _ B) as Lb.
  destruct (Z.lt_trichotomy k k') as [H|[->|H]].
  - specialize (N _ _ _ _ E E' H). lia.
  - congruence.
  - specialize (N _ _ _ _ E' E H). unfold chunk_end in *. lia.
Qed.

(** ** Pieces *)

(** Inserting a piece [p, p + length bs) over chunks that lie inside it. *)
Lemma insert_piece m p bs :
  nonoverlapping m ->
  (forall k v, m !! k = Some v -> k < p -> chunk_end k v <= p) ->
  (forall k v, m !! k = Some v -> p < k -> chunk_end p bs <= k) ->
  (forall v, m !! p = Some v -> (length v <= length bs)%nat) ->
  let m' := <[p := bs]> m in
  nonoverlapping m' /\
  (forall i b, bs !! i = Some b -> byte_of m' (p + Z.of_nat i) b) /\
  (forall a b, a < p \/ chunk_end p bs <= a -> byte_of m' a b <-> byte_of m a b).
Proof.
  intros N B A P m'. split_and!.
  - intros k k' v v' E E' L. unfold m' in *. apply lookup_insert_Some in E, E'.
    destruct E as [[-> ->]|[? E]], E' as [[<- <-]|[? E']]; [lia| | |by eapply N].
    + by eapply A.
    + by eapply B.
  - intros i b I. exists p, bs. split; [by apply lookup_insert_eq|]. split; [lia|]. rewrite <- I. f_equal. lia.
  - intros a b R. split.
    + intros (k & v & E & L & I). apply lookup_insert_Some in E as [[-> ->]|[? E]]; [|by exists k, v].
      apply lookup_lt_Some in I. unfold chunk_end in R. lia.
    + intros (k & v & E & L & I). destruct (decide (k = p)) as [->|].
      * pose proof (lookup_lt_Some _ _ _ I). specialize (P _ E). unfold chunk_end in R. lia.
      * exists k, v. unfold m'. by rewrite lookup_insert_ne.
Qed.

(** What a write of [bs] at [p] must give. *)
Definition written (m m' : segments) (p : Z) (bs : list Z) : Prop :=
  nonoverlapping m' /\
  (forall i b, bs !! i = Some b -> byte_of m' (p + Z.of_nat i) b) /\
  (forall a b, a < p \/ chunk_end p bs <= a -> byte_of m' a b <-> byte_of m a b).

(** No chunk from before [p] reaches over it. *)
Definition clear_at (m : segments) (p : Z) : Prop :=
  forall k v, m !! k = Some v -> k < p -> chunk_end k v <= p.

Lemma overwrite_prefix m p bs chunk :
  nonoverlapping m -> m !! p = Some chunk -> (length bs <= length chunk)%nat ->
  written m (<[p := bs ++ drop (length bs) chunk]> m) p bs.
Proof.
  intros N E L. assert (Le : length (bs ++ drop (length bs) chunk) = length chunk)
    by (rewrite length_app, length_drop; lia).
  assert (N' : nonoverlapping (<[p := bs ++ drop (length bs) chunk]> m)).
  { intros k k' v v' H H' Lt. apply lookup_insert_Some in H, H'.
    destruct H as [[-> <-]|[? H]], H' as [[<- <-]|[? H']]; [lia| |by eapply N|by eapply N].
    unfold chunk_end. rewrite Le. by eapply N. }
  split; [done|]. split.
  - intros i b I. exists p, (bs ++ drop (length bs) chunk). split; [by apply lookup_insert_eq|]. split; [lia|].
    apply lookup_app_l_Some. rewrite <- I. f_equal. lia.
  - intros a b R. destruct (decide (p <= a < chunk_end p chunk)) as [C|C].
    + rewrite (byte_of_chunk _ p (bs ++ drop (length bs) chunk)), (byte_of_chunk m p chunk); try done.
      * unfold chunk_end in *. rewrite lookup_app_r, lookup_drop by lia.
        replace (length bs + (Z.to_nat (a - p) - length bs))%nat with (Z.to_nat (a - p)) by lia. done.
      * by apply lookup_insert_eq.
      * unfold chunk_end in *. lia.
    + split; intros (k & v & H & Lk & I); (destruct (decide (k = p)) as [->|Ne];
        [exfalso; pose proof (lookup_lt_Some _ _ _ I) as Lt; unfold chunk_end in *|exists k, v; split; [|done]]).
      * rewrite lookup_insert_eq in H. injection H as <-. lia.
      * by rewrite lookup_insert_ne in H.
      * rewrite E in H. injection H as <-. lia.
      * by rewrite lookup_insert_ne.
Qed.

Lemma write_last_spec m p bs :
  nonoverlapping m -> clear_at m p -> bs <> [] ->
  (forall k v, m !! k = Some v -> p < k -> chunk_end p bs <= k) ->
  written m (write_last m p bs) p bs.
Proof.
  intros N C Ne A. unfold write_last. destruct bs as [|b bs]; [done|]. set (l := b :: bs) in *.
  destruct (m !! p) as [chunk|] eqn:E.
  - destruct (Nat.leb_spec (length l) (length chunk)) as [L|L]; [by apply overwrite_prefix|].
    apply insert_piece; [done..|]. intros v V. rewrite E in V. injection V as <-. lia.
  - apply insert_piece; [done..|]. intros v V. by rewrite E in V.
Qed.

Lemma written_trans m m1 m2 p k bs :
  p <= k <= chunk_end p bs -> written m m1 p (take (Z.to_nat (k - p)) bs) ->
  written m1 m2 k (drop (Z.to_nat (k - p)) bs) -> written m m2 p bs.
Proof.
  unfold chunk_end. intros R (N1 & B1 & O1) (N2 & B2 & O2). unfold chunk_end in *.
  assert (L1 : Z.of_nat (length (take (Z.to_nat (k - p)) bs)) = k - p) by (rewrite length_take; lia).
  assert (L2 : Z.of_nat (length (drop (Z.to_nat (k - p)) bs)) = Z.of_nat (length bs) - (k - p)) by (rewrite length_drop; lia).
  rewrite L1 in O1. rewrite L2 in O2. split; [done|]. split.
  - intros i b I. pose proof (lookup_lt_Some _ _ _ I) as Li. destruct (decide (Z.of_nat i < k - p)) as [H|H].
    + apply O2; [lia|]. apply B1. rewrite lookup_take_lt by lia. done.
    + replace (p + Z.of_nat i) with (k + Z.of_nat (i - Z.to_nat (k - p))) by lia. apply B2.
      rewrite lookup_drop. rewrite <- I. f_equal. lia.
  - intros a b H. unfold chunk_end in H. rewrite O2 by lia. apply O1. lia.
Qed.

(** The loop over the chunks inside the range, and the last piece. *)
Lemma split_chunks_spec keys : forall m acc p bs,
  let M := acc ∪ m in
  nonoverlapping M -> clear_at M p -> bs <> [] -> StronglySorted Z.lt keys ->
  (forall k, k ∈ keys -> is_Some (M !! k) /\ p <= k < chunk_end p bs) ->
  (forall k, is_Some (M !! k) -> p < k < chunk_end p bs -> k ∈ keys) ->
  let '(new, p', bs') := split_chunks keys p bs acc in
  written M (write_last (new ∪ m) p' bs') p bs.
Proof.
  induction keys as [|k keys IH]; intros m acc p bs M N C Ne S K1 K2; cbn [split_chunks].
  { apply write_last_spec; [done..|]. intros k v E L. destruct (Z.le_gt_cases (chunk_end p bs) k) as [|G]; [done|].
    exfalso. eapply not_elem_of_nil, K2; [by exists v|lia]. }
  apply StronglySorted_inv in S as [S F]. rewrite Forall_forall in F.
  destruct (K1 k (list_elem_of_here _ _)) as [[vk Ek] R].
  assert (Ne' : drop (Z.to_nat (k - p)) bs <> []).
  { intros D. apply (f_equal length) in D. rewrite length_drop in D. unfold chunk_end in R. simpl in D. lia. }
  assert (Le' : chunk_end k (drop (Z.to_nat (k - p)) bs) = chunk_end p bs).
  { unfold chunk_end in *. rewrite length_drop. lia. }
  destruct (decide (k = p)) as [->|Nk].
  - replace (Z.to_nat (p - p)) with O in * by lia. rewrite take_0, drop_0. rewrite drop_0 in Le', Ne'.
    specialize (IH m acc p bs N C Ne S). apply IH.
    + intros k E. apply K1. by apply list_elem_of_further.
    + intros k E L. specialize (K2 k E L). apply elem_of_cons in K2 as [->|]; [lia|done].
  - assert (Lt : length (take (Z.to_nat (k - p)) bs) = Z.to_nat (k - p)).
    { rewrite length_take. unfold chunk_end in R. lia. }
    assert (W1 : written M (<[p := take (Z.to_nat (k - p)) bs]> M) p (take (Z.to_nat (k - p)) bs)).
    { apply insert_piece; [done..| |].
      - intros k' v E L. unfold chunk_end. rewrite Lt.
        destruct (Z.le_gt_cases (chunk_end p bs) k') as [|G]; [lia|].
        assert (I : k' ∈ k :: keys) by (apply K2; [by exists v|lia]).
        apply elem_of_cons in I as [->|I]; [lia|]. specialize (F k' I). lia.
      - intros v E. specialize (N _ _ _ _ E Ek ltac:(lia)). unfold chunk_end in N. lia. }
    destruct (take (Z.to_nat (k - p)) bs) as [|x l] eqn:T; [simpl in Lt; lia|]. rewrite <- T in *. clear T x l.
    specialize (IH m (<[p := take (Z.to_nat (k - p)) bs]> acc) k (drop (Z.to_nat (k - p)) bs)).
    cbv zeta in IH. rewrite <- insert_union_l in IH. fold M in IH.
    destruct (split_chunks _ _ _ _) as [[new p'] bs']. eapply written_trans; [|exact W1|apply IH]; [lia|apply W1| |done|done| |].
    + intros k' v E L. apply lookup_insert_Some in E as [[<- <-]|[Np E]].
      * unfold chunk_end. rewrite Lt. lia.
      * destruct (Z.lt_ge_cases k' p) as [|G]; [specialize (C _ _ E ltac:(lia)); lia|].
        assert (I : k' ∈ k :: keys) by (apply K2; [by exists v|lia]).
        apply elem_of_cons in I as [->|I]; [lia|]. specialize (F k' I). lia.
    + intros k' I. destruct (K1 k' (list_elem_of_further _ _ _ I)) as [[v E] R']. specialize (F k' I).
      rewrite Le'. split; [|lia]. rewrite lookup_insert_ne by lia. by exists v.
    + intros k' [v E] L. rewrite Le' in L. rewrite lookup_insert_ne in E by lia.
      assert (I : k' ∈ k :: keys) by (apply K2; [by exists v|lia]).
      apply elem_of_cons in I as [->|I]; [lia|done].
Qed.

(** ** The chunk before *)

(** A chunk that starts before [p] and covers [a]. *)
Definition covered_from_before (m : segments) (p a : Z) : Prop :=
  exists k v, m !! k = Some v /\ k < p /\ a < chunk_end k v.

Lemma shrink_one m k v p :
  nonoverlapping m -> m !! k = Some v -> k < p < chunk_end k v ->
  let m' := <[k := take (Z.to_nat (p - k)) v]> m in
  nonoverlapping m' /\ clear_at m' p /\
  (forall a b, a < p -> byte_of m' a b <-> byte_of m a b) /\
  (forall a b, p <= a -> byte_of m' a b <-> byte_of m a b /\ ~ covered_from_before m p a).
Proof.
  intros N E R m'. set (w := take (Z.to_nat (p - k)) v) in *.
  assert (Lw : chunk_end k w = p).
  { unfold chunk_end, w in *. rewrite length_take. lia. }
  assert (Lk : forall k', k' <> k -> m' !! k' = m !! k') by (intros; by apply lookup_insert_ne).
  assert (Ek : m' !! k = Some w) by apply lookup_insert_eq.
  assert (N' : nonoverlapping m').
  { intros a b x y Ea Eb L. destruct (decide (a = k)) as [->|Na], (decide (b = k)) as [->|Nb]; [lia|..].
    - rewrite Ek in Ea. injection Ea as <-. rewrite Lk in Eb by done. specialize (N _ _ _ _ E Eb L). lia.
    - rewrite Lk in Ea by done. by eapply N.
    - rewrite Lk in Ea, Eb by done. by eapply N. }
  split_and!; [done| | |].
  - intros a x Ea La. destruct (decide (a = k)) as [->|Na]; [rewrite Ek in Ea; injection Ea as <-; lia|].
    rewrite Lk in Ea by done. destruct (Z.lt_trichotomy a k) as [H|[?|H]]; [|done|].
    + specialize (N _ _ _ _ Ea E H). lia.
    + specialize (N _ _ _ _ E Ea H). lia.
  - intros a b La. destruct (decide (k <= a)) as [Ka|Ka].
    + rewrite (byte_of_chunk m' k w), (byte_of_chunk m k v) by (done || lia).
      unfold w. rewrite lookup_take_lt by lia. done.
    + split; intros (k' & x & Ex & Lx & I); exists k', x; (split; [|done]).
      * rewrite Lk in Ex by lia. done.
      * rewrite Lk by lia. done.
  - intros a b La. split.
    + intros (k' & x & Ex & Lx & I). destruct (decide (k' = k)) as [->|Nk].
      { rewrite Ek in Ex. injection Ex as <-. apply lookup_lt_Some in I. unfold chunk_end in Lw. lia. }
      rewrite Lk in Ex by done. split; [by exists k', x|]. apply lookup_lt_Some in I.
      intros (k2 & y & Ey & Ly & Ry). destruct (Z.lt_trichotomy k2 k') as [H|[->|H]].
      * specialize (N _ _ _ _ Ey Ex H). lia.
      * rewrite Ex in Ey. injection Ey as <-. destruct (Z.lt_trichotomy k' k) as [G|[?|G]]; [|done|].
        -- specialize (N _ _ _ _ Ex E G). unfold chunk_end in *. lia.
        -- specialize (N _ _ _ _ E Ex G). lia.
      * specialize (N _ _ _ _ Ex Ey H). unfold chunk_end in *. lia.
    + intros [(k' & x & Ex & Lx & I) NC]. exists k', x. split; [|done].
      destruct (decide (k' = k)) as [->|Nk]; [|by rewrite Lk]. exfalso. apply NC. exists k, v.
      rewrite E in Ex. injection Ex as <-. apply lookup_lt_Some in I. unfold chunk_end. split; [done|lia].
Qed.

Lemma shrink_previous_spec m p :
  nonoverlapping m ->
  let m' := shrink_previous m p in
  nonoverlapping m' /\ clear_at m' p /\
  (forall a b, a < p -> byte_of m' a b <-> byte_of m a b) /\
  (forall a b, p <= a -> byte_of m' a b <-> byte_of m a b /\ ~ covered_from_before m p a).
Proof.
  intros N. assert (Cl : clear_at m p -> let m' := m in nonoverlapping m' /\ clear_at m' p /\
    (forall a b, a < p -> byte_of m' a b <-> byte_of m a b) /\
    (forall a b, p <= a -> byte_of m' a b <-> byte_of m a b /\ ~ covered_from_before m p a)).
  { intros C m'. split_and!; [done..|]. intros a b La. split; [|tauto]. intros B. split; [done|].
    intros (k & v & E & L & R). specialize (C _ _ E L). lia. }
  unfold shrink_previous.
  destruct (last (seg_keys m (fun k => k <? p))) as [prev|] eqn:La.
  - apply last_seg_keys in La as [I Mx]. apply elem_of_seg_keys in I as [[v E] L%Z.ltb_lt]. rewrite E.
    assert (Mx' : forall k x, m !! k = Some x -> k < p -> k <= prev).
    { intros k x Ek Lk. apply Mx, elem_of_seg_keys. split; [by exists x|by apply Z.ltb_lt]. }
    destruct (Z.ltb_spec p (prev + Z.of_nat (length v))) as [G|G]; [apply shrink_one; [done..|unfold chunk_end; lia]|].
    apply Cl. intros k x Ek Lk. specialize (Mx' _ _ Ek Lk). destruct (decide (k = prev)) as [->|].
    + rewrite E in Ek. injection Ek as <-. unfold chunk_end. lia.
    + specialize (N _ _ _ _ Ek E ltac:(lia)). lia.
  - apply Cl. intros k v E L. apply last_None in La.
    assert (I : k ∈ seg_keys m (fun k => k <? p)) by (apply elem_of_seg_keys; split; [by exists v|by apply Z.ltb_lt]).
    rewrite La in I. by apply not_elem_of_nil in I.
Qed.

(** C29. Writing into a program: the chunks stay disjoint, the new bytes
    are there, and every byte before them is kept.  A byte after them is kept too
    unless it belongs to a chunk that starts before the write and covers it:
    such a chunk is cut at the start of the write and its bytes after the
    end of the write are lost. *)
Theorem write_bytes_spec m p bs :
  nonoverlapping m -> 0 <= p -> bs <> [] -> chunk_end p bs < 2 ^ 64 ->
  exists m', write_bytes m p bs = Some m' /\ nonoverlapping m' /\
    (forall i b, bs !! i = Some b -> byte_of m' (p + Z.of_nat i) b) /\
    (forall a b, a < p -> byte_of m' a b <-> byte_of m a b) /\
    (forall a b, chunk_end p bs <= a ->
       byte_of m' a b <-> byte_of m a b /\ ~ covered_from_before m p a).
Proof.
  intros N P Ne B. pose proof (shrink_previous_spec m p N) as S. cbv zeta in S. unfold write_bytes.
  destruct bs as [|x l]; [done|]. set (bs := x :: l) in *.
  set (m1 := shrink_previous m p) in *. destruct S as (N1 & C1 & Lo & Hi).
  assert (A : p ⊞ Z.of_nat (length bs) = chunk_end p bs).
  { unfold wrapping_add, chunk_end in *. rewrite wrap_small; [done|]. unfold is_u. lia. }
  rewrite A. destruct (Z.ltb_spec (chunk_end p bs) p) as [G|G]; [unfold chunk_end in G; lia|].
  set (keys := seg_keys m1 _).
  pose proof (split_chunks_spec keys m1 ∅ p bs) as W. rewrite (left_id_L ∅ _) in W. cbv zeta in W.
  destruct (split_chunks keys p bs ∅) as [[new p'] bs'].
  destruct W as (N2 & B2 & O2); [done..|apply seg_keys_sorted| | |].
  - intros k [Sk Pk]%elem_of_seg_keys. apply andb_true_iff in Pk as [?%Z.leb_le ?%Z.ltb_lt]. done.
  - intros k Sk L. apply elem_of_seg_keys. split; [done|]. apply andb_true_iff. rewrite Z.leb_le, Z.ltb_lt. lia.
  - eexists. split; [done|]. split; [done|]. split; [done|]. split; intros a b L.
    + rewrite O2 by lia. by apply Lo.
    + rewrite O2 by lia. apply Hi. lia.
Qed.

(** The relocation of one word inside a segment of 16 bytes: the last four
    bytes are gone. *)
Lemma write_bytes_spec_witness :
  exists m', write_bytes {[ 0 := replicate 16 7 ]} 4 (replicate 8 1) = Some m' /\
    nonoverlapping m' /\ byte_of m' 3 7 /\ byte_of m' 11 1 /\ (forall b, ~ byte_of m' 12 b).
Proof.
  assert (N : nonoverlapping ({[ 0 := replicate 16 7 ]} : segments)).
  { intros k k' v v' E E' L. apply lookup_singleton_Some in E as [<- _], E' as [<- _]. lia. }
  destruct (write_bytes_spec {[ 0 := replicate 16 7 ]} 4 (replicate 8 1)) as (m' & E & N' & Bs & Lo & Hi);
    [exact N|lia|discriminate|vm_compute; reflexivity|].
  exists m'. split; [exact E|]. split; [exact N'|]. split; [|split].
  - apply Lo; [lia|]. exists 0, (replicate 16 7). split; [reflexivity|]. split; [lia|reflexivity].
  - apply (Bs 7%nat 1). reflexivity.
  - intros b H. apply Hi in H as [_ C]; [|vm_compute; congruence]. apply C. exists 0, (replicate 16 7).
    split; [reflexivity|]. split; vm_compute; reflexivity.
Defined.
