(* ===== verification/Boot.v ===== *)
(** Booting: the device tree ([src/riscv/lib/src/devicetree.rs]) and
    [MachineState::setup_boot] ([src/riscv/lib/src/machine_state.rs]).

    The device tree is written through the vm-fdt crate, an interface here. *)
From S2P Require Import Prelude Registers CSRegister Traps XStatus CSRegisters HartState Bus.
From S2P Require Import TranslationCache MachineCore Program Sbi.
From stdpp Require Import strings.
#[local] Open Scope Z_scope.

(** The writer of vm-fdt: what the calls do to it is its own business. *)
Class FdtWriter := {
  writer : Type;
  fdt_error : Type;
  fdt_node : Type;
  fdt_new : result writer fdt_error;
  begin_node : string -> stM writer fdt_error fdt_node;
  end_node : fdt_node -> stM writer fdt_error unit;
  property_u32 : string -> Z -> stM writer fdt_error unit;
  property_u64 : string -> Z -> stM writer fdt_error unit;
  property_string : string -> string -> stM writer fdt_error unit;
  property_array_u64 : string -> list Z -> stM writer fdt_error unit;
  property_phandle : Z -> stM writer fdt_error unit;
  finish : writer -> result (list Z) fdt_error;
}.

(* devicetree.rs:13-19 InitialRamDisk *)
Record InitialRamDisk : Set := { rd_start : Z; rd_length : Z }.

(** The format [{:x}]. *)
Definition hex_digit (d : Z) : string :=
  match d with
  | 0 => "0" | 1 => "1" | 2 => "2" | 3 => "3" | 4 => "4" | 5 => "5" | 6 => "6" | 7 => "7"
  | 8 => "8" | 9 => "9" | 10 => "a" | 11 => "b" | 12 => "c" | 13 => "d" | 14 => "e" | _ => "f"
  end.
Fixpoint hex_digits (fuel : nat) (z : Z) (acc : string) : string :=
  match fuel with
  | O => acc
  | S fuel =>
      let acc := (hex_digit (z mod 16) +:+ acc)%string in
      if z / 16 =? 0 then acc else hex_digits fuel (z / 16) acc
  end.
Definition hex (z : Z) : string := hex_digits 16 z "".

Section boot.
Context `{FW : FdtWriter}.

(* devicetree.rs:22-40 node! *)
Definition node (name : string) (inner : stM writer fdt_error unit) : stM writer fdt_error unit :=
  let! current_node := begin_node name in
  let! _ := inner in
  end_node current_node.
Definition node_at (name : string) (addr : Z) (inner : stM writer fdt_error unit) :
  stM writer fdt_error unit :=
  node (name +:+ "@" +:+ hex addr)%string inner.

(* devicetree.rs:72-79 generate_custom *)
Definition chosen_node (initrd : option InitialRamDisk) : stM writer fdt_error unit :=
  node "chosen"
    (match initrd with
     | Some initrd =>
         let! _ := property_u64 "linux,initrd-end" (initrd.(rd_start) ⊞ initrd.(rd_length)) in
         property_u64 "linux,initrd-start" initrd.(rd_start)
     | None => st_ret tt
     end).

(* devicetree.rs:82-85 generate_custom *)
Definition memory_node (main_memory_start main_memory_length : Z) : stM writer fdt_error unit :=
  node_at "memory" main_memory_start
    (let! _ := property_string "device_type" "memory" in
     property_array_u64 "reg" [main_memory_start; main_memory_length]).

(* devicetree.rs:88-105 generate_custom *)
Definition cpus_node : stM writer fdt_error unit :=
  node "cpus"
    (let! _ := property_u32 "#address-cells" 1 in
     let! _ := property_u32 "#size-cells" 0 in
     let! _ := property_u32 "timebase-frequency" 10000000 in
     node_at "cpu" 0
       (let! _ := property_phandle 1 in
        let! _ := property_string "device_type" "cpu" in
        let! _ := property_u32 "reg" 0 in
        let! _ := property_string "status" "okay" in
        property_string "compatible" "riscv")).

(* devicetree.rs:43-109 generate_custom *)
Definition generate_custom (main_memory_start main_memory_length : Z) (initrd : option InitialRamDisk) :
  result (list Z) fdt_error :=
  let? fdt := fdt_new in
  let '(r, fdt) :=
    node ""
      (let! _ := property_u32 "#address-cells" 2 in
       let! _ := property_u32 "#size-cells" 2 in
       let! _ := property_string "compatible" "riscv-virtio" in
       let! _ := property_string "model" "riscv-virtio,qemu" in
       let! _ := chosen_node initrd in
       let! _ := memory_node main_memory_start main_memory_length in
       cpus_node) fdt in
  let? _ := r in
  finish fdt.

Context `{ML : MainMemoryLayout}.

(* devicetree.rs:112-117 generate *)
Definition generate (initrd : option InitialRamDisk) : result (list Z) fdt_error :=
  let main_memory_start := start_of_main_memory in
  generate_custom main_memory_start BYTES initrd.

(** ** Boot *)

(* machine_state.rs:1057-1061 MachineError *)
Inductive MachineError : Type :=
| AddressError (e : OutOfBounds)
| DeviceTreeError (e : fdt_error).

Definition bootM (A : Type) : Type := stM MachineCoreState MachineError A.

Definition boot_write (addr : Z) (data : list Z) : bootM unit := fun c =>
  let '(r, b) := Bus_write_all U8 c.(bus) addr data in (result_map_err AddressError r, set_bus c b).

Definition boot_hart (f : HartState -> HartState) : bootM unit := modify (fun c => set_hart c (f c.(hart))).

(** The segments in the order of their addresses. *)
Definition segment_list (m : segments) : list (Z * list Z) :=
  map (fun k => (k, default [] (m !! k))) (seg_keys m (fun _ => true)).

(* machine_state.rs:1002-1004 setup_boot *)
Fixpoint write_segments (l : list (Z * list Z)) : bootM unit :=
  match l with
  | [] => st_ret tt
  | (addr, data) :: l => let! _ := boot_write addr data in write_segments l
  end.

(* machine_state.rs:1010-1015 setup_boot *)
Definition initrd_address (l : list (Z * list Z)) : Z :=
  match map (fun '(base, data) => base ⊞ Z.of_nat (length data)) l with
  | [] => start_of_main_memory
  | e :: es => foldl Z.max e es
  end.

(* machine_state.rs:990-1052 setup_boot *)
Definition setup_boot (program : Program) (initrd : option (list Z)) (mode : Mode) : bootM unit :=
  let segments := segment_list program.(prog_segments) in
  let! _ := boot_hart (fun h => HartState_reset h program.(entrypoint)) in
  let! _ := write_segments segments in
  let! _ := boot_hart (fun h => xwrite h a0 0) in
  let initrd_addr := initrd_address segments in
  let! boot_info :=
    match initrd with
    | Some initrd =>
        let! _ := boot_write initrd_addr initrd in
        let length := Z.of_nat (length initrd) in
        st_ret (initrd_addr ⊞ length, Some {| rd_start := initrd_addr; rd_length := length |})
    | None => st_ret (initrd_addr, None)
    end in
  let '(dtb_addr, initrd) := boot_info in
  let! fdt := lift_result (result_map_err DeviceTreeError (generate initrd)) in
  let! _ := boot_write dtb_addr fdt in
  let! _ := boot_hart (fun h => xwrite h a1 dtb_addr) in
  let! _ := boot_hart (fun h => set_mode h mode) in
  let! _ := boot_hart (fun h => csr_write h CSR.medeleg U64_MAX) in
  boot_hart (fun h => csr_write h CSR.mideleg U64_MAX).

End boot.
