(* ===== verification/BootSpec.v ===== *)
(** What [setup_boot] leaves behind: the program, the initial ramdisk and the
    device tree in memory, and the boot protocol's registers. *)
From S2P Require Import Prelude Registers CSRegister Traps XStatus CSRegisters CSRegistersSpec.
From S2P Require Import HartState HartStateSpec Bus BusSpec TranslationCache MachineCore.
From S2P Require Import MachineCoreSpec Program ProgramSpec Sbi Boot.

From stdpp Require Import sorting.
#[local] Open Scope Z_scope.

(** ** Byte sequences in memory *)

Section bytes.
Context `{MLO : MainMemoryLayoutOk}.

(** The sequence is readable, byte by byte, at [a]. *)
Definition holds (b : Bus) (a : Z) (vs : list Z) : Prop :=
  forall i v, vs !! i = Some v -> Bus_read U8 b (a + Z.of_nat i) = Ok v.

(** A non-empty sequence of bytes that fits in the main memory at [a]. *)
Definition fits (a : Z) (vs : list Z) : Prop :=
  Forall (is_elem U8) vs /\ vs <> [] /\ in_memory a (Z.of_nat (length vs)) = true.

Lemma byte_at_write_all_U8 vs : forall m a i v,
  Forall (is_elem U8) vs -> vs !! i = Some v ->
  byte_at (dyn_region_write_all U8 m a vs) (a + Z.of_nat i) = v.
Proof.
  induction vs as [|w vs IH]; intros m a i v F E; [done|]. apply Forall_cons in F as [W F].
  cbn [dyn_region_write_all]. destruct i as [|i].
  - injection E as <-. rewrite byte_at_write_all by (cbn [size_of]; lia).
    change (dyn_region_write U8 m a w) with (<[a := to_stored U8 w mod 256]> m). rewrite byte_at_insert.
    rewrite decide_True by lia. unfold to_stored. rewrite wrap_small by exact W. apply Z.mod_small, W.
  - replace (a + Z.of_nat (S i)) with (a + size_of U8 + Z.of_nat i) by (cbn [size_of]; lia).
    by apply IH.
Qed.

Lemma fits_range a vs : fits a vs -> 2 ^ 31 <= a /\ a + Z.of_nat (length vs) <= 2 ^ 31 + BYTES.
Proof.
  intros (_ & _ & M). unfold in_memory in M. rewrite devices_length in M.
  apply andb_true_iff in M as [?%Z.leb_le ?%Z.leb_le]. lia.
Qed.

Lemma write_fits b a vs :
  fits a vs ->
  exists b', Bus_write_all U8 b a vs = (Ok tt, b') /\ holds b' a vs /\
    forall x, is_u 64 x -> x < a \/ a + Z.of_nat (length vs) <= x -> Bus_read U8 b' x = Bus_read U8 b x.
Proof.
  intros Fi. pose proof (fits_range _ _ Fi). destruct Fi as (F & N & M).
  pose proof BYTES_pos. pose proof BYTES_bound.
  eexists. split; [by apply Bus_write_all_eq; [|rewrite Z.mul_1_l]|]. split.
  - intros i v E. pose proof (lookup_lt_Some _ _ _ E). rewrite Bus_read_eq by (unfold is_u; pow2; lia).
    unfold in_memory, local. rewrite devices_length. cbn [size_of memory data].
    rewrite (proj2 (Z.leb_le _ _)), (proj2 (Z.leb_le _ _)) by lia. cbn [andb]. f_equal.
    replace (a + Z.of_nat i - 2 ^ 31) with (a - 2 ^ 31 + Z.of_nat i) by lia.
    change (from_stored U8 (byte_at (dyn_region_write_all U8 b.(memory).(data) (a - 2 ^ 31) vs)
      (a - 2 ^ 31 + Z.of_nat i) + 256 * 0) = v).
    rewrite (byte_at_write_all_U8 vs _ _ i v F E), Z.add_0_r. rewrite Forall_forall in F.
    unfold from_stored. apply wrap_small. by apply F, list_elem_of_lookup_2 with i.
  - intros x U D. rewrite !Bus_read_eq by done. cbn [memory data].
    rewrite (region_read_ext U8 _ b.(memory).(data)); [done|].
    intros c Hc. cbn [size_of] in Hc. apply byte_at_write_all. unfold local in *. cbn [size_of]. lia.
Qed.

Lemma holds_frame b b' a vs :
  fits a vs -> holds b a vs ->
  (forall x, a <= x < a + Z.of_nat (length vs) -> Bus_read U8 b' x = Bus_read U8 b x) -> holds b' a vs.
Proof.
  intros _ H E i v L. pose proof (lookup_lt_Some _ _ _ L). rewrite E by lia. by apply H.
Qed.

End bytes.

(** ** The program's segments *)

Section segments.
Context `{MLO : MainMemoryLayoutOk} `{FW : FdtWriter}.

Definition before (p q : Z * list Z) : Prop := chunk_end p.1 p.2 <= q.1.

Lemma boot_write_fits a vs (c : MachineCoreState) :
  fits a vs ->
  exists b, boot_write a vs c = (Ok tt, set_bus c b) /\ holds b a vs /\
    forall x, is_u 64 x -> x < a \/ chunk_end a vs <= x -> Bus_read U8 b x = Bus_read U8 c.(bus) x.
Proof.
  intros F. destruct (write_fits c.(bus) a vs F) as (b & E & H & Fr). exists b.
  unfold boot_write. by rewrite E.
Qed.

Lemma write_segments_ok l : forall c,
  StronglySorted before l -> Forall (fun p => fits p.1 p.2) l ->
  exists b, write_segments l c = (Ok tt, set_bus c b) /\
    (forall p, p ∈ l -> holds b p.1 p.2) /\
    forall x, is_u 64 x -> (forall p, p ∈ l -> x < p.1 \/ chunk_end p.1 p.2 <= x) ->
      Bus_read U8 b x = Bus_read U8 c.(bus) x.
Proof.
  pose proof BYTES_bound. induction l as [|[a vs] l IH]; intros c S F.
  { exists c.(bus). split; [by destruct c|]. split; [by intros p ?%not_elem_of_nil|done]. }
  apply StronglySorted_inv in S as [S B]. apply Forall_cons in F as [F1 F]. simpl in F1.
  destruct (boot_write_fits a vs c F1) as (b1 & E1 & H1 & Fr1).
  destruct (IH (set_bus c b1) S F) as (b2 & E2 & H2 & Fr2). exists b2. split_and!.
  - cbn [write_segments]. unfold st_bind. by rewrite E1, E2.
  - intros p [->|In]%elem_of_cons; [|by apply H2]. pose proof (fits_range _ _ F1).
    intros i v L. pose proof (lookup_lt_Some _ _ _ L). simpl in *. rewrite Fr2.
    + by apply H1.
    + unfold is_u. pow2. lia.
    + rewrite Forall_forall in B. intros p In. specialize (B p In). unfold before, chunk_end in B. simpl in B. lia.
  - intros x U D. rewrite Fr2; [|done|intros p In; apply D; by right]. cbn [bus set_bus].
    apply Fr1; [done|]. apply (D (a, vs)). by left.
Qed.

Lemma elem_of_segment_list m k v : (k, v) ∈ segment_list m <-> m !! k = Some v.
Proof.
  unfold segment_list. rewrite list_elem_of_fmap. split.
  - intros (k' & [= -> ->] & [[w E] _]%elem_of_seg_keys). by rewrite E.
  - intros E. exists k. rewrite E. split; [done|]. apply elem_of_seg_keys. by rewrite E.
Qed.

Lemma segment_list_sorted m : nonoverlapping m -> StronglySorted before (segment_list m).
Proof.
  intros N. unfold segment_list. pose proof (seg_keys_sorted m (fun _ => true)) as S.
  assert (I : forall k, k ∈ seg_keys m (fun _ => true) -> is_Some (m !! k)).
  { intros k [? _]%elem_of_seg_keys. done. }
  induction S as [|k l S IH F]; [constructor|]. cbn [map]. constructor.
  - apply IH. intros. apply I. by right.
  - apply Forall_forall. intros p (k' & -> & In)%list_elem_of_fmap. rewrite Forall_forall in F.
    destruct (I k) as [v E]; [by left|]. destruct (I k') as [v' E']; [by right|].
    rewrite E, E'. unfold before. simpl. eapply N; eauto.
Qed.

Lemma foldl_max_ge l : forall e, e <= foldl Z.max e l /\ forall x, x ∈ l -> x <= foldl Z.max e l.
Proof.
  induction l as [|y l IH]; intros e; cbn [foldl].
  - split; [lia|by intros x ?%not_elem_of_nil].
  - destruct (IH (Z.max e y)) as [G E]. split; [lia|].
    intros x [->|In]%elem_of_cons; [lia|by apply E].
Qed.

(** The ramdisk comes after every segment. *)
Lemma initrd_address_above l p :
  Forall (fun p => fits p.1 p.2) l -> p ∈ l -> chunk_end p.1 p.2 <= initrd_address l.
Proof.
  intros F In. pose proof BYTES_bound.
  set (g := fun '((base, data) : Z * list Z) => base ⊞ Z.of_nat (length data) : Z).
  assert (E : g p = chunk_end p.1 p.2).
  { rewrite Forall_forall in F. pose proof (fits_range _ _ (F p In)). destruct p as [a vs]. simpl in *.
    unfold g, wrapping_add, chunk_end. apply wrap_small. unfold is_u. pow2. lia. }
  rewrite <- E. assert (In' : g p ∈ map g l) by by apply list_elem_of_fmap_2.
  unfold initrd_address. fold g. destruct (map g l) as [|e es]; [by apply not_elem_of_nil in In'|].
  destruct (foldl_max_ge es e) as [? ?]. apply elem_of_cons in In' as [->|?]; auto.
Qed.

End segments.

(** ** Booting *)

Section boot.
Context `{MLO : MainMemoryLayoutOk} `{FW : FdtWriter}.

(** The ramdisk as it is described in the device tree. *)
Definition ramdisk (a : Z) (initrd : option (list Z)) : option InitialRamDisk :=
  (fun d => {| rd_start := a; rd_length := Z.of_nat (length d) |}) <$> initrd.

(** Where [setup_boot] puts the ramdisk and the device tree. *)
Definition boot_ramdisk (p : Program) : Z := initrd_address (segment_list p.(prog_segments)).
Definition boot_dtb (p : Program) (initrd : option (list Z)) : Z :=
  boot_ramdisk p + Z.of_nat (length (default [] initrd)).

(** Everything that is loaded fits in the main memory. *)
Definition bootable (p : Program) (initrd : option (list Z)) (fdt : list Z) : Prop :=
  nonoverlapping p.(prog_segments) /\
  map_Forall fits p.(prog_segments) /\
  (forall d, initrd = Some d -> fits (boot_ramdisk p) d) /\
  generate (ramdisk (boot_ramdisk p) initrd) = Ok fdt /\
  fits (boot_dtb p initrd) fdt.

(** The memory after booting: what is loaded can be read, and the rest is as it was. *)
Definition booted (p : Program) (initrd : option (list Z)) (fdt : list Z) (b b' : Bus) : Prop :=
  (forall a v, byte_of p.(prog_segments) a v -> Bus_read U8 b' a = Ok v) /\
  (forall d, initrd = Some d -> holds b' (boot_ramdisk p) d) /\
  holds b' (boot_dtb p initrd) fdt /\
  forall x, is_u 64 x ->
    (forall k v, p.(prog_segments) !! k = Some v -> x < k \/ chunk_end k v <= x) ->
    (x < boot_ramdisk p \/ chunk_end (boot_dtb p initrd) fdt <= x) ->
    Bus_read U8 b' x = Bus_read U8 b x.

(** The memory part: the segments, then the ramdisk, then the device tree. *)
Lemma initrd_written (p : Program) initrd (c : MachineCoreState) :
  (forall d, initrd = Some d -> fits (boot_ramdisk p) d) ->
  exists b,
    (match initrd with
     | Some initrd =>
         let! _ := boot_write (boot_ramdisk p) initrd in
         let length := Z.of_nat (length initrd) in
         st_ret (boot_ramdisk p ⊞ length, Some {| rd_start := boot_ramdisk p; rd_length := length |})
     | None => st_ret (boot_ramdisk p, None)
     end) c = (Ok (boot_dtb p initrd, ramdisk (boot_ramdisk p) initrd), set_bus c b) /\
    (forall d, initrd = Some d -> holds b (boot_ramdisk p) d) /\
    forall x, is_u 64 x -> x < boot_ramdisk p \/ boot_dtb p initrd <= x ->
      Bus_read U8 b x = Bus_read U8 c.(bus) x.
Proof.
  intros F. pose proof BYTES_bound. destruct initrd as [d|].
  - specialize (F d eq_refl). pose proof (fits_range _ _ F).
    destruct (boot_write_fits _ _ c F) as (b & E & Hb & Fr).
    exists b. unfold st_bind. rewrite E. split; [|split; [by intros ? [= <-]|done]].
    unfold st_ret, wrapping_add, boot_dtb. cbn [default]. rewrite wrap_small; [done|]. unfold is_u. pow2. lia.
  - exists c.(bus). unfold st_ret, boot_dtb. cbn. rewrite Z.add_0_r. by destruct c.
Qed.

(** The hart after booting. *)
Definition booted_hart (h : HartState) (p : Program) (dtb : Z) (mode : Mode) : HartState :=
  csr_write (csr_write (set_mode (xwrite (xwrite (HartState_reset h p.(entrypoint)) a0 0) a1 dtb) mode)
    CSR.medeleg U64_MAX) CSR.mideleg U64_MAX.

Lemma setup_boot_eq p initrd mode fdt (c : MachineCoreState) :
  bootable p initrd fdt ->
  exists b, booted p initrd fdt c.(bus) b /\
    setup_boot p initrd mode c =
      (Ok tt, {| hart := booted_hart c.(hart) p (boot_dtb p initrd) mode; bus := b;
                 translation_cache := c.(translation_cache) |}).
Proof.
  intros (N & M & I & G & D). pose proof (segment_list_sorted _ N) as S. pose proof BYTES_bound.
  assert (F : Forall (fun p => fits p.1 p.2) (segment_list p.(prog_segments))).
  { apply Forall_forall. intros [k v] E%elem_of_segment_list. exact (M k v E). }
  pose proof (fun k v In => initrd_address_above _ (k, v) F (proj2 (elem_of_segment_list _ k v) In)) as Ab.
  fold (boot_ramdisk p) in Ab. cbn [fst snd] in Ab.
  pose (c1 := set_hart c (HartState_reset c.(hart) p.(entrypoint))).
  destruct (write_segments_ok _ c1 S F) as (b1 & E1 & H1 & Fr1).
  pose (c2 := set_hart (set_bus c1 b1) (xwrite (set_bus c1 b1).(hart) a0 0)).
  destruct (initrd_written p initrd c2 I) as (b2 & E2 & H2 & Fr2).
  destruct (boot_write_fits _ _ (set_bus c2 b2) D) as (b3 & E3 & H3 & Fr3).
  exists b3. cbn [bus set_bus set_hart c1 c2] in *.
  assert (R : boot_ramdisk p <= boot_dtb p initrd) by (unfold boot_dtb; lia).
  assert (L : boot_dtb p initrd <= chunk_end (boot_dtb p initrd) fdt) by (unfold chunk_end; lia).
  split.
  - split_and!.
    + intros a v (k & vs & E & La & B). pose proof (lookup_lt_Some _ _ _ B).
      pose proof (fits_range _ _ (M k vs E)). specialize (Ab k vs E). unfold chunk_end in Ab.
      assert (is_u 64 a) by (unfold is_u; pow2; lia).
      rewrite Fr3, Fr2 by (done || lia). replace a with (k + Z.of_nat (Z.to_nat (a - k))) by lia.
      exact (H1 (k, vs) (proj2 (elem_of_segment_list _ k vs) E) _ _ B).
    + intros d ->. apply (holds_frame b2 _ _ _ (I d eq_refl)); [by apply H2|].
      pose proof (fits_range _ _ (I d eq_refl)). intros x Hx. apply Fr3; [unfold is_u; pow2; lia|].
      unfold boot_dtb. change (default [] (Some d)) with d. lia.
    + exact H3.
    + intros x U Ns Hx. rewrite Fr3, Fr2, Fr1 by (done || lia || (intros [k v] ?%elem_of_segment_list; eauto)).
      done.
  - unfold setup_boot. fold (boot_ramdisk p). unfold st_bind at 1. unfold boot_hart at 1, modify at 1. fold c1.
    unfold st_bind at 1. rewrite E1. unfold st_bind at 1. unfold boot_hart at 1, modify at 1.
    change (set_hart (set_bus c1 b1) (xwrite (hart (set_bus c1 b1)) a0 0)) with c2.
    unfold st_bind at 1. rewrite E2. unfold st_bind at 1, lift_result. rewrite G. cbn [result_map_err].
    unfold st_bind at 1. rewrite E3. reflexivity.
Qed.

(** C23. Booting.  When the segments of the program, the ramdisk after them
    and the device tree after that fit in the main memory, [setup_boot]
    succeeds.  Every byte of the program, of the ramdisk and of the device
    tree is then read at its place, every other address reads what it read
    before, the device tree describes the ramdisk at the address where it
    was written, and the hart starts at the entrypoint in the mode that was
    asked for, with zero in [a0], the address of the device tree in [a1],
    zero in every other register and all traps that can be delegated
    delegated. *)
Theorem setup_boot_spec p initrd mode fdt (c : MachineCoreState) :
  HartState_wf c.(hart) -> is_u 64 p.(entrypoint) -> bootable p initrd fdt ->
  exists c', setup_boot p initrd mode c = (Ok tt, c') /\
    booted p initrd fdt c.(bus) c'.(bus) /\
    c'.(hart).(pc) = p.(entrypoint) /\ c'.(hart).(HartState.mode) = mode /\
    (forall r, xread c'.(hart) r = if decide (r = a1) then boot_dtb p initrd else 0) /\
    csr_read c'.(hart) CSR.medeleg = WARL_MASK_MEDELEG /\
    csr_read c'.(hart) CSR.mideleg = WARL_MASK_MIDELEG.
Proof.
  intros W U B. destruct (setup_boot_eq p initrd mode fdt c B) as (b & Bt & E).
  eexists. split; [exact E|]. cbn [bus hart]. split; [exact Bt|]. split; [done|]. split; [done|]. split_and!.
  - intros r. set (h := HartState_reset c.(hart) p.(entrypoint)).
    assert (R : h.(xregisters) = XRegisters_default) by (apply XRegisters_reset_eq, W).
    change (XRegisters_read (XRegisters_write (XRegisters_write h.(xregisters) a0 0) a1 (boot_dtb p initrd)) r
      = if decide (r = a1) then boot_dtb p initrd else 0). rewrite R.
    destruct (decide (r = a1)) as [->|Nr].
    + apply XRegisters_read_write_eq; [|done]. apply XRegisters_write_wf; [apply XRegisters_default_wf|by vm_compute].
    + rewrite XRegisters_read_write_ne by done. by destruct r.
  - unfold booted_hart. rewrite csr_read_write_ne, csr_read_write by done. by vm_compute.
  - unfold booted_hart. rewrite csr_read_write by done. by vm_compute.
Qed.

End boot.

(** A writer that records one byte for each call. *)
#[local] Instance bytes_writer : FdtWriter := {|
  writer := list Z; fdt_error := unit; fdt_node := unit; fdt_new := Ok [];
  begin_node := fun _ w => (Ok tt, w ++ [1]); end_node := fun _ w => (Ok tt, w ++ [2]);
  property_u32 := fun _ _ w => (Ok tt, w ++ [3]); property_u64 := fun _ _ w => (Ok tt, w ++ [4]);
  property_string := fun _ _ w => (Ok tt, w ++ [5]); property_array_u64 := fun _ _ w => (Ok tt, w ++ [6]);
  property_phandle := fun _ w => (Ok tt, w ++ [7]); finish := fun w => Ok w;
|}.

Definition boot_program : Program :=
  {| entrypoint := 0x80000000; prog_segments := {[ 0x80000000 := [7; 8] ]} |}.
Definition boot_fdt : list Z :=
  [1; 3; 3; 5; 5; 1; 4; 4; 2; 1; 5; 6; 2; 1; 3; 3; 3; 1; 7; 5; 3; 5; 5; 2; 2; 2].

Lemma boot_program_bootable : bootable (ML := M1K) boot_program (Some [9]) boot_fdt.
Proof.
  split_and!.
  - unfold boot_program. cbn [prog_segments]. intros k k' v v' E E' L.
    apply lookup_singleton_Some in E as [<- _], E' as [<- _]. lia.
  - apply map_Forall_singleton. split_and!; [repeat constructor; by vm_compute|done|done].
  - intros d [= <-]. split_and!; [repeat constructor; by vm_compute|done|by vm_compute].
  - by vm_compute.
  - split_and!; [repeat constructor; by vm_compute|done|by vm_compute].
Qed.

Lemma setup_boot_spec_witness :
  exists c', setup_boot (ML := M1K) boot_program (Some [9]) Supervisor core_example = (Ok tt, c') /\
    c'.(hart).(pc) = 0x80000000 /\ xread c'.(hart) a1 = 0x80000003 /\
    Bus_read (ML := M1K) U8 c'.(bus) 0x80000002 = Ok 9.
Proof.
  destruct (setup_boot_spec (ML := M1K) boot_program (Some [9]) Supervisor boot_fdt core_example)
    as (c' & E & (_ & R & _) & P & _ & X & _).
  - exact HartState_example_wf.
  - vm_compute. intuition congruence.
  - exact boot_program_bootable.
  - exists c'. split; [exact E|]. split; [exact P|]. split; [exact (X a1)|].
    exact (R [9] eq_refl 0%nat 9 eq_refl).
Defined.
