(* ===== verification/Stepper.v ===== *)
(** Steppers: [src/riscv/lib/src/stepper.rs], the PVM stepper of
    [stepper/pvm.rs], and the inbox it takes its input from
    ([src/kernel_sdk/utils/src/inbox.rs]). *)
From S2P Require Import Prelude Registers CSRegister Traps XStatus CSRegisters HartState Bus.
From S2P Require Import Instruction Parser IntInstr AddressTranslation TranslationCache.
From S2P Require Import MachineCore CoreInstr Float.
From S2P Require Import RunInstr InstructionCache BlockCache MachineState Sbi Pvm Program Boot.
From stdpp Require Import strings.
#[local] Open Scope Z_scope.

(** ** Status *)

(* stepper.rs:16-33 StepperStatus *)
Inductive StepperStatus : Set :=
| Running (steps : Z)
| Exited (steps : Z) (success : bool) (status : string)
| Errored (steps : Z) (cause message : string).

(* stepper.rs:37-43 StepperStatus::steps *)
Definition StepperStatus_steps (s : StepperStatus) : Z :=
  match s with
  | Running steps => steps
  | Exited steps _ _ => steps
  | Errored steps _ _ => steps
  end.

(** The right-hand side with [prev_steps] more steps. *)
(* stepper.rs:55-61 add_assign *)
Definition add_steps (prev_steps : Z) (rhs : StepperStatus) : StepperStatus :=
  match rhs with
  | Running steps => Running (saturating_add_usize steps prev_steps)
  | Exited steps success status => Exited (saturating_add_usize steps prev_steps) success status
  | Errored steps cause message => Errored (saturating_add_usize steps prev_steps) cause message
  end.

(* stepper.rs:53-67 add_assign *)
Definition StepperStatus_add_assign (self rhs : StepperStatus) : StepperStatus :=
  match self with
  | Running prev_steps => add_steps prev_steps rhs
  | Exited _ _ _ | Errored _ _ _ => self
  end.

(** ** The inbox *)

(* kernel_sdk/utils/src/inbox.rs:184-189 Inbox *)
Record Inbox : Type := {
  current_level : Z;
  current_id : Z;
  levels : list (list (list Z));
  none_counter : Z;
}.

(** The recursion is on the levels. *)
(* kernel_sdk/utils/src/inbox.rs:201-223 next *)
Fixpoint next_from (levels : list (list (list Z))) (i : Inbox) : option (Z * Z * list Z) * Inbox :=
  match levels with
  | [] => (None, {| current_level := i.(current_level); current_id := i.(current_id);
                    levels := []; none_counter := i.(none_counter) ⊞ 1 |})
  | (data :: level) :: rest =>
      (Some (i.(current_level), i.(current_id), data),
       {| current_level := i.(current_level); current_id := wrapping_add 32 i.(current_id) 1;
          levels := level :: rest; none_counter := i.(none_counter) |})
  | [] :: rest =>
      next_from rest {| current_level := wrapping_add 32 i.(current_level) 1; current_id := 0;
                        levels := rest; none_counter := i.(none_counter) |}
  end.
Definition Inbox_next (i : Inbox) : option (Z * Z * list Z) * Inbox := next_from i.(levels) i.

(** ** The PVM stepper *)

(** [ps_output] is what the hooks have printed. *)
(* stepper/pvm.rs:34-40 PvmStepper *)
Record PvmStepper : Type := {
  ps_pvm : Pvm;
  ps_output : list Z;
  ps_inbox : Inbox;
  ps_rollup_address : list Z;
  ps_origination_level : Z;
}.

Definition set_ps (s : PvmStepper) (p : Pvm) (out : list Z) (i : Inbox) : PvmStepper :=
  {| ps_pvm := p; ps_output := out; ps_inbox := i; ps_rollup_address := s.(ps_rollup_address);
     ps_origination_level := s.(ps_origination_level) |}.

Section stepper.
Context `{ML : MainMemoryLayout} `{AP : ApFloat} `{AI : ArbitraryInt} `{CL : CacheLayouts} `{TCR : TezosCrypto}.

(** Input or metadata that the PVM was waiting for. *)
(* stepper/pvm.rs:80-88 step_max_once *)
Definition input_status (success : bool) : StepperStatus :=
  if success then Running 1
  else Errored 0 "PVM was waiting for input" "Providing input did not succeed".

(* stepper/pvm.rs:106-118 step_max_once *)
Definition step_metadata (s : PvmStepper) : outcome (StepperStatus * PvmStepper) :=
  match provide_metadata s.(ps_pvm) s.(ps_rollup_address) s.(ps_origination_level) with
  | None => Panicked
  | Some (success, p) =>
      Done (if success then Running 1
            else Errored 0 "PVM was waiting for metadata" "Providing metadata did not succeed",
            set_ps s p s.(ps_output) s.(ps_inbox))
  end.

(* stepper/pvm.rs:76-103 step_max_once *)
Definition step_input (s : PvmStepper) : outcome (StepperStatus * PvmStepper) :=
  match Inbox_next s.(ps_inbox) with
  | (Some (level, counter, payload), inbox) =>
      match provide_input s.(ps_pvm) level counter payload with
      | None => Panicked
      | Some (success, p) => Done (input_status success, set_ps s p s.(ps_output) inbox)
      end
  | (None, inbox) =>
      if inbox.(none_counter) <? 2 then
        let '(_, p) := provide_no_input s.(ps_pvm) in
        Done (Running 1, set_ps s p s.(ps_output) inbox)
      else Done (Exited 0 true "Inbox has been drained", set_ps s s.(ps_pvm) s.(ps_output) inbox)
  end.

(* stepper/pvm.rs:69-121 step_max_once *)
Definition step_max_once (fuel : nat) (s : PvmStepper) (steps : Bound) : outcome (StepperStatus * PvmStepper) :=
  match s.(ps_pvm).(status) with
  | Evaluating =>
      outcome_map (fun '(steps, p, out) => (Running steps, set_ps s p out s.(ps_inbox)))
        (eval_max fuel s.(ps_pvm) s.(ps_output) steps)
  | WaitingForInput => step_input s
  | WaitingForMetadata => step_metadata s
  end.

(** [fuel] bounds the turns of the loop, [eval_fuel] each evaluation. *)
(* stepper/pvm.rs:170-206 step_max *)
Fixpoint stepper_loop (fuel eval_fuel : nat) (total_steps : Z) (step_bounds : Bound) (s : PvmStepper) :
  outcome (StepperStatus * PvmStepper) :=
  match fuel with
  | O => OutOfFuel
  | S fuel =>
      match step_max_once eval_fuel s step_bounds with
      | Done (Running steps, s) =>
          let total_steps := saturating_add_usize total_steps steps in
          let step_bounds := bound_saturating_sub step_bounds steps in
          if steps <? 1 then Done (Running total_steps, s)
          else stepper_loop fuel eval_fuel total_steps step_bounds s
      | Done (Exited steps success status, s) =>
          Done (Exited (saturating_add_usize total_steps steps) success status, s)
      | Done (Errored steps cause message, s) =>
          Done (Errored (saturating_add_usize total_steps steps) cause message, s)
      | Panicked => Panicked
      | OutOfFuel => OutOfFuel
      end
  end.

(* stepper/pvm.rs:167-207 step_max *)
Definition stepper_step_max (fuel eval_fuel : nat) (s : PvmStepper) (step_bounds : Bound) :
  outcome (StepperStatus * PvmStepper) :=
  stepper_loop fuel eval_fuel 0 step_bounds s.

(** ** Creating a stepper *)

Context `{FW : FdtWriter}.

(** [KernelError] is an error of parsing the program. *)
(* stepper/pvm.rs:25-31 PvmStepperError *)
Inductive PvmStepperError : Type :=
| PSE_MachineError (e : MachineError)
| PSE_KernelError.

(** [space] is the state that is allocated, [parse] the ELF parser. *)
(* stepper/pvm.rs:44-66 new *)
Definition PvmStepper_new (space : Pvm) (parse : list Z -> option Elf) (program : list Z)
  (initrd : option (list Z)) (inbox : Inbox) (rollup_address : list Z) (origination_level : Z) :
  outcome (result PvmStepper PvmStepperError) :=
  match load_elf parse ∅ start_of_main_memory program with
  | ParseError => Done (Err PSE_KernelError)
  | LoadPanic => Panicked
  | Loaded m r =>
      let program := {| entrypoint := r.(entry); prog_segments := m |} in
      let machine := space.(machine_state) in
      match setup_boot program initrd Supervisor machine.(core) with
      | (Err e, _) => Done (Err (PSE_MachineError e))
      | (Ok _, c) =>
          Done (Ok {| ps_pvm := set_machine_status space (set_core machine c) space.(status);
                      ps_output := []; ps_inbox := inbox; ps_rollup_address := rollup_address;
                      ps_origination_level := origination_level |})
      end
  end.

End stepper.
