(* ===== verification/StepperSpec.v ===== *)
(** The PVM stepper: a bounded run is single steps and deliveries of input, it
    never reports an error, and it may go one step over its bound. *)
From S2P Require Import Prelude Registers CSRegister Traps XStatus CSRegisters HartState Bus.
From S2P Require Import BusSpec.
From S2P Require Import Instruction Parser ParserSpec HartStateSpec FloatSpec IntInstr.
From S2P Require Import IntInstrSpec.
From S2P Require Import AddressTranslation TranslationCache MachineCore MachineCoreSpec CoreInstr.
From S2P Require Import Float RunInstr RunInstrSpec CoreInstrSpec.
From S2P Require Import InstructionCache BlockCache BlockCacheSpec MachineState StepSpec StepWf.
From S2P Require Import HandleSpec.
From S2P Require Import Sbi SbiSpec Pvm PvmSpec.
From S2P Require Import Program Boot Stepper.
From stdpp Require Import strings.
#[local] Open Scope Z_scope.

(** ** The inbox *)

(** The messages that are left, with their levels and numbers. *)
Fixpoint level_messages (level id : Z) (msgs : list (list Z)) : list (Z * Z * list Z) :=
  match msgs with
  | [] => []
  | m :: msgs => (level, id, m) :: level_messages level (wrapping_add 32 id 1) msgs
  end.
Fixpoint inbox_messages (level id : Z) (ls : list (list (list Z))) : list (Z * Z * list Z) :=
  match ls with
  | [] => []
  | msgs :: ls => level_messages level id msgs ++ inbox_messages (wrapping_add 32 level 1) 0 ls
  end.
Definition messages (i : Inbox) : list (Z * Z * list Z) :=
  inbox_messages i.(current_level) i.(current_id) i.(levels).

Lemma next_from_spec ls : forall i,
  match next_from ls i with
  | (Some m, i') => inbox_messages i.(current_level) i.(current_id) ls = m :: messages i' /\
                    i'.(none_counter) = i.(none_counter)
  | (None, i') => inbox_messages i.(current_level) i.(current_id) ls = [] /\ messages i' = [] /\
                  i'.(none_counter) = i.(none_counter) ⊞ 1
  end.
Proof.
  induction ls as [|[|m msgs] ls IH]; intros i; cbn [next_from inbox_messages level_messages app]; [done| |done].
  specialize (IH {| current_level := wrapping_add 32 i.(current_level) 1; current_id := 0;
                    levels := ls; none_counter := i.(none_counter) |}).
  cbn [current_level current_id none_counter] in IH. exact IH.
Qed.

Lemma Inbox_next_spec i :
  match Inbox_next i with
  | (Some m, i') => messages i = m :: messages i' /\ i'.(none_counter) = i.(none_counter)
  | (None, i') => messages i = [] /\ messages i' = [] /\ i'.(none_counter) = i.(none_counter) ⊞ 1
  end.
Proof. apply next_from_spec. Qed.

(** ** One step at a time *)

Section stepper.
Context `{ML : MainMemoryLayout} `{AP : ApFloat} `{AI : ArbitraryInt} `{CL : CacheLayouts} `{TCR : TezosCrypto}.
Context {APL : ApFloatLaws AP} {TCL : TezosCryptoLaws TCR}.

(** The PVM waits: input or metadata is delivered. *)
Definition deliver (s : PvmStepper) : outcome (StepperStatus * PvmStepper) :=
  match s.(ps_pvm).(status) with WaitingForInput => step_input s | _ => step_metadata s end.

Definition plus_status (d : Z) (st : StepperStatus) : StepperStatus :=
  match st with
  | Running k => Running (d + k)
  | Exited k b m => Exited (d + k) b m
  | Errored k c m => Errored (d + k) c m
  end.

Definition count (d : Z) (o : outcome (StepperStatus * PvmStepper)) : outcome (StepperStatus * PvmStepper) :=
  outcome_map (fun '(st, s) => (plus_status d st, s)) o.

(** [n] steps: an evaluation of one instruction or a delivery each; a PVM that
    waits when no step is left still gets its delivery. *)
Fixpoint steps_ref (n : nat) (s : PvmStepper) : outcome (StepperStatus * PvmStepper) :=
  match s.(ps_pvm).(status) with
  | Evaluating =>
      match n with
      | O => Done (Running 0, s)
      | S n =>
          match eval_one 1 s.(ps_pvm) s.(ps_output) with
          | Done (p, out) => count 1 (steps_ref n (set_ps s p out s.(ps_inbox)))
          | Panicked => Panicked
          | OutOfFuel => OutOfFuel
          end
      end
  | _ =>
      match deliver s with
      | Done (Running k, s) => match n with O => Done (Running k, s) | S n => count k (steps_ref n s) end
      | o => o
      end
  end.

Definition stepper_wf (s : PvmStepper) : Prop :=
  pvm_wf s.(ps_pvm) /\ is_u 32 s.(ps_origination_level).

Lemma count_count d d' o : count d (count d' o) = count (d + d') o.
Proof.
  unfold count. rewrite outcome_map_map. apply outcome_map_ext. intros [[k|k b m|k c m] s]; simpl; by rewrite Z.add_assoc.
Qed.

Lemma count_0 o : count 0 o = o.
Proof. apply outcome_map_id. by intros [[]]. Qed.

Lemma set_ps_id s : set_ps s s.(ps_pvm) s.(ps_output) s.(ps_inbox) = s.
Proof. by destruct s. Qed.

(** A delivery succeeds, unless the inbox has been empty twice. *)
Lemma deliver_spec s :
  s.(ps_pvm).(status) <> Evaluating -> stepper_wf s ->
  exists s', (deliver s = Done (Running 1, s') /\ s'.(ps_pvm).(status) = Evaluating \/
              deliver s = Done (Exited 0 true "Inbox has been drained", s')) /\ stepper_wf s'.
Proof.
  intros N [W U]. unfold deliver. destruct (s.(ps_pvm).(status)) eqn:St; [done| |].
  - unfold step_input. destruct (Inbox_next s.(ps_inbox)) as [[[[lvl c] payload]|] i'].
    + destruct (provide_input_total s.(ps_pvm) lvl c payload) as (p' & E & S'). rewrite E.
      rewrite St in *. rewrite bool_decide_true by done. rewrite decide_True in S' by done.
      eexists. split; [by left|]. split; [by eapply provide_input_wf|done].
    + destruct (i'.(none_counter) <? 2).
      * unfold provide_no_input, sbi_provide_no_input, provided. rewrite St. eexists. split; [by left|].
        split; [|done]. destruct W as [H B]. split; [|exact B]. by apply sbi_return1_wf; [|by vm_compute].
      * eexists. split; [by right|]. by split.
  - unfold step_metadata.
    destruct (provide_metadata_total s.(ps_pvm) s.(ps_rollup_address) s.(ps_origination_level)) as (p' & E & S').
    rewrite E. rewrite St in *. rewrite bool_decide_true by done. rewrite decide_True in S' by done.
    eexists. split; [by left|]. split; [by eapply provide_metadata_wf|done].
Qed.

Lemma steps_ref_waiting n s :
  s.(ps_pvm).(status) <> Evaluating -> stepper_wf s ->
  exists s', stepper_wf s' /\
    (deliver s = Done (Running 1, s') /\ s'.(ps_pvm).(status) = Evaluating /\
       steps_ref n s = count 1 (steps_ref (pred n) s') \/
     deliver s = Done (Exited 0 true "Inbox has been drained", s') /\
       steps_ref n s = Done (Exited 0 true "Inbox has been drained", s')).
Proof.
  intros N W. destruct (deliver_spec s N W) as (s' & [[E S']|E] & W'); exists s'; (split; [done|]); [left|right].
  - split; [done|]. split; [done|]. destruct n as [|n]; cbn [steps_ref pred];
      (destruct (s.(ps_pvm).(status)); [done|..]); rewrite E; try done; by rewrite S'.
  - split; [done|]. destruct n as [|n]; cbn [steps_ref]; (destruct (s.(ps_pvm).(status)); [done|..]); by rewrite E.
Qed.

(** The evaluations before the PVM waits. *)
Lemma evals_ref n : forall s,
  s.(ps_pvm).(status) = Evaluating ->
  match evals_one_by_one n s.(ps_pvm) s.(ps_output) with
  | Done (k, p, out) => steps_ref n s = count k (steps_ref (n - Z.to_nat k) (set_ps s p out s.(ps_inbox))) /\
                        (n <> O -> 1 <= k)
  | Panicked => steps_ref n s = Panicked
  | OutOfFuel => steps_ref n s = OutOfFuel
  end.
Proof.
  induction n as [|n IH]; intros s St; cbn [evals_one_by_one].
  - rewrite set_ps_id, count_0. split; [done|]. by intros [].
  - cbn [steps_ref]. rewrite St. destruct (eval_one 1 s.(ps_pvm) s.(ps_output)) as [[p out]| |]; [|done..].
    destruct (decide (p.(status) = Evaluating)) as [S1|S1].
    + specialize (IH (set_ps s p out s.(ps_inbox)) S1). cbn [ps_pvm ps_output ps_inbox set_ps] in IH.
      destruct (evals_one_by_one n p out) as [[[k p'] out']| |] eqn:E; cbn [outcome_map];
        [|by rewrite IH..]. apply evals_bound in E.
      destruct IH as [-> _]. split; [|lia]. rewrite count_count, Z.add_comm.
      replace (S n - Z.to_nat (k + 1))%nat with (n - Z.to_nat k)%nat by lia. done.
    + split; [|lia]. by replace (S n - Z.to_nat 1)%nat with n by lia.
Qed.

Lemma stepper_loop_ref ef fuel : forall n acc s,
  stepper_wf s -> 0 <= acc -> (n < ef)%nat ->
  (n + 2 <= fuel)%nat /\ acc + Z.of_nat n + 1 < 2 ^ 64 \/
  n = O /\ s.(ps_pvm).(status) = Evaluating /\ (1 <= fuel)%nat /\ acc < 2 ^ 64 ->
  steps_ref n s <> OutOfFuel ->
  stepper_loop fuel ef acc (Included (Z.of_nat n)) s = count acc (steps_ref n s).
Proof.
  induction fuel as [|fuel IH]; intros n acc s W A Fe F T; [lia|]. cbn [stepper_loop]. unfold step_max_once.
  destruct (decide (s.(ps_pvm).(status) = Evaluating)) as [St|St].
  - rewrite St. pose proof (evals_ref n s St) as R.
    assert (E : eval_max ef s.(ps_pvm) s.(ps_output) (Included (Z.of_nat n)) =
      evals_one_by_one n s.(ps_pvm) s.(ps_output)).
    { rewrite eval_max_evals; try done; [apply W|lia|].
      intros O. by rewrite O in R. }
    rewrite E. destruct (evals_one_by_one n s.(ps_pvm) s.(ps_output)) as [[[k p] out]| |] eqn:Ev; cbn [outcome_map];
      [|by rewrite R|by rewrite R in T]. destruct R as [R K]. apply evals_bound in Ev as Bk.
    rewrite saturating_add_small by lia. destruct (Z.ltb_spec k 1) as [L|L].
    + destruct (decide (n = O)) as [->|Nn]; [|specialize (K Nn); lia]. cbn [evals_one_by_one] in Ev.
      injection Ev as <- <- <-. cbn [steps_ref]. rewrite St, set_ps_id. done.
    + rewrite bound_sub_steps by lia. rewrite IH; [|split; [eapply eval_max_wf; [apply W|exact E]|apply W]|lia|lia|left; lia|].
      * rewrite R, count_count. done.
      * intros O. rewrite R, O in T. done.
  - destruct F as [F|(_ & Ev & _)]; [|done].
    destruct (steps_ref_waiting n s St W) as (s' & W' & [(D & S' & R)|(D & R)]);
      (assert (Dv : (match s.(ps_pvm).(status) with
         | Evaluating => outcome_map (fun '(steps, p, out) => (Running steps, set_ps s p out s.(ps_inbox)))
             (eval_max ef s.(ps_pvm) s.(ps_output) (Included (Z.of_nat n)))
         | WaitingForInput => step_input s | WaitingForMetadata => step_metadata s end) = deliver s)
       by (unfold deliver; by destruct s.(ps_pvm).(status))); rewrite Dv, D, R.
    + rewrite saturating_add_small by lia. cbn [Z.ltb Z.compare Pos.compare Pos.compare_cont].
      replace (bound_saturating_sub (Included (Z.of_nat n)) 1) with (Included (Z.of_nat (pred n)))
        by (unfold bound_saturating_sub, saturating_sub; f_equal; lia).
      rewrite IH; [|done|lia|lia| |].
      * by rewrite count_count.
      * destruct n as [|n]; [right|left]; simpl; split_and!; try done; lia.
      * intros O. by rewrite R, O in T.
    + rewrite saturating_add_small by lia. done.
Qed.

Lemma count_done d o st s' :
  count d o = Done (st, s') -> exists st0, o = Done (st0, s') /\ st = plus_status d st0.
Proof. destruct o as [[st0 s0]| |]; [|done..]. intros [= <- <-]. by exists st0. Qed.

(** The status of a run with a bound of [n]. *)
Definition run_status (n : nat) (st : StepperStatus) : Prop :=
  0 <= StepperStatus_steps st <= Z.of_nat n + 1 /\
  match st with Running _ => True | Exited _ success _ => success = true | Errored _ _ _ => False end.

Lemma steps_ref_status n : forall s st s',
  stepper_wf s -> steps_ref n s = Done (st, s') -> run_status n st /\ stepper_wf s'.
Proof.
  induction n as [|n IH]; intros s st s' W E.
  - destruct (decide (s.(ps_pvm).(status) = Evaluating)) as [St|St].
    + cbn [steps_ref] in E. rewrite St in E. injection E as <- <-. by split; [split; [simpl; lia|]|].
    + destruct (steps_ref_waiting 0 s St W) as (s1 & W1 & [(_ & S1 & R)|(_ & R)]); rewrite R in E.
      * cbn [pred steps_ref] in E. rewrite S1 in E. injection E as <- <-. by split; [split; [simpl; lia|]|].
      * injection E as <- <-. by split; [split; [simpl; lia|]|].
  - assert (S : forall d st0, 0 <= d <= 1 -> run_status n st0 -> run_status (S n) (plus_status d st0)).
    { intros d [k|k b m|k c m] Hd [Hk Hs]; (split; [simpl in *; lia|done]). }
    destruct (decide (s.(ps_pvm).(status) = Evaluating)) as [St|St].
    + cbn [steps_ref] in E. rewrite St in E.
      destruct (eval_one 1 s.(ps_pvm) s.(ps_output)) as [[p out]| |] eqn:Ev; [|done..].
      apply count_done in E as (st0 & E & ->). apply IH in E as [H ?]; [split; [by apply S; [lia|]|done]|].
      split; [|apply W]. eapply eval_one_wf; [apply W|exact Ev].
    + destruct (steps_ref_waiting (Datatypes.S n) s St W) as (s1 & W1 & [(_ & S1 & R)|(_ & R)]); rewrite R in E.
      * cbn [pred] in E. apply count_done in E as (st0 & E & ->). apply IH in E as [H ?]; [|done].
        split; [by apply S; [lia|]|done].
      * injection E as <- <-. by split; [split; [simpl; lia|]|].
Qed.

(** C24. Stepping a PVM.  A run with a bound of [n] is [n] single steps, each
    the evaluation of one instruction or the delivery of input or metadata
    when the PVM waits for it, with the same machine, output, inbox and count;
    it ends early only when the PVM waits and the inbox has been empty twice.
    It never ends in an error, and counts at most [n + 1] steps; the machine
    stays well-formed.  [n + 2] turns of the loop are enough. *)
Theorem stepper_step_max_spec fuel ef n s :
  stepper_wf s -> Z.of_nat n + 1 < 2 ^ 64 -> (n < ef)%nat -> (n + 2 <= fuel)%nat ->
  steps_ref n s <> OutOfFuel ->
  stepper_step_max fuel ef s (Included (Z.of_nat n)) = steps_ref n s /\
  forall st s', stepper_step_max fuel ef s (Included (Z.of_nat n)) = Done (st, s') ->
    run_status n st /\ stepper_wf s'.
Proof.
  intros W B Fe F T. unfold stepper_step_max. rewrite stepper_loop_ref, count_0; try done; [|by left].
  split; [done|]. intros st s'. by apply steps_ref_status.
Qed.

(** The bound can be exceeded.  When the PVM waits for input and the inbox
    has a message, a run with a bound of zero steps delivers the message and
    reports one step. *)
Theorem stepper_exceeds_bound fuel ef s m :
  stepper_wf s -> s.(ps_pvm).(status) = WaitingForInput -> head (messages s.(ps_inbox)) = Some m ->
  (0 < ef)%nat -> (2 <= fuel)%nat ->
  exists s', stepper_step_max fuel ef s (Included 0) = Done (Running 1, s') /\
    messages s'.(ps_inbox) = tail (messages s.(ps_inbox)) /\ s'.(ps_pvm).(status) = Evaluating.
Proof.
  intros W St M Fe F. assert (N : s.(ps_pvm).(status) <> Evaluating) by (by rewrite St).
  assert (I : exists s', deliver s = Done (Running 1, s') /\ messages s'.(ps_inbox) = tail (messages s.(ps_inbox)) /\
    s'.(ps_pvm).(status) = Evaluating).
  { unfold deliver, step_input. rewrite St. pose proof (Inbox_next_spec s.(ps_inbox)) as Nx.
    destruct (Inbox_next s.(ps_inbox)) as [[[[lvl c] payload]|] i']; [|destruct Nx as [E _]; by rewrite E in M].
    destruct Nx as [E _]. destruct (provide_input_total s.(ps_pvm) lvl c payload) as (p' & Ep & S'). rewrite Ep.
    rewrite St in *. rewrite bool_decide_true by done. rewrite decide_True in S' by done.
    eexists. split; [done|]. split; [|done]. cbn [ps_inbox set_ps]. by rewrite E. }
  destruct I as (s' & D & Ms & S'). exists s'. split; [|done].
  destruct (steps_ref_waiting 0 s N W) as (s1 & W1 & [(D1 & S1 & R)|(D1 & R)]); rewrite D in D1; [|done].
  injection D1 as <-.
  assert (R0 : steps_ref 0 s' = Done (Running 0, s')) by (cbn [steps_ref]; by rewrite S').
  cbn [pred] in R. rewrite R0 in R.
  unfold stepper_step_max. change 0 with (Z.of_nat 0) at 2.
  rewrite stepper_loop_ref, count_0, R; try done; [left; split; [lia|by vm_compute]|by rewrite R].
Qed.

End stepper.

(** ** Examples *)

#[local] Existing Instances M1K TestCacheLayouts ApFloat_example ArbitraryInt_ref ApFloat_example_laws.
#[local] Existing Instances TezosCrypto_example TezosCrypto_example_laws.

Definition stepper_example (st : PvmStatus) : PvmStepper := {|
  ps_pvm := set_machine_status node_example.(pvm) node_example.(pvm).(machine_state) st;
  ps_output := []; ps_rollup_address := []; ps_origination_level := 0;
  ps_inbox := {| current_level := 0; current_id := 0; levels := [[]; [[7; 7]]]; none_counter := 0 |};
|}.

Lemma stepper_example_wf st : stepper_wf (stepper_example st).
Proof. split; [exact (proj1 node_example_wf)|by vm_compute]. Qed.

Lemma stepper_step_max_spec_witness :
  exists s', stepper_step_max 8 6 (stepper_example Evaluating) (Included 5) = Done (Running 5, s') /\ stepper_wf s'.
Proof.
  assert (D : match steps_ref 5 (stepper_example Evaluating) with Done (Running 5, _) => true | _ => false end = true)
    by (vm_compute; reflexivity).
  destruct (steps_ref 5 (stepper_example Evaluating)) as [[st s']| |] eqn:E; [|discriminate D..].
  assert (st = Running 5) as -> by (destruct st as [k| |]; try discriminate D; f_equal;
    destruct k as [|[[|[]|]|[]|]|]; try discriminate D; reflexivity).
  destruct (stepper_step_max_spec 8 6 5 (stepper_example Evaluating) (stepper_example_wf _)) as [R W].
  - vm_compute. reflexivity.
  - lia.
  - lia.
  - rewrite E. discriminate.
  - change (Z.of_nat 5) with 5 in *. rewrite E in R. exists s'. split; [exact R|]. exact (proj2 (W _ _ R)).
Defined.

Lemma stepper_exceeds_bound_witness :
  exists s', stepper_step_max 2 1 (stepper_example WaitingForInput) (Included 0) = Done (Running 1, s') /\
    messages s'.(ps_inbox) = [].
Proof.
  destruct (stepper_exceeds_bound 2 1 (stepper_example WaitingForInput) (1, 0, [7; 7])
    (stepper_example_wf _) eq_refl eq_refl) as (s' & E & M & _); [lia|lia|].
  exists s'. split; [exact E|]. exact M.
Defined.
