(* ===== verification/TestStepper.v ===== *)
(** The stepper for test programs: the POSIX execution environment
    ([src/riscv/lib/src/stepper/test/posix.rs]) and [TestStepper] of
    [stepper/test.rs]. *)
From S2P Require Import Prelude Registers CSRegister Traps XStatus CSRegisters HartState Bus.
From S2P Require Import Instruction Parser IntInstr AddressTranslation TranslationCache.
From S2P Require Import MachineCore CoreInstr Float.
From S2P Require Import RunInstr InstructionCache BlockCache MachineState Sbi Program Boot.
From S2P Require Import Stepper.
From stdpp Require Import strings pretty.
#[local] Open Scope Z_scope.

(** ** The POSIX environment *)

(* stepper/test/posix.rs:18-26 PosixState *)
Record PosixState : Type := { code : Z; exited : Z; exit_mode : Mode }.

(* stepper/test/posix.rs:47-53 exited *)
Definition has_exited (p : PosixState) : bool := 0 <? p.(exited).

(* stepper/test/posix.rs:38-45 exit_code *)
Definition exit_code (p : PosixState) : option Z := if has_exited p then Some p.(code) else None.

(* stepper/test/posix.rs:55-61 set_exit_mode *)
Definition set_exit_mode (p : PosixState) (m : Mode) : PosixState :=
  {| code := p.(code); exited := p.(exited); exit_mode := m |}.

(** [u8::saturating_add] *)
Definition saturating_add_u8 (a b : Z) : Z := Z.min (a + b) 255.

(* stepper/test/posix.rs:94-100 handle_call *)
Definition handle_exit (p : PosixState) (code : Z) : PosixState :=
  {| code := code; exited := saturating_add_u8 p.(exited) 1; exit_mode := p.(exit_mode) |}.

(* stepper/test/posix.rs:77-81 handle_call *)
Definition source_mode (e : Environ.EnvironException) : Mode :=
  match e with
  | Environ.EnvCallFromUMode => User
  | Environ.EnvCallFromSMode => Supervisor
  | Environ.EnvCallFromMMode => Machine
  end.

(** The arms of the match on the registers [a7] and [a0], in order. *)
(* stepper/test/posix.rs:112-121 handle_call *)
Definition posix_exit_call (p : PosixState) (a7_val a0_val : Z) : result bool string * PosixState :=
  if ((a7_val =? 93) && (a0_val =? 0)) || ((a7_val =? 0) && (a0_val =? 1)) then (Ok false, handle_exit p 0)
  else if (a7_val =? 93) || (a7_val =? 0) then (Ok false, handle_exit p a0_val)
  else (Err ("Unknown system call number " +:+ pretty a7_val)%string, p).

(** [take_trap] always gives a handler ([take_trap_result]): the default is the
    [unreachable!] arm of [take_trap_from_mode]. *)
(* stepper/test/posix.rs:63-122 handle_call *)
Definition posix_handle_call (p : PosixState) (machine : MachineState) (env_exception : Environ.EnvironException) :
  result bool string * PosixState * MachineState :=
  if has_exited p then (Err "Machine has already exited"%string, p, machine)
  else
    let h := machine.(core).(hart) in
    if decide (source_mode env_exception = p.(exit_mode)) then
      let '(r, p) := posix_exit_call p (xread h a7) (xread h a0) in (r, p, machine)
    else
      let return_pc := h.(pc) in
      let '(new_pc, h) := default (return_pc, h) (take_trap h (as_exception env_exception) return_pc) in
      (Ok true, p, set_core machine (set_hart machine.(core) (set_pc h new_pc))).

(** ** The stepper *)

(* stepper/test.rs:24-37 TestStepperResult *)
Inductive TestStepperResult : Type :=
| TRunning (steps : Z)
| TExit (code steps : Z)
| TException (cause : Environ.EnvironException) (steps : Z) (message : option string).

(* stepper/test.rs:39-43 default *)
Definition TestStepperResult_default : TestStepperResult := TRunning 0.

(** The derived [Debug] of [EnvironException]. *)
(* traps.rs:28-34 EnvironException *)
Definition EnvironException_debug (e : Environ.EnvironException) : string :=
  match e with
  | Environ.EnvCallFromUMode => "EnvCallFromUMode"
  | Environ.EnvCallFromSMode => "EnvCallFromSMode"
  | Environ.EnvCallFromMMode => "EnvCallFromMMode"
  end.

(* stepper/test.rs:45-64 to_stepper_status *)
Definition to_stepper_status (r : TestStepperResult) : StepperStatus :=
  match r with
  | TRunning steps => Running steps
  | TExit code steps => Exited steps (code =? 0) ("code " +:+ pretty code)
  | TException cause steps message =>
      Errored steps (EnvironException_debug cause) (default "<no message>"%string message)
  end.

(* stepper/test.rs:77-80 TestStepper *)
Record TestStepper : Type := { ts_machine : MachineState; ts_posix : PosixState }.

(* stepper/test.rs:123-150 handle_step_result *)
Definition test_handle_step_result (p : PosixState) (r : StepManyResult (Environ.EnvironException * string)) :
  TestStepperResult :=
  match r.(smr_error) with
  | Some (cause, error) => TException cause r.(smr_steps) (Some error)
  | None =>
      match exit_code p with
      | Some code => TExit code r.(smr_steps)
      | None => TRunning r.(smr_steps)
      end
  end.

(** The closure passed to [step_max_handle]. *)
(* stepper/test.rs:170-174 step_max *)
Definition test_handler (p : PosixState) (machine : MachineState) (exc : Environ.EnvironException) :
  result bool (Environ.EnvironException * string) * PosixState * MachineState :=
  let '(r, p, machine) := posix_handle_call p machine exc in
  (result_map_err (fun message => (exc, message)) r, p, machine).

Section stepper.
Context `{ML : MainMemoryLayout} `{AP : ApFloat} `{AI : ArbitraryInt} `{CL : CacheLayouts}.

(** [None] when the fuel ran out. *)
(* stepper/test.rs:167-176 step_max *)
Definition test_step_max (fuel : nat) (t : TestStepper) (steps : Bound) : option TestStepperResult * TestStepper :=
  let '(r, p, m) := step_max_handle fuel 0 steps test_handler t.(ts_posix) t.(ts_machine) in
  (option_map (test_handle_step_result p) r, {| ts_machine := m; ts_posix := p |}).

(** ** Creating a stepper *)

Context `{FW : FdtWriter}.

(** The error of loading has no payload: parsing is a parameter. *)
(* stepper/test.rs:68-72 TestStepperError *)
Inductive TestStepperError : Type :=
| KernelLoadingError
| TSE_MachineError (e : MachineError).

(** [space] is the state that is allocated, [parse] the ELF parser. *)
(* stepper/test.rs:84-121 new *)
Definition TestStepper_new (space : TestStepper) (parse : list Z -> option Elf) (program : list Z)
  (initrd : option (list Z)) (mode : Mode) : outcome (result TestStepper TestStepperError) :=
  let posix := set_exit_mode space.(ts_posix) mode in
  match load_elf parse ∅ start_of_main_memory program with
  | ParseError => Done (Err KernelLoadingError)
  | LoadPanic => Panicked
  | Loaded m r =>
      let program := {| entrypoint := r.(entry); prog_segments := m |} in
      match setup_boot program initrd Machine space.(ts_machine).(core) with
      | (Err e, _) => Done (Err (TSE_MachineError e))
      | (Ok _, c) => Done (Ok {| ts_machine := set_core space.(ts_machine) c; ts_posix := posix |})
      end
  end.
End stepper.
