(* ===== verification/TestStepperSpec.v ===== *)
(** The test stepper: runs are single steps repeated, a program exits once,
    with the code its registers say, and from its exit mode only. *)
From S2P Require Import Prelude Registers CSRegister Traps XStatus CSRegisters HartState Bus.
From S2P Require Import Instruction Parser ParserSpec HartStateSpec FloatSpec IntInstr.
From S2P Require Import AddressTranslation TranslationCache MachineCore MachineCoreSpec CoreInstr.
From S2P Require Import Float.
From S2P Require Import RunInstr RunInstrSpec.
From S2P Require Import InstructionCache BlockCache BlockCacheSpec MachineState StepSpec StepWf.
From S2P Require Import HandleSpec.
From S2P Require Import Sbi Program Boot Stepper TestStepper.
From stdpp Require Import strings pretty.
#[local] Open Scope Z_scope.

(** The code with which the registers ask to exit, if they do: a test that
    passes has [a7 = 93] and [a0 = 0], or [a7 = 0] and [a0 = 1]. *)
Definition requested_exit (h : HartState) : option Z :=
  if decide (xread h a7 = 93) then Some (xread h a0)
  else if decide (xread h a7 = 0) then Some (if decide (xread h a0 = 1) then 0 else xread h a0)
  else None.

Lemma posix_exit_call_spec p h :
  posix_exit_call p (xread h a7) (xread h a0) =
  match requested_exit h with
  | Some code => (Ok false, handle_exit p code)
  | None => (Err ("Unknown system call number " +:+ pretty (xread h a7))%string, p)
  end.
Proof.
  unfold posix_exit_call, requested_exit.
  destruct (decide (xread h a7 = 93)) as [->|N]; simpl.
  - by destruct (Z.eqb_spec (xread h a0) 0) as [->|].
  - rewrite (proj2 (Z.eqb_neq _ _) N). destruct (decide (xread h a7 = 0)) as [->|N0]; simpl.
    + by destruct (Z.eqb_spec (xread h a0) 1), (decide (xread h a0 = 1)).
    + by rewrite (proj2 (Z.eqb_neq _ _) N0).
Qed.

Section stepper.
Context `{ML : MainMemoryLayout} `{AP : ApFloat} `{AI : ArbitraryInt} `{CL : CacheLayouts} {APL : ApFloatLaws AP}.

Lemma posix_handle_call_wf p m e : machine_wf m -> machine_wf (posix_handle_call p m e).2.
Proof.
  intros W. unfold posix_handle_call. destruct (has_exited p); [done|]. destruct (decide _).
  - by destruct (posix_exit_call _ _ _) as [r p'].
  - rewrite take_trap_result. cbn [default snd]. split; [|apply W].
    pose proof (trap_result_wf m.(core).(hart) (as_exception e) m.(core).(hart).(pc) (proj1 W)) as T.
    apply set_pc_wf; [exact T|]. apply land_u64_l. by apply csr_read_u64.
Qed.

Lemma test_handler_wf p m e : machine_wf m -> machine_wf (test_handler p m e).2.
Proof.
  intros W. pose proof (posix_handle_call_wf p m e W) as H. unfold test_handler.
  by destruct (posix_handle_call p m e) as [[r p'] m'].
Qed.

(** What a run leaves in the environment, by the way it ends: with a pending
    error, or without. *)
Definition posix_after (p : PosixState) (error : option (Environ.EnvironException * string)) (p' : PosixState)
  (m : MachineState) : Prop :=
  let h := m.(core).(hart) in
  match error with
  | None => p' = p \/
      exists code, requested_exit h = Some code /\ p' = {| code := code; exited := 1; exit_mode := p.(exit_mode) |}
  | Some (cause, message) =>
      p' = p /\ source_mode cause = p.(exit_mode) /\ requested_exit h = None /\
      message = ("Unknown system call number " +:+ pretty (xread h a7))%string
  end.

Lemma test_handler_spec p m e :
  test_handler p m e =
  if has_exited p then (Err (e, "Machine has already exited"%string), p, m)
  else if decide (source_mode e = p.(exit_mode)) then
    match requested_exit m.(core).(hart) with
    | Some code => (Ok false, handle_exit p code, m)
    | None => (Err (e, "Unknown system call number " +:+ pretty (xread m.(core).(hart) a7))%string, p, m)
    end
  else (Ok true, p, (test_handler p m e).2).
Proof.
  unfold test_handler, posix_handle_call. destruct (has_exited p); [done|]. destruct (decide _).
  - rewrite posix_exit_call_spec. by destruct (requested_exit _).
  - by destruct (default _ _) as [a h].
Qed.

(** A program exits once, from the exit mode only, and with the code that
    its registers ask for: a run that ends with [Exit] leaves that code in the
    environment, one that ends with [Exception] met a call from the exit mode
    with an unknown number, and a run that goes on leaves the environment as it
    was.  After an exit every run ends with the same code or with the error
    that the machine has already exited, and the environment does not change. *)
Theorem test_exit_once fuel t bound r t' :
  test_step_max fuel t bound = (Some r, t') ->
  0 <= t.(ts_posix).(exited) ->
  let h := t'.(ts_machine).(core).(hart) in
  if decide (t.(ts_posix).(exited) = 0) then
    match r with
    | TRunning _ => t'.(ts_posix) = t.(ts_posix)
    | TExit c _ =>
        requested_exit h = Some c /\
        t'.(ts_posix) = {| code := c; exited := 1; exit_mode := t.(ts_posix).(exit_mode) |}
    | TException cause _ message =>
        t'.(ts_posix) = t.(ts_posix) /\ source_mode cause = t.(ts_posix).(exit_mode) /\ requested_exit h = None /\
        message = Some ("Unknown system call number " +:+ pretty (xread h a7))%string
    end
  else
    t'.(ts_posix) = t.(ts_posix) /\
    match r with
    | TRunning _ => False
    | TExit c _ => c = t.(ts_posix).(code)
    | TException _ _ message => message = Some "Machine has already exited"%string
    end.
Proof.
  destruct t as [m0 p]. unfold test_step_max. cbn [ts_posix ts_machine]. intros R N.
  destruct (decide (p.(exited) = 0)) as [X|X].
  - assert (Hx : has_exited p = false) by (unfold has_exited; rewrite X; done).
    opose proof (step_max_handle_rule test_handler (fun q => q = p) (posix_after p) _ _ fuel 0 bound p m0 eq_refl) as H.
    { intros; by left. }
    { intros q m e ->. rewrite test_handler_spec, Hx. destruct (decide _) as [Sm|]; [|done].
      destruct (requested_exit _) as [c|] eqn:Rq; [|done]. right. exists c. split; [done|].
      unfold handle_exit. by rewrite X. }
    destruct (step_max_handle _ _ _ _ _ _) as [[[[k [[cause msg]|]]|] p'] m']; [| |done];
      cbn [option_map] in R; injection R as <- <-; cbn [ts_posix ts_machine test_handle_step_result smr_error smr_steps] in *.
    + destruct H as (-> & H1 & H2 & ->). done.
    + unfold test_handle_step_result, exit_code. cbn [smr_error].
      destruct H as [->|(c & H1 & ->)]; [by rewrite Hx|done].
  - assert (Hx : has_exited p = true) by (unfold has_exited; lia).
    opose proof (step_max_handle_rule test_handler (fun q => q = p)
      (fun error p' _ => p' = p /\ forall c msg, error = Some (c, msg) -> msg = "Machine has already exited"%string)
      _ _ fuel 0 bound p m0 eq_refl) as H; [done|..].
    { intros q m e ->. rewrite test_handler_spec, Hx. split; [done|]. by intros c msg [= _ <-]. }
    destruct (step_max_handle _ _ _ _ _ _) as [[[[k [[cause msg]|]]|] p'] m']; [| |done];
      cbn [option_map] in R; injection R as <- <-; destruct H as [-> H]; (split; [done|]).
    + cbn. f_equal. by eapply H.
    + unfold test_handle_step_result, exit_code. cbn [smr_error]. by rewrite Hx.
Qed.

(** The result with [k] more steps. *)
Definition add_test_steps (k : Z) (r : option TestStepperResult * TestStepper) : option TestStepperResult * TestStepper :=
  (option_map (fun r =>
     match r with
     | TRunning s => TRunning (k + s)
     | TExit c s => TExit c (k + s)
     | TException e s m => TException e (k + s) m
     end) r.1, r.2).

(** Runs of one step, up to the first that does not end with [Running]; the
    counts are added up. *)
Fixpoint tests_one_by_one (n : nat) (t : TestStepper) : option TestStepperResult * TestStepper :=
  match n with
  | O => (Some TestStepperResult_default, t)
  | S n =>
      match test_step_max 2 t (Included 1) with
      | (Some (TRunning k), t) => add_test_steps k (tests_one_by_one n t)
      | r => r
      end
  end.

(** The stepper after a run. *)
Definition test_result
  (r : option (StepManyResult (Environ.EnvironException * string)) * PosixState * MachineState) :
  option TestStepperResult * TestStepper :=
  let '(r, p, m) := r in (option_map (test_handle_step_result p) r, {| ts_machine := m; ts_posix := p |}).

Lemma test_result_add k r : test_result (add_result_steps k r) = add_test_steps k (test_result r).
Proof.
  destruct r as [[[[s [[]|]]|] p] m]; [done| |done].
  unfold test_result, add_test_steps, add_result_steps, test_handle_step_result. simpl. by destruct (exit_code p).
Qed.

Lemma test_result_running k p m :
  has_exited p = false ->
  test_result (Some {| smr_steps := k; smr_error := None |}, p, m) = (Some (TRunning k), {| ts_machine := m; ts_posix := p |}).
Proof. intros H. unfold test_result, test_handle_step_result, exit_code. simpl. by rewrite H. Qed.

Lemma add_result_steps_0 {E} (r : option (StepManyResult E) * PosixState * MachineState) : add_result_steps 0 r = r.
Proof. by destruct r as [[[[k e]|] h] s]. Qed.

Lemma add_result_steps_none {E} k (r : option (StepManyResult E) * PosixState * MachineState) :
  (add_result_steps k r).1.1 <> None -> r.1.1 <> None.
Proof. by destruct r as [[[] h] s]. Qed.

(** A run, in terms of single steps of the machine. *)
Lemma test_step_max_handled n fuel p m :
  machine_wf m -> (n < fuel)%nat -> Z.of_nat n < 2 ^ 64 -> (handled_one_by_one test_handler n p m).1.1 <> None ->
  test_step_max fuel {| ts_machine := m; ts_posix := p |} (Included (Z.of_nat n)) =
  test_result (handled_one_by_one test_handler n p m).
Proof.
  intros W F B T. unfold test_step_max. cbn [ts_posix ts_machine].
  by rewrite (step_max_handle_one_by_one _ test_handler_wf n), add_result_steps_0.
Qed.

(** Exiting ends the steps, so a run that goes on has not exited. *)
Lemma tests_handled n : forall p m,
  machine_wf m -> p.(exited) = 0 -> (handled_one_by_one test_handler n p m).1.1 <> None ->
  tests_one_by_one n {| ts_machine := m; ts_posix := p |} = test_result (handled_one_by_one test_handler n p m).
Proof.
  induction n as [|n IH]; intros p m W X T; cbn [tests_one_by_one];
    assert (Hx : has_exited p = false) by (unfold has_exited; rewrite X; done).
  { cbn [handled_one_by_one]. by rewrite test_result_running. }
  change 1 with (Z.of_nat 1) at 1. rewrite test_step_max_handled by
    (done || lia || (revert T; cbn [handled_one_by_one]; destruct (step 1 m) as [[[]|] ?]; try done;
       destruct (test_handler _ _ _) as [[[[]|] ?] ?]; done)).
  revert T. cbn [handled_one_by_one]. pose proof (step_wf 1 m W) as W1.
  destruct (step 1 m) as [[[u|exc]|] m1]; [| |done].
  - intros T%add_result_steps_none. rewrite !test_result_add, <- IH by done.
    by rewrite test_result_running.
  - pose proof (test_handler_wf p m1 exc W1) as W2. rewrite test_handler_spec, Hx. destruct (decide _) as [Sm|Sm].
    + destruct (requested_exit _) as [c|]; [|done]. intros _. cbn [test_result option_map].
      unfold test_handle_step_result, exit_code, has_exited, handle_exit. cbn [smr_error]. by rewrite X.
    + intros T%add_result_steps_none. rewrite !test_result_add, <- IH by done. by rewrite test_result_running.
Qed.

(** Many steps of a test are single ones: while the program has not exited,
    a run of the stepper bounded by [n] gives the machine, the environment, the
    count and the result of runs of one step each, up to the first that ends
    with an exit or an exception. *)
Theorem test_step_max_one_by_one n fuel t :
  machine_wf t.(ts_machine) -> t.(ts_posix).(exited) = 0 -> (n < fuel)%nat -> Z.of_nat n < 2 ^ 64 ->
  (handled_one_by_one test_handler n t.(ts_posix) t.(ts_machine)).1.1 <> None ->
  test_step_max fuel t (Included (Z.of_nat n)) = tests_one_by_one n t.
Proof.
  destruct t as [m p]. cbn [ts_machine ts_posix]. intros W X F B T. by rewrite tests_handled, test_step_max_handled.
Qed.
End stepper.

(** ** Examples *)

#[local] Existing Instances M1K TestCacheLayouts ApFloat_example ArbitraryInt_ref ApFloat_example_laws.

(** A supervisor that exits with code 5: [addi a7, x0, 93], [addi a0, x0, 5],
    [ecall]. *)
Definition test_example : TestStepper := {|
  ts_machine := set_core machine_example
    (set_bus (set_hart core_example (set_mode core_example.(hart) Supervisor))
       (Bus_write_all U32 core_example.(bus) start_of_main_memory [0x05d00893; 0x00500513; 0x00000073]).2);
  ts_posix := {| code := 0; exited := 0; exit_mode := Supervisor |};
|}.

Lemma test_example_wf : machine_wf test_example.(ts_machine).
Proof. split; [apply set_mode_wf; exact HartState_example_wf|exact machine_example_wf]. Qed.

Lemma test_exit_once_witness :
  (test_step_max 9 test_example (Included 8)).1 = Some (TExit 5 3) /\
  (test_step_max 9 test_example (Included 8)).2.(ts_posix) = {| code := 5; exited := 1; exit_mode := Supervisor |}.
Proof.
  assert (R : (test_step_max 9 test_example (Included 8)).1 = Some (TExit 5 3)) by (vm_compute; reflexivity).
  destruct (test_step_max 9 test_example (Included 8)) as [r t'] eqn:E. cbn [fst snd] in *. subst r.
  split; [reflexivity|]. destruct (test_exit_once 9 test_example (Included 8) (TExit 5 3) t' E) as [_ P]; [done|].
  exact P.
Defined.

Lemma test_step_max_one_by_one_witness :
  test_step_max 9 test_example (Included 8) = tests_one_by_one 8 test_example.
Proof.
  apply (test_step_max_one_by_one 8 9 test_example test_example_wf eq_refl); [lia|vm_compute; reflexivity|].
  vm_compute. discriminate.
Defined.
