(* ===== verification/Hash.v ===== *)
(** Hashes of the state: [src/riscv/lib/src/state_backend/hash.rs], and the
    hashes of cells in [state_backend/region.rs].

    BLAKE2b (tezos_crypto_rs) and the serialisation of bincode are
    interfaces.  A loop that the source writes with [while] takes fuel. *)
From S2P Require Import Prelude.

(** [slice::chunks]. *)
Fixpoint chunks_from {A} (fuel n : nat) (l : list A) : list (list A) :=
  match fuel, l with
  | S fuel, _ :: _ => take n l :: chunks_from fuel n (drop n l)
  | _, _ => []
  end.
Definition chunks {A} (n : nat) (l : list A) : list (list A) := chunks_from (length l) n l.

(** ** Digests *)

(** [tezos_crypto_rs::blake2b]: the digest of 256 bits, as bytes. *)
Class Blake2b := { blake2b_error : Type; digest_256 : list Z -> list Z }.

(** The error type of bincode. *)
Class Bincode := { bincode_error : Type }.

(* state_backend/hash.rs:26-26 DIGEST_SIZE *)
Definition DIGEST_SIZE : nat := 32.

(** The digest has 256 bits. *)
Class Blake2bOk `{B : Blake2b} : Prop := {
  digest_size : forall l, length (digest_256 l) = DIGEST_SIZE;
}.

(* state_backend/hash.rs:32-35 Hash *)
Record Hash : Set := { digest : list Z }.
#[export] Instance Hash_eq_dec : EqDecision Hash.
Proof. solve_decision. Defined.

Section hash.
Context `{B : Blake2b} `{BC : Bincode}.

(* state_backend/hash.rs:10-23 HashError *)
Inductive HashError : Type :=
| HashingError (e : blake2b_error)
| InvalidDigestSize
| SerializationError (e : bincode_error)
| NonEmptyBufferExpected.

(* state_backend/hash.rs:55-63 try_from *)
Definition Hash_try_from (value : list Z) : result Hash HashError :=
  if decide (length value = DIGEST_SIZE) then Ok {| digest := value |} else Err InvalidDigestSize.

(* state_backend/hash.rs:39-41 Hash::blake2b_hash_bytes *)
Definition blake2b_hash_bytes (bytes : list Z) : result Hash HashError := Hash_try_from (digest_256 bytes).

(** [serialised] is what [bincode::serialize] gives for the data. *)
(* state_backend/hash.rs:44-46 Hash::blake2b_hash *)
Definition blake2b_hash (serialised : result (list Z) bincode_error) : result Hash HashError :=
  let? bytes := result_map_err SerializationError serialised in
  blake2b_hash_bytes bytes.

(** ** Root hashes *)

(* state_backend/hash.rs:91-95 RootHashable *)
Class RootHashable (T : Type) := root_hash : T -> result Hash HashError.

(* state_backend/hash.rs:103-107 RootHashable *)
#[global] Instance RootHashable_Hash : RootHashable Hash := fun h => Ok h.

(* state_backend/hash.rs:113-116 hash *)
Fixpoint collect_hashes {T} `{RootHashable T} (l : list T) (hashes : list Z) : result (list Z) HashError :=
  match l with
  | [] => Ok hashes
  | e :: l =>
      let? h := root_hash e in
      collect_hashes l (hashes ++ h.(digest))
  end.

(* state_backend/hash.rs:109-123 RootHashable *)
#[global] Instance RootHashable_slice {T} `{RootHashable T} : RootHashable (list T) := fun l =>
  let? hashes := collect_hashes l [] in
  blake2b_hash_bytes hashes.

(** [collect] into a [Result]: the first error. *)
Fixpoint collect {A E} (l : list (result A E)) : result (list A) E :=
  match l with
  | [] => Ok []
  | r :: l =>
      let? a := r in
      let? rest := collect l in
      Ok (a :: rest)
  end.

(** The tuples, from the hashes of their components. *)
(* state_backend/hash.rs:138-149 impl_roothash_for_tuple *)
Definition tuple_hash (components : list (result Hash HashError)) : result Hash HashError :=
  let? hashes := collect components in
  root_hash hashes.

(* state_backend/hash.rs:151-151 impl_roothash_for_tuple *)
#[global] Instance RootHashable_2 {S T} `{RootHashable S} `{RootHashable T} : RootHashable (S * T) :=
  fun '(a, b) => tuple_hash [root_hash a; root_hash b].

(* state_backend/hash.rs:152-152 impl_roothash_for_tuple *)
#[global] Instance RootHashable_3 {S T U} `{RootHashable S} `{RootHashable T} `{RootHashable U} :
  RootHashable (S * T * U) :=
  fun '(a, b, c) => tuple_hash [root_hash a; root_hash b; root_hash c].

(** ** Hashing a stream *)

(* state_backend/hash.rs:158-162 HashWriter *)
Record HashWriter : Type := { hw_size : nat; hw_buffer : list Z; hw_hashes : list Hash }.

(* state_backend/hash.rs:169-176 HashWriter::new *)
Definition HashWriter_new (size : nat) : HashWriter :=
  {| hw_size := size; hw_buffer := []; hw_hashes := [] |}.

(* state_backend/hash.rs:188-196 HashWriter::flush_buffer *)
Definition HashWriter_flush_buffer : stM HashWriter HashError unit :=
  let! buffer := gets hw_buffer in
  let! hash := lift_result (blake2b_hash_bytes buffer) in
  modify (fun w => {| hw_size := w.(hw_size); hw_buffer := []; hw_hashes := w.(hw_hashes) ++ [hash] |}).

(* state_backend/hash.rs:180-185 HashWriter::finalise *)
Definition HashWriter_finalise (w : HashWriter) : result (list Hash) HashError :=
  match w.(hw_buffer) with
  | [] => Ok w.(hw_hashes)
  | _ =>
      let '(r, w) := HashWriter_flush_buffer w in
      let? _ := r in
      Ok w.(hw_hashes)
  end.

(** One turn of the loop: what is taken of [buf], and the writer. *)
(* state_backend/hash.rs:204-214 HashWriter::write *)
Definition HashWriter_fill (buf : list Z) : stM HashWriter HashError (list Z) := fun w =>
  let rem_buffer_len := (w.(hw_size) - length w.(hw_buffer))%nat in
  let new_buf_len := Nat.min rem_buffer_len (length buf) in
  let new_buf := take new_buf_len buf in
  let buf := drop new_buf_len buf in
  let w := {| hw_size := w.(hw_size); hw_buffer := w.(hw_buffer) ++ new_buf; hw_hashes := w.(hw_hashes) |} in
  if (rem_buffer_len =? new_buf_len)%nat
  then (let! _ := HashWriter_flush_buffer in st_ret buf) w
  else (Ok buf, w).

(** [None] when the fuel is used up. *)
(* state_backend/hash.rs:200-217 HashWriter::write *)
Fixpoint HashWriter_write (fuel : nat) (buf : list Z) (w : HashWriter) :
  option (result unit HashError * HashWriter) :=
  match buf with
  | [] => Some (Ok tt, w)
  | _ =>
      match fuel with
      | O => None
      | S fuel =>
          match HashWriter_fill buf w with
          | (Ok buf, w) => HashWriter_write fuel buf w
          | (Err e, w) => Some (Err e, w)
          end
      end
  end.

(** ** Merkle hashes *)

(* state_backend/hash.rs:244-247 build_custom_merkle_hash *)
Fixpoint hash_chunks (l : list (list Hash)) : result (list Hash) HashError :=
  match l with
  | [] => Ok []
  | chunk :: l =>
      let? h := root_hash chunk in
      let? next_level := hash_chunks l in
      Ok (h :: next_level)
  end.

(* state_backend/hash.rs:242-252 build_custom_merkle_hash *)
Fixpoint merkle_levels (fuel arity : nat) (nodes : list Hash) : outcome (result Hash HashError) :=
  if (1 <? length nodes)%nat then
    match fuel with
    | O => OutOfFuel
    | S fuel =>
        match hash_chunks (chunks arity nodes) with
        | Err e => Done (Err e)
        | Ok next_level => merkle_levels fuel arity next_level
        end
    end
  else match nodes with
       | h :: _ => Done (Ok h)
       | [] => Panicked
       end.

(* state_backend/hash.rs:230-253 build_custom_merkle_hash *)
Definition build_custom_merkle_hash (fuel arity : nat) (nodes : list Hash) : outcome (result Hash HashError) :=
  if (arity <? 2)%nat then Panicked
  else match nodes with
       | [] => Done (Err NonEmptyBufferExpected)
       | _ => merkle_levels fuel arity nodes
       end.

(** ** Cells *)

(* state_backend/region.rs:289-293 RootHashable *)
Definition Cells_hash (serialised : result (list Z) bincode_error) : result Hash HashError :=
  blake2b_hash serialised.

(* state_backend/region.rs:384-384 MERKLE_LEAF_SIZE *)
Definition MERKLE_LEAF_SIZE : nat := 4096.

(* state_backend/region.rs:385-385 MERKLE_ARITY *)
Definition MERKLE_ARITY : nat := 3.

(** bincode serialises into the writer with one write after another; an error
    of the writer comes back as an error of bincode ([io_error]). *)
(* storage/binary.rs:36-41 serialise_into *)
Fixpoint serialise_into (fuel : nat) (io_error : HashError -> bincode_error) (pieces : list (list Z))
  (w : HashWriter) : option (result unit bincode_error * HashWriter) :=
  match pieces with
  | [] => Some (Ok tt, w)
  | piece :: pieces =>
      match HashWriter_write fuel piece w with
      | Some (Ok _, w) => serialise_into fuel io_error pieces w
      | Some (Err e, w) => Some (Err (io_error e), w)
      | None => None
      end
  end.

(* state_backend/region.rs:387-396 RootHashable *)
Definition DynCells_hash (fuel : nat) (io_error : HashError -> bincode_error) (pieces : list (list Z)) :
  outcome (result Hash HashError) :=
  match serialise_into fuel io_error pieces (HashWriter_new MERKLE_LEAF_SIZE) with
  | None => OutOfFuel
  | Some (Err e, _) => Done (Err (SerializationError e))
  | Some (Ok _, w) =>
      match HashWriter_finalise w with
      | Err e => Done (Err e)
      | Ok hashes => build_custom_merkle_hash fuel MERKLE_ARITY hashes
      end
  end.

End hash.
