(* ===== verification/HashSpec.v ===== *)
(** Hashing in chunks and Merkle hashes: the writer is independent of how the
    data arrives, the Merkle hash is total, and it binds the data. *)
From S2P Require Import Prelude Hash.

(** ** Chunks *)

Lemma chunks_from_fuel {A} fuel fuel' n (l : list A) :
  (0 < n)%nat -> (length l <= fuel)%nat -> (length l <= fuel')%nat -> chunks_from fuel n l = chunks_from fuel' n l.
Proof.
  intros P. revert fuel' l. induction fuel as [|fuel IH]; intros fuel' l L L'.
  - destruct l; [|simpl in L; lia]. by destruct fuel'.
  - destruct fuel' as [|fuel']; [destruct l; [done|simpl in L'; lia]|]. cbn [chunks_from].
    destruct l as [|a l]; [done|]. f_equal. apply IH; rewrite length_drop; simpl in *; lia.
Qed.

Lemma chunks_cons {A} n (l : list A) :
  (0 < n)%nat -> l <> [] -> chunks n l = take n l :: chunks n (drop n l).
Proof.
  intros P N. unfold chunks. destruct l as [|a l]; [done|]. cbn [length chunks_from]. f_equal.
  apply chunks_from_fuel; [done|..]; rewrite length_drop; simpl; lia.
Qed.

Lemma chunks_nil {A} n : chunks n (@nil A) = [].
Proof. done. Qed.

(** Induction along the chunks. *)
Lemma chunks_ind {A} n (Pn : (0 < n)%nat) (P : list A -> Prop) :
  P [] -> (forall l, l <> [] -> P (drop n l) -> P l) -> forall l, P l.
Proof.
  intros P0 PS l. remember (length l) as k eqn:E. revert l E.
  induction k as [k IH] using lt_wf_ind. intros l ->. destruct l as [|a l]; [done|].
  apply PS; [done|]. eapply IH; [|done]. rewrite length_drop. simpl. lia.
Qed.

Lemma chunks_concat {A} n (l : list A) : (0 < n)%nat -> concat (chunks n l) = l.
Proof.
  intros P. induction l as [|l N IH] using (chunks_ind n P); [done|].
  rewrite chunks_cons by done. cbn [concat]. by rewrite IH, take_drop.
Qed.

Lemma chunks_app {A} n (l l' : list A) :
  length l = n -> (0 < n)%nat -> chunks n (l ++ l') = l :: chunks n l'.
Proof.
  intros L P. rewrite chunks_cons by (done || by destruct l; [simpl in L; lia|]).
  by rewrite take_app_length', drop_app_length' by done.
Qed.

Lemma chunks_short {A} n (l : list A) : l <> [] -> (length l <= n)%nat -> chunks n l = [l].
Proof.
  intros N L. rewrite chunks_cons; [|destruct l; [done|simpl in L; lia]|done].
  by rewrite take_ge, drop_ge by lia.
Qed.

Lemma chunks_length_eq {A B} n (l : list A) (l' : list B) :
  (0 < n)%nat -> length l = length l' -> map length (chunks n l) = map length (chunks n l').
Proof.
  intros P. revert l'. induction l as [|l N IH] using (chunks_ind n P); [intros []; done|].
  intros l' E. assert (l' <> []) by (by destruct l, l').
  rewrite (chunks_cons n l), (chunks_cons n l') by done. cbn [map]. f_equal.
  - rewrite !length_take. lia.
  - apply IH. rewrite !length_drop. lia.
Qed.

Lemma length_chunks {A} n (l : list A) : (0 < n)%nat -> (length (chunks n l) <= length l)%nat.
Proof.
  intros P. induction l as [|l N IH] using (chunks_ind n P); [done|].
  rewrite chunks_cons by done. cbn [length]. rewrite length_drop in IH. destruct l; [done|simpl in *; lia].
Qed.

Lemma chunks_shrink {A} n (l : list A) : (2 <= n)%nat -> (1 < length l)%nat -> (length (chunks n l) < length l)%nat.
Proof.
  intros P. induction l as [|l N IH] using (chunks_ind n ltac:(lia)); [simpl; lia|].
  intros L. rewrite chunks_cons by (lia || done). cbn [length].
  destruct (decide (length l <= n)%nat).
  - rewrite drop_ge by lia. simpl. lia.
  - pose proof (length_drop l n). destruct (decide (1 < length (drop n l))%nat); [specialize (IH ltac:(done)); lia|].
    rewrite chunks_short by (lia || destruct (drop n l); simpl in *; lia || done). simpl. lia.
Qed.

(** ** The writer *)

Section writer.
Context `{BO : Blake2bOk} `{BC : Bincode}.

Definition hash_of (l : list Z) : Hash := {| digest := digest_256 l |}.
Definition Hash_wf (h : Hash) : Prop := length h.(digest) = DIGEST_SIZE.

Lemma hash_of_wf l : Hash_wf (hash_of l).
Proof. apply digest_size. Qed.

Lemma blake2b_hash_bytes_ok l : blake2b_hash_bytes l = Ok (hash_of l).
Proof. unfold blake2b_hash_bytes, Hash_try_from. by rewrite decide_True by apply digest_size. Qed.

(** The writer after the bytes [d]: full chunks are hashed, the rest is buffered. *)
Definition writer_of (n : nat) (d : list Z) (w : HashWriter) : Prop :=
  exists full, d = concat full ++ w.(hw_buffer) /\ Forall (fun c => length c = n) full /\
    w.(hw_hashes) = map hash_of full /\ (length w.(hw_buffer) < n)%nat /\ w.(hw_size) = n.

Lemma HashWriter_fill_spec n d w buf :
  writer_of n d w -> buf <> [] ->
  exists taken rest w', HashWriter_fill buf w = (Ok rest, w') /\ buf = taken ++ rest /\ taken <> [] /\
    writer_of n (d ++ taken) w'.
Proof.
  intros (full & -> & F & Hh & L & S) N. unfold HashWriter_fill. rewrite S.
  set (k := Nat.min (n - length w.(hw_buffer)) (length buf)).
  assert (P : (0 < k)%nat) by (destruct buf; [done|unfold k; simpl; lia]).
  assert (T : length (take k buf) = k) by (rewrite length_take; unfold k; lia).
  exists (take k buf), (drop k buf).
  destruct (Nat.eqb_spec (n - length w.(hw_buffer)) k) as [E|E].
  - eexists. unfold st_bind, HashWriter_flush_buffer, gets, lift_result, modify, st_ret, st_bind.
    cbn [hw_buffer hw_hashes hw_size]. rewrite blake2b_hash_bytes_ok.
    split; [done|]. split; [by rewrite take_drop|]. split; [by destruct (take k buf); [simpl in T; lia|]|].
    exists (full ++ [w.(hw_buffer) ++ take k buf]). cbn [hw_buffer hw_hashes hw_size].
    rewrite concat_app, map_app, Hh. cbn [concat map]. split_and!.
    + by rewrite !app_nil_r, app_assoc.
    + apply Forall_app. split; [done|]. apply Forall_singleton. rewrite length_app, T. lia.
    + done.
    + simpl. lia.
    + done.
  - eexists. split; [done|]. split; [by rewrite take_drop|]. split; [by destruct (take k buf); [simpl in T; lia|]|].
    exists full. cbn [hw_buffer hw_hashes hw_size]. split_and!; [by rewrite app_assoc|done|done| |done].
    rewrite length_app, T. unfold k in *. lia.
Qed.

Lemma HashWriter_write_spec n fuel : forall d w buf,
  writer_of n d w -> (length buf <= fuel)%nat ->
  exists w', HashWriter_write fuel buf w = Some (Ok tt, w') /\ writer_of n (d ++ buf) w'.
Proof.
  induction fuel as [|fuel IH]; intros d w buf W L.
  - destruct buf; [|simpl in L; lia]. exists w. by rewrite app_nil_r.
  - destruct (decide (buf = [])) as [->|N]; [exists w; by rewrite app_nil_r|].
    destruct (HashWriter_fill_spec n d w buf W N) as (t & r & w1 & E & Eb & Nt & W1).
    destruct (IH _ _ r W1) as (w2 & E2 & W2).
    { subst buf. rewrite length_app in L. destruct t; [done|simpl in L; lia]. }
    exists w2. rewrite <- app_assoc in W2. rewrite <- Eb in W2. split; [|done].
    destruct buf as [|b buf]; [done|]. cbn [HashWriter_write]. by rewrite E.
Qed.

Lemma HashWriter_finalise_spec n d w :
  writer_of n d w -> HashWriter_finalise w = Ok (map hash_of (chunks n d)).
Proof.
  intros (full & -> & F & Hh & L & S).
  assert (C : chunks n (concat full ++ w.(hw_buffer)) = full ++ chunks n w.(hw_buffer)).
  { clear Hh. induction F as [|c full Lc F IH]; [done|]. cbn [concat app].
    rewrite <- app_assoc, chunks_app by lia. by rewrite IH. }
  unfold HashWriter_finalise. rewrite C, map_app, <- Hh.
  destruct w as [sz [|b buf] hs]; cbn [hw_buffer hw_hashes hw_size] in *.
  - by rewrite chunks_nil, app_nil_r.
  - unfold HashWriter_flush_buffer, st_bind, gets, lift_result, modify. cbn [hw_buffer hw_hashes hw_size].
    rewrite blake2b_hash_bytes_ok. cbn [result_bind]. by rewrite chunks_short by (done || simpl in *; lia).
Qed.

Lemma serialise_into_spec n fuel io_error pieces : forall d w,
  writer_of n d w -> Forall (fun p => (length p <= fuel)%nat) pieces ->
  exists w', serialise_into fuel io_error pieces w = Some (Ok tt, w') /\ writer_of n (d ++ concat pieces) w'.
Proof.
  induction pieces as [|p pieces IH]; intros d w W F.
  - exists w. split; [done|]. cbn [concat]. by rewrite app_nil_r.
  - apply Forall_cons in F as [Fp F]. destruct (HashWriter_write_spec n fuel d w p W Fp) as (w1 & E & W1).
    destruct (IH _ _ W1 F) as (w2 & E2 & W2). exists w2. cbn [serialise_into concat]. rewrite E.
    split; [done|]. by rewrite app_assoc.
Qed.

Lemma HashWriter_new_of n : (0 < n)%nat -> writer_of n [] (HashWriter_new n).
Proof. intros P. exists []. by split_and!. Qed.

Lemma HashWriter_writes n fuel io_error pieces :
  (0 < n)%nat -> Forall (fun p => (length p <= fuel)%nat) pieces ->
  exists w, serialise_into fuel io_error pieces (HashWriter_new n) = Some (Ok tt, w) /\
    HashWriter_finalise w = Ok (map hash_of (chunks n (concat pieces))).
Proof.
  intros P F. destruct (serialise_into_spec n fuel io_error pieces [] _ (HashWriter_new_of n P) F) as (w & E & W).
  exists w. split; [done|]. exact (HashWriter_finalise_spec n _ w W).
Qed.

(** The hashing writer.  However the data is split into writes (empty
    ones included), the writer ends with the hashes of the chunks of the
    whole data, in order, the last one possibly shorter, provided the fuel
    covers the longest write. *)
Theorem HashWriter_chunks n fuel io_error pieces :
  (0 < n)%nat -> Forall (fun p => (length p <= fuel)%nat) pieces ->
  exists w, serialise_into fuel io_error pieces (HashWriter_new n) = Some (Ok tt, w) /\
    HashWriter_finalise w = Ok (map hash_of (chunks n (concat pieces))).
Proof. apply HashWriter_writes. Qed.

End writer.

(** ** Merkle hashes *)

Section merkle.
Context `{BO : Blake2bOk} `{BC : Bincode}.

(** What is hashed for a node: the digests of its children. *)
Definition join (l : list Hash) : list Z := concat (map digest l).

Lemma collect_hashes_join l : forall acc, collect_hashes l acc = Ok (acc ++ join l).
Proof.
  induction l as [|h l IH]; intros acc; cbn [collect_hashes].
  - unfold join. cbn. by rewrite app_nil_r.
  - unfold root_hash, RootHashable_Hash. cbn [result_bind]. rewrite IH. unfold join. cbn [map concat].
    by rewrite app_assoc.
Qed.

Lemma root_hash_slice (l : list Hash) : root_hash l = Ok (hash_of (join l)).
Proof.
  unfold root_hash, RootHashable_slice. rewrite collect_hashes_join. cbn [result_bind app].
  apply blake2b_hash_bytes_ok.
Qed.

Lemma hash_chunks_eq l : hash_chunks l = Ok (map (fun c => hash_of (join c)) l).
Proof.
  induction l as [|c l IH]; [done|]. cbn [hash_chunks]. rewrite root_hash_slice, IH. done.
Qed.

(** The next level of the tree. *)
Definition next_level (arity : nat) (nodes : list Hash) : list Hash :=
  map (fun c => hash_of (join c)) (chunks arity nodes).

Lemma next_level_wf arity nodes : Forall Hash_wf (next_level arity nodes).
Proof. apply Forall_forall. intros h (c & -> & _)%list_elem_of_fmap. apply hash_of_wf. Qed.

Lemma length_next_level arity nodes : length (next_level arity nodes) = length (chunks arity nodes).
Proof. apply length_map. Qed.

(** The byte sequences that are hashed on the way to the root. *)
Fixpoint merkle_inputs (fuel arity : nat) (nodes : list Hash) : list (list Z) :=
  match fuel with
  | O => []
  | S fuel =>
      if (1 <? length nodes)%nat
      then map join (chunks arity nodes) ++ merkle_inputs fuel arity (next_level arity nodes)
      else []
  end.

Lemma merkle_levels_eq fuel arity nodes :
  merkle_levels fuel arity nodes =
  if (1 <? length nodes)%nat then
    match fuel with O => OutOfFuel | S fuel => merkle_levels fuel arity (next_level arity nodes) end
  else match nodes with h :: _ => Done (Ok h) | [] => Panicked end.
Proof. destruct fuel; cbn [merkle_levels]; [done|]. by rewrite hash_chunks_eq. Qed.

Lemma merkle_levels_total arity fuel : forall nodes,
  (2 <= arity)%nat -> nodes <> [] -> (length nodes <= S fuel)%nat ->
  exists h, merkle_levels fuel arity nodes = Done (Ok h).
Proof.
  induction fuel as [|fuel IH]; intros nodes A N L; rewrite merkle_levels_eq.
  - destruct nodes as [|h [|]]; [done| |simpl in L; lia]. by exists h.
  - destruct (Nat.ltb_spec 1 (length nodes)) as [G|G].
    + apply IH; [done| |].
      * unfold next_level. rewrite chunks_cons by (done || lia). done.
      * rewrite length_next_level. pose proof (chunks_shrink arity nodes A G). lia.
    + destruct nodes as [|h l]; [done|]. by exists h.
Qed.

Lemma join_inj l l' :
  length l = length l' -> Forall Hash_wf l -> Forall Hash_wf l' -> join l = join l' -> l = l'.
Proof.
  revert l'. induction l as [|[d] l IH]; intros [|[d'] l'] L F F' E; try done.
  apply Forall_cons in F as [W F], F' as [W' F']. unfold join in E. cbn [map concat digest] in E.
  apply app_inj_1 in E as [-> E]; [|unfold Hash_wf in *; simpl in *; congruence]. f_equal. apply IH; try done. by injection L.
Qed.

Lemma chunks_join_inj arity nodes nodes' :
  (0 < arity)%nat -> length nodes = length nodes' -> Forall Hash_wf nodes -> Forall Hash_wf nodes' ->
  map join (chunks arity nodes) = map join (chunks arity nodes') -> nodes = nodes'.
Proof.
  intros A. revert nodes'. induction nodes as [|l N IH] using (chunks_ind arity A); [by intros []|].
  intros l' L F F' E. assert (l' <> []) by (by destruct l, l').
  rewrite (chunks_cons arity l), (chunks_cons arity l') in E by done. cbn [map] in E. injection E as E1 E2.
  rewrite <- (take_drop arity l), <- (take_drop arity l'). f_equal.
  - apply join_inj; [rewrite !length_take; lia|by apply Forall_take..|done].
  - apply IH; [rewrite !length_drop; lia|by apply Forall_drop..|done].
Qed.

(** Different inputs of the two lists have different digests. *)
Definition no_collision (ins ins' : list (list Z)) : Prop :=
  forall x y, x ∈ ins -> y ∈ ins' -> digest_256 x = digest_256 y -> x = y.

Lemma no_collision_map ins ins' : no_collision ins ins' -> map hash_of ins = map hash_of ins' -> ins = ins'.
Proof.
  revert ins'. induction ins as [|x ins IH]; intros [|y ins'] N E; try done. cbn [map] in E.
  injection E as E1 E2. f_equal.
  - apply N; [by left..|done].
  - apply IH; [|done]. intros a b ??. by apply N; right.
Qed.

Lemma no_collision_app a b a' b' : no_collision (a ++ b) (a' ++ b') -> no_collision a a' /\ no_collision b b'.
Proof.
  intros N. split; intros x y Hx Hy; apply N; apply elem_of_app; auto.
Qed.

Lemma merkle_levels_binding arity fuel : forall nodes nodes' h,
  (0 < arity)%nat -> length nodes = length nodes' -> Forall Hash_wf nodes -> Forall Hash_wf nodes' ->
  no_collision (merkle_inputs fuel arity nodes) (merkle_inputs fuel arity nodes') ->
  merkle_levels fuel arity nodes = Done (Ok h) -> merkle_levels fuel arity nodes' = Done (Ok h) -> nodes = nodes'.
Proof.
  induction fuel as [|fuel IH]; intros l l' h A L F F' N E E'; rewrite merkle_levels_eq in E, E'; rewrite <- L in E'.
  - destruct (Nat.ltb_spec 1 (length l)); [done|].
    destruct l as [|x [|]], l' as [|y [|]]; simpl in *; try lia; try done. congruence.
  - cbn [merkle_inputs] in N. rewrite <- L in N. destruct (Nat.ltb_spec 1 (length l)) as [G|G].
    + apply no_collision_app in N as [N1 N2].
      assert (E1 : next_level arity l = next_level arity l').
      { eapply IH; [done| |apply next_level_wf..|exact N2|exact E|exact E'].
        rewrite !length_next_level. rewrite <- !(length_map length). f_equal. by apply chunks_length_eq. }
      apply (chunks_join_inj arity); try done. apply no_collision_map; [done|].
      rewrite !map_map. exact E1.
    + destruct l as [|x [|]], l' as [|y [|]]; simpl in *; try lia; try done. congruence.
Qed.

Lemma merkle_roots arity fuel nodes nodes' :
  (2 <= arity)%nat -> nodes <> [] -> length nodes = length nodes' -> (length nodes <= fuel)%nat ->
  Forall Hash_wf nodes -> Forall Hash_wf nodes' ->
  no_collision (merkle_inputs fuel arity nodes) (merkle_inputs fuel arity nodes') ->
  exists h h', build_custom_merkle_hash fuel arity nodes = Done (Ok h) /\
    build_custom_merkle_hash fuel arity nodes' = Done (Ok h') /\ (h = h' <-> nodes = nodes').
Proof.
  intros A N L Fu F F' C. assert (N' : nodes' <> []) by (by destruct nodes, nodes').
  destruct (merkle_levels_total arity fuel nodes A N ltac:(lia)) as (h & E).
  destruct (merkle_levels_total arity fuel nodes' A N' ltac:(lia)) as (h' & E').
  exists h, h'. unfold build_custom_merkle_hash. rewrite (proj2 (Nat.ltb_ge arity 2)) by done.
  destruct nodes as [|a l]; [done|]. destruct nodes' as [|a' l']; [done|].
  split; [done|]. split; [done|]. split; [intros ->|intros [= -> ->]; congruence].
  eapply (merkle_levels_binding arity fuel); eauto; lia.
Qed.

(** Merkle hashes are total and binding.  For an arity of at least two
    and a non-empty list of leaves the loop ends within as many turns as
    there are leaves and gives a hash; an empty list is the documented error
    and a smaller arity a panic.  Two lists of the same length with the same
    root hash are the same list, unless two different byte sequences hashed
    on the way collide. *)
Theorem merkle_hash_binding arity fuel nodes nodes' :
  (2 <= arity)%nat -> nodes <> [] -> length nodes = length nodes' -> (length nodes <= fuel)%nat ->
  Forall Hash_wf nodes -> Forall Hash_wf nodes' ->
  no_collision (merkle_inputs fuel arity nodes) (merkle_inputs fuel arity nodes') ->
  build_custom_merkle_hash fuel arity [] = Done (Err NonEmptyBufferExpected) /\
  (forall a, (a < 2)%nat -> build_custom_merkle_hash fuel a nodes = Panicked) /\
  exists h h', build_custom_merkle_hash fuel arity nodes = Done (Ok h) /\
    build_custom_merkle_hash fuel arity nodes' = Done (Ok h') /\ (h = h' <-> nodes = nodes').
Proof.
  intros A N L Fu F F' C. split; [|split].
  { unfold build_custom_merkle_hash. by rewrite (proj2 (Nat.ltb_ge arity 2)) by done. }
  { intros a Ha. unfold build_custom_merkle_hash. by rewrite (proj2 (Nat.ltb_lt a 2)) by done. }
  destruct (merkle_roots arity fuel nodes nodes' A N L Fu F F' C) as (h & h' & E). by exists h, h'.
Qed.
(** ** The memory *)

(** What is hashed for the memory with the serialisation [d]. *)
Definition memory_inputs (fuel : nat) (d : list Z) : list (list Z) :=
  let leaves := chunks MERKLE_LEAF_SIZE d in leaves ++ merkle_inputs fuel MERKLE_ARITY (map hash_of leaves).

Lemma DynCells_hash_eq fuel io_error pieces :
  (length (concat pieces) <= fuel)%nat ->
  DynCells_hash fuel io_error pieces =
  build_custom_merkle_hash fuel MERKLE_ARITY (map hash_of (chunks MERKLE_LEAF_SIZE (concat pieces))).
Proof.
  intros L. destruct (HashWriter_writes MERKLE_LEAF_SIZE fuel io_error pieces) as (w & E & F).
  - unfold MERKLE_LEAF_SIZE. lia.
  - apply Forall_forall. intros p In. clear -L In. induction pieces as [|q pieces IH]; [by apply not_elem_of_nil in In|].
    cbn [concat] in L. rewrite length_app in L. apply elem_of_cons in In as [->|]; [lia|apply IH; [lia|done]].
  - unfold DynCells_hash. by rewrite E, F.
Qed.

(** C21. The hash of the main memory.  It is defined for every non-empty
    memory, does not depend on how the serialiser splits its output, and two
    memories of the same size have the same hash exactly when they have the
    same contents, unless two different byte sequences hashed on the way
    collide. *)
Theorem DynCells_hash_binding fuel io_error pieces pieces' :
  concat pieces <> [] -> length (concat pieces) = length (concat pieces') ->
  (length (concat pieces) <= fuel)%nat ->
  no_collision (memory_inputs fuel (concat pieces)) (memory_inputs fuel (concat pieces')) ->
  exists h h', DynCells_hash fuel io_error pieces = Done (Ok h) /\
    DynCells_hash fuel io_error pieces' = Done (Ok h') /\ (h = h' <-> concat pieces = concat pieces').
Proof.
  intros N L Fu C. assert (P : (0 < MERKLE_LEAF_SIZE)%nat) by (unfold MERKLE_LEAF_SIZE; lia).
  rewrite !DynCells_hash_eq by lia. apply no_collision_app in C as [C1 C2].
  assert (W : forall l, Forall Hash_wf (map hash_of l)).
  { intros l. apply Forall_forall. intros h (c & -> & _)%list_elem_of_fmap. apply hash_of_wf. }
  destruct (merkle_roots MERKLE_ARITY fuel (map hash_of (chunks MERKLE_LEAF_SIZE (concat pieces)))
    (map hash_of (chunks MERKLE_LEAF_SIZE (concat pieces')))) as (h & h' & E & E' & I); try done.
  - unfold MERKLE_ARITY. lia.
  - by rewrite chunks_cons.
  - rewrite !length_map, <- !(length_map length). f_equal. by apply chunks_length_eq.
  - rewrite length_map. pose proof (length_chunks MERKLE_LEAF_SIZE (concat pieces) P). lia.
  - exists h, h'. split; [done|]. split; [done|]. rewrite I. split; [|by intros ->].
    intros E1%no_collision_map; [|done]. by rewrite <- (chunks_concat _ (concat pieces) P), E1, chunks_concat.
Qed.

End merkle.

(** ** Examples *)

(** A toy digest: the bytes as one number. *)
#[export] Instance toy_blake2b : Blake2b := {|
  blake2b_error := unit;
  digest_256 l := replicate 31 0 ++ [foldl (fun acc x => acc * 257 + x + 1) 0 l];
|}.
#[export] Instance toy_blake2b_ok : Blake2bOk.
Proof. split. intros l. cbn [digest_256 toy_blake2b]. by rewrite length_app, length_replicate. Qed.
#[export] Instance toy_bincode : Bincode := {| bincode_error := unit |}.

Definition toy_io_error (e : HashError) : bincode_error := tt.

Lemma no_collision_check `{B : Blake2b} ins ins' :
  forallb (fun x => forallb (fun y => bool_decide (digest_256 x <> digest_256 y) || bool_decide (x = y)) ins') ins
  = true -> no_collision ins ins'.
Proof.
  rewrite forallb_forall. intros H x y Hx Hy E. specialize (H x (proj1 (list_elem_of_In _ _) Hx)).
  rewrite forallb_forall in H. specialize (H y (proj1 (list_elem_of_In _ _) Hy)).
  apply orb_true_iff in H as [H|H]; apply bool_decide_eq_true in H; [done|done].
Qed.

Lemma HashWriter_chunks_witness :
  exists w, serialise_into 3 toy_io_error [[1; 2; 3]; []; [4]] (HashWriter_new 2) = Some (Ok tt, w) /\
    HashWriter_finalise w = Ok [hash_of [1; 2]; hash_of [3; 4]].
Proof.
  apply (HashWriter_chunks 2 3 toy_io_error [[1; 2; 3]; []; [4]]); [lia|].
  repeat constructor.
Defined.

Definition toy_nodes : list Hash := map (fun i => hash_of [i]) [1; 2; 3].
Definition toy_nodes' : list Hash := map (fun i => hash_of [i]) [1; 4; 3].

Lemma merkle_hash_binding_witness :
  exists h h', build_custom_merkle_hash 3 2 toy_nodes = Done (Ok h) /\
    build_custom_merkle_hash 3 2 toy_nodes' = Done (Ok h') /\ h <> h'.
Proof.
  destruct (merkle_hash_binding 2 3 toy_nodes toy_nodes') as (_ & _ & h & h' & E & E' & I).
  - lia.
  - discriminate.
  - reflexivity.
  - simpl. lia.
  - repeat constructor.
  - repeat constructor.
  - apply no_collision_check. vm_compute. reflexivity.
  - exists h, h'. split; [exact E|]. split; [exact E'|]. intros Eh. apply I in Eh. discriminate.
Defined.

Lemma DynCells_hash_binding_witness :
  exists h h', DynCells_hash 3 toy_io_error [[1]; [2; 3]] = Done (Ok h) /\
    DynCells_hash 3 toy_io_error [[1; 2; 3]] = Done (Ok h') /\ h = h'.
Proof.
  destruct (DynCells_hash_binding 3 toy_io_error [[1]; [2; 3]] [[1; 2; 3]]) as (h & h' & E & E' & I).
  - discriminate.
  - reflexivity.
  - simpl. lia.
  - apply no_collision_check. vm_compute. reflexivity.
  - exists h, h'. split; [exact E|]. split; [exact E'|]. apply I. reflexivity.
Defined.
