(* ===== verification/Merkle.v ===== *)
(** Merkle trees and proofs: [src/riscv/lib/src/state_backend/proof_backend/tree.rs],
    [merkle.rs] and [proof.rs] of the same directory.

    The traversals of the source keep their work in a stack or a queue; they
    take fuel here, and [None] says that it was used up. *)
From S2P Require Import Prelude Hash.

(** ** Trees *)

(* state_backend/proof_backend/tree.rs:13-16 Tree *)
Inductive Tree (A : Type) : Type :=
| TNode (children : list (Tree A))
| TLeaf (a : A).
Arguments TNode {A} _.
Arguments TLeaf {A} _.

(** The stack is a [Vec]: its top is its last element. *)
(* state_backend/proof_backend/tree.rs:21-31 Tree::subtree_iterator *)
Fixpoint subtrees_from {A} (fuel : nat) (stack : list (Tree A)) : option (list (Tree A)) :=
  match last stack with
  | None => Some []
  | Some subtree =>
      match fuel with
      | O => None
      | S fuel =>
          let stack := removelast stack in
          let stack := match subtree with TNode children => stack ++ rev children | TLeaf _ => stack end in
          rest ← subtrees_from fuel stack; Some (subtree :: rest)
      end
  end.

(* state_backend/proof_backend/tree.rs:20-32 Tree::subtree_iterator *)
Definition subtree_iterator {A} (fuel : nat) (t : Tree A) : option (list (Tree A)) := subtrees_from fuel [t].

(** ** Merkle trees *)

(* state_backend/proof_backend/merkle.rs:23-28 AccessInfo *)
Inductive AccessInfo : Set := NoAccess | ARead | AWrite | ReadWrite.

(* state_backend/proof_backend/merkle.rs:16-19 MerkleTree *)
Inductive MerkleTree : Type :=
| MLeaf (hash : Hash) (access : AccessInfo) (data : list Z)
| MNode (hash : Hash) (children : list MerkleTree).

(* state_backend/proof_backend/merkle.rs:32-37 MerkleTree::root_hash *)
Definition MerkleTree_root_hash (t : MerkleTree) : Hash :=
  match t with
  | MNode hash _ => hash
  | MLeaf hash _ _ => hash
  end.

Section merkle.
Context `{B : Blake2b} `{BC : Bincode}.

(** [is_ok_and(|h| h == hash)]. *)
Definition is_ok_and_eq (r : result Hash HashError) (hash : Hash) : bool :=
  match r with Ok h => bool_decide (h = hash) | Err _ => false end.

(** The validity of one node, and the deque with its children at the end. *)
(* state_backend/proof_backend/merkle.rs:45-62 MerkleTree::check_root_hash *)
Definition check_node (node : MerkleTree) (deque : list MerkleTree) : bool * list MerkleTree :=
  match node with
  | MLeaf hash _ data => (is_ok_and_eq (blake2b_hash_bytes data) hash, deque)
  | MNode hash children =>
      let hashes := concat (map (fun child => (MerkleTree_root_hash child).(digest)) children) in
      (is_ok_and_eq (blake2b_hash_bytes hashes) hash, deque ++ children)
  end.

(* state_backend/proof_backend/merkle.rs:44-67 MerkleTree::check_root_hash *)
Fixpoint check_deque (fuel : nat) (deque : list MerkleTree) : option bool :=
  match deque with
  | [] => Some true
  | node :: deque =>
      match fuel with
      | O => None
      | S fuel =>
          let '(is_valid_hash, deque) := check_node node deque in
          if is_valid_hash then check_deque fuel deque else Some false
      end
  end.

(* state_backend/proof_backend/merkle.rs:40-68 MerkleTree::check_root_hash *)
Definition check_root_hash (fuel : nat) (t : MerkleTree) : option bool := check_deque fuel [t].

End merkle.

(** ** Proofs *)

(* state_backend/proof_backend/proof.rs:59-69 MerkleProofLeaf *)
Inductive MerkleProofLeaf : Set :=
| Blind (hash : Hash)
| Read (data : list Z).

Abbreviation MerkleProof := (Tree MerkleProofLeaf).

(* state_backend/proof_backend/proof.rs:18-23 Proof *)
Record Proof_t : Type := { final_state_hash : Hash; partial_tree : MerkleProof }.

(* state_backend/proof_backend/proof.rs:37-37 TAG_NODE *)
Definition TAG_NODE : Z := 0.
(* state_backend/proof_backend/proof.rs:39-39 TAG_BLIND *)
Definition TAG_BLIND : Z := 2.
(* state_backend/proof_backend/proof.rs:41-41 TAG_READ *)
Definition TAG_READ : Z := 3.

(* state_backend/proof_backend/proof.rs:81-87 to_raw_tag *)
Definition to_raw_tag (p : MerkleProof) : Z :=
  match p with
  | TNode _ => TAG_NODE
  | TLeaf (Blind _) => TAG_BLIND
  | TLeaf (Read _) => TAG_READ
  end.

(** One byte: up to four tags, the first in the highest bits. *)
(* state_backend/proof_backend/proof.rs:97-100 serialise_raw_tags *)
Definition pack_tags (chunk : list Z) : Z :=
  foldl (fun acc '(tag, offset) => Z.lor acc (wrap 8 (Z.shiftl tag offset))) 0 (zip chunk [6; 4; 2; 0]).

(* state_backend/proof_backend/proof.rs:90-103 serialise_raw_tags *)
Definition serialise_raw_tags (raw_tags : list Z) : list Z := map pack_tags (chunks 4 raw_tags).

(* state_backend/proof_backend/proof.rs:105-107 iter_raw_tags *)
Definition iter_raw_tags (fuel : nat) (proof : MerkleProof) : option (list Z) :=
  map to_raw_tag <$> subtree_iterator fuel proof.

(* state_backend/proof_backend/proof.rs:112-116 serialise_proof_values *)
Definition subtree_value (subtree : MerkleProof) : list Z :=
  match subtree with
  | TLeaf (Read vec) => vec
  | TLeaf (Blind hash) => hash.(digest)
  | TNode _ => []
  end.

(* state_backend/proof_backend/proof.rs:109-118 serialise_proof_values *)
Definition serialise_proof_values (fuel : nat) (proof : MerkleProof) : option (list Z) :=
  (fun l => concat (map subtree_value l)) <$> subtree_iterator fuel proof.

(* state_backend/proof_backend/proof.rs:124-134 serialise_proof *)
Definition serialise_proof (fuel : nat) (proof : Proof_t) : option (list Z) :=
  let final_hash_encoding := proof.(final_state_hash).(digest) in
  tags ← iter_raw_tags fuel proof.(partial_tree);
  nodes_encoding ← serialise_proof_values fuel proof.(partial_tree);
  Some (final_hash_encoding ++ serialise_raw_tags tags ++ nodes_encoding).
