(* ===== verification/MerkleSpec.v ===== *)
(** Merkle trees and proofs: the traversals are the recursive ones, checking a
    tree is recomputing its hashes, a valid tree is bound by its root hash,
    and the encoding of a proof can be decoded. *)
From S2P Require Import Prelude Hash HashSpec Merkle.

(** ** Trees *)

Section tree.
Context {A : Type}.

Fixpoint tree_size (t : Tree A) : nat :=
  match t with TNode l => S (list_sum (map tree_size l)) | TLeaf _ => 1 end.

Fixpoint preorder (t : Tree A) : list (Tree A) :=
  t :: match t with TNode l => concat (map preorder l) | TLeaf _ => [] end.

Lemma tree_ind' (P : Tree A -> Prop) :
  (forall l, Forall P l -> P (TNode l)) -> (forall a, P (TLeaf a)) -> forall t, P t.
Proof.
  intros HN HL. fix IH 1. intros [l|a]; [|apply HL]. apply HN.
  induction l as [|t l IHl]; constructor; [apply IH|exact IHl].
Qed.

Lemma subtrees_from_spec fuel : forall stack : list (Tree A),
  (list_sum (map tree_size stack) <= fuel)%nat ->
  subtrees_from fuel stack = Some (concat (map preorder (rev stack))).
Proof.
  induction fuel as [|fuel IH]; intros stack L;
    destruct stack as [|t stack _] using rev_ind; try done.
  - rewrite map_app, list_sum_app in L. destruct t; simpl in L; lia.
  - cbn [subtrees_from]. rewrite last_snoc, removelast_last, rev_app_distr. cbn [rev app map concat].
    rewrite map_app, list_sum_app in L. cbn [map list_sum] in L. rewrite IH.
    + destruct t as [l|a]; cbn [mbind option_bind preorder].
      * by rewrite rev_app_distr, rev_involutive, map_app, concat_app.
      * done.
    + destruct t as [l|a]; simpl in L; [|lia].
      rewrite map_app, list_sum_app, map_rev.
      assert (R : forall m, list_sum (rev m) = list_sum m).
      { induction m as [|x m IHm]; [done|]. cbn [rev]. rewrite list_sum_app, IHm. simpl. lia. }
      rewrite R. lia.
Qed.

Lemma subtree_iterator_spec fuel (t : Tree A) :
  (tree_size t <= fuel)%nat -> subtree_iterator fuel t = Some (preorder t).
Proof.
  intros L. unfold subtree_iterator. rewrite subtrees_from_spec by (simpl; lia). simpl. by rewrite app_nil_r.
Qed.

Lemma length_preorder (t : Tree A) : length (preorder t) = tree_size t.
Proof.
  induction t as [l F|a] using tree_ind'; [|done]. cbn [preorder tree_size length]. f_equal.
  induction F as [|t l E F IH]; [done|]. cbn [map concat]. rewrite length_app, E, IH. done.
Qed.

End tree.

(** ** Checking a Merkle tree *)

Section merkle.
Context `{BO : Blake2bOk} `{BC : Bincode}.

Lemma mtree_ind' (P : MerkleTree -> Prop) :
  (forall h a d, P (MLeaf h a d)) -> (forall h l, Forall P l -> P (MNode h l)) -> forall t, P t.
Proof.
  intros HL HN. fix IH 1. intros [h a d|h l]; [apply HL|]. apply HN.
  induction l as [|t l IHl]; constructor; [apply IH|exact IHl].
Qed.

Fixpoint mtree_size (t : MerkleTree) : nat :=
  match t with MNode _ l => S (list_sum (map mtree_size l)) | MLeaf _ _ _ => 1 end.

(** What is hashed for a node. *)
Definition node_input (t : MerkleTree) : list Z :=
  match t with MLeaf _ _ d => d | MNode _ l => join (map MerkleTree_root_hash l) end.

(** Every hash of the tree is the hash of what is under it. *)
Fixpoint valid_tree (t : MerkleTree) : bool :=
  bool_decide (hash_of (node_input t) = MerkleTree_root_hash t) &&
  match t with MLeaf _ _ _ => true | MNode _ l => forallb valid_tree l end.

Lemma check_node_eq t deque :
  check_node t deque =
  (bool_decide (hash_of (node_input t) = MerkleTree_root_hash t),
   deque ++ match t with MLeaf _ _ _ => [] | MNode _ l => l end).
Proof.
  destruct t as [h a d|h l]; cbn [check_node node_input MerkleTree_root_hash];
    rewrite blake2b_hash_bytes_ok; cbn [is_ok_and_eq]; [by rewrite app_nil_r|].
  unfold join. by rewrite map_map.
Qed.

Lemma check_deque_spec fuel : forall deque,
  (list_sum (map mtree_size deque) <= fuel)%nat -> check_deque fuel deque = Some (forallb valid_tree deque).
Proof.
  induction fuel as [|fuel IH]; intros [|t deque] L; try done.
  - destruct t; simpl in L; lia.
  - cbn [check_deque]. rewrite check_node_eq. cbn [forallb map list_sum] in *.
    assert (V : valid_tree t = bool_decide (hash_of (node_input t) = MerkleTree_root_hash t) &&
      forallb valid_tree (match t with MLeaf _ _ _ => [] | MNode _ l => l end)) by (by destruct t).
    rewrite V. case_bool_decide; cbn [andb]; [|done]. rewrite IH.
    + f_equal. rewrite forallb_app. apply andb_comm.
    + rewrite map_app, list_sum_app. destruct t; simpl in *; lia.
Qed.

(** The same nesting of nodes. *)
Fixpoint same_shape (t t' : MerkleTree) : bool :=
  match t, t' with
  | MLeaf _ _ _, MLeaf _ _ _ => true
  | MNode _ l, MNode _ l' =>
      (fix go l l' := match l, l' with
                      | [], [] => true
                      | t :: l, t' :: l' => same_shape t t' && go l l'
                      | _, _ => false
                      end) l l'
  | _, _ => false
  end.

(** Without the access information, which is not hashed. *)
Fixpoint contents (t : MerkleTree) : MerkleTree :=
  match t with
  | MLeaf h _ d => MLeaf h NoAccess d
  | MNode h l => MNode h (map contents l)
  end.

(** Every byte sequence that is hashed for the tree. *)
Fixpoint tree_inputs (t : MerkleTree) : list (list Z) :=
  node_input t :: match t with MLeaf _ _ _ => [] | MNode _ l => concat (map tree_inputs l) end.

Lemma valid_root t : valid_tree t = true -> MerkleTree_root_hash t = hash_of (node_input t).
Proof. destruct t; cbn [valid_tree]; rewrite andb_true_iff, bool_decide_eq_true; by intros [<- _]. Qed.

Lemma valid_roots_wf l : forallb valid_tree l = true -> Forall Hash_wf (map MerkleTree_root_hash l).
Proof.
  induction l as [|t l IH]; cbn [forallb map]; [constructor|]. intros [V Vl]%andb_true_iff. constructor; [|by apply IH].
  rewrite valid_root by done. apply hash_of_wf.
Qed.

(** The statement for one tree, which holds of the children of a node. *)
Definition bound_by_root (t : MerkleTree) : Prop := forall t',
  same_shape t t' = true -> valid_tree t = true -> valid_tree t' = true ->
  no_collision (tree_inputs t) (tree_inputs t') ->
  MerkleTree_root_hash t = MerkleTree_root_hash t' -> contents t = contents t'.

Lemma children_bound l : Forall bound_by_root l -> forall l',
  same_shape (MNode (hash_of []) l) (MNode (hash_of []) l') = true ->
  forallb valid_tree l = true -> forallb valid_tree l' = true ->
  no_collision (concat (map tree_inputs l)) (concat (map tree_inputs l')) ->
  map MerkleTree_root_hash l = map MerkleTree_root_hash l' -> map contents l = map contents l'.
Proof.
  induction 1 as [|t l Ht F IH]; intros [|t' l'] Sh V V' N E; try done. cbn [map concat forallb] in *.
  injection E as Et E. apply andb_true_iff in Sh as [St Sh], V as [Vt V], V' as [Vt' V'].
  apply no_collision_app in N as [Nt N]. f_equal; [by apply Ht|by apply IH].
Qed.

Lemma same_shape_length h h' l l' : same_shape (MNode h l) (MNode h' l') = true -> length l = length l'.
Proof.
  revert l'. induction l as [|t l IH]; intros [|t' l'] Sh; try done. simpl. f_equal. apply IH.
  cbn [same_shape] in Sh. by apply andb_true_iff in Sh as [_ Sh].
Qed.

Lemma valid_tree_bound t : bound_by_root t.
Proof.
  induction t as [h a d|h l IH] using mtree_ind'; intros [h' a' d'|h' l'] Sh V V' N E; try done;
    pose proof E as E0; rewrite (valid_root _ V), (valid_root _ V') in E; injection E as E;
    (apply N in E; [|by left..]); cbn [MerkleTree_root_hash] in E0; subst h'; cbn [node_input contents] in *.
  - by subst.
  - f_equal. cbn [valid_tree] in V, V'. apply andb_true_iff in V as [_ V], V' as [_ V'].
    cbn [tree_inputs] in N. apply (no_collision_app [_] _ [_] _) in N as [_ N].
    apply children_bound; try done.
    apply join_inj; [rewrite !length_map; by eapply same_shape_length|by apply valid_roots_wf..|done].
Qed.

(** C26. Checking a Merkle tree.  With fuel for every node of the tree the
    breadth-first check ends, and accepts exactly the trees in which every
    hash is the hash of the data or of the hashes of the children under it.
    Two accepted trees of the same shape with the same root hash hold the
    same data and hashes in every node, unless two different byte sequences
    hashed for them collide. *)
Theorem check_root_hash_spec fuel t t' :
  (mtree_size t <= fuel)%nat -> (mtree_size t' <= fuel)%nat ->
  check_root_hash fuel t = Some (valid_tree t) /\
  (same_shape t t' = true -> no_collision (tree_inputs t) (tree_inputs t') ->
   check_root_hash fuel t = Some true -> check_root_hash fuel t' = Some true ->
   MerkleTree_root_hash t = MerkleTree_root_hash t' -> contents t = contents t').
Proof.
  intros L L'. assert (C : forall u, (mtree_size u <= fuel)%nat -> check_root_hash fuel u = Some (valid_tree u)).
  { intros u Lu. unfold check_root_hash. rewrite check_deque_spec by (simpl; lia). simpl. by rewrite andb_true_r. }
  split; [by apply C|]. rewrite !C by done. intros Sh N [= V] [= V']. by apply valid_tree_bound.
Qed.

End merkle.

(** ** Encoding of proofs *)

(** The four tags in a byte. *)
Definition unpack (b : Z) : list Z := [b / 64 mod 4; b / 16 mod 4; b / 4 mod 4; b mod 4].
Definition is_tag (t : Z) : Prop := t = 0 \/ t = 1 \/ t = 2 \/ t = 3.

Lemma unpack_pack l :
  Forall is_tag l -> (length l <= 4)%nat -> unpack (pack_tags l) = l ++ replicate (4 - length l) 0.
Proof.
  intros F L. destruct l as [|a [|b [|c [|d [|]]]]]; simpl in L; try lia; clear L;
    repeat (apply Forall_cons in F as [? F]); unfold is_tag in *; clear F;
    repeat match goal with H : _ \/ _ |- _ => destruct H end; subst; reflexivity.
Qed.

Lemma unpack_raw_tags tags :
  Forall is_tag tags ->
  exists k, concat (map unpack (serialise_raw_tags tags)) = tags ++ replicate k 0.
Proof.
  assert (P : (0 < 4)%nat) by lia. unfold serialise_raw_tags.
  induction tags as [|l N IH] using (chunks_ind 4 P); [by exists 0%nat|]. intros F.
  rewrite chunks_cons by done. cbn [map concat]. rewrite unpack_pack;
    [|by apply Forall_take|rewrite length_take; lia].
  destruct (decide (4 <= length l)%nat) as [G|G].
  - destruct (IH (Forall_drop _ _ _ F)) as (k & E). exists k. rewrite E, length_take, Nat.min_l by lia.
    cbn [Nat.sub replicate]. by rewrite app_nil_r, app_assoc, take_drop.
  - rewrite drop_ge, take_ge by lia. exists (4 - length l)%nat. cbn. by rewrite app_nil_r.
Qed.

Lemma length_chunks_4 {A} (l : list A) : length (chunks 4 l) = ((length l + 3) / 4)%nat.
Proof.
  assert (P : (0 < 4)%nat) by lia. induction l as [|l N IH] using (chunks_ind 4 P); [done|].
  rewrite chunks_cons by done. cbn [length]. rewrite IH, length_drop.
  assert (0 < length l)%nat by (destruct l; [done|simpl; lia]).
  destruct (decide (4 <= length l)%nat).
  - replace (length l + 3)%nat with (length l - 4 + 3 + 1 * 4)%nat by lia. rewrite Nat.div_add by lia. lia.
  - replace (length l - 4 + 3)%nat with 3%nat by lia.
    change (S (3 / 4)) with 1%nat. apply (Nat.div_unique (length l + 3) 4 1 (length l + 3 - 4)); lia.
Qed.

Definition tags_of (p : MerkleProof) : list Z := map to_raw_tag (preorder p).
Definition values_of (p : MerkleProof) : list Z := concat (map subtree_value (preorder p)).

Lemma tags_of_tag p : Forall is_tag (tags_of p).
Proof.
  apply Forall_forall. intros t (q & -> & _)%list_elem_of_fmap. unfold is_tag.
  destruct q as [l|[h|d]]; cbn; vm_compute; tauto.
Qed.

Lemma length_tags_of p : length (tags_of p) = tree_size p.
Proof. unfold tags_of. by rewrite length_map, length_preorder. Qed.

Lemma map_concat {A B} (f : A -> B) (l : list (list A)) : map f (concat l) = concat (map (map f) l).
Proof. induction l as [|x l IH]; [done|]. cbn. by rewrite map_app, IH. Qed.

Lemma tags_of_node l : tags_of (TNode l) = TAG_NODE :: concat (map tags_of l).
Proof. unfold tags_of. cbn [preorder map]. f_equal. by rewrite map_concat, map_map. Qed.

Lemma values_of_node l : values_of (TNode l) = concat (map values_of l).
Proof.
  unfold values_of. cbn [preorder map concat subtree_value app].
  induction l as [|p l IH]; [done|]. cbn [map concat]. by rewrite map_app, concat_app, IH.
Qed.

(** The encoding, by recursion on the proof. *)
Lemma serialise_proof_eq fuel p :
  (tree_size p.(partial_tree) <= fuel)%nat ->
  serialise_proof fuel p =
  Some (p.(final_state_hash).(digest) ++ serialise_raw_tags (tags_of p.(partial_tree)) ++ values_of p.(partial_tree)).
Proof.
  intros L. unfold serialise_proof, iter_raw_tags, serialise_proof_values. by rewrite subtree_iterator_spec.
Qed.

(** The static structure of the state: a tree with the sizes of its leaves.
    A proof conforms to it when nodes are at nodes, data read has the size of
    its leaf, and blinded subtrees are anywhere. *)
Fixpoint conforms (p : MerkleProof) (s : Tree nat) : bool :=
  match p, s with
  | TLeaf (Blind h), _ => (length h.(digest) =? DIGEST_SIZE)%nat
  | TLeaf (Read d), TLeaf n => (length d =? n)%nat
  | TNode l, TNode ss =>
      (fix go l ss := match l, ss with
                      | [], [] => true
                      | p :: l, s :: ss => conforms p s && go l ss
                      | _, _ => false
                      end) l ss
  | _, _ => false
  end.

(** A decoder that knows the structure: first the tags, then the values. *)
Fixpoint decode_tags (s : Tree nat) (tags : list Z) : option (Tree (option nat) * list Z) :=
  match tags with
  | [] => None
  | t :: tags =>
      if t =? TAG_BLIND then Some (TLeaf None, tags)
      else match s with
           | TLeaf n => if t =? TAG_READ then Some (TLeaf (Some n), tags) else None
           | TNode l =>
               if t =? TAG_NODE then
                 '(cs, tags) ← (fix go l tags :=
                    match l with
                    | [] => Some ([], tags)
                    | s :: l =>
                        '(c, tags) ← decode_tags s tags;
                        '(cs, tags) ← go l tags;
                        Some (c :: cs, tags)
                    end) l tags;
                 Some (TNode cs, tags)
               else None
           end
  end.

(** [n] bytes of the input. *)
Definition take_exact (n : nat) (bytes : list Z) : option (list Z * list Z) :=
  if (n <=? length bytes)%nat then Some (take n bytes, drop n bytes) else None.

Fixpoint decode_values (sk : Tree (option nat)) (bytes : list Z) : option (MerkleProof * list Z) :=
  match sk with
  | TLeaf None => '(h, bytes) ← take_exact DIGEST_SIZE bytes; Some (TLeaf (Blind {| digest := h |}), bytes)
  | TLeaf (Some n) => '(d, bytes) ← take_exact n bytes; Some (TLeaf (Read d), bytes)
  | TNode l =>
      '(cs, bytes) ← (fix go l bytes :=
         match l with
         | [] => Some ([], bytes)
         | s :: l =>
             '(c, bytes) ← decode_values s bytes;
             '(cs, bytes) ← go l bytes;
             Some (c :: cs, bytes)
         end) l bytes;
      Some (TNode cs, bytes)
  end.

Definition deserialise_proof (s : Tree nat) (bytes : list Z) : option Proof_t :=
  '(hash, bytes) ← take_exact DIGEST_SIZE bytes;
  '(sk, _) ← decode_tags s (concat (map unpack bytes));
  '(p, rest) ← decode_values sk (drop ((tree_size sk + 3) / 4) bytes);
  match rest with
  | [] => Some {| final_state_hash := {| digest := hash |}; partial_tree := p |}
  | _ => None
  end.

Fixpoint skeleton (p : MerkleProof) : Tree (option nat) :=
  match p with
  | TLeaf (Blind _) => TLeaf None
  | TLeaf (Read d) => TLeaf (Some (length d))
  | TNode l => TNode (map skeleton l)
  end.

Lemma tree_size_skeleton p : tree_size (skeleton p) = tree_size p.
Proof.
  induction p as [l F|[h|d]] using tree_ind'; [|done|done]. cbn [skeleton tree_size]. do 2 f_equal.
  rewrite map_map. by apply map_ext_Forall.
Qed.

(** The children of a node, each with its part of the structure. *)
Lemma conforms_node l s :
  conforms (TNode l) s = true -> exists ss, s = TNode ss /\ Forall2 (fun p s => conforms p s = true) l ss.
Proof.
  destruct s as [ss|n]; [|done]. intros C. exists ss. split; [done|]. cbn [conforms] in C.
  revert ss C. induction l as [|p l IH]; intros [|s ss] C; try done; constructor.
  - by apply andb_true_iff in C as [C _].
  - apply IH. by apply andb_true_iff in C as [_ C].
Qed.

Lemma decode_tags_ok p : forall s rest,
  conforms p s = true -> decode_tags s (tags_of p ++ rest) = Some (skeleton p, rest).
Proof.
  induction p as [l IH|[h|d]] using tree_ind'; intros s rest C.
  - apply conforms_node in C as (ss & -> & C). rewrite tags_of_node. cbn [app decode_tags].
    change (TAG_NODE =? TAG_BLIND) with false. change (TAG_NODE =? TAG_NODE) with true. cbn iota.
    match goal with |- context [?f ss _] => set (go := f) end.
    assert (G : go ss (concat (map tags_of l) ++ rest) = Some (map skeleton l, rest)).
    { induction C as [|p s l ss Cp C IHl]; [done|]. apply Forall_cons in IH as [Hp IH]. cbn [map concat go].
      rewrite <- app_assoc, (Hp s) by done. cbn [mbind option_bind]. fold go. by rewrite IHl. }
    by rewrite G.
  - by destruct s.
  - destruct s as [|n]; [done|]. cbn [conforms] in C. apply Nat.eqb_eq in C. by subst.
Qed.

Lemma take_exact_app l rest : take_exact (length l) (l ++ rest) = Some (l, rest).
Proof.
  unfold take_exact. rewrite length_app, (proj2 (Nat.leb_le _ _)) by lia.
  by rewrite take_app_length, drop_app_length.
Qed.

Lemma decode_values_ok p : forall s rest,
  conforms p s = true -> decode_values (skeleton p) (values_of p ++ rest) = Some (p, rest).
Proof.
  induction p as [l IH|[[h]|d]] using tree_ind'; intros s rest C.
  - apply conforms_node in C as (ss & -> & C). rewrite values_of_node. cbn [skeleton decode_values].
    match goal with |- context [?f (map skeleton l) _] => set (go := f) end.
    assert (G : go (map skeleton l) (concat (map values_of l) ++ rest) = Some (l, rest)).
    { induction C as [|p s l ss Cp C IHl]; [done|]. apply Forall_cons in IH as [Hp IH]. cbn [map concat go].
      rewrite <- app_assoc, (Hp s) by done. cbn [mbind option_bind]. fold go. by rewrite IHl. }
    by rewrite G.
  - cbn [conforms digest] in C. apply Nat.eqb_eq in C. unfold values_of. cbn [preorder map concat subtree_value digest].
    rewrite app_nil_r. cbn [skeleton decode_values]. rewrite <- C. by rewrite take_exact_app.
  - unfold values_of. cbn [preorder map concat subtree_value]. rewrite app_nil_r. cbn [skeleton decode_values].
    by rewrite take_exact_app.
Qed.

(** C22. The encoding of proofs.  With fuel for every node of the proof the
    encoder gives the final hash, then the tags of the nodes in preorder, four
    to a byte, then the contents of the leaves in preorder; its length is that
    of its parts exactly.  A proof that conforms to the static structure of
    the state, and has hashes of the right size, is recovered from its
    encoding by a decoder that knows only that structure; so the lengths and
    arities that the encoding leaves out are not needed. *)
Theorem serialise_proof_roundtrip fuel s p :
  (tree_size p.(partial_tree) <= fuel)%nat -> conforms p.(partial_tree) s = true ->
  Hash_wf p.(final_state_hash) ->
  exists bytes, serialise_proof fuel p = Some bytes /\
    length bytes = (DIGEST_SIZE + (tree_size p.(partial_tree) + 3) / 4 + length (values_of p.(partial_tree)))%nat /\
    deserialise_proof s bytes = Some p.
Proof.
  intros L C W. eexists. split; [by apply serialise_proof_eq|].
  assert (Lt : length (serialise_raw_tags (tags_of p.(partial_tree))) = ((tree_size p.(partial_tree) + 3) / 4)%nat).
  { unfold serialise_raw_tags. by rewrite length_map, length_chunks_4, length_tags_of. }
  split; [rewrite !length_app, Lt, W; lia|]. destruct p as [[h] p]. cbn [final_state_hash partial_tree digest] in *.
  unfold deserialise_proof. rewrite <- W. cbn [digest]. rewrite take_exact_app. cbn [mbind option_bind].
  destruct (unpack_raw_tags (tags_of p) (tags_of_tag p)) as (k & E).
  rewrite map_app, concat_app, E, <- app_assoc, (decode_tags_ok p s) by done. cbn [mbind option_bind].
  rewrite tree_size_skeleton, drop_app_length' by done.
  rewrite <- (app_nil_r (values_of p)), (decode_values_ok p s) by done. done.
Qed.

(** ** Examples *)

Definition toy_leaf (d : list Z) : MerkleTree := MLeaf (hash_of d) ARead d.
Definition toy_tree (d : list Z) : MerkleTree :=
  let l := [toy_leaf [1]; toy_leaf d] in MNode (hash_of (join (map MerkleTree_root_hash l))) l.

Definition second_leaf (t : MerkleTree) : list Z :=
  match t with MNode _ (_ :: MLeaf _ _ d :: _) => d | _ => [] end.

Lemma check_root_hash_spec_witness :
  check_root_hash 3 (toy_tree [2]) = Some true /\ MerkleTree_root_hash (toy_tree [2]) <> MerkleTree_root_hash (toy_tree [3]).
Proof.
  destruct (check_root_hash_spec 3 (toy_tree [2]) (toy_tree [3])) as (E & H); [simpl; lia..|].
  split; [exact E|]. intros R.
  assert (C : contents (toy_tree [2]) = contents (toy_tree [3])).
  { apply H; [reflexivity| |vm_compute; reflexivity|vm_compute; reflexivity|exact R].
    apply no_collision_check. vm_compute. reflexivity. }
  assert (D : [2] = [3]) by exact (f_equal second_leaf C). discriminate D.
Defined.

Definition toy_proof : Proof_t := {|
  final_state_hash := hash_of [9];
  partial_tree := TNode [TLeaf (Read [1; 2]); TNode [TLeaf (Blind (hash_of [5]))]];
|}.

Lemma serialise_proof_roundtrip_witness :
  exists bytes, serialise_proof 4 toy_proof = Some bytes /\
    deserialise_proof (TNode [TLeaf 2%nat; TNode [TLeaf 8%nat]]) bytes = Some toy_proof.
Proof.
  destruct (serialise_proof_roundtrip 4 (TNode [TLeaf 2%nat; TNode [TLeaf 8%nat]]) toy_proof) as (b & E & _ & D).
  - vm_compute. lia.
  - reflexivity.
  - reflexivity.
  - exists b. exact (conj E D).
Defined.
