(* ===== verification/Storage.v ===== *)
(** The storage of states: [src/riscv/lib/src/storage.rs],
    [storage/chunked_io.rs] and [storage/binary.rs].

    The file system is a map from paths to entries.  Every call that the
    source makes to it may fail: the faults to come are part of the state, and
    a failing write leaves a prefix of its data.  The hex crate and the
    serialisation of a list of hashes by bincode are interfaces. *)
From S2P Require Import Prelude Hash.
From stdpp Require Import strings.

(** ** The file system *)

Abbreviation Path := (list string).

Inductive Entry : Set := File (data : list Z) | Dir.

(** [std::io::ErrorKind], as far as it is told apart. *)
Inductive IoError : Set := IoNotFound | IoAlreadyExists | IoOther.

(** [faults]: for each coming operation, whether it fails, and then after how
    many bytes. *)
Record Fs : Type := { entries : gmap Path Entry; faults : list (option nat) }.

Definition set_entries (fs : Fs) (m : gmap Path Entry) : Fs := {| entries := m; faults := fs.(faults) |}.

Definition fsM (A : Type) : Type := stM Fs IoError A.

(** An operation with its behaviour when it fails after [k] bytes. *)
Definition io_op {A} (op : fsM A) (failing : nat -> Fs -> Fs) : fsM A := fun fs =>
  match fs.(faults) with
  | Some k :: faults => (Err IoOther, failing k {| entries := fs.(entries); faults := faults |})
  | None :: faults => op {| entries := fs.(entries); faults := faults |}
  | [] => op fs
  end.

Definition no_effect (k : nat) (fs : Fs) : Fs := fs.

Definition insert_entry (p : Path) (e : Entry) (fs : Fs) : Fs := set_entries fs (<[p := e]> fs.(entries)).

Definition is_dir (fs : Fs) (p : Path) : bool :=
  match p with
  | [] => true
  | _ => match fs.(entries) !! p with Some Dir => true | _ => false end
  end.

Definition parent (p : Path) : Path := removelast p.

(** The error for a path that is not there: not found, or below a file. *)
Definition missing (fs : Fs) (p : Path) : IoError :=
  match fs.(entries) !! parent p with Some (File _) => IoOther | _ => IoNotFound end.

(** [Path::exists]. *)
Definition fs_exists (fs : Fs) (p : Path) : bool :=
  match p with
  | [] => true
  | _ => match fs.(entries) !! p with Some _ => true | None => false end
  end.

(** [std::fs::create_dir]. *)
Definition create_dir (p : Path) : fsM unit :=
  io_op (fun fs =>
    if fs_exists fs p then (Err IoAlreadyExists, fs)
    else if is_dir fs (parent p) then (Ok tt, insert_entry p Dir fs)
    else (Err (missing fs p), fs)) no_effect.

(** [std::fs::create_dir_all]: the missing directories from the root down. *)
Fixpoint create_dirs (fs : Fs) (done todo : Path) : result unit IoError * Fs :=
  match todo with
  | [] => (Ok tt, fs)
  | x :: todo =>
      let p := done ++ [x] in
      match fs.(entries) !! p with
      | Some Dir => create_dirs fs p todo
      | Some (File _) => (Err IoAlreadyExists, fs)
      | None => create_dirs (insert_entry p Dir fs) p todo
      end
  end.
Definition create_dir_all (p : Path) : fsM unit := io_op (fun fs => create_dirs fs [] p) no_effect.

(** [Path::metadata] and [Metadata::is_file]. *)
Definition metadata_is_file (p : Path) : fsM bool :=
  io_op (fun fs => match fs.(entries) !! p with
                   | Some (File _) => (Ok true, fs)
                   | Some Dir => (Ok false, fs)
                   | None => if is_dir fs p then (Ok false, fs) else (Err (missing fs p), fs)
                   end) no_effect.

(** [OpenOptions::new().write(true).create_new(true).open]. *)
Definition open_create_new (p : Path) : fsM unit :=
  io_op (fun fs =>
    if fs_exists fs p then (Err IoAlreadyExists, fs)
    else if is_dir fs (parent p) then (Ok tt, insert_entry p (File []) fs)
    else (Err (missing fs p), fs)) no_effect.

(** [Write::write_all] on a file opened for writing, from its start. *)
Definition file_write_all (p : Path) (data : list Z) : fsM unit :=
  io_op (fun fs => (Ok tt, insert_entry p (File data) fs)) (fun k => insert_entry p (File (take k data))).

(** [std::fs::read]. *)
Definition fs_read (p : Path) : fsM (list Z) :=
  io_op (fun fs => match fs.(entries) !! p with
                   | Some (File d) => (Ok d, fs)
                   | Some Dir => (Err IoOther, fs)
                   | None => (Err (missing fs p), fs)
                   end) no_effect.

(** [std::fs::copy]: the target is truncated if it exists. *)
Definition fs_copy (source target : Path) : fsM unit :=
  io_op (fun fs => match fs.(entries) !! source with
                   | Some (File d) =>
                       match fs.(entries) !! target with
                       | Some Dir => (Err IoOther, fs)
                       | _ => if is_dir fs (parent target) then (Ok tt, insert_entry target (File d) fs)
                              else (Err (missing fs target), fs)
                       end
                   | Some Dir => (Err IoOther, fs)
                   | None => (Err (missing fs source), fs)
                   end)
        (fun k fs => match fs.(entries) !! source with
                     | Some (File d) => insert_entry target (File (take k d)) fs
                     | _ => fs
                     end).

(** [Path::read_dir] and whether there is no first entry. *)
Definition read_dir_is_empty (p : Path) : fsM bool :=
  io_op (fun fs =>
    if is_dir fs p
    then (Ok (bool_decide (Forall (fun '(q, _) => parent q <> p \/ q = []) (map_to_list fs.(entries)))), fs)
    else (Err (if fs_exists fs p then IoOther else missing fs p), fs)) no_effect.

(** ** Storage errors *)

(** The hex crate, and bincode on lists of hashes with the options of
    [bincode_default]. *)
Class StorageCodec `{BC : Bincode} := {
  hex_encode : list Z -> string;
  serialise_hashes : list Hash -> result (list Z) bincode_error;
  deserialise_hashes : list Z -> result (list Hash) bincode_error;
}.

(** What is relied on: hexadecimal is injective, and serialisation can be undone. *)
Class StorageCodecOk `{SC : StorageCodec} : Prop := {
  hex_encode_inj : forall a b, hex_encode a = hex_encode b -> a = b;
  deserialise_serialise : forall l, exists bytes,
    serialise_hashes l = Ok bytes /\ deserialise_hashes bytes = Ok l;
}.

Section storage.
Context `{B : Blake2b} `{SC : StorageCodec}.

(* storage.rs:16-16 CHUNK_SIZE *)
Definition CHUNK_SIZE : nat := 4096.

(* storage.rs:19-37 StorageError *)
Inductive StorageError : Type :=
| SE_IoError (e : IoError)
| SE_CommitSerializationError (e : bincode_error)
| SE_InvalidRepo
| SE_HashError (e : HashError)
| SE_NotFound (hash : string)
| SE_ChunkNotFound (hash : string).

Definition storeM (A : Type) : Type := stM Fs StorageError A.

(** The conversions of [?]. *)
Definition io {A} (m : fsM A) : storeM A := fun fs =>
  let '(r, fs) := m fs in (result_map_err SE_IoError r, fs).
Definition hashing {A} (r : result A HashError) : storeM A := lift_result (result_map_err SE_HashError r).
Definition serialising {A} (r : result A bincode_error) : storeM A :=
  lift_result (result_map_err SE_CommitSerializationError r).

(** ** The store *)

(* storage.rs:40-42 Store *)
Record Store : Set := { store_path : Path }.

(* storage.rs:48-58 Store::init *)
Definition Store_init (path : Path) : storeM Store :=
  let! exists_ := gets (fun fs => fs_exists fs path) in
  if negb exists_ then
    let! _ := io (create_dir path) in
    st_ret {| store_path := path |}
  else
    let! is_file := io (metadata_is_file path) in
    if is_file : bool then throw SE_InvalidRepo else st_ret {| store_path := path |}.

(* storage.rs:60-62 Store::file_name_of_hash *)
Definition file_name_of_hash (hash : Hash) : string := hex_encode hash.(digest).

(* storage.rs:64-66 Store::path_of_hash *)
Definition path_of_hash (s : Store) (hash : Hash) : Path := s.(store_path) ++ [file_name_of_hash hash].

(* storage.rs:68-79 Store::write_data_if_new *)
Definition write_data_if_new (file_name : Path) (data : list Z) : storeM unit := fun fs =>
  match open_create_new file_name fs with
  | (Ok _, fs) => io (file_write_all file_name data) fs
  | (Err IoAlreadyExists, fs) => (Ok tt, fs)
  | (Err e, fs) => (Err (SE_IoError e), fs)
  end.

(* storage.rs:83-88 Store::store *)
Definition Store_store (s : Store) (data : list Z) : storeM Hash :=
  let! hash := hashing (blake2b_hash_bytes data) in
  let file_name := path_of_hash s hash in
  let! _ := write_data_if_new file_name data in
  st_ret hash.

(* storage.rs:91-100 Store::load *)
Definition Store_load (s : Store) (hash : Hash) : storeM (list Z) := fun fs =>
  let file_name := path_of_hash s hash in
  let '(r, fs) := fs_read file_name fs in
  (result_map_err (fun e => match e with
                            | IoNotFound => SE_NotFound (hex_encode hash.(digest))
                            | _ => SE_IoError e
                            end) r, fs).

(* storage.rs:103-108 Store::copy *)
Definition Store_copy (s : Store) (hash : Hash) (path : Path) : storeM unit :=
  let source_path := path_of_hash s hash in
  let target_path := path ++ [file_name_of_hash hash] in
  io (fs_copy source_path target_path).

(** ** Writing and reading in chunks *)

(** The store is passed along; see [store] of the source. *)
(* storage/chunked_io.rs:13-17 ChunkWriter *)
Record ChunkWriter : Type := { cw_hashes : list Hash; cw_buffer : list Z }.

(* storage/chunked_io.rs:21-27 new *)
Definition ChunkWriter_new : ChunkWriter := {| cw_hashes := []; cw_buffer := [] |}.

(* storage/chunked_io.rs:40-45 flush_buffer *)
Definition ChunkWriter_flush_buffer (s : Store) (w : ChunkWriter) : storeM ChunkWriter :=
  let! chunk_hash := Store_store s w.(cw_buffer) in
  st_ret {| cw_hashes := w.(cw_hashes) ++ [chunk_hash]; cw_buffer := [] |}.

(* storage/chunked_io.rs:31-37 finalise *)
Definition ChunkWriter_finalise (s : Store) (w : ChunkWriter) : storeM (list Hash) :=
  match w.(cw_buffer) with
  | [] => st_ret w.(cw_hashes)
  | _ =>
      let! w := ChunkWriter_flush_buffer s w in
      st_ret w.(cw_hashes)
  end.

(** One turn of the loop: the rest of the data, and the writer. *)
(* storage/chunked_io.rs:53-64 write *)
Definition ChunkWriter_fill (s : Store) (data : list Z) (w : ChunkWriter) : storeM (list Z * ChunkWriter) :=
  let rem_buffer_len := (CHUNK_SIZE - length w.(cw_buffer))%nat in
  let new_data_len := Nat.min rem_buffer_len (length data) in
  let new_data := take new_data_len data in
  let data := drop new_data_len data in
  let w := {| cw_hashes := w.(cw_hashes); cw_buffer := w.(cw_buffer) ++ new_data |} in
  if (rem_buffer_len =? new_data_len)%nat
  then let! w := ChunkWriter_flush_buffer s w in st_ret (data, w)
  else st_ret (data, w).

(** [None] when the fuel is used up. *)
(* storage/chunked_io.rs:49-68 write *)
Fixpoint ChunkWriter_write (fuel : nat) (s : Store) (data : list Z) (w : ChunkWriter) (fs : Fs) :
  option (result ChunkWriter StorageError * Fs) :=
  match data with
  | [] => Some (Ok w, fs)
  | _ =>
      match fuel with
      | O => None
      | S fuel =>
          match ChunkWriter_fill s data w fs with
          | (Ok (data, w), fs) => ChunkWriter_write fuel s data w fs
          | (Err e, fs) => Some (Err e, fs)
          end
      end
  end.

(** bincode serialises with one write after another; an error of the writer
    is wrapped by bincode. *)
(* storage/binary.rs:36-41 serialise_into *)
Fixpoint serialise_into_chunks (fuel : nat) (io_error : StorageError -> bincode_error) (s : Store)
  (pieces : list (list Z)) (w : ChunkWriter) (fs : Fs) : option (result ChunkWriter bincode_error * Fs) :=
  match pieces with
  | [] => Some (Ok w, fs)
  | piece :: pieces =>
      match ChunkWriter_write fuel s piece w fs with
      | Some (Ok w, fs) => serialise_into_chunks fuel io_error s pieces w fs
      | Some (Err e, fs) => Some (Err (io_error e), fs)
      | None => None
      end
  end.

(** The cursor is the bytes that are left of its buffer. *)
(* storage/chunked_io.rs:76-80 ChunkedReader *)
Record ChunkedReader : Type := { cr_hashes : list Hash; cr_buffer : list Z }.

(* storage/chunked_io.rs:84-92 new *)
Definition ChunkedReader_new (s : Store) (hash : Hash) : storeM ChunkedReader :=
  let! raw_hashes := Store_load s hash in
  let! hashes := serialising (deserialise_hashes raw_hashes) in
  st_ret {| cr_hashes := hashes; cr_buffer := [] |}.

Definition readM (A : Type) : Type := stM (ChunkedReader * Fs) StorageError A.

(* storage/chunked_io.rs:95-103 next_chunk *)
Definition next_chunk (s : Store) : readM unit := fun '(r, fs) =>
  match r.(cr_hashes) with
  | [] => (Ok tt, (r, fs))
  | hash :: hashes =>
      match Store_load s hash fs with
      | (Ok buffer, fs) => (Ok tt, ({| cr_hashes := hashes; cr_buffer := buffer |}, fs))
      | (Err e, fs) => (Err e, ({| cr_hashes := hashes; cr_buffer := r.(cr_buffer) |}, fs))
      end
  end.

(** A read into a buffer of [len] bytes: what was read. *)
(* storage/chunked_io.rs:107-113 read *)
Definition ChunkedReader_read (s : Store) (len : nat) : readM (list Z) :=
  let! rest := gets (fun st => st.1.(cr_buffer)) in
  let! _ := match rest with [] => next_chunk s | _ => st_ret tt end in
  fun '(r, fs) =>
    (Ok (take len r.(cr_buffer)), ({| cr_hashes := r.(cr_hashes); cr_buffer := drop len r.(cr_buffer) |}, fs)).

(** ** Repositories *)

(* storage.rs:112-114 Repo *)
Record Repo : Set := { backend : Store }.

(* storage.rs:118-122 Repo::load *)
Definition Repo_load (path : Path) : storeM Repo :=
  let! backend := Store_init path in
  st_ret {| backend := backend |}.

(* storage.rs:130-133 Repo::commit *)
Fixpoint store_chunks (s : Store) (l : list (list Z)) : storeM (list Hash) :=
  match l with
  | [] => st_ret []
  | chunk :: l =>
      let! chunk_hash := Store_store s chunk in
      let! commit := store_chunks s l in
      st_ret (chunk_hash :: commit)
  end.

(* storage.rs:127-138 Repo::commit *)
Definition Repo_commit (r : Repo) (bytes : list Z) : storeM Hash :=
  let! commit := store_chunks r.(backend) (chunks CHUNK_SIZE bytes) in
  let! commit_bytes := serialising (serialise_hashes commit) in
  Store_store r.(backend) commit_bytes.

(* storage.rs:141-154 Repo::commit_serialised *)
Definition Repo_commit_serialised (fuel : nat) (io_error : StorageError -> bincode_error) (r : Repo)
  (pieces : list (list Z)) (fs : Fs) : option (result Hash StorageError * Fs) :=
  match serialise_into_chunks fuel io_error r.(backend) pieces ChunkWriter_new fs with
  | None => None
  | Some (Err e, fs) => Some (Err (SE_CommitSerializationError e), fs)
  | Some (Ok writer, fs) =>
      Some ((let! chunk_hashes := ChunkWriter_finalise r.(backend) writer in
             let! commit_bytes := serialising (serialise_hashes chunk_hashes) in
             Store_store r.(backend) commit_bytes) fs)
  end.

(* storage.rs:162-168 Repo::checkout *)
Definition load_chunk (s : Store) (hash : Hash) : storeM (list Z) := fun fs =>
  let '(r, fs) := Store_load s hash fs in
  (result_map_err (fun e => match e with SE_NotFound h => SE_ChunkNotFound h | _ => e end) r, fs).

(* storage.rs:161-170 Repo::checkout *)
Fixpoint load_chunks (s : Store) (commit : list Hash) (bytes : list Z) : storeM (list Z) :=
  match commit with
  | [] => st_ret bytes
  | hash :: commit =>
      let! chunk := load_chunk s hash in
      load_chunks s commit (bytes ++ chunk)
  end.

(* storage.rs:157-172 Repo::checkout *)
Definition Repo_checkout (r : Repo) (id : Hash) : storeM (list Z) :=
  let! bytes := Store_load r.(backend) id in
  let! commit := serialising (deserialise_hashes bytes) in
  load_chunks r.(backend) commit [].

(** A deserialiser on a [Read]: it asks for bytes until it has its value. *)
Inductive Decoder (S : Type) : Type :=
| DReturn (r : result S bincode_error)
| DRead (len : nat) (k : result (list Z) StorageError -> Decoder S).
#[global] Arguments DReturn {S} _.
#[global] Arguments DRead {S} _ _.

(* storage/binary.rs:24-28 deserialise_from *)
Fixpoint deserialise_from {S} (s : Store) (d : Decoder S) (source : ChunkedReader * Fs) :
  result S bincode_error * Fs :=
  match d with
  | DReturn r => (r, source.2)
  | DRead len k =>
      let '(bytes, source) := ChunkedReader_read s len source in
      deserialise_from s (k bytes) source
  end.

(* storage.rs:175-181 Repo::checkout_serialised *)
Definition Repo_checkout_serialised {S} (r : Repo) (d : Decoder S) (id : Hash) : storeM S :=
  let! reader := ChunkedReader_new r.(backend) id in
  fun fs => let '(v, fs) := deserialise_from r.(backend) d (reader, fs) in
            (result_map_err SE_CommitSerializationError v, fs).

(* storage.rs:194-196 Repo::export_snapshot *)
Fixpoint copy_chunks (s : Store) (commit : list Hash) (path : Path) : storeM unit :=
  match commit with
  | [] => st_ret tt
  | chunk :: commit =>
      let! _ := Store_copy s chunk path in
      copy_chunks s commit path
  end.

(* storage.rs:184-199 Repo::export_snapshot *)
Definition Repo_export_snapshot (r : Repo) (id : Hash) (path : Path) : storeM unit :=
  let! exists_ := gets (fun fs => fs_exists fs path) in
  let! fresh := if negb exists_ then st_ret true else io (read_dir_is_empty path) in
  if negb fresh then throw SE_InvalidRepo
  else
    let! _ := io (create_dir_all path) in
    let! bytes := Store_load r.(backend) id in
    let! commit := serialising (deserialise_hashes bytes) in
    let! _ := copy_chunks r.(backend) commit path in
    Store_copy r.(backend) id path.

End storage.
