(* ===== verification/StorageSpec.v ===== *)
(** The storage: what is committed can be checked out, now and after every
    later operation; both ways to commit agree; a snapshot is a repository
    with the same commit; an interrupted write poisons its hash. *)
From S2P Require Import Prelude Hash HashSpec Storage.
From stdpp Require Import strings pretty.
#[local] Open Scope Z_scope.

Section storage.
Context `{BO : Blake2bOk} `{SCO : StorageCodecOk}.

(** ** Stored data *)

Definition stored (fs : Fs) (s : Store) (h : Hash) (d : list Z) : Prop :=
  fs.(entries) !! path_of_hash s h = Some (File d).

(** The invariant of a store, whose data is of the kind [U]: it has its
    directory, and a file named by a hash holds data with that hash. *)
Definition store_sound (U : list Z -> Prop) (s : Store) (fs : Fs) : Prop :=
  is_dir fs s.(store_path) = true /\
  (forall h, fs.(entries) !! path_of_hash s h <> Some Dir) /\
  (forall h d, stored fs s h d -> hash_of d = h /\ U d).

Definition collision_free (U : list Z -> Prop) : Prop :=
  forall x y, U x -> U y -> digest_256 x = digest_256 y -> x = y.

Lemma path_of_hash_inj s h h' : path_of_hash s h = path_of_hash s h' -> h = h'.
Proof.
  unfold path_of_hash, file_name_of_hash. intros E. apply app_inj_2 in E as [_ E]; [|done].
  injection E as E. apply hex_encode_inj in E. destruct h, h'. simpl in E. by subst.
Qed.

Lemma parent_path_of_hash s h : parent (path_of_hash s h) = s.(store_path).
Proof. apply removelast_last. Qed.

Lemma fs_exists_path fs s h : fs_exists fs (path_of_hash s h) = bool_decide (is_Some (fs.(entries) !! path_of_hash s h)).
Proof.
  unfold fs_exists. destruct (path_of_hash s h) as [|x p] eqn:E.
  - apply (f_equal length) in E. unfold path_of_hash in E. rewrite length_app in E. simpl in E. lia.
  - destruct (fs.(entries) !! (x :: p)); [by rewrite bool_decide_true by eauto|by rewrite bool_decide_false by by intros []].
Qed.

Lemma io_op_no_faults {A} (op : fsM A) f fs : fs.(faults) = [] -> io_op op f fs = op fs.
Proof. unfold io_op. by intros ->. Qed.

Lemma load_stored s h d fs : fs.(faults) = [] -> stored fs s h d -> Store_load s h fs = (Ok d, fs).
Proof.
  intros F St. unfold Store_load, fs_read. rewrite io_op_no_faults by done. unfold stored in St. by rewrite St.
Qed.

Lemma stored_mono fs fs' s h d : fs.(entries) ⊆ fs'.(entries) -> stored fs s h d -> stored fs' s h d.
Proof. intros S St. exact (lookup_weaken _ _ _ _ St S). Qed.

(** Storing succeeds, keeps the invariant and everything stored before, and
    the data can be loaded under its hash. *)
Lemma store_ok U s d fs :
  collision_free U -> store_sound U s fs -> fs.(faults) = [] -> U d ->
  exists fs', Store_store s d fs = (Ok (hash_of d), fs') /\ store_sound U s fs' /\ fs'.(faults) = [] /\
    fs.(entries) ⊆ fs'.(entries) /\ stored fs' s (hash_of d) d.
Proof.
  intros CF (D & ND & S) F Ud. unfold Store_store, hashing, lift_result, st_bind.
  rewrite blake2b_hash_bytes_ok. cbn [result_map_err]. unfold write_data_if_new, open_create_new.
  rewrite io_op_no_faults by done. rewrite fs_exists_path. set (p := path_of_hash s (hash_of d)).
  case_bool_decide as Ex.
  - exists fs. split; [done|]. split; [done|]. split; [done|]. split; [done|].
    destruct Ex as [[d'|] E]; [|by apply ND in E]. destruct (S _ _ E) as [Eh Ud'].
    injection Eh as Eh. apply CF in Eh; [|done|done]. by subst d'.
  - assert (N : fs.(entries) !! p = None) by (by apply eq_None_not_Some). unfold p at 1.
    rewrite parent_path_of_hash, D. unfold io, file_write_all. rewrite io_op_no_faults by done. cbn [result_map_err].
    eexists. split; [done|]. unfold insert_entry, set_entries. cbn [entries faults].
    rewrite insert_insert_eq.
    assert (Sub : fs.(entries) ⊆ <[p := File d]> fs.(entries)) by by apply insert_subseteq.
    split; [|split; [done|split; [done|]]].
    + split_and!.
      * unfold is_dir in *. cbn [entries]. destruct s.(store_path) as [|x q] eqn:Ep; [done|].
        destruct (fs.(entries) !! (x :: q)) as [e|] eqn:E; [|done].
        by rewrite (lookup_weaken _ _ _ _ E Sub).
      * intros h. cbn [entries]. rewrite lookup_insert. case_decide; [done|apply ND].
      * intros h d'. unfold stored. cbn [entries]. rewrite lookup_insert. case_decide as Eq.
        -- intros [= <-]. apply path_of_hash_inj in Eq. by subst.
        -- apply S.
    + unfold stored. cbn [entries]. apply lookup_insert_eq.
Qed.

(** ** Commits *)

Lemma store_chunks_ok U s l : forall fs,
  collision_free U -> store_sound U s fs -> fs.(faults) = [] -> Forall U l ->
  exists fs', store_chunks s l fs = (Ok (map hash_of l), fs') /\ store_sound U s fs' /\ fs'.(faults) = [] /\
    fs.(entries) ⊆ fs'.(entries) /\ Forall (fun d => stored fs' s (hash_of d) d) l.
Proof.
  induction l as [|d l IH]; intros fs CF S F Ul.
  - exists fs. by split_and!.
  - apply Forall_cons in Ul as [Ud Ul]. destruct (store_ok U s d fs CF S F Ud) as (fs1 & E1 & S1 & F1 & M1 & St1).
    destruct (IH fs1 CF S1 F1 Ul) as (fs2 & E2 & S2 & F2 & M2 & St2). exists fs2. split_and!; try done.
    + cbn [store_chunks map]. unfold st_bind, st_ret. by rewrite E1, E2.
    + by etrans.
    + constructor; [by eapply stored_mono|done].
Qed.

Lemma load_chunks_ok s l : forall fs acc,
  fs.(faults) = [] -> Forall (fun d => stored fs s (hash_of d) d) l ->
  load_chunks s (map hash_of l) acc fs = (Ok (acc ++ concat l), fs).
Proof.
  induction l as [|d l IH]; intros fs acc F St.
  - cbn. by rewrite app_nil_r.
  - apply Forall_cons in St as [Sd St]. cbn [map load_chunks concat]. unfold st_bind, load_chunk.
    rewrite (load_stored s _ d) by done. cbn [result_map_err]. rewrite IH by done. by rewrite app_assoc.
Qed.

(** The list of chunk hashes of a commit, serialised. *)
Definition commit_record (bytes : list Z) : list Z :=
  match serialise_hashes (map hash_of (chunks CHUNK_SIZE bytes)) with Ok b => b | Err _ => [] end.

(** The commit [id] of [bytes] is in the store. *)
Definition committed (fs : Fs) (s : Store) (id : Hash) (bytes : list Z) : Prop :=
  stored fs s id (commit_record bytes) /\
  Forall (fun d => stored fs s (hash_of d) d) (chunks CHUNK_SIZE bytes).

Lemma committed_mono fs fs' s id bytes :
  fs.(entries) ⊆ fs'.(entries) -> committed fs s id bytes -> committed fs' s id bytes.
Proof.
  intros M [C Ch]. split; [by eapply stored_mono|]. eapply Forall_impl; [exact Ch|].
  intros d. by apply stored_mono.
Qed.

Lemma commit_record_ok bytes :
  serialise_hashes (map hash_of (chunks CHUNK_SIZE bytes)) = Ok (commit_record bytes) /\
  deserialise_hashes (commit_record bytes) = Ok (map hash_of (chunks CHUNK_SIZE bytes)).
Proof.
  unfold commit_record. destruct (deserialise_serialise (map hash_of (chunks CHUNK_SIZE bytes))) as (b & E & D).
  by rewrite E.
Qed.

Lemma CHUNK_SIZE_pos : (0 < CHUNK_SIZE)%nat.
Proof. unfold CHUNK_SIZE. lia. Qed.

Lemma checkout_committed r id bytes fs :
  fs.(faults) = [] -> committed fs r.(backend) id bytes -> Repo_checkout r id fs = (Ok bytes, fs).
Proof.
  intros F [C Ch]. unfold Repo_checkout, st_bind. rewrite (load_stored _ _ _ _ F C).
  unfold serialising, lift_result. rewrite (proj2 (commit_record_ok bytes)). cbn [result_map_err].
  rewrite load_chunks_ok by done. by rewrite chunks_concat by apply CHUNK_SIZE_pos.
Qed.

Lemma commit_ok U r bytes fs :
  collision_free U -> store_sound U r.(backend) fs -> fs.(faults) = [] ->
  Forall U (chunks CHUNK_SIZE bytes) -> U (commit_record bytes) ->
  exists fs', Repo_commit r bytes fs = (Ok (hash_of (commit_record bytes)), fs') /\
    store_sound U r.(backend) fs' /\ fs'.(faults) = [] /\ fs.(entries) ⊆ fs'.(entries) /\
    committed fs' r.(backend) (hash_of (commit_record bytes)) bytes.
Proof.
  intros CF S F Uc Ur. destruct (store_chunks_ok U r.(backend) _ fs CF S F Uc) as (fs1 & E1 & S1 & F1 & M1 & St1).
  destruct (store_ok U r.(backend) _ fs1 CF S1 F1 Ur) as (fs2 & E2 & S2 & F2 & M2 & St2).
  exists fs2. split_and!; try done.
  - unfold Repo_commit, st_bind, serialising, lift_result. rewrite E1, (proj1 (commit_record_ok bytes)).
    cbn [result_map_err]. exact E2.
  - by etrans.
  - split; [done|]. eapply Forall_impl; [exact St1|]. intros d. by apply stored_mono.
Qed.

(** C27. Commits.  As long as no operation on the disk fails and the data of
    the store has no hash collision, a commit succeeds and keeps the store's
    invariant; it never changes a file that is there, so every commit that
    could be checked out before still can; and from then on, after any later
    operations that only add files, checking out its identifier gives the
    bytes that were committed, whatever their length. *)
Theorem commit_checkout U r bytes fs :
  collision_free U -> store_sound U r.(backend) fs -> fs.(faults) = [] ->
  Forall U (chunks CHUNK_SIZE bytes) -> U (commit_record bytes) ->
  exists id fs', Repo_commit r bytes fs = (Ok id, fs') /\ store_sound U r.(backend) fs' /\
    fs.(entries) ⊆ fs'.(entries) /\
    (forall id' bytes', committed fs r.(backend) id' bytes' -> Repo_checkout r id' fs' = (Ok bytes', fs')) /\
    forall later, fs'.(entries) ⊆ later.(entries) -> later.(faults) = [] ->
      Repo_checkout r id later = (Ok bytes, later).
Proof.
  intros CF S F Uc Ur. destruct (commit_ok U r bytes fs CF S F Uc Ur) as (fs' & E & S' & F' & M & C).
  exists (hash_of (commit_record bytes)), fs'. split_and!; try done.
  - intros id' bytes' C'. apply checkout_committed; [done|]. by eapply committed_mono.
  - intros later M' Fl. apply checkout_committed; [done|]. by eapply committed_mono.
Qed.

(** ** Writing in chunks *)

Lemma store_chunks_app s l l' hs fs fs' :
  store_chunks s (l ++ l') fs = (Ok hs, fs') ->
  exists h1 h2 fs1, store_chunks s l fs = (Ok h1, fs1) /\ store_chunks s l' fs1 = (Ok h2, fs') /\ hs = h1 ++ h2.
Proof.
  revert hs fs. induction l as [|d l IH]; intros hs fs E; cbn [app store_chunks] in *.
  - by exists [], hs, fs.
  - unfold st_bind, st_ret in *. destruct (Store_store s d fs) as [[h|] fs1]; [|done].
    destruct (store_chunks s (l ++ l') fs1) as [[t|] fs2] eqn:E2; [|done]. injection E as <- <-.
    destruct (IH _ _ E2) as (h1 & h2 & fs3 & E3 & E4 & ->). exists (h :: h1), h2, fs3. by rewrite E3.
Qed.

Lemma store_chunks_snoc s l d h fs fs1 hs fs2 :
  store_chunks s l fs = (Ok hs, fs1) -> Store_store s d fs1 = (Ok h, fs2) ->
  store_chunks s (l ++ [d]) fs = (Ok (hs ++ [h]), fs2).
Proof.
  revert hs fs. induction l as [|c l IH]; intros hs fs E Ed; cbn [app store_chunks] in *; unfold st_bind, st_ret in *.
  - injection E as <- <-. by rewrite Ed.
  - destruct (Store_store s c fs) as [[hc|] fs3]; [|done].
    destruct (store_chunks s l fs3) as [[t|] fs4] eqn:E4; [|done]. injection E as <- <-.
    by rewrite (IH _ _ E4 Ed).
Qed.

(** The writer after the bytes [d], in a file system where the full chunks
    have been stored one after another. *)
Definition chunk_writer_of (s : Store) (fs0 : Fs) (d : list Z) (w : ChunkWriter) (fs : Fs) : Prop :=
  exists full, d = concat full ++ w.(cw_buffer) /\ Forall (fun c => length c = CHUNK_SIZE) full /\
    store_chunks s full fs0 = (Ok w.(cw_hashes), fs) /\ (length w.(cw_buffer) < CHUNK_SIZE)%nat.

(** Full chunks come first in the chunks of the data. *)
Lemma chunks_full (full : list (list Z)) rest :
  Forall (fun c => length c = CHUNK_SIZE) full ->
  chunks CHUNK_SIZE (concat full ++ rest) = full ++ chunks CHUNK_SIZE rest.
Proof.
  induction 1 as [|c full Lc F IH]; [done|]. cbn [concat app].
  rewrite <- app_assoc, chunks_app by (done || apply CHUNK_SIZE_pos). by rewrite IH.
Qed.

Section writes.
Context (s : Store) (fs0 fs1 : Fs) (data : list Z) (hs : list Hash).

(** Storing the chunks of the data succeeds. *)
Hypothesis Stores : store_chunks s (chunks CHUNK_SIZE data) fs0 = (Ok hs, fs1).

Lemma ChunkWriter_fill_ok d w fs buf rest :
  chunk_writer_of s fs0 d w fs -> buf <> [] -> data = d ++ buf ++ rest ->
  exists taken buf' w' fs', ChunkWriter_fill s buf w fs = (Ok (buf', w'), fs') /\
    buf = taken ++ buf' /\ taken <> [] /\ chunk_writer_of s fs0 (d ++ taken) w' fs'.
Proof.
  intros (full & -> & F & E & L) N D. unfold ChunkWriter_fill.
  set (k := Nat.min (CHUNK_SIZE - length w.(cw_buffer)) (length buf)).
  assert (P : (0 < k)%nat) by (destruct buf; [done|unfold k; simpl; lia]).
  assert (T : length (take k buf) = k) by (rewrite length_take; unfold k; lia).
  assert (Nt : take k buf <> []) by (intros Et; rewrite Et in T; simpl in T; lia).
  exists (take k buf), (drop k buf).
  destruct (Nat.eqb_spec (CHUNK_SIZE - length w.(cw_buffer)) k) as [Ek|Ek].
  - set (c := w.(cw_buffer) ++ take k buf).
    assert (Lc : length c = CHUNK_SIZE) by (unfold c; rewrite length_app, T; lia).
    assert (Dc : data = concat (full ++ [c]) ++ drop k buf ++ rest).
    { rewrite D, concat_app. cbn [concat]. unfold c. rewrite app_nil_r, <- !app_assoc. do 2 f_equal.
      by rewrite (app_assoc (take k buf)), take_drop. }
    rewrite Dc, chunks_full in Stores by (apply Forall_app; split; [done|by apply Forall_singleton]).
    apply store_chunks_app in Stores as (h1 & h2 & fs2 & E1 & _ & _).
    pose proof E1 as E1'. apply store_chunks_app in E1 as (h3 & h4 & fs3 & E3 & E4 & ->).
    rewrite E in E3. injection E3 as <- <-. cbn [store_chunks] in E4. unfold st_bind, st_ret in E4.
    destruct (Store_store s c fs) as [[h|] fs4] eqn:Es; [|done]. injection E4 as <- <-.
    eexists _, fs4. unfold st_bind, ChunkWriter_flush_buffer, st_bind, st_ret. cbn [cw_buffer cw_hashes]. fold c.
    rewrite Es. split; [done|]. split; [by rewrite take_drop|]. split; [done|].
    exists (full ++ [c]). cbn [cw_buffer cw_hashes]. split_and!; try done.
    + rewrite concat_app. cbn [concat]. by rewrite !app_nil_r, <- app_assoc.
    + apply Forall_app. split; [done|by apply Forall_singleton].
    + apply CHUNK_SIZE_pos.
  - eexists _, fs. split; [done|]. split; [by rewrite take_drop|]. split; [done|].
    exists full. cbn [cw_buffer cw_hashes]. split_and!; [by rewrite app_assoc|done|done|].
    rewrite length_app, T. unfold k in *. lia.
Qed.

Lemma ChunkWriter_write_ok fuel : forall d w fs buf rest,
  chunk_writer_of s fs0 d w fs -> (length buf <= fuel)%nat -> data = d ++ buf ++ rest ->
  exists w' fs', ChunkWriter_write fuel s buf w fs = Some (Ok w', fs') /\ chunk_writer_of s fs0 (d ++ buf) w' fs'.
Proof.
  induction fuel as [|fuel IH]; intros d w fs buf rest W L D.
  - destruct buf; [|simpl in L; lia]. exists w, fs. by rewrite app_nil_r.
  - destruct (decide (buf = [])) as [->|N]; [exists w, fs; by rewrite app_nil_r|].
    destruct (ChunkWriter_fill_ok d w fs buf rest W N D) as (t & b & w1 & fs2 & E & Eb & Nt & W1).
    destruct (IH _ _ _ b rest W1) as (w2 & fs3 & E2 & W2).
    { subst buf. rewrite length_app in L. destruct t; [done|simpl in L; lia]. }
    { by rewrite D, Eb, <- !app_assoc. }
    exists w2, fs3. rewrite <- app_assoc in W2. rewrite <- Eb in W2. split; [|done].
    destruct buf as [|x buf]; [done|]. cbn [ChunkWriter_write]. by rewrite E.
Qed.

Lemma serialise_into_chunks_ok fuel io_error pieces : forall d w fs rest,
  chunk_writer_of s fs0 d w fs -> Forall (fun p => (length p <= fuel)%nat) pieces ->
  data = d ++ concat pieces ++ rest ->
  exists w' fs', serialise_into_chunks fuel io_error s pieces w fs = Some (Ok w', fs') /\
    chunk_writer_of s fs0 (d ++ concat pieces) w' fs'.
Proof.
  induction pieces as [|p pieces IH]; intros d w fs rest W F D.
  - exists w, fs. cbn [concat serialise_into_chunks]. by rewrite app_nil_r.
  - apply Forall_cons in F as [Fp F]. cbn [concat] in D. rewrite <- app_assoc in D.
    destruct (ChunkWriter_write_ok fuel d w fs p _ W Fp D) as (w1 & fs2 & E & W1).
    destruct (IH (d ++ p) w1 fs2 rest W1 F) as (w2 & fs3 & E2 & W2); [by rewrite D, <- !app_assoc|].
    exists w2, fs3. cbn [serialise_into_chunks concat]. rewrite E. split; [done|]. by rewrite app_assoc.
Qed.

Lemma ChunkWriter_finalise_ok w fs :
  chunk_writer_of s fs0 data w fs -> ChunkWriter_finalise s w fs = (Ok hs, fs1).
Proof.
  intros (full & D & F & E & L). rewrite D, chunks_full in Stores by done.
  apply store_chunks_app in Stores as (h1 & h2 & fs2 & E1 & E2 & ->). rewrite E in E1. injection E1 as <- <-.
  unfold ChunkWriter_finalise. destruct (cw_buffer w) as [|b buf] eqn:Eb.
  - cbn in E2. injection E2 as <- <-. by rewrite app_nil_r.
  - rewrite chunks_short in E2 by (done || lia). cbn [store_chunks] in E2.
    unfold ChunkWriter_flush_buffer, st_bind, st_ret in *. rewrite Eb.
    destruct (Store_store s (b :: buf) fs) as [[h|] fs3]; [|done]. by injection E2 as <- <-.
Qed.

End writes.

Lemma commit_serialised_ok fuel io_error r pieces fs id fs' :
  Forall (fun p => (length p <= fuel)%nat) pieces ->
  Repo_commit r (concat pieces) fs = (Ok id, fs') ->
  Repo_commit_serialised fuel io_error r pieces fs = Some (Ok id, fs').
Proof.
  intros Fp E. unfold Repo_commit, st_bind in E.
  destruct (store_chunks r.(backend) (chunks CHUNK_SIZE (concat pieces)) fs) as [[hs|] fs1] eqn:Es; [|done].
  destruct (serialise_into_chunks_ok _ _ _ _ _ Es fuel io_error pieces [] ChunkWriter_new fs [])
    as (w & fs2 & Ew & W).
  - exists []. split_and!; try done. apply CHUNK_SIZE_pos.
  - done.
  - by rewrite app_nil_r.
  - unfold Repo_commit_serialised. rewrite Ew. f_equal. unfold st_bind.
    by rewrite (ChunkWriter_finalise_ok _ _ _ _ _ Es w fs2 W).
Qed.

(** Serialising into the store.  However the serialiser splits its
    output into writes, committing through the chunked writer stores the same
    chunks in the same order and gives the same identifier and the same file
    system as committing the whole output at once, whenever the latter
    succeeds (on a failing disk too), provided the fuel covers the longest
    write. *)
Theorem commit_serialised_commit fuel io_error r pieces fs id fs' :
  Forall (fun p => (length p <= fuel)%nat) pieces ->
  Repo_commit r (concat pieces) fs = (Ok id, fs') ->
  Repo_commit_serialised fuel io_error r pieces fs = Some (Ok id, fs').
Proof. apply commit_serialised_ok. Qed.

(** ** Reading in chunks *)

(** A read of up to [len] bytes: some bytes, unless none are asked for or left. *)
Definition legit_read (len : nat) (data : list Z) (m : nat) : Prop :=
  (m <= len)%nat /\ (m <= length data)%nat /\ ((0 < len)%nat -> data <> [] -> (0 < m)%nat).

(** The deserialiser gives [v] on [data] however the reads are cut. *)
Fixpoint decodes {S} (d : Decoder S) (data : list Z) (v : result S bincode_error) : Prop :=
  match d with
  | DReturn r => r = v
  | DRead len k => forall m, legit_read len data m -> decodes (k (Ok (take m data))) (drop m data) v
  end.

(** The reader with [data] still to come. *)
Definition reader_of (s : Store) (fs : Fs) (data : list Z) (r : ChunkedReader) : Prop :=
  exists cs, r.(cr_hashes) = map hash_of cs /\ data = r.(cr_buffer) ++ concat cs /\
    Forall (fun c => c <> [] /\ stored fs s (hash_of c) c) cs.

Lemma ChunkedReader_read_ok s fs data r len :
  fs.(faults) = [] -> reader_of s fs data r ->
  exists m r', legit_read len data m /\ ChunkedReader_read s len (r, fs) = (Ok (take m data), (r', fs)) /\
    reader_of s fs (drop m data) r'.
Proof.
  intros F (cs & Eh & -> & St). destruct r as [hs buf]. cbn [cr_hashes cr_buffer] in *. subst hs.
  unfold ChunkedReader_read, st_bind, gets. cbn [cr_buffer fst].
  assert (G : forall b cs', Forall (fun c => c <> [] /\ stored fs s (hash_of c) c) cs' -> (b = [] -> cs' = []) ->
    exists m r', legit_read len (b ++ concat cs') m /\
      (Ok (take len b), ({| cr_hashes := map hash_of cs'; cr_buffer := drop len b |}, fs)) =
        (Ok (take m (b ++ concat cs')) : result _ StorageError, (r', fs)) /\ reader_of s fs (drop m (b ++ concat cs')) r').
  { intros b cs' St' Nb. exists (Nat.min len (length b)). eexists. split; [|split].
    - unfold legit_read. rewrite length_app. split_and!; [lia|lia|]. intros P N.
      destruct b; [rewrite Nb in N by done; done|simpl; lia].
    - rewrite take_app_le by lia. do 2 f_equal. destruct (decide (len <= length b)%nat).
      + by rewrite Nat.min_l.
      + by rewrite Nat.min_r, !take_ge by lia.
    - exists cs'. cbn [cr_hashes cr_buffer]. split_and!; [done| |done].
      rewrite drop_app_le by lia. f_equal. destruct (decide (len <= length b)%nat).
      + by rewrite Nat.min_l.
      + by rewrite Nat.min_r, !drop_ge by lia. }
  destruct buf as [|b buf].
  - unfold next_chunk. cbn [cr_hashes cr_buffer]. destruct cs as [|c cs]; cbn [map].
    + apply (G [] []); [constructor|done].
    + apply Forall_cons in St as [[Nc Sc] St]. rewrite (load_stored s _ c) by done. cbn [concat app].
      apply (G c cs); [done|done].
  - apply (G (b :: buf) cs); done.
Qed.

Lemma deserialise_from_ok {S} s (d : Decoder S) v : forall data r fs,
  fs.(faults) = [] -> reader_of s fs data r -> decodes d data v -> deserialise_from s d (r, fs) = (v, fs).
Proof.
  induction d as [r0|len k IH]; intros data r fs F R D; cbn [deserialise_from decodes] in *; [by subst|].
  destruct (ChunkedReader_read_ok s fs data r len F R) as (m & r' & L & E & R'). rewrite E.
  eapply IH; [done|exact R'|]. by apply D.
Qed.

Lemma chunks_nonempty {A} n (l : list A) : (0 < n)%nat -> Forall (fun c => c <> []) (chunks n l).
Proof.
  intros P. induction l as [|l N IH] using (chunks_ind n P); [constructor|].
  rewrite chunks_cons by done. constructor; [|done]. destruct n; [lia|]. by destruct l.
Qed.

Lemma checkout_serialised_ok {S} r (d : Decoder S) id bytes v fs :
  fs.(faults) = [] -> committed fs r.(backend) id bytes -> decodes d bytes v ->
  Repo_checkout_serialised r d id fs = (result_map_err SE_CommitSerializationError v, fs).
Proof.
  intros F [C Ch] D. unfold Repo_checkout_serialised, ChunkedReader_new, st_bind, st_ret.
  rewrite (load_stored _ _ _ _ F C). unfold serialising, lift_result. rewrite (proj2 (commit_record_ok bytes)).
  cbn [result_map_err]. rewrite (deserialise_from_ok _ d v bytes); try done.
  exists (chunks CHUNK_SIZE bytes). cbn [cr_hashes cr_buffer app].
  rewrite chunks_concat by apply CHUNK_SIZE_pos. split_and!; try done.
  apply Forall_and. split; [apply chunks_nonempty, CHUNK_SIZE_pos|done].
Qed.

(** Deserialising from the store.  Checking out a commit of [bytes]
    through the chunked reader gives what the deserialiser gives on [bytes],
    for every deserialiser whose value does not depend on where reads are cut
    short: no read reports the end of the data before it is reached. *)
Theorem checkout_serialised_committed {S} r (d : Decoder S) id bytes v fs :
  fs.(faults) = [] -> committed fs r.(backend) id bytes -> decodes d bytes v ->
  Repo_checkout_serialised r d id fs = (result_map_err SE_CommitSerializationError v, fs).
Proof. apply checkout_serialised_ok. Qed.

(** ** Interrupted writes *)

(** A write that fails half-way is never repaired.  When the disk fails
    after [k] bytes of new data, [store] reports the error, but leaves the
    file it created; storing the same data again finds the file, reports
    success without writing, and loading the hash gives the first [k] bytes
    only. *)
Theorem interrupted_store U s d k fs :
  store_sound U s fs -> fs.(entries) !! path_of_hash s (hash_of d) = None ->
  fs.(faults) = [None; Some k] ->
  exists fs', Store_store s d fs = (Err (SE_IoError IoOther), fs') /\
    Store_store s d fs' = (Ok (hash_of d), fs') /\
    Store_load s (hash_of d) fs' = (Ok (take k d), fs').
Proof.
  intros (D & _ & _) N F. unfold Store_store, hashing, lift_result, st_bind.
  rewrite blake2b_hash_bytes_ok. cbn [result_map_err].
  unfold write_data_if_new, open_create_new. unfold io_op at 1. rewrite F.
  set (p := path_of_hash s (hash_of d)) in *.
  assert (X : forall g, fs_exists {| entries := fs.(entries); faults := g |} p = false).
  { intros g. unfold p. rewrite fs_exists_path. cbn [entries]. fold p. by rewrite N. }
  rewrite X. unfold p at 1. rewrite parent_path_of_hash.
  change (is_dir {| entries := fs.(entries); faults := [Some k] |} s.(store_path)) with (is_dir fs s.(store_path)).
  rewrite D. fold p. unfold io, file_write_all, io_op, insert_entry, set_entries. cbn [faults entries result_map_err].
  eexists. split; [done|]. rewrite insert_insert_eq. split.
  - unfold p. rewrite fs_exists_path. cbn [entries]. fold p. by rewrite lookup_insert_eq, bool_decide_true by eauto.
  - apply load_stored; [done|]. unfold stored. cbn [entries]. fold p. apply lookup_insert_eq.
Qed.

(** ** Snapshots *)

Lemma create_dirs_ok todo : forall made fs,
  (forall i d, fs.(entries) !! (made ++ take i todo) <> Some (File d)) ->
  exists fs', create_dirs fs made todo = (Ok tt, fs') /\ fs'.(faults) = fs.(faults) /\
    fs.(entries) ⊆ fs'.(entries) /\ (todo <> [] -> fs'.(entries) !! (made ++ todo) = Some Dir) /\
    (forall q e, fs'.(entries) !! q = Some e ->
       fs.(entries) !! q = Some e \/ (length q <= length (made ++ todo))%nat).
Proof.
  induction todo as [|x todo IH]; intros made fs N; cbn [create_dirs].
  - exists fs. split_and!; try done. auto.
  - assert (N' : forall fs1, (forall q d, fs1.(entries) !! q = Some (File d) -> fs.(entries) !! q = Some (File d)) ->
      forall i d, fs1.(entries) !! ((made ++ [x]) ++ take i todo) <> Some (File d)).
    { intros fs1 H i d E%H. rewrite <- app_assoc in E. by apply (N (S i) d). }
    assert (Ea : made ++ x :: todo = (made ++ [x]) ++ todo) by by rewrite <- app_assoc.
    destruct (fs.(entries) !! (made ++ [x])) as [[d|]|] eqn:Ex.
    + by destruct (N 1%nat d).
    + destruct (IH (made ++ [x]) fs) as (fs' & E & F & M & Dr & O); [by apply N'|].
      exists fs'. rewrite Ea. split_and!; try done. intros _. destruct todo; [|by apply Dr].
      rewrite app_nil_r. exact (lookup_weaken _ _ _ _ Ex M).
    + destruct (IH (made ++ [x]) (insert_entry (made ++ [x]) Dir fs)) as (fs' & E & F & M & Dr & O).
      { apply N'. intros q d. unfold insert_entry, set_entries. cbn [entries]. rewrite lookup_insert. by case_decide. }
      unfold insert_entry, set_entries in *. cbn [entries faults] in *.
      exists fs'. rewrite Ea. split_and!; try done.
      * etrans; [|exact M]. by apply insert_subseteq.
      * intros _. destruct todo; [|by apply Dr]. rewrite app_nil_r.
        apply (lookup_weaken _ _ _ _ (lookup_insert_eq _ _ _) M).
      * intros q e Eq%O. rewrite lookup_insert in Eq. case_decide; [|done].
        subst q. right. rewrite !length_app. simpl. lia.
Qed.

(** The state while a snapshot of the store [s] is copied to the store [t]. *)
Definition copying (s t : Store) (fs : Fs) : Prop :=
  fs.(faults) = [] /\ s.(store_path) <> t.(store_path) /\ is_dir fs t.(store_path) = true /\
  (forall h, fs.(entries) !! path_of_hash t h <> Some Dir) /\
  (forall h d d', stored fs s h d -> stored fs t h d' -> d' = d).

Lemma path_of_hash_ne s t h h' : s.(store_path) <> t.(store_path) -> path_of_hash s h <> path_of_hash t h'.
Proof. intros N E. apply N. by rewrite <- (parent_path_of_hash s h), <- (parent_path_of_hash t h'), E. Qed.

Lemma copy_ok s t h d fs :
  copying s t fs -> stored fs s h d ->
  exists fs', Store_copy s h t.(store_path) fs = (Ok tt, fs') /\ copying s t fs' /\ stored fs' t h d /\
    fs.(entries) ⊆ fs'.(entries).
Proof.
  intros (F & N & D & ND & C) St. unfold Store_copy, io, fs_copy. fold (path_of_hash t h).
  rewrite io_op_no_faults by done. unfold stored in St. rewrite St, parent_path_of_hash, D.
  exists (insert_entry (path_of_hash t h) (File d) fs). split.
  { destruct (fs.(entries) !! path_of_hash t h) as [[]|] eqn:E; try done. by apply ND in E. }
  unfold insert_entry, set_entries, copying, stored. cbn [faults entries].
  assert (Sub : fs.(entries) ⊆ <[path_of_hash t h := File d]> fs.(entries)).
  { apply map_subseteq_spec. intros q e Eq. rewrite lookup_insert. case_decide; [|done]. subst q.
    destruct e as [d'|]; [|by apply ND in Eq]. by rewrite (C h d d'). }
  split; [|split; [apply lookup_insert_eq|done]]. split_and!; try done.
  - unfold is_dir in *. cbn [entries]. destruct t.(store_path) as [|x q] eqn:Ep; [done|].
    destruct (fs.(entries) !! (x :: q)) as [e|] eqn:E; [|done]. by rewrite (lookup_weaken _ _ _ _ E Sub).
  - intros h'. rewrite lookup_insert. case_decide; [done|apply ND].
  - intros h' e e' Es. rewrite lookup_insert_ne in Es by (intros Eq; by eapply (path_of_hash_ne s t)).
    rewrite lookup_insert. case_decide as Eq; [|by apply C]. intros [= <-].
    apply path_of_hash_inj in Eq. subst. rewrite St in Es. by injection Es.
Qed.

Lemma copy_chunks_ok s t l : forall fs,
  copying s t fs -> Forall (fun d => stored fs s (hash_of d) d) l ->
  exists fs', copy_chunks s (map hash_of l) t.(store_path) fs = (Ok tt, fs') /\ copying s t fs' /\
    fs.(entries) ⊆ fs'.(entries) /\ Forall (fun d => stored fs' t (hash_of d) d) l.
Proof.
  induction l as [|d l IH]; intros fs C St.
  - exists fs. by split_and!.
  - apply Forall_cons in St as [Sd St]. destruct (copy_ok s t _ d fs C Sd) as (fs1 & E1 & C1 & S1 & M1).
    destruct (IH fs1 C1) as (fs2 & E2 & C2 & M2 & S2).
    { eapply Forall_impl; [exact St|]. intros c. by apply stored_mono. }
    exists fs2. split_and!; try done.
    + cbn [map copy_chunks]. unfold st_bind. by rewrite E1.
    + by etrans.
    + constructor; [by eapply stored_mono|done].
Qed.

(** The target of a snapshot: nothing is under it, and no file is on the way. *)
Definition snapshot_target (fs : Fs) (path : Path) : Prop :=
  path <> [] /\ (forall x, fs.(entries) !! (path ++ [x]) = None) /\
  (forall i d, fs.(entries) !! take i path <> Some (File d)).

Lemma fresh_target fs path :
  fs.(faults) = [] -> snapshot_target fs path ->
  (let! exists_ := gets (fun fs => fs_exists fs path) in
   if negb exists_ then st_ret true else io (read_dir_is_empty path)) fs = (Ok true, fs).
Proof.
  intros F (N & Em & Fi). unfold st_bind, gets, st_ret.
  assert (X : fs_exists fs path = bool_decide (is_Some (fs.(entries) !! path))).
  { unfold fs_exists. destruct path as [|x p]; [done|].
    destruct (fs.(entries) !! (x :: p)); [by rewrite bool_decide_true by eauto|by rewrite bool_decide_false by by intros []]. }
  rewrite X. destruct (fs.(entries) !! path) as [e|] eqn:E; [|by rewrite bool_decide_false by by intros []].
  rewrite bool_decide_true by eauto. cbn [negb].
  assert (e = Dir) as ->.
  { destruct e as [d|]; [|done]. destruct (Fi (length path) d). by rewrite take_ge by lia. }
  assert (Di : is_dir fs path = true) by (unfold is_dir; destruct path; [done|by rewrite E]).
  unfold io, read_dir_is_empty. rewrite io_op_no_faults by done. rewrite Di.
  cbn [result_map_err]. rewrite bool_decide_true; [done|]. apply Forall_forall. intros [q e] Hq%elem_of_map_to_list.
  destruct q as [|y q _] using rev_ind; [by right|]. left. unfold parent. rewrite removelast_last. intros ->.
  by rewrite Em in Hq.
Qed.

Lemma snapshot_ok r id bytes path fs :
  fs.(faults) = [] -> committed fs r.(backend) id bytes -> snapshot_target fs path ->
  exists fs', Repo_export_snapshot r id path fs = (Ok tt, fs') /\ fs'.(faults) = [] /\
    committed fs' {| store_path := path |} id bytes /\ fs.(entries) ⊆ fs'.(entries).
Proof.
  intros F C T. pose proof T as (Np & Em & Fi). set (t := {| store_path := path |}).
  destruct (create_dirs_ok path [] fs Fi) as (fs1 & E1 & F1 & M1 & D1 & O1). cbn [app] in *.
  assert (C1 : committed fs1 r.(backend) id bytes) by by eapply committed_mono.
  assert (None1 : forall h, fs1.(entries) !! path_of_hash t h = None).
  { intros h. destruct (fs1.(entries) !! path_of_hash t h) as [e|] eqn:E; [|done]. unfold path_of_hash, t in E.
    cbn [store_path] in E. apply O1 in E as [E|E]; [by rewrite Em in E|]. rewrite length_app in E. simpl in E. lia. }
  assert (Cp : copying r.(backend) t fs1).
  { split_and!; [by rewrite F1| | |intros h; by rewrite None1|intros h d d' _ S'; unfold stored in S'; by rewrite None1 in S'].
    - intros Eq. destruct C as [Ci _]. unfold stored, path_of_hash in Ci. rewrite Eq in Ci. cbn in Ci. by rewrite Em in Ci.
    - cbn. specialize (D1 Np). unfold is_dir. destruct path; [done|]. by rewrite D1. }
  destruct C1 as [Ci Cc]. destruct (copy_chunks_ok _ t _ fs1 Cp Cc) as (fs2 & E2 & Cp2 & M2 & S2).
  destruct (copy_ok _ t id _ fs2 Cp2 (stored_mono _ _ _ _ _ M2 Ci)) as (fs3 & E3 & Cp3 & S3 & M3).
  exists fs3. split_and!.
  - pose proof (fresh_target fs path F T) as Fr.
    unfold Repo_export_snapshot, st_bind in *. unfold gets in *. cbn beta iota in Fr |- *.
    rewrite Fr. cbn [negb]. unfold io at 1, create_dir_all. rewrite io_op_no_faults by done. rewrite E1. cbn [result_map_err].
    rewrite (load_stored _ _ _ fs1 ltac:(by rewrite F1) Ci). unfold serialising, lift_result.
    rewrite (proj2 (commit_record_ok bytes)). cbn [result_map_err].
    change path with t.(store_path). rewrite E2. exact E3.
  - apply Cp3.
  - split; [done|]. eapply Forall_impl; [exact S2|]. intros d. by apply stored_mono.
  - etrans; [exact M1|]. by etrans.
Qed.

(** Snapshots.  Exporting a commit to a path that is new, or an empty
    directory, succeeds and makes it a repository from which the commit's
    identifier checks out the same bytes; the exporting repository still
    checks it out too, and no file that was there changes. *)
Theorem export_snapshot_spec r id bytes path fs :
  fs.(faults) = [] -> committed fs r.(backend) id bytes -> snapshot_target fs path ->
  exists fs', Repo_export_snapshot r id path fs = (Ok tt, fs') /\ fs.(entries) ⊆ fs'.(entries) /\
    Repo_checkout {| backend := {| store_path := path |} |} id fs' = (Ok bytes, fs') /\
    Repo_checkout r id fs' = (Ok bytes, fs').
Proof.
  intros F C T. destruct (snapshot_ok r id bytes path fs F C T) as (fs' & E & F' & Ct & M).
  exists fs'. split_and!; [done|done|by apply checkout_committed|].
  apply checkout_committed; [done|]. by eapply committed_mono.
Qed.

End storage.

(** ** Examples *)

(** Codecs that are easy to undo. *)
#[local] Instance toy_codec : StorageCodec := {|
  hex_encode l := pretty (Npos (encode l));
  serialise_hashes l := Ok [Zpos (encode (map digest l))];
  deserialise_hashes b :=
    match b with
    | [Zpos p] => Ok (map Build_Hash (default [] (decode p)))
    | _ => Err tt
    end;
|}.

#[local] Instance toy_codec_ok : StorageCodecOk.
Proof.
  split.
  - intros a b E. assert (E' : Npos (encode a) = Npos (encode b)) by exact (inj pretty _ _ E).
    apply (inj encode). congruence.
  - intros l. eexists. split; [done|]. cbn. rewrite decode_encode. cbn. f_equal.
    induction l as [|[d] l IH]; [done|]. cbn. by rewrite IH.
Qed.

Definition toy_repo : Repo := {| backend := {| store_path := ["repo"] |} |}.
Definition toy_fs (f : list (option nat)) : Fs := {| entries := {[ ["repo"] := Dir ]}; faults := f |}.
Definition toy_bytes : list Z := [1; 2; 3].
Definition toy_universe (x : list Z) : Prop := x ∈ [toy_bytes; commit_record toy_bytes].

Lemma toy_universe_free : collision_free toy_universe.
Proof. apply no_collision_check. vm_compute. reflexivity. Qed.

Lemma toy_fs_none f h : (toy_fs f).(entries) !! path_of_hash toy_repo.(backend) h = None.
Proof. cbn [toy_fs entries]. apply lookup_singleton_ne. discriminate. Qed.

Lemma toy_fs_sound f : store_sound toy_universe toy_repo.(backend) (toy_fs f).
Proof.
  split_and!; [by vm_compute|intros h; by rewrite toy_fs_none|].
  intros h d S. unfold stored in S. by rewrite toy_fs_none in S.
Qed.

Lemma toy_universe_chunks : Forall toy_universe (chunks CHUNK_SIZE toy_bytes).
Proof. apply Forall_singleton. by left. Qed.
Lemma toy_universe_record : toy_universe (commit_record toy_bytes).
Proof. right. by left. Qed.

Lemma commit_checkout_witness :
  exists id fs', Repo_commit toy_repo toy_bytes (toy_fs []) = (Ok id, fs') /\
    fst (Repo_checkout toy_repo id {| entries := fs'.(entries); faults := [] |}) = Ok toy_bytes.
Proof.
  destruct (commit_checkout toy_universe toy_repo toy_bytes (toy_fs []) toy_universe_free (toy_fs_sound [])
    eq_refl toy_universe_chunks toy_universe_record) as (id & fs' & E & _ & _ & _ & R).
  exists id, fs'. split; [exact E|].
  rewrite (R {| entries := fs'.(entries); faults := [] |}); [reflexivity|reflexivity|reflexivity].
Defined.

Definition toy_storage_error (e : StorageError) : bincode_error := tt.

Lemma commit_serialised_commit_witness :
  exists id fs', Repo_commit_serialised 2 toy_storage_error toy_repo [[1]; []; [2; 3]] (toy_fs []) = Some (Ok id, fs').
Proof.
  destruct (commit_ok toy_universe toy_repo toy_bytes (toy_fs []) toy_universe_free (toy_fs_sound [])
    eq_refl toy_universe_chunks toy_universe_record) as (fs' & E & _).
  exists (hash_of (commit_record toy_bytes)), fs'.
  refine (commit_serialised_commit 2 toy_storage_error toy_repo [[1]; []; [2; 3]] (toy_fs []) _ fs' _ E).
  repeat (apply Forall_cons; split; [simpl; lia|]). apply Forall_nil. exact I.
Defined.

(** The first byte of the input. *)
Definition toy_decoder : Decoder (list Z) :=
  DRead 1 (fun r => DReturn (result_map_err (fun _ => tt) r)).

Lemma toy_decoder_decodes : decodes toy_decoder toy_bytes (Ok [1]).
Proof.
  intros m (L & _ & P). specialize (P ltac:(lia) ltac:(done)). assert (m = 1%nat) as -> by lia. reflexivity.
Qed.

Lemma checkout_serialised_committed_witness :
  exists id fs, fst (Repo_checkout_serialised toy_repo toy_decoder id fs) = Ok [1].
Proof.
  destruct (commit_ok toy_universe toy_repo toy_bytes (toy_fs []) toy_universe_free (toy_fs_sound [])
    eq_refl toy_universe_chunks toy_universe_record) as (fs' & _ & _ & F & _ & C).
  exists (hash_of (commit_record toy_bytes)), fs'.
  rewrite (checkout_serialised_committed toy_repo toy_decoder _ toy_bytes (Ok [1]) fs' F C toy_decoder_decodes).
  reflexivity.
Defined.

Lemma interrupted_store_witness :
  exists fs', Store_store toy_repo.(backend) [7; 8; 9] fs' = (Ok (hash_of [7; 8; 9]), fs') /\
    Store_load toy_repo.(backend) (hash_of [7; 8; 9]) fs' = (Ok [7], fs').
Proof.
  destruct (interrupted_store toy_universe toy_repo.(backend) [7; 8; 9] 1 (toy_fs [None; Some 1%nat])
    (toy_fs_sound _) (toy_fs_none _ _) eq_refl) as (fs' & _ & E & L).
  exists fs'. exact (conj E L).
Defined.

(** A repository with one commit. *)
Definition toy_commit_fs : Fs := {|
  entries := <[path_of_hash toy_repo.(backend) (hash_of (commit_record toy_bytes)) := File (commit_record toy_bytes)]>
    (<[path_of_hash toy_repo.(backend) (hash_of toy_bytes) := File toy_bytes]> {[ ["repo"] := Dir ]});
  faults := [];
|}.

Lemma toy_committed :
  committed toy_commit_fs toy_repo.(backend) (hash_of (commit_record toy_bytes)) toy_bytes.
Proof.
  split; [apply lookup_insert_eq|]. apply Forall_singleton. unfold stored. cbn [toy_commit_fs entries].
  rewrite lookup_insert_ne; [apply lookup_insert_eq|]. intros E%path_of_hash_inj.
  pose proof (toy_universe_free _ _ toy_universe_record (list_elem_of_here _ _) (f_equal digest E)) as E'.
  by vm_compute in E'.
Qed.

Lemma toy_target : snapshot_target toy_commit_fs ["snap"].
Proof.
  split_and!; [done|intros x|intros i d]; cbn [toy_commit_fs entries].
  - rewrite !lookup_insert_ne, lookup_singleton_ne by discriminate. done.
  - destruct i as [|i]; cbn [take]; [|rewrite take_nil];
      rewrite !lookup_insert_ne, lookup_singleton_ne by discriminate; done.
Qed.

Lemma export_snapshot_spec_witness :
  exists fs', Repo_export_snapshot toy_repo (hash_of (commit_record toy_bytes)) ["snap"] toy_commit_fs = (Ok tt, fs') /\
    fst (Repo_checkout {| backend := {| store_path := ["snap"] |} |} (hash_of (commit_record toy_bytes)) fs')
    = Ok toy_bytes.
Proof.
  destruct (export_snapshot_spec toy_repo _ toy_bytes ["snap"] toy_commit_fs eq_refl toy_committed toy_target)
    as (fs' & E & _ & C & _).
  exists fs'. split; [exact E|]. rewrite C. reflexivity.
Defined.
