(* ===== verification/NodeStorage.v ===== *)
(** The storage of the rollup node's PVM, and the installation of its boot
    sector ([src/riscv/lib/src/pvm/node_pvm.rs]).

    Committing and checking out a state are not modelled here: they serialise
    the regions of the state by its layout.  The repository they use is in
    [Storage], for data of any kind. *)
From S2P Require Import Prelude Registers CSRegister Traps XStatus CSRegisters HartState Bus.
From S2P Require Import Instruction Parser IntInstr AddressTranslation TranslationCache.
From S2P Require Import MachineCore CoreInstr Float.
From S2P Require Import RunInstr InstructionCache BlockCache MachineState Sbi Pvm Program Boot.
From S2P Require Import Hash Storage.

Section boot_sector.
Context `{ML : MainMemoryLayout} `{FW : FdtWriter}.

(** Errors are unwrapped.  [parse] is the ELF parser. *)
(* pvm/node_pvm.rs:144-154 install_boot_sector *)
Definition install_boot_sector (parse : list Z -> option Elf) (s : NodeState) (loader kernel : list Z) :
  outcome NodeState :=
  match Program_from_elf parse loader with
  | None => Panicked
  | Some program =>
      let machine := s.(pvm).(machine_state) in
      match setup_boot program (Some kernel) Supervisor machine.(core) with
      | (Err _, _) => Panicked
      | (Ok _, c) => Done (set_pvm_tick s (set_machine_status s.(pvm) (set_core machine c) s.(pvm).(status)) s.(tick))
      end
  end.
End boot_sector.

(** ** Storage *)

Section storage.
Context `{B : Blake2b} `{SC : StorageCodec}.

(* pvm/node_pvm.rs:214-216 PvmStorage *)
Record PvmStorage : Set := { repo : Repo }.

(* pvm/node_pvm.rs:220-223 load *)
Definition PvmStorage_load (path : Path) : storeM PvmStorage :=
  let! repo := Repo_load path in
  st_ret {| repo := repo |}.

(* pvm/node_pvm.rs:247-253 export_snapshot *)
Definition PvmStorage_export_snapshot (p : PvmStorage) (id : Hash) (path : Path) : storeM unit :=
  Repo_export_snapshot p.(repo) id path.

End storage.
