(* ===== verification/Path.v ===== *)
(** Paths of the durable storage of kernels
    ([src/kernel_sdk/host/src/path.rs]): validation, concatenation, steps.

    A path is its bytes: [RefPath] and [OwnedPath] differ in who owns them. *)
From S2P Require Import Prelude.
#[local] Open Scope Z_scope.

(* kernel_sdk/host/src/path.rs:15-15 PATH_SEPARATOR *)
Definition PATH_SEPARATOR : Z := 47.

(** The bytes of [/durable]. *)
(* kernel_sdk/host/src/path.rs:21-21 DURABLE_STORAGE_PREFIX_INNER *)
Definition DURABLE_STORAGE_PREFIX_INNER : list Z := [47; 100; 117; 114; 97; 98; 108; 101].

(* kernel_sdk/host/src/path.rs:18-18 PATH_MAX_SIZE *)
Definition PATH_MAX_SIZE : Z := 250 - Z.of_nat (length DURABLE_STORAGE_PREFIX_INNER).

(* kernel_sdk/host/src/path.rs:71-90 PathError *)
Inductive PathError : Set :=
| PathEmpty | PathTooLong | InvalidStart | InvalidEmptyStep | InvalidByteInStep | ReadOnly.

(* kernel_sdk/host/src/path.rs:61-66 len_steps *)
Definition len_steps (path : list Z) : Z := Z.of_nat (length (filter (fun b => b = PATH_SEPARATOR) path)).

(** [u8::is_ascii_alphanumeric] *)
Definition is_ascii_alphanumeric (byte : Z) : bool :=
  ((48 <=? byte) && (byte <=? 57)) || ((65 <=? byte) && (byte <=? 90)) || ((97 <=? byte) && (byte <=? 122)).

(* kernel_sdk/host/src/path.rs:186-188 is_allowed_step_byte *)
Definition is_allowed_step_byte (byte : Z) : bool :=
  is_ascii_alphanumeric byte || (byte =? 46) || (byte =? 95) || (byte =? 45).

(** The loop over adjacent bytes: [previous] is [path[i - 1]], the rest starts
    at [path[i]]. *)
(* kernel_sdk/host/src/path.rs:222-239 validate_path_internal *)
Fixpoint check_bytes (previous : Z) (rest : list Z) : result unit PathError :=
  match rest with
  | [] => Ok tt
  | c :: rest =>
      if (previous =? PATH_SEPARATOR) && (c =? PATH_SEPARATOR) then Err InvalidEmptyStep
      else if c =? PATH_SEPARATOR then check_bytes c rest
      else if negb (is_allowed_step_byte c) then Err InvalidByteInStep
      else check_bytes c rest
  end.

(** The arms of the match, in order. *)
(* kernel_sdk/host/src/path.rs:216-242 validate_path_internal *)
Definition validate_path_internal (path : list Z) : result unit PathError :=
  match path with
  | [] => Err PathEmpty
  | first :: rest =>
      if bool_decide (last path = Some PATH_SEPARATOR) then Err InvalidEmptyStep
      else if PATH_MAX_SIZE <? Z.of_nat (length path) then Err PathTooLong
      else if first =? PATH_SEPARATOR then check_bytes first rest
      else Err InvalidStart
  end.

(** The bytes of [/readonly]. *)
(* kernel_sdk/host/src/path.rs:247-248 validate_path *)
Definition READONLY : list Z := [47; 114; 101; 97; 100; 111; 110; 108; 121].

(* kernel_sdk/host/src/path.rs:244-255 validate_path *)
Definition validate_path (path : list Z) : result unit PathError :=
  match validate_path_internal path with
  | Ok _ =>
      if bool_decide (path = READONLY) || bool_decide (take 10 path = READONLY ++ [PATH_SEPARATOR])
      then Err ReadOnly else Ok tt
  | Err e => Err e
  end.

(** [RefPath::try_from] and [OwnedPath::try_from]. *)
(* kernel_sdk/host/src/path.rs:268-277 try_from *)
Definition path_try_from (slice : list Z) : result (list Z) PathError :=
  let? _ := validate_path slice in Ok slice.

(** [None] is the panic of [assert_ok]. *)
(* kernel_sdk/host/src/path.rs:153-159 assert_from *)
Definition assert_from (path : list Z) : option (list Z) :=
  match validate_path path with Ok _ => Some path | Err _ => None end.

(* kernel_sdk/host/src/path.rs:165-171 assert_from_readonly *)
Definition assert_from_readonly (path : list Z) : option (list Z) :=
  match validate_path_internal path with Ok _ => Some path | Err _ => None end.

(* kernel_sdk/host/src/path.rs:375-393 concat *)
Definition path_concat (prefix suffix : list Z) : result (list Z) PathError :=
  let bytes := prefix ++ suffix in
  if Z.of_nat (length bytes) <=? PATH_MAX_SIZE then Ok bytes else Err PathTooLong.

(** [str::split]: the pieces between separators. *)
Fixpoint split_bytes (sep : Z) (l : list Z) : list (list Z) :=
  match l with
  | [] => [[]]
  | c :: l =>
      if c =? sep then [] :: split_bytes sep l
      else match split_bytes sep l with
           | s :: r => (c :: s) :: r
           | [] => [[c]]
           end
  end.

(* kernel_sdk/mock/src/state/store.rs:205-207 path_steps *)
Definition path_steps (path : list Z) : list (list Z) := drop 1 (split_bytes PATH_SEPARATOR path).
