(* ===== verification/PathSpec.v ===== *)
(** Paths are non-empty sequences of non-empty steps; validation accepts
    exactly these, splitting gives the steps back, and concatenation of paths
    gives paths. *)
From S2P Require Import Prelude Path.
#[local] Open Scope Z_scope.

(** A path with the given steps. *)
Definition path_join (steps : list (list Z)) : list Z := concat (map (cons PATH_SEPARATOR) steps).

Definition step_ok (s : list Z) : Prop := s <> [] /\ Forall (fun b => is_allowed_step_byte b = true) s.

(** The grammar of the documentation: [(/[A-Za-z0-9._-]+)+] of at most
    [PATH_MAX_SIZE] bytes. *)
Definition path_of (steps : list (list Z)) (p : list Z) : Prop :=
  p = path_join steps /\ steps <> [] /\ Forall step_ok steps /\ Z.of_nat (length p) <= PATH_MAX_SIZE.

(** The bytes of [readonly]. *)
Definition readonly_step : list Z := drop 1 READONLY.

Lemma allowed_not_separator b : is_allowed_step_byte b = true -> (b =? PATH_SEPARATOR) = false.
Proof. unfold is_allowed_step_byte, is_ascii_alphanumeric, PATH_SEPARATOR. intros H. lia. Qed.

Lemma path_join_cons s steps : path_join (s :: steps) = PATH_SEPARATOR :: s ++ path_join steps.
Proof. done. Qed.

Lemma path_join_app l k : path_join (l ++ k) = path_join l ++ path_join k.
Proof. unfold path_join. by rewrite map_app, concat_app. Qed.

Lemma split_step s rest :
  Forall (fun b => is_allowed_step_byte b = true) s ->
  split_bytes PATH_SEPARATOR (s ++ rest) =
  match split_bytes PATH_SEPARATOR rest with
  | t :: r => (s ++ t) :: r
  | [] => [s]
  end.
Proof.
  assert (N : split_bytes PATH_SEPARATOR rest <> []).
  { destruct rest as [|c rest]; [done|]. simpl. destruct (_ =? _); [done|]. by destruct (split_bytes _ rest). }
  induction 1 as [|b s Hb _ IH]; simpl; [by destruct (split_bytes _ rest)|].
  rewrite allowed_not_separator, IH by done. by destruct (split_bytes _ rest).
Qed.

(** Splitting a path gives its steps. *)
Lemma split_join steps : Forall step_ok steps -> split_bytes PATH_SEPARATOR (path_join steps) = [] :: steps.
Proof.
  induction 1 as [|s steps [_ Hs] _ IH]; [done|]. rewrite path_join_cons. cbn [split_bytes].
  change (PATH_SEPARATOR =? PATH_SEPARATOR) with true. cbn match. rewrite split_step, IH by done. by rewrite app_nil_r.
Qed.

Lemma path_steps_join steps : Forall step_ok steps -> path_steps (path_join steps) = steps.
Proof. intros H. unfold path_steps. by rewrite split_join. Qed.

Lemma path_of_steps steps p : path_of steps p -> path_steps p = steps.
Proof. intros (-> & _ & H & _). by apply path_steps_join. Qed.

(** ** The loop *)

(** After a byte of a step, the rest of that step, then more steps. *)
Lemma check_bytes_spec rest : forall previous,
  check_bytes previous rest = Ok tt /\ last (previous :: rest) <> Some PATH_SEPARATOR <->
  exists s steps, rest = s ++ path_join steps /\ Forall (fun b => is_allowed_step_byte b = true) s /\
    Forall step_ok steps /\ (previous = PATH_SEPARATOR -> s <> []).
Proof.
  induction rest as [|c rest IH]; intros previous.
  - split.
    + intros [_ L]. exists [], []. split_and!; [done..|]. intros ->. done.
    + intros (s & steps & E & _ & Hs & N). split; [done|]. intros [= ->].
      destruct s; [by apply N|done].
  - rewrite last_cons_cons. cbn [check_bytes].
    destruct (Z.eqb_spec c PATH_SEPARATOR) as [->|Nc].
    + rewrite andb_true_r. destruct (Z.eqb_spec previous PATH_SEPARATOR) as [->|Np].
      { split; [by intros [[=] _]|]. intros ([|b s] & steps & E & Hb & _ & N); [by destruct N|].
        injection E as <- E. apply Forall_inv in Hb. by apply allowed_not_separator in Hb. }
      rewrite IH. split.
      * intros (s & steps & -> & H1 & H2 & N). exists [], (s :: steps). split_and!; [done..| |done].
        constructor; [|done]. split; [by apply N|done].
      * intros (s & steps & E & H1 & H2 & N). destruct s as [|b s].
        -- destruct steps as [|s steps]; [done|]. injection E as ->. inversion_clear H2 as [|?? [Ns Hs] H3].
           by exists s, steps.
        -- injection E as <- E. apply Forall_inv in H1. by apply allowed_not_separator in H1.
    + rewrite andb_false_r. destruct (is_allowed_step_byte c) eqn:A; cbn [negb].
      * rewrite IH. split.
        -- intros (s & steps & -> & H1 & H2 & _). exists (c :: s), steps. split_and!; [done|by constructor|done|done].
        -- intros (s & steps & E & H1 & H2 & N). destruct s as [|b s].
           ++ destruct steps as [|s steps]; [done|]. by injection E as ->.
           ++ injection E as <- E. inversion_clear H1. exists s, steps. by split_and!.
      * split; [by intros [[=] _]|]. intros (s & steps & E & H1 & _ & N). destruct s as [|b s].
        -- destruct steps as [|s steps]; [done|]. by injection E as ->.
        -- injection E as <- E. apply Forall_inv in H1. congruence.
Qed.

(** ** Validation *)

Lemma validate_path_internal_spec p : validate_path_internal p = Ok tt <-> exists steps, path_of steps p.
Proof.
  unfold validate_path_internal. destruct p as [|c rest].
  { split; [done|]. intros ([|s steps] & E & N & _); [done|]. by rewrite path_join_cons in E. }
  pose proof (check_bytes_spec rest c) as H. destruct (bool_decide_reflect (last (c :: rest) = Some PATH_SEPARATOR)) as [L|L].
  { split; [done|]. intros ([|s steps] & E & N & Hs & _); [done|]. rewrite path_join_cons in E. injection E as -> ->.
    destruct H as [_ H]. exfalso. apply H in L as []. inversion_clear Hs as [|?? [Ns Fs] Fr].
    by exists s, steps. }
  destruct (Z.ltb_spec PATH_MAX_SIZE (Z.of_nat (length (c :: rest)))) as [M|M].
  { split; [done|]. intros (steps & _ & _ & _ & B). lia. }
  destruct (Z.eqb_spec c PATH_SEPARATOR) as [->|Nc].
  - split.
    + intros C. destruct (proj1 H (conj C L)) as (s & steps & -> & Fs & Fr & Ns). exists (s :: steps).
      split_and!; [done..| |lia]. constructor; [|done]. split; [by apply Ns|done].
    + intros (steps & E & N & Hs & B). apply H. destruct steps as [|s steps]; [done|]. injection E as ->.
      inversion_clear Hs as [|?? [Ns Fs] Fr]. by exists s, steps.
  - split; [done|]. intros ([|s steps] & E & N & _); [done|]. rewrite path_join_cons in E. by injection E as ->.
Qed.

(** The two patterns of the read-only part, in terms of the first step. *)
Lemma readonly_patterns s steps :
  Forall step_ok (s :: steps) ->
  path_join (s :: steps) = READONLY \/ take 10 (path_join (s :: steps)) = READONLY ++ [PATH_SEPARATOR] <-> s = readonly_step.
Proof.
  intros F. pose proof (path_steps_join _ F) as P. split.
  - intros [E|E].
    + rewrite E in P. by injection P.
    + rewrite <- (take_drop 10 (path_join (s :: steps))), E in P. by injection P.
  - intros ->. destruct steps as [|t steps]; [by left|right]. by rewrite !path_join_cons.
Qed.

Lemma validate_path_ok p :
  validate_path p = Ok tt <-> exists steps, path_of steps p /\ head steps <> Some readonly_step.
Proof.
  unfold validate_path. pose proof (validate_path_internal_spec p) as V.
  destruct (validate_path_internal p) as [[]|e].
  2: { split; [done|]. intros (steps & H & _). by assert (Err e = Ok tt) by (apply V; eauto). }
  destruct (proj1 V eq_refl) as ([|s steps] & E & N & F & B); [done|].
  pose proof (readonly_patterns s steps F) as R. rewrite <- E in R.
  assert (U : forall ss, path_of ss p -> ss = s :: steps).
  { intros ss H. apply path_of_steps in H as <-. rewrite E. by apply path_steps_join. }
  destruct (bool_decide_reflect (p = READONLY)) as [Q|Q];
    [|destruct (bool_decide_reflect (take 10 p = READONLY ++ [PATH_SEPARATOR])) as [T|T]]; cbn [orb].
  - split; [done|]. intros (ss & H & Hd). destruct Hd. apply U in H as ->. simpl. f_equal. by apply R; left.
  - split; [done|]. intros (ss & H & Hd). destruct Hd. apply U in H as ->. simpl. f_equal. by apply R; right.
  - split; [|done]. intros _. exists (s :: steps). split; [done|]. intros [= ->].
    destruct (proj2 R eq_refl); contradiction.
Qed.

Lemma last_join steps : steps <> [] -> Forall step_ok steps -> last (path_join steps) <> Some PATH_SEPARATOR.
Proof.
  intros N F. destruct (exists_last N) as (l & s & ->). apply Forall_app in F as [_ F].
  inversion_clear F as [|?? [Ns Fs] _]. rewrite path_join_app. cbn [path_join map concat]. rewrite app_nil_r.
  destruct (exists_last Ns) as (s' & b & ->). rewrite app_comm_cons, app_assoc, last_snoc.
  apply Forall_app in Fs as [_ Fs]. apply Forall_inv in Fs. intros [= ->]. by apply allowed_not_separator in Fs.
Qed.

(** The only fault of a long path is its length. *)
Lemma validate_path_too_long steps :
  steps <> [] -> Forall step_ok steps -> PATH_MAX_SIZE < Z.of_nat (length (path_join steps)) ->
  validate_path (path_join steps) = Err PathTooLong.
Proof.
  intros N F B. unfold validate_path, validate_path_internal. pose proof (last_join steps N F) as L.
  destruct (path_join steps) as [|c rest] eqn:E; [by vm_compute in B|].
  rewrite bool_decide_eq_false_2 by done. by rewrite (proj2 (Z.ltb_lt _ _) B).
Qed.

Lemma filter_separator s :
  Forall (fun b => is_allowed_step_byte b = true) s -> filter (fun b => b = PATH_SEPARATOR) s = [].
Proof.
  induction 1 as [|b s Hb _ IH]; [done|]. rewrite filter_cons_False; [done|].
  apply allowed_not_separator in Hb. lia.
Qed.

Lemma len_steps_join steps : Forall step_ok steps -> len_steps (path_join steps) = Z.of_nat (length steps).
Proof.
  unfold len_steps. induction 1 as [|s steps [_ Fs] _ IH]; [done|].
  rewrite path_join_cons, filter_cons_True, filter_app, filter_separator by done. simpl. lia.
Qed.

(** Validation of paths: [validate_path] accepts exactly the byte sequences
    [(/[A-Za-z0-9._-]+)+] of at most [PATH_MAX_SIZE] bytes whose first step is
    not [readonly]; the steps are determined by the bytes, and splitting the
    path gives them. *)
Theorem validate_path_spec p :
  (validate_path p = Ok tt <-> exists steps, path_of steps p /\ head steps <> Some readonly_step) /\
  (forall steps, path_of steps p -> path_steps p = steps /\ len_steps p = Z.of_nat (length steps)).
Proof.
  split; [apply validate_path_ok|]. intros steps H. split; [by apply path_of_steps|].
  destruct H as (-> & _ & F & _). by apply len_steps_join.
Qed.

(** Concatenation: the concatenation of two paths is the path of the steps
    of the first followed by those of the second, and it is refused exactly
    when it is too long; so what [concat] builds without checking would pass
    validation, and it is writable when the prefix is. *)
Theorem path_concat_spec l k p q :
  path_of l p -> path_of k q ->
  if decide (Z.of_nat (length (p ++ q)) <= PATH_MAX_SIZE)
  then path_concat p q = Ok (p ++ q) /\ path_of (l ++ k) (p ++ q) /\
       (validate_path p = Ok tt -> validate_path (p ++ q) = Ok tt)
  else path_concat p q = Err PathTooLong.
Proof.
  intros Hp Hq. unfold path_concat. destruct (decide _) as [B|B]; [|by rewrite (proj2 (Z.leb_nle _ _) B)].
  rewrite (proj2 (Z.leb_le _ _) B). destruct Hp as (Ep & Np & Fp & Bp), Hq as (Eq & Nq & Fq & Bq).
  assert (H : path_of (l ++ k) (p ++ q)).
  { subst. split_and!; [by rewrite path_join_app|by destruct l|by apply Forall_app|done]. }
  split_and!; [done..|]. intros V%validate_path_ok. apply validate_path_ok. destruct V as (l' & H' & Hd).
  exists (l ++ k). split; [done|]. apply path_of_steps in H' as <-. rewrite Ep, path_steps_join in Hd by done.
  by destruct l.
Qed.

(** [/a/b_1] and [/c.d]. *)
Lemma path_concat_spec_witness :
  path_concat [47; 97; 47; 98; 95; 49] [47; 99; 46; 100] = Ok [47; 97; 47; 98; 95; 49; 47; 99; 46; 100] /\
  path_of [[97]; [98; 95; 49]; [99; 46; 100]] [47; 97; 47; 98; 95; 49; 47; 99; 46; 100].
Proof.
  assert (Hp : path_of [[97]; [98; 95; 49]] [47; 97; 47; 98; 95; 49]) by (split_and!; [done..|repeat constructor|]; done).
  assert (Hq : path_of [[99; 46; 100]] [47; 99; 46; 100]) by (split_and!; [done..|repeat constructor|]; done).
  pose proof (path_concat_spec _ _ _ _ Hp Hq) as H. destruct H as (H1 & H2 & _). split; [exact H1|exact H2].
Defined.
