(* ===== verification/DurableStore.v ===== *)
(** The in-memory durable storage of kernels: error codes
    ([src/kernel_sdk/host/src/lib.rs], [constants/src/core.rs]), the tree of
    nodes ([mock/src/state/store.rs]) and the host functions over it
    ([mock/src/state/in_memory_store.rs]).  Kernels compiled for the RISC-V
    machine run on this storage ([entrypoint/src/host_in_memory_store.rs]).

    Paths and values are byte lists.  The reference-counted pointers of the
    source are copied before they are written to ([Rc::make_mut]), so the tree
    is a value. *)
From S2P Require Import Prelude Path.
#[local] Open Scope Z_scope.

(** ** Error codes *)

(* kernel_sdk/constants/src/core.rs:17-17 MAX_FILE_CHUNK_SIZE *)
Definition MAX_FILE_CHUNK_SIZE : Z := 2048.

(* kernel_sdk/constants/src/core.rs:60-60 VALUE_TYPE_NONE *)
Definition VALUE_TYPE_NONE : Z := 0.

(* kernel_sdk/constants/src/core.rs:63-63 VALUE_TYPE_VALUE *)
Definition VALUE_TYPE_VALUE : Z := 1.

(* kernel_sdk/constants/src/core.rs:66-66 VALUE_TYPE_SUBTREE *)
Definition VALUE_TYPE_SUBTREE : Z := 2.

(* kernel_sdk/constants/src/core.rs:69-69 VALUE_TYPE_VALUE_WITH_SUBTREE *)
Definition VALUE_TYPE_VALUE_WITH_SUBTREE : Z := 3.

(* kernel_sdk/host/src/lib.rs:34-62 Error *)
Inductive HostError : Set :=
| StoreKeyTooLarge | StoreInvalidKey | StoreNotAValue | StoreInvalidAccess | StoreValueSizeExceeded
| MemoryInvalidAccess | InputOutputTooLarge | GenericInvalidAccess | StoreReadonlyValue | StoreNotANode
| FullOutbox.

(** The discriminants are the constants of [constants/src/core.rs]. *)
(* kernel_sdk/host/src/lib.rs:124-126 code *)
Definition HostError_code (e : HostError) : Z :=
  match e with
  | StoreKeyTooLarge => -1
  | StoreInvalidKey => -2
  | StoreNotAValue => -3
  | StoreInvalidAccess => -4
  | StoreValueSizeExceeded => -5
  | MemoryInvalidAccess => -6
  | InputOutputTooLarge => -7
  | GenericInvalidAccess => -8
  | StoreReadonlyValue => -9
  | StoreNotANode => -10
  | FullOutbox => -11
  end.

(* kernel_sdk/host/src/lib.rs:82-101 From<i32> *)
Definition HostError_from (code : Z) : HostError :=
  match code with
  | -1 => StoreKeyTooLarge
  | -2 => StoreInvalidKey
  | -3 => StoreNotAValue
  | -5 => StoreValueSizeExceeded
  | -4 => StoreInvalidAccess
  | -6 => MemoryInvalidAccess
  | -7 => InputOutputTooLarge
  | -8 => GenericInvalidAccess
  | -9 => StoreReadonlyValue
  | -10 => StoreNotANode
  | -11 => FullOutbox
  | _ => GenericInvalidAccess
  end.

(** [i32::try_from] fails out of the range of [i32]. *)
(* kernel_sdk/host/src/lib.rs:103-110 From<i64> *)
Definition HostError_from_i64 (code : Z) : HostError :=
  if (- 2 ^ 31 <=? code) && (code <? 2 ^ 31) then HostError_from code else GenericInvalidAccess.

(* kernel_sdk/host/src/lib.rs:114-121 wrap *)
Definition HostError_wrap (code : Z) : result Z HostError :=
  if 0 <=? code then Ok code else Err (HostError_from code).

(** ** Nodes *)

(* kernel_sdk/mock/src/state/store.rs:21-25 Node *)
Inductive Node : Type := MkNode { value : option (list Z); inner : gmap (list Z) Node }.

Definition Node_default : Node := {| value := None; inner := ∅ |}.

(** The name [@]. *)
(* kernel_sdk/mock/src/state/store.rs:27-27 VALUE_NAME *)
Definition VALUE_NAME : list Z := [64].

(* kernel_sdk/mock/src/state/store.rs:66-75 node_from_path *)
Fixpoint node_from_path (n : Node) (steps : list (list Z)) : option Node :=
  match steps with
  | [] => Some n
  | next :: steps =>
      match n.(inner) !! next with
      | Some n => node_from_path n steps
      | None => None
      end
  end.

(** The tree after a function was applied through the mutable reference that
    [node_from_path_mut] gives; [None] when there is no node. *)
(* kernel_sdk/mock/src/state/store.rs:77-88 node_from_path_mut *)
Fixpoint node_from_path_mut (f : Node -> Node) (n : Node) (steps : list (list Z)) : option Node :=
  match steps with
  | [] => Some (f n)
  | next :: steps =>
      match n.(inner) !! next with
      | Some child =>
          match node_from_path_mut f child steps with
          | Some child => Some {| value := n.(value); inner := <[next := child]> n.(inner) |}
          | None => None
          end
      | None => None
      end
  end.

(* kernel_sdk/mock/src/state/store.rs:90-106 node_insert *)
Fixpoint node_insert (n : Node) (steps : list (list Z)) (insertee : Node) : Node :=
  match steps with
  | [] => insertee
  | next :: steps =>
      {| value := n.(value);
         inner := <[next := node_insert (default Node_default (n.(inner) !! next)) steps insertee]> n.(inner) |}
  end.

(** [node == Node::default()] *)
Definition is_default (n : Node) : bool := bool_decide (n.(value) = None) && bool_decide (n.(inner) = ∅).

Definition remove_child (last : list Z) (n : Node) : Node :=
  {| value := n.(value); inner := delete last n.(inner) |}.

(** The loop removes the last step from its parent, and goes on with the
    parent when that became empty; [rsteps] are the steps from the last to the
    first. *)
(* kernel_sdk/mock/src/state/store.rs:108-136 node_delete *)
Fixpoint node_delete_loop (n : Node) (rsteps : list (list Z)) : Node :=
  match rsteps with
  | [] => n
  | last :: rinit =>
      match node_from_path_mut (remove_child last) n (rev rinit) with
      | None => n
      | Some n =>
          match node_from_path n (rev rinit) with
          | Some parent => if is_default parent then node_delete_loop n rinit else n
          | None => n
          end
      end
  end.
Definition node_delete (n : Node) (steps : list (list Z)) : Node := node_delete_loop n (rev steps).

(* kernel_sdk/mock/src/state/store.rs:143-145 maybe_get_value *)
Definition maybe_get_value (n : Node) (steps : list (list Z)) : option (list Z) :=
  match node_from_path n steps with
  | Some n => n.(value)
  | None => None
  end.

(* kernel_sdk/mock/src/state/store.rs:170-174 has_entry *)
Definition has_entry (n : Node) (steps : list (list Z)) : bool :=
  match node_from_path n steps with
  | Some n => match n.(value) with Some _ => true | None => false end
  | None => false
  end.

(** A node with the given value, the name [@] among its children. *)
(* kernel_sdk/mock/src/state/store.rs:148-151 set_value *)
Definition with_value (v : list Z) (n : Node) : Node :=
  {| value := Some v; inner := <[VALUE_NAME := Node_default]> n.(inner) |}.

(* kernel_sdk/mock/src/state/store.rs:147-161 set_value *)
Definition set_value (n : Node) (steps : list (list Z)) (v : list Z) : Node :=
  match node_from_path_mut (with_value v) n steps with
  | Some n => n
  | None => node_insert n steps (with_value v Node_default)
  end.

(* kernel_sdk/mock/src/state/store.rs:163-168 delete_value *)
Definition delete_value (n : Node) (steps : list (list Z)) : Node :=
  match node_from_path_mut (fun n => {| value := None; inner := delete VALUE_NAME n.(inner) |}) n steps with
  | Some n => n
  | None => n
  end.

(** ** Host functions *)

(* kernel_sdk/mock/src/state/in_memory_store.rs:131-140 validate_path *)
Definition store_validate_path (s : list Z) : result (list Z) HostError :=
  match path_try_from s with
  | Err PathTooLong => Err StoreKeyTooLarge
  | Err _ => Err StoreInvalidKey
  | Ok _ => Ok s
  end.

(* kernel_sdk/mock/src/state/in_memory_store.rs:142-163 validate_path_maybe_readonly *)
Definition validate_path_maybe_readonly (s : list Z) : result (list Z) HostError :=
  let READONLY_PATH_SEGMENT := READONLY ++ [PATH_SEPARATOR] in
  let check to_check :=
    match path_try_from to_check with
    | Err PathTooLong => Err StoreKeyTooLarge
    | Err _ => Err StoreInvalidKey
    | Ok _ => Ok s
    end in
  if (length READONLY_PATH_SEGMENT <? length s)%nat
     && bool_decide (take (length READONLY_PATH_SEGMENT) s = READONLY_PATH_SEGMENT)
  then check (drop (length READONLY) s)
  else if bool_decide (s = READONLY) then Ok READONLY
  else check s.

(* kernel_sdk/mock/src/state/in_memory_store.rs:166-172 handle_store_list_size *)
Definition handle_store_list_size (n : Node) (prefix : list Z) : result Z HostError :=
  let? prefix := store_validate_path prefix in
  match node_from_path n (path_steps prefix) with
  | Some n => Ok (Z.of_nat (size n.(inner)))
  | None => Err StoreNotANode
  end.

(* kernel_sdk/mock/src/state/in_memory_store.rs:174-189 handle_store_has *)
Definition handle_store_has (n : Node) (raw_path : list Z) : result Z HostError :=
  let? path := store_validate_path raw_path in
  let has_value := has_entry n (path_steps path) in
  let has_subvalue :=
    Z.b2z has_value <? match handle_store_list_size n raw_path with Ok k => k | Err _ => 0 end in
  Ok (match has_value, has_subvalue with
      | false, false => VALUE_TYPE_NONE
      | true, false => VALUE_TYPE_VALUE
      | false, true => VALUE_TYPE_SUBTREE
      | true, true => VALUE_TYPE_VALUE_WITH_SUBTREE
      end).

(* kernel_sdk/mock/src/state/in_memory_store.rs:191-216 handle_store_read *)
Definition handle_store_read (n : Node) (path : list Z) (offset max_bytes : Z) : result (list Z) HostError :=
  let? path := validate_path_maybe_readonly path in
  match maybe_get_value n (path_steps path) with
  | None => Err StoreNotAValue
  | Some bytes =>
      let len := Z.of_nat (length bytes) in
      if len <? offset then Err StoreInvalidAccess
      else
        let num_bytes := Z.min MAX_FILE_CHUNK_SIZE (Z.min max_bytes (len - offset)) in
        Ok (take (Z.to_nat num_bytes) (drop (Z.to_nat offset) bytes))
  end.

(** What a write of [bytes] at [offset] makes of a value: spliced in when they
    fit, else the value is cut at the offset and extended. *)
(* kernel_sdk/mock/src/state/in_memory_store.rs:236-245 handle_store_write *)
Definition splice (v : list Z) (offset : Z) (bytes : list Z) : list Z :=
  let n := Z.of_nat (length bytes) in
  let len := Z.of_nat (length v) in
  if (offset <? len) && (offset + n <=? len)
  then take (Z.to_nat offset) v ++ bytes ++ drop (Z.to_nat (offset + n)) v
  else take (Z.to_nat offset) v ++ bytes.

(* kernel_sdk/mock/src/state/in_memory_store.rs:218-250 handle_store_write *)
Definition handle_store_write (n : Node) (path : list Z) (offset : Z) (bytes : list Z) :
  result Node HostError :=
  if MAX_FILE_CHUNK_SIZE <? Z.of_nat (length bytes) then Err InputOutputTooLarge
  else
    let? path := store_validate_path path in
    let v := default [] (maybe_get_value n (path_steps path)) in
    if Z.of_nat (length v) <? offset then Err StoreInvalidAccess
    else Ok (set_value n (path_steps path) (splice v offset bytes)).

(* kernel_sdk/mock/src/state/in_memory_store.rs:252-257 handle_store_delete *)
Definition handle_store_delete (n : Node) (prefix : list Z) : result Node HostError :=
  let? prefix := store_validate_path prefix in Ok (node_delete n (path_steps prefix)).

(* kernel_sdk/mock/src/state/in_memory_store.rs:259-267 handle_store_delete_value *)
Definition handle_store_delete_value (n : Node) (prefix : list Z) : result Node HostError :=
  let? prefix := store_validate_path prefix in Ok (delete_value n (path_steps prefix)).

(* kernel_sdk/mock/src/state/in_memory_store.rs:269-287 handle_store_move *)
Definition handle_store_move (n : Node) (from_path to_path : list Z) : result Node HostError :=
  let? from := store_validate_path from_path in
  let? to := store_validate_path to_path in
  match node_from_path n (path_steps from) with
  | None => Err StoreNotANode
  | Some from_node => Ok (node_insert (node_delete n (path_steps from)) (path_steps to) from_node)
  end.

(* kernel_sdk/mock/src/state/in_memory_store.rs:289-306 handle_store_copy *)
Definition handle_store_copy (n : Node) (from_path to_path : list Z) : result Node HostError :=
  let? from := store_validate_path from_path in
  let? to := store_validate_path to_path in
  match node_from_path n (path_steps from) with
  | None => Err StoreNotANode
  | Some from_node => Ok (node_insert n (path_steps to) from_node)
  end.

(* kernel_sdk/mock/src/state/in_memory_store.rs:308-314 handle_store_value_size *)
Definition handle_store_value_size (n : Node) (path : list Z) : result Z HostError :=
  let? path := store_validate_path path in
  match maybe_get_value n (path_steps path) with
  | None => Err StoreNotAValue
  | Some bytes => Ok (as_i32 (Z.of_nat (length bytes)))
  end.

(** ** The interface of hosts *)

(** The storage part of [SmartRollupCore]: each function takes its buffers by
    value and gives its status, with the bytes it writes to the destination
    and the state of the host. *)
(* kernel_sdk/core/src/smart_rollup_core.rs:108-307 SmartRollupCore *)
Class SmartRollupCore (H : Type) : Type := {
  core_store_has : H -> list Z -> Z;
  core_store_read : H -> list Z -> Z -> Z -> Z * list Z;
  core_store_write : H -> list Z -> Z -> list Z -> Z * H;
  core_store_delete : H -> list Z -> Z * H;
  core_store_delete_value : H -> list Z -> Z * H;
  core_store_list_size : H -> list Z -> Z;
  core_store_move : H -> list Z -> list Z -> Z * H;
  core_store_copy : H -> list Z -> list Z -> Z * H;
  core_store_value_size : H -> list Z -> Z;
}.

(** A changed state with status zero, or an error code and the state as it was. *)
(* kernel_sdk/mock/src/state/in_memory_store.rs:66-68 store_write *)
Definition core_status {A} (r : result A HostError) (s : A) : Z * A :=
  match r with
  | Ok s => (0, s)
  | Err e => (HostError_code e, s)
  end.

Definition code_of (r : result Z HostError) : Z :=
  match r with Ok k => k | Err e => HostError_code e end.

(* kernel_sdk/mock/src/state/in_memory_store.rs:25-129 InMemoryStore *)
#[export] Instance InMemoryStore : SmartRollupCore Node := {|
  core_store_has n path := code_of (handle_store_has n path);
  core_store_read n path offset max_bytes :=
    match handle_store_read n path offset max_bytes with
    | Ok bytes => (Z.of_nat (length bytes), bytes)
    | Err e => (HostError_code e, [])
    end;
  core_store_write n path offset src := core_status (handle_store_write n path offset src) n;
  core_store_delete n path := core_status (handle_store_delete n path) n;
  core_store_delete_value n path := core_status (handle_store_delete_value n path) n;
  core_store_list_size n path := code_of (handle_store_list_size n path);
  core_store_move n from to := core_status (handle_store_move n from to) n;
  core_store_copy n from to := core_status (handle_store_copy n from to) n;
  core_store_value_size n path := code_of (handle_store_value_size n path);
|}.
