(* ===== verification/DurableStoreSpec.v ===== *)
(** The durable storage: what each host function does to the values, the
    invariant of the tree, and the laws the storage promises to kernels. *)
From S2P Require Import Prelude Path PathSpec DurableStore.
#[local] Open Scope Z_scope.

(** ** Values of a tree *)

Lemma node_from_path_app n l k :
  node_from_path n (l ++ k) = match node_from_path n l with Some m => node_from_path m k | None => None end.
Proof. revert n. induction l as [|s l IH]; intros n; [done|]. simpl. by destruct (inner n !! s). Qed.

Lemma value_app n l k :
  maybe_get_value n (l ++ k) = match node_from_path n l with Some m => maybe_get_value m k | None => None end.
Proof. unfold maybe_get_value. rewrite node_from_path_app. by destruct (node_from_path n l). Qed.

Lemma value_cons n s l :
  maybe_get_value n (s :: l) = match inner n !! s with Some m => maybe_get_value m l | None => None end.
Proof. unfold maybe_get_value. simpl. by destruct (inner n !! s). Qed.

Lemma default_no_value l : maybe_get_value Node_default l = None.
Proof. by destruct l. Qed.

Lemma is_default_eq n : is_default n = true -> n = Node_default.
Proof.
  unfold is_default. destruct n as [v i]. simpl. intros [H1 H2]%andb_true_iff. apply bool_decide_eq_true in H1, H2. by subst.
Qed.

(** Changing a node through a mutable reference is inserting the changed node. *)
Lemma mut_insert f n l :
  node_from_path_mut f n l = option_map (fun m => node_insert n l (f m)) (node_from_path n l).
Proof.
  revert n. induction l as [|s l IH]; intros n; [done|]. simpl. destruct (inner n !! s) as [m|] eqn:E; [|done].
  rewrite IH. by destruct (node_from_path m l).
Qed.

Lemma node_insert_lookup n l x k : node_from_path (node_insert n l x) (l ++ k) = node_from_path x k.
Proof. revert n. induction l as [|s l IH]; intros n; [done|]. simpl. by rewrite lookup_insert_eq. Qed.

Lemma value_insert_below n l x k : maybe_get_value (node_insert n l x) (l ++ k) = maybe_get_value x k.
Proof. unfold maybe_get_value. by rewrite node_insert_lookup. Qed.

Lemma value_insert_other n l x q :
  ~ l `prefix_of` q -> maybe_get_value (node_insert n l x) q = maybe_get_value n q.
Proof.
  revert n q. induction l as [|s l IH]; intros n q P; [by destruct P; apply prefix_nil|].
  destruct q as [|t q]; [done|]. rewrite !value_cons. simpl. destruct (decide (s = t)) as [->|N].
  - rewrite lookup_insert_eq, IH.
    + by destruct (inner n !! t); [|rewrite default_no_value].
    + intros Q. apply P. by apply prefix_cons.
  - by rewrite lookup_insert_ne by done.
Qed.

(** ** The operations *)

(** Two paths of valid steps; the name [@] is not one of them. *)
Abbreviation steps_ok := (Forall step_ok).

Lemma step_not_value_name s : step_ok s -> s <> VALUE_NAME.
Proof. intros [_ F] ->. by inversion F. Qed.

Lemma set_value_insert n l v :
  set_value n l v = node_insert n l (with_value v (default Node_default (node_from_path n l))).
Proof. unfold set_value. rewrite mut_insert. by destruct (node_from_path n l). Qed.

Lemma value_with_value v n q :
  steps_ok q -> maybe_get_value (with_value v n) q = if decide (q = []) then Some v else maybe_get_value n q.
Proof.
  intros F. destruct q as [|s q]; [done|]. rewrite !value_cons. simpl.
  rewrite lookup_insert_ne; [done|]. symmetry. apply step_not_value_name. by inversion F.
Qed.

Lemma value_set_value n l v q :
  steps_ok q -> maybe_get_value (set_value n l v) q = if decide (q = l) then Some v else maybe_get_value n q.
Proof.
  intros F. rewrite set_value_insert. destruct (decide (l `prefix_of` q)) as [[k ->]|P].
  - apply Forall_app in F as [_ F]. rewrite value_insert_below, value_with_value, value_app by done.
    destruct (decide (k = [])) as [->|N].
    + by rewrite app_nil_r, decide_True.
    + rewrite decide_False by (intros E; apply N; by apply (app_inv_head l); rewrite app_nil_r).
      by destruct (node_from_path n l); [|rewrite default_no_value].
  - rewrite value_insert_other by done. rewrite decide_False; [done|]. intros ->. by apply P.
Qed.

Definition without_value (n : Node) : Node := {| value := None; inner := delete VALUE_NAME n.(inner) |}.

Lemma delete_value_insert n l :
  delete_value n l = match node_from_path n l with Some m => node_insert n l (without_value m) | None => n end.
Proof. unfold delete_value. rewrite mut_insert. by destruct (node_from_path n l). Qed.

Lemma value_without_value n q :
  steps_ok q -> maybe_get_value (without_value n) q = if decide (q = []) then None else maybe_get_value n q.
Proof.
  intros F. destruct q as [|s q]; [done|]. rewrite !value_cons. simpl.
  rewrite lookup_delete_ne; [done|]. symmetry. apply step_not_value_name. by inversion F.
Qed.

Lemma value_delete_value n l q :
  steps_ok q -> maybe_get_value (delete_value n l) q = if decide (q = l) then None else maybe_get_value n q.
Proof.
  intros F. rewrite delete_value_insert. destruct (node_from_path n l) as [m|] eqn:E.
  - destruct (decide (l `prefix_of` q)) as [[k ->]|P].
    + apply Forall_app in F as [_ F]. rewrite value_insert_below, value_without_value, value_app, E by done.
      destruct (decide (k = [])) as [->|N]; [by rewrite app_nil_r, decide_True|].
      rewrite decide_False; [done|]. intros X. apply N. by apply (app_inv_head l); rewrite app_nil_r.
    + rewrite value_insert_other by done. rewrite decide_False; [done|]. intros ->. by apply P.
  - destruct (decide (q = l)) as [->|]; [|done]. unfold maybe_get_value. by rewrite E.
Qed.

(** Removing a child. *)
Lemma value_remove_child s n q :
  maybe_get_value (remove_child s n) q =
  if decide ([s] `prefix_of` q) then None else maybe_get_value n q.
Proof.
  destruct q as [|t q].
  { rewrite decide_False; [done|]. intros [k Hk]. done. }
  rewrite !value_cons. simpl. destruct (decide (s = t)) as [->|N].
  - rewrite lookup_delete_eq, decide_True; [done|]. by exists q.
  - rewrite lookup_delete_ne, decide_False; [done| |done]. by intros [k [= ->]].
Qed.

Lemma value_insert_remove n l s m q :
  node_from_path n l = Some m ->
  maybe_get_value (node_insert n l (remove_child s m)) q =
  if decide (l ++ [s] `prefix_of` q) then None else maybe_get_value n q.
Proof.
  intros E. destruct (decide (l `prefix_of` q)) as [[k ->]|P].
  - rewrite value_insert_below, value_remove_child, value_app, E.
    destruct (decide ([s] `prefix_of` k)) as [H|H].
    + by rewrite decide_True by by apply prefix_app.
    + rewrite decide_False; [done|]. intros X. apply H. by apply prefix_app_inv in X.
  - rewrite value_insert_other, decide_False; [done| |done]. intros X. apply P.
    by transitivity (l ++ [s]); [apply prefix_app_r|].
Qed.

Lemma value_delete_loop rl : forall n q,
  maybe_get_value (node_delete_loop n rl) q =
  match rl with
  | [] => maybe_get_value n q
  | _ => if decide (rev rl `prefix_of` q) then None else maybe_get_value n q
  end.
Proof.
  induction rl as [|s rl IH]; intros n q; [done|]. cbn [node_delete_loop rev]. rewrite mut_insert.
  destruct (node_from_path n (rev rl)) as [m|] eqn:E; cbn [option_map].
  - rewrite <- (value_insert_remove n (rev rl) s m q E). set (n' := node_insert _ _ _).
    assert (E' : node_from_path n' (rev rl) = Some (remove_child s m)).
    { unfold n'. rewrite <- (app_nil_r (rev rl)) at 2. by rewrite node_insert_lookup. }
    rewrite E'. destruct (is_default _) eqn:D; [|done]. apply is_default_eq in D. rewrite IH.
    destruct rl as [|t rl]; [done|]. destruct (decide _) as [[k ->]|]; [|done].
    by rewrite value_app, E', D, default_no_value.
  - destruct (decide _) as [[k ->]|]; [|done]. by rewrite <- app_assoc, value_app, E.
Qed.

Lemma value_node_delete n l q :
  l <> [] -> maybe_get_value (node_delete n l) q = if decide (l `prefix_of` q) then None else maybe_get_value n q.
Proof.
  intros N. unfold node_delete. rewrite value_delete_loop, rev_involutive.
  destruct (rev l) eqn:E; [|done]. destruct N. by rewrite <- (rev_involutive l), E.
Qed.

(** ** The invariant *)

(** The name [@] is a child exactly of the nodes with a value: the count of the
    children of a node includes its value.  The other children have the names
    of steps. *)
Definition at_ok (n : Node) : Prop :=
  (is_Some (n.(inner) !! VALUE_NAME) <-> is_Some n.(value)) /\
  forall s, is_Some (n.(inner) !! s) -> s = VALUE_NAME \/ step_ok s.

Definition node_wf (n : Node) : Prop :=
  forall l m, steps_ok l -> node_from_path n l = Some m -> at_ok m.

Lemma node_wf_cons n :
  node_wf n <-> at_ok n /\ forall s m, step_ok s -> n.(inner) !! s = Some m -> node_wf m.
Proof.
  split.
  - intros W. split; [by apply (W [] n)|]. intros s m Hs E l m' Hl E'. apply (W (s :: l)); [by constructor|].
    simpl. by rewrite E.
  - intros [A C] [|s l] m Hl E; [by injection E as <-|]. simpl in E.
    destruct (n.(inner) !! s) as [m'|] eqn:E'; [|done]. inversion_clear Hl. by eapply (C s m').
Qed.

Lemma Node_default_wf : node_wf Node_default.
Proof. apply node_wf_cons. split; [|done]. split; [by split; intros [? ?]|by intros s [? ?]]. Qed.

Lemma node_wf_child n l m : node_wf n -> steps_ok l -> node_from_path n l = Some m -> node_wf m.
Proof.
  intros W Hl E k m' Hk E'. apply (W (l ++ k)); [by apply Forall_app|]. by rewrite node_from_path_app, E.
Qed.

Lemma node_insert_wf n l x : node_wf n -> node_wf x -> steps_ok l -> node_wf (node_insert n l x).
Proof.
  intros W X Hl. revert n W. induction Hl as [|s l Hs _ IH]; intros n W; [done|].
  apply node_wf_cons in W as [A C]. apply node_wf_cons. split.
  - destruct A as [A K]. split; simpl.
    + rewrite lookup_insert_ne; [done|]. by apply step_not_value_name.
    + intros t [c [[-> _]|[_ E]]%lookup_insert_Some]; [by right|apply K; by exists c].
  - simpl. intros t m Ht [[-> <-]|[N E]]%lookup_insert_Some; [|by apply (C t)].
    apply IH. destruct (inner n !! t) as [m'|] eqn:E; [by apply (C t)|apply Node_default_wf].
Qed.

Lemma with_value_wf v n : node_wf n -> node_wf (with_value v n).
Proof.
  intros [[_ K] C]%node_wf_cons. apply node_wf_cons. split.
  - split; simpl.
    + split; intros _; [done|]. by rewrite lookup_insert_eq.
    + intros t [c [[-> _]|[_ E]]%lookup_insert_Some]; [by left|apply K; by exists c].
  - simpl. intros s m Hs. rewrite lookup_insert_ne by (symmetry; by apply step_not_value_name). by apply C.
Qed.

Lemma without_value_wf n : node_wf n -> node_wf (without_value n).
Proof.
  intros [[_ K] C]%node_wf_cons. apply node_wf_cons. split.
  - split; simpl.
    + rewrite lookup_delete_eq. by split; intros [? ?].
    + intros t [c [_ E]%lookup_delete_Some]. apply K. by exists c.
  - simpl. intros s m Hs. rewrite lookup_delete_ne by (symmetry; by apply step_not_value_name). by apply C.
Qed.

Lemma remove_child_wf s n : step_ok s -> node_wf n -> node_wf (remove_child s n).
Proof.
  intros Hs [[A K] C]%node_wf_cons. apply node_wf_cons. split.
  - split; simpl.
    + rewrite lookup_delete_ne; [done|]. by apply step_not_value_name.
    + intros t [c [_ E]%lookup_delete_Some]. apply K. by exists c.
  - simpl. intros t m Ht [_ E]%lookup_delete_Some. by apply (C t).
Qed.

Lemma set_value_wf n l v : node_wf n -> steps_ok l -> node_wf (set_value n l v).
Proof.
  intros W Hl. rewrite set_value_insert. apply node_insert_wf; [done| |done]. apply with_value_wf.
  destruct (node_from_path n l) as [m|] eqn:E; [by eapply node_wf_child|apply Node_default_wf].
Qed.

Lemma delete_value_wf n l : node_wf n -> steps_ok l -> node_wf (delete_value n l).
Proof.
  intros W Hl. rewrite delete_value_insert. destruct (node_from_path n l) as [m|] eqn:E; [|done].
  apply node_insert_wf; [done| |done]. apply without_value_wf. by eapply node_wf_child.
Qed.

Lemma delete_loop_wf rl : forall n, node_wf n -> steps_ok rl -> node_wf (node_delete_loop n rl).
Proof.
  induction rl as [|s rl IH]; intros n W F; [done|]. inversion_clear F as [|?? Hs Hl].
  assert (Hr : steps_ok (rev rl)) by by apply Forall_rev.
  cbn [node_delete_loop]. rewrite mut_insert. destruct (node_from_path n (rev rl)) as [m|] eqn:E; [|done].
  cbn [option_map]. assert (W' : node_wf (node_insert n (rev rl) (remove_child s m))).
  { apply node_insert_wf; [done| |done]. apply remove_child_wf; [done|]. by eapply node_wf_child. }
  set (n' := node_insert _ _ _) in *. destruct (node_from_path n' (rev rl)); [|done].
  destruct (is_default _); [by apply IH|done].
Qed.

Lemma node_delete_wf n l : node_wf n -> steps_ok l -> node_wf (node_delete n l).
Proof. intros W F. apply delete_loop_wf; [done|]. by apply Forall_rev. Qed.

(** ** Existence *)

(** More children than the value: the test of [handle_store_has]. *)
Definition has_children (n : Node) (l : list (list Z)) : bool :=
  match node_from_path n l with
  | Some m => Z.b2z (has_entry n l) <? Z.of_nat (size m.(inner))
  | None => false
  end.

Lemma has_entry_value n l : has_entry n l = match maybe_get_value n l with Some _ => true | None => false end.
Proof. unfold has_entry, maybe_get_value. by destruct (node_from_path n l). Qed.

(** A value below is a child, and so is the name [@] when there is a value. *)
Lemma value_below_child n l k :
  node_wf n -> steps_ok (l ++ k) -> k <> [] -> is_Some (maybe_get_value n (l ++ k)) -> has_children n l = true.
Proof.
  intros W [Hl Hk]%Forall_app Nk. rewrite value_app. unfold has_children, has_entry.
  destruct (node_from_path n l) as [m|] eqn:E; [|by intros []]. destruct k as [|s k]; [done|].
  rewrite value_cons. destruct (inner m !! s) as [c|] eqn:C; [|by intros []]. intros _.
  pose proof (W l m Hl E) as A. inversion_clear Hk as [|?? Hs _]. apply step_not_value_name in Hs.
  apply Z.ltb_lt. rewrite <- (insert_delete_id _ _ _ C), map_size_insert_None by by rewrite lookup_delete_eq.
  destruct (value m) as [v|] eqn:V; [|cbn [Z.b2z]; rewrite Nat2Z.inj_succ; lia].
  destruct (proj2 (proj1 A) (mk_is_Some _ _ V)) as [c' C'].
  rewrite <- (lookup_delete_ne _ s) in C' by done.
  rewrite <- (insert_delete_id _ _ _ C'), map_size_insert_None by by rewrite lookup_delete_eq. cbn [Z.b2z]. lia.
Qed.

Lemma store_validate_ok l p : path_of l p -> head l <> Some readonly_step -> store_validate_path p = Ok p /\ path_steps p = l.
Proof.
  intros P R. split; [|by apply path_of_steps]. unfold store_validate_path, path_try_from.
  assert (V : validate_path p = Ok tt) by (apply validate_path_ok; eauto). by rewrite V.
Qed.

(** A value that is read may be below [/readonly]. *)
Lemma maybe_readonly_ok l p : path_of l p -> head l <> Some readonly_step -> validate_path_maybe_readonly p = Ok p.
Proof.
  intros P R. pose proof (store_validate_ok l p P R) as [V _]. unfold store_validate_path in V.
  unfold validate_path_maybe_readonly. destruct P as (E & N & F & B). destruct l as [|s l]; [done|].
  pose proof (readonly_patterns s l F) as [Q _]. rewrite <- E in Q.
  rewrite (bool_decide_eq_false_2 (take _ p = _)) by (intros T; apply R; simpl; f_equal; apply Q; by right).
  rewrite andb_false_r, bool_decide_eq_false_2; [done|]. intros T. apply R. simpl. f_equal. apply Q. by left.
Qed.

(** ** The laws of a storage *)

Definition writable (l : list (list Z)) (p : list Z) : Prop := path_of l p /\ head l <> Some readonly_step.

(** The code of a value and of a subtree. *)
Definition value_type (has_value has_subvalue : bool) : Z := Z.b2z has_value + 2 * Z.b2z has_subvalue.

Definition has_val {A} (o : option A) : bool := match o with Some _ => true | None => false end.

(** What a storage promises about the values at paths of valid steps, in terms
    of the values before.  A path may exist without a value at or below it. *)
Class StoreLaws (H : Type) `{SmartRollupCore H} : Type := {
  store_wf : H -> Prop;
  val : H -> list (list Z) -> option (list Z);
  law_has h l p : store_wf h -> writable l p ->
    exists below, core_store_has h p = value_type (has_val (val h l)) below /\
      forall k, k <> [] -> steps_ok k -> is_Some (val h (l ++ k)) -> below = true;
  law_read h l p offset max_bytes : store_wf h -> writable l p -> 0 <= offset -> 0 <= max_bytes ->
    core_store_read h p offset max_bytes =
    match val h l with
    | None => (HostError_code StoreNotAValue, [])
    | Some v =>
        if Z.of_nat (length v) <? offset then (HostError_code StoreInvalidAccess, [])
        else
          let k := Z.min MAX_FILE_CHUNK_SIZE (Z.min max_bytes (Z.of_nat (length v) - offset)) in
          (k, take (Z.to_nat k) (drop (Z.to_nat offset) v))
    end;
  law_write h l p offset bytes : store_wf h -> writable l p -> 0 <= offset ->
    Z.of_nat (length bytes) <= MAX_FILE_CHUNK_SIZE ->
    let v := default [] (val h l) in
    if Z.of_nat (length v) <? offset then core_store_write h p offset bytes = (HostError_code StoreInvalidAccess, h)
    else exists h', core_store_write h p offset bytes = (0, h') /\ store_wf h' /\
      forall q, steps_ok q -> val h' q = if decide (q = l) then Some (splice v offset bytes) else val h q;
  law_delete h l p : store_wf h -> writable l p ->
    exists h', core_store_delete h p = (0, h') /\ store_wf h' /\
      forall q, steps_ok q -> val h' q = if decide (l `prefix_of` q) then None else val h q;
  law_delete_value h l p : store_wf h -> writable l p ->
    exists h', core_store_delete_value h p = (0, h') /\ store_wf h' /\
      forall q, steps_ok q -> val h' q = if decide (q = l) then None else val h q;
  law_copy h l p k q : store_wf h -> writable l p -> writable k q ->
    (exists h', core_store_copy h p q = (0, h') /\ store_wf h' /\
       (forall r, steps_ok r -> val h' (k ++ r) = val h (l ++ r)) /\
       forall r, steps_ok r -> ~ k `prefix_of` r -> val h' r = val h r) \/
    core_store_copy h p q = (HostError_code StoreNotANode, h) /\ core_store_has h p = VALUE_TYPE_NONE;
  law_move h l p k q : store_wf h -> writable l p -> writable k q ->
    (exists h', core_store_move h p q = (0, h') /\ store_wf h' /\
       (forall r, steps_ok r -> val h' (k ++ r) = val h (l ++ r)) /\
       forall r, steps_ok r -> ~ k `prefix_of` r -> val h' r = if decide (l `prefix_of` r) then None else val h r) \/
    core_store_move h p q = (HostError_code StoreNotANode, h) /\ core_store_has h p = VALUE_TYPE_NONE;
  law_value_size h l p : store_wf h -> writable l p ->
    core_store_value_size h p =
    match val h l with
    | None => HostError_code StoreNotAValue
    | Some v => as_i32 (Z.of_nat (length v))
    end;
}.

Lemma writable_steps l p : writable l p -> steps_ok l /\ l <> [].
Proof. by intros [(_ & N & F & _) _]. Qed.

Section laws.
Context (n : Node) (l : list (list Z)) (p : list Z) (W : node_wf n) (P : writable l p).

Lemma has_children_code : core_store_has n p = value_type (has_val (maybe_get_value n l)) (has_children n l).
Proof.
  destruct (store_validate_ok l p (proj1 P) (proj2 P)) as [V E].
  cbn. unfold handle_store_has. rewrite V. cbn [result_bind]. rewrite E. unfold handle_store_list_size.
  rewrite V. cbn [result_bind]. rewrite E, has_entry_value. unfold has_children. rewrite has_entry_value.
  destruct (node_from_path n l) as [m|] eqn:Nm.
  - by destruct (maybe_get_value n l); cbn [has_val Z.b2z]; destruct (_ <? _).
  - unfold maybe_get_value. by rewrite Nm.
Qed.

Lemma store_has_law :
  exists below, core_store_has n p = value_type (has_val (maybe_get_value n l)) below /\
    forall k, k <> [] -> steps_ok k -> is_Some (maybe_get_value n (l ++ k)) -> below = true.
Proof.
  exists (has_children n l). split; [apply has_children_code|].
  intros k Nk Hk S. apply (value_below_child n l k); [done| |done..].
  apply Forall_app. split; [|done]. by destruct (writable_steps l p P).
Qed.

Lemma store_read_law offset max_bytes :
  0 <= offset -> 0 <= max_bytes ->
  core_store_read n p offset max_bytes =
  match maybe_get_value n l with
  | None => (HostError_code StoreNotAValue, [])
  | Some v =>
      if Z.of_nat (length v) <? offset then (HostError_code StoreInvalidAccess, [])
      else
        let k := Z.min MAX_FILE_CHUNK_SIZE (Z.min max_bytes (Z.of_nat (length v) - offset)) in
        (k, take (Z.to_nat k) (drop (Z.to_nat offset) v))
  end.
Proof.
  intros Ho Hm. cbn. unfold handle_store_read. rewrite (maybe_readonly_ok l p (proj1 P) (proj2 P)). cbn [result_bind].
  rewrite (path_of_steps l p (proj1 P)). destruct (maybe_get_value n l) as [v|]; [|done].
  destruct (Z.ltb_spec (Z.of_nat (length v)) offset); [done|]. cbn zeta. f_equal.
  rewrite length_take, length_drop. unfold MAX_FILE_CHUNK_SIZE. lia.
Qed.

Lemma store_write_law offset bytes :
  Z.of_nat (length bytes) <= MAX_FILE_CHUNK_SIZE ->
  let v := default [] (maybe_get_value n l) in
  if Z.of_nat (length v) <? offset then core_store_write n p offset bytes = (HostError_code StoreInvalidAccess, n)
  else exists n', core_store_write n p offset bytes = (0, n') /\ node_wf n' /\
    forall q, steps_ok q ->
      maybe_get_value n' q = if decide (q = l) then Some (splice v offset bytes) else maybe_get_value n q.
Proof.
  intros B v. destruct (store_validate_ok l p (proj1 P) (proj2 P)) as [V E]. destruct (writable_steps l p P) as [Hl _].
  cbn. unfold handle_store_write. rewrite (proj2 (Z.ltb_ge _ _) B), V. cbn [result_bind]. rewrite E. fold v.
  destruct (Z.ltb_spec (Z.of_nat (length v)) offset); [done|]. eexists. split; [done|].
  split; [by apply set_value_wf|]. intros q Hq. by apply value_set_value.
Qed.

Lemma store_delete_law :
  exists n', core_store_delete n p = (0, n') /\ node_wf n' /\
    forall q, steps_ok q -> maybe_get_value n' q = if decide (l `prefix_of` q) then None else maybe_get_value n q.
Proof.
  destruct (store_validate_ok l p (proj1 P) (proj2 P)) as [V E]. destruct (writable_steps l p P) as [Hl Nl].
  cbn. unfold handle_store_delete. rewrite V. cbn [result_bind]. rewrite E. eexists. split; [done|].
  split; [by apply node_delete_wf|]. intros q _. by apply value_node_delete.
Qed.

Lemma store_delete_value_law :
  exists n', core_store_delete_value n p = (0, n') /\ node_wf n' /\
    forall q, steps_ok q -> maybe_get_value n' q = if decide (q = l) then None else maybe_get_value n q.
Proof.
  destruct (store_validate_ok l p (proj1 P) (proj2 P)) as [V E]. destruct (writable_steps l p P) as [Hl Nl].
  cbn. unfold handle_store_delete_value. rewrite V. cbn [result_bind]. rewrite E. eexists. split; [done|].
  split; [by apply delete_value_wf|]. intros q Hq. by apply value_delete_value.
Qed.

Lemma store_value_size_law :
  core_store_value_size n p =
  match maybe_get_value n l with
  | None => HostError_code StoreNotAValue
  | Some v => as_i32 (Z.of_nat (length v))
  end.
Proof.
  destruct (store_validate_ok l p (proj1 P) (proj2 P)) as [V E]. cbn. unfold handle_store_value_size.
  rewrite V. cbn [result_bind]. rewrite E. by destruct (maybe_get_value n l).
Qed.

Context (k : list (list Z)) (q : list Z) (Q : writable k q).

Lemma no_node_none : node_from_path n l = None -> core_store_has n p = VALUE_TYPE_NONE.
Proof.
  intros M. destruct (store_validate_ok l p (proj1 P) (proj2 P)) as [V E]. cbn. unfold handle_store_has, handle_store_list_size.
  rewrite V. cbn [result_bind]. rewrite E, has_entry_value. unfold maybe_get_value. by rewrite M.
Qed.

Lemma store_copy_law :
  (exists n', core_store_copy n p q = (0, n') /\ node_wf n' /\
     (forall r, steps_ok r -> maybe_get_value n' (k ++ r) = maybe_get_value n (l ++ r)) /\
     forall r, steps_ok r -> ~ k `prefix_of` r -> maybe_get_value n' r = maybe_get_value n r) \/
  core_store_copy n p q = (HostError_code StoreNotANode, n) /\ core_store_has n p = VALUE_TYPE_NONE.
Proof.
  destruct (store_validate_ok l p (proj1 P) (proj2 P)) as [V E], (store_validate_ok k q (proj1 Q) (proj2 Q)) as [V' E'].
  destruct (writable_steps l p P) as [Hl _], (writable_steps k q Q) as [Hk _].
  cbn. unfold handle_store_copy. rewrite V, V'. cbn [result_bind]. rewrite E, E'.
  destruct (node_from_path n l) as [m|] eqn:M; [left|right; split; [done|by apply no_node_none]].
  eexists. split; [done|]. split; [apply node_insert_wf; [done| |done]; by apply (node_wf_child n l)|]. split.
  - intros r _. by rewrite value_insert_below, value_app, M.
  - intros r _ N. by apply value_insert_other.
Qed.

Lemma store_move_law :
  (exists n', core_store_move n p q = (0, n') /\ node_wf n' /\
     (forall r, steps_ok r -> maybe_get_value n' (k ++ r) = maybe_get_value n (l ++ r)) /\
     forall r, steps_ok r -> ~ k `prefix_of` r ->
       maybe_get_value n' r = if decide (l `prefix_of` r) then None else maybe_get_value n r) \/
  core_store_move n p q = (HostError_code StoreNotANode, n) /\ core_store_has n p = VALUE_TYPE_NONE.
Proof.
  destruct (store_validate_ok l p (proj1 P) (proj2 P)) as [V E], (store_validate_ok k q (proj1 Q) (proj2 Q)) as [V' E'].
  destruct (writable_steps l p P) as [Hl Nl], (writable_steps k q Q) as [Hk _].
  cbn. unfold handle_store_move. rewrite V, V'. cbn [result_bind]. rewrite E, E'.
  destruct (node_from_path n l) as [m|] eqn:M; [left|right; split; [done|by apply no_node_none]].
  eexists. split; [done|].
  split; [apply node_insert_wf; [by apply node_delete_wf| |done]; by apply (node_wf_child n l)|]. split.
  - intros r _. by rewrite value_insert_below, value_app, M.
  - intros r _ N. rewrite value_insert_other by done. by apply value_node_delete.
Qed.
End laws.

#[export] Instance InMemoryStoreLaws : StoreLaws Node.
Proof.
  refine {| store_wf := node_wf; val := maybe_get_value |}; intros.
  - by apply store_has_law.
  - by apply store_read_law.
  - by apply store_write_law.
  - by apply store_delete_law.
  - by apply store_delete_value_law.
  - by apply store_copy_law.
  - by apply store_move_law.
  - by apply store_value_size_law.
Defined.
