(* ===== verification/DurableStoreTidy.v ===== *)
(** Trees without empty branches: writing, deleting, moving and copying keep
    them so, and then the storage tells exactly which paths have values and
    which have values below them.  Deleting a value alone leaves an empty
    branch behind. *)
From S2P Require Import Prelude Path PathSpec DurableStore DurableStoreSpec.
#[local] Open Scope Z_scope.

(** A value at the path or below it. *)
Definition has_value_at (n : Node) (l : list (list Z)) : Prop :=
  exists r, steps_ok r /\ is_Some (maybe_get_value n (l ++ r)).

Definition tidy (n : Node) : Prop :=
  forall l, l <> [] -> steps_ok l -> is_Some (node_from_path n l) -> has_value_at n l.

Lemma Node_default_tidy : tidy Node_default.
Proof. intros [|s l] N _ [m E]; [done|]. by simpl in E. Qed.

Lemma has_value_prefix n l k : steps_ok k -> has_value_at n (l ++ k) -> has_value_at n l.
Proof. intros F (r & Fr & V). exists (k ++ r). rewrite app_assoc. split; [by apply Forall_app|done]. Qed.

Lemma prefix_snoc_inv {A} (l k : list A) x : l `prefix_of` k ++ [x] -> l = k ++ [x] \/ l `prefix_of` k.
Proof.
  intros [r E]. destruct r as [|y r _] using rev_ind.
  - left. by rewrite app_nil_r in E.
  - right. rewrite app_assoc in E. apply app_inj_tail in E as [-> _]. by exists r.
Qed.

(** ** Insertion *)

Lemma node_insert_other n l x q :
  ~ l `prefix_of` q -> ~ q `prefix_of` l -> node_from_path (node_insert n l x) q = node_from_path n q.
Proof.
  revert n q. induction l as [|s l IH]; intros n q P Q; [by destruct P; apply prefix_nil|].
  destruct q as [|t q]; [by destruct Q; apply prefix_nil|]. simpl. destruct (decide (s = t)) as [->|N].
  - assert (P' : ~ l `prefix_of` q) by (intros X; apply P; by apply prefix_cons).
    assert (Q' : ~ q `prefix_of` l) by (intros X; apply Q; by apply prefix_cons).
    rewrite lookup_insert_eq, IH by done. destruct (inner n !! t); [done|].
    destruct q; [by destruct Q'; apply prefix_nil|done].
  - by rewrite lookup_insert_ne by done.
Qed.

Lemma has_value_insert n l x q :
  ~ l `prefix_of` q -> ~ q `prefix_of` l -> has_value_at n q -> has_value_at (node_insert n l x) q.
Proof.
  intros P Q (r & F & V). exists r. split; [done|]. rewrite value_insert_other; [done|]. intros X.
  destruct (prefix_weak_total l q (q ++ r)) as [?|?]; [done|by exists r|done..].
Qed.

Lemma has_value_insert_below n l x k : has_value_at x k -> has_value_at (node_insert n l x) (l ++ k).
Proof. intros (r & F & V). exists r. split; [done|]. by rewrite <- app_assoc, value_insert_below. Qed.

Lemma node_insert_tidy n l x :
  tidy n -> tidy x -> has_value_at x [] -> steps_ok l -> tidy (node_insert n l x).
Proof.
  intros Tn Tx Vx Fl q N F S. destruct (decide (l `prefix_of` q)) as [[k ->]|P].
  - apply has_value_insert_below. destruct k as [|s k]; [done|]. apply Forall_app in F as [_ F].
    apply Tx; [done..|]. by rewrite node_insert_lookup in S.
  - destruct (decide (q `prefix_of` l)) as [[k ->]|Q].
    + apply Forall_app in Fl as [_ Fk]. apply (has_value_prefix _ _ k Fk).
      rewrite <- (app_nil_r (q ++ k)) at 2. by apply has_value_insert_below.
    + apply has_value_insert; [done..|]. apply Tn; [done..|]. by rewrite node_insert_other in S.
Qed.

Lemma tidy_child n l m : tidy n -> steps_ok l -> node_from_path n l = Some m -> tidy m.
Proof.
  intros T Fl E k N F S. destruct (T (l ++ k)) as (r & Fr & V); [by destruct l|by apply Forall_app|by rewrite node_from_path_app, E|].
  exists r. split; [done|]. by rewrite <- app_assoc, value_app, E in V.
Qed.

Lemma with_value_tidy v n : tidy n -> tidy (with_value v n).
Proof.
  intros T [|s l] N F S; [done|]. pose proof (Forall_inv F) as Hs%step_not_value_name.
  destruct (T (s :: l)) as (r & Fr & V); [done..| |].
  - simpl in S. by rewrite lookup_insert_ne in S by done.
  - exists r. split; [done|]. rewrite value_with_value, decide_False; [done..|]. by apply Forall_app.
Qed.

Lemma set_value_tidy n l v : tidy n -> steps_ok l -> tidy (set_value n l v).
Proof.
  intros T F. rewrite set_value_insert. apply node_insert_tidy; [done| | |done].
  - apply with_value_tidy. destruct (node_from_path n l) eqn:E; [by apply (tidy_child n l)|apply Node_default_tidy].
  - by exists [].
Qed.

(** ** Deletion *)

(** Every node has a value at or below it, but for those at or below [P] and
    those above it. *)
Definition tidy_but (P : list (list Z)) (n : Node) : Prop :=
  forall l, steps_ok l -> is_Some (node_from_path n l) -> ~ P `prefix_of` l -> ~ l `prefix_of` P -> has_value_at n l.

(** Removing a child removes the nodes at and below it, and no others. *)
Lemma node_remove_child n l s m q :
  node_from_path n l = Some m -> is_Some (node_from_path (node_insert n l (remove_child s m)) q) ->
  ~ (l ++ [s]) `prefix_of` q /\ is_Some (node_from_path n q).
Proof.
  intros E S. destruct (decide (l `prefix_of` q)) as [[k ->]|P].
  - rewrite node_insert_lookup in S. rewrite node_from_path_app, E. destruct k as [|t k].
    + split; [|done]. intros X%prefix_app_inv. by apply prefix_nil_not in X.
    + simpl in S |- *. destruct (decide (t = s)) as [->|N]; [rewrite lookup_delete_eq in S; by destruct S|].
      rewrite lookup_delete_ne in S by done. split; [|done]. intros X%prefix_app_inv. by apply prefix_cons_inv_1 in X.
  - split; [intros X; apply P; by etransitivity; [apply prefix_app_r|]|].
    destruct (decide (q `prefix_of` l)) as [[k ->]|Q]; [|by rewrite node_insert_other in S].
    rewrite node_from_path_app in E. by destruct (node_from_path n q).
Qed.

Lemma has_value_remove n l s m q :
  node_from_path n l = Some m -> ~ (l ++ [s]) `prefix_of` q -> ~ q `prefix_of` (l ++ [s]) ->
  has_value_at n q -> has_value_at (node_insert n l (remove_child s m)) q.
Proof.
  intros E P Q (r & F & V). exists r. split; [done|]. rewrite (value_insert_remove n l s m _ E), decide_False; [done|].
  intros X. destruct (prefix_weak_total (l ++ [s]) q (q ++ r)) as [?|?]; [done|by exists r|done..].
Qed.

(** A parent that is not empty after the removal has a value or another child,
    and that has one. *)
Lemma parent_has_value n l s m :
  node_wf n -> steps_ok (l ++ [s]) -> tidy_but (l ++ [s]) n -> node_from_path n l = Some m ->
  is_default (remove_child s m) = false -> has_value_at (node_insert n l (remove_child s m)) l.
Proof.
  intros W [Fl Fs]%Forall_app T E D. set (n' := node_insert _ _ _). destruct (W l m Fl E) as [A K].
  apply Forall_inv in Fs. destruct (value m) as [v|] eqn:V.
  { exists []. split; [done|]. unfold n'. rewrite value_insert_below. cbn. by rewrite V. }
  assert (X : exists t c, inner m !! t = Some c /\ t <> s).
  { unfold is_default in D. simpl in D. rewrite V in D. simpl in D. apply bool_decide_eq_false in D.
    apply map_choose in D as (t & c & [N Hc]%lookup_delete_Some). by exists t, c. }
  destruct X as (t & c & Hc & N). destruct (K t) as [->|Ft]; [by exists c| |].
  { destruct (proj1 A) as [? Hv]; [by exists c|]. congruence. }
  assert (Fk : steps_ok [t]) by by constructor.
  apply (has_value_prefix n' l [t] Fk). apply has_value_remove; [done|..].
  - intros Y%prefix_app_inv. by apply prefix_cons_inv_1 in Y.
  - intros Y%prefix_app_inv. by apply prefix_cons_inv_1 in Y.
  - apply T; [by apply Forall_app| | |].
    + rewrite node_from_path_app, E. simpl. by rewrite Hc.
    + intros Y%prefix_app_inv. by apply prefix_cons_inv_1 in Y.
    + intros Y%prefix_app_inv. by apply prefix_cons_inv_1 in Y.
Qed.

Lemma delete_loop_tidy rl : forall n,
  rl <> [] -> node_wf n -> steps_ok rl -> tidy_but (rev rl) n -> is_Some (node_from_path n (rev (tail rl))) ->
  tidy (node_delete_loop n rl).
Proof.
  induction rl as [|s rl IH]; intros n N W F T [m E]; [done|]. cbn [tail rev] in *. clear N.
  pose proof F as Fsl. inversion_clear Fsl as [|?? Fs Fl].
  assert (Fr : steps_ok (rev rl ++ [s])) by (apply Forall_app; split; [by apply Forall_rev|by constructor]).
  cbn [node_delete_loop]. rewrite mut_insert, E. cbn [option_map]. set (n' := node_insert _ _ _).
  assert (E' : node_from_path n' (rev rl) = Some (remove_child s m)).
  { unfold n'. rewrite <- (app_nil_r (rev rl)) at 2. by rewrite node_insert_lookup. }
  rewrite E'.
  assert (T' : forall l, steps_ok l -> is_Some (node_from_path n' l) -> ~ l `prefix_of` (rev rl ++ [s]) -> has_value_at n' l).
  { intros l Hl S Q. destruct (node_remove_child n (rev rl) s m l E S) as [P S']. apply has_value_remove; [done..|]. by apply T. }
  assert (W' : node_wf n').
  { apply node_insert_wf; [done| |by apply Forall_rev]. apply remove_child_wf; [done|].
    apply (node_wf_child n (rev rl)); [done|by apply Forall_rev|done]. }
  destruct (is_default (remove_child s m)) eqn:D.
  - apply is_default_eq in D. destruct rl as [|t rl].
    { intros [|x l] Nl _ [c Ec]; [done|]. cbn [node_delete_loop] in Ec. unfold n' in Ec. simpl in Ec.
      apply (f_equal inner) in D. simpl in D. by rewrite D, lookup_empty in Ec. }
    apply IH; [done..| |].
    + intros l Hl S P Q. apply T'; [done..|]. intros X. cbn [rev] in *.
      destruct (prefix_snoc_inv _ _ _ X) as [->|Y]; [by apply P, prefix_app_r|done].
    + cbn [tail rev] in *. rewrite node_from_path_app in E'. by destruct (node_from_path n' (rev rl)).
  - pose proof (parent_has_value n (rev rl) s m W Fr T E D) as Vp. fold n' in Vp. intros l Nl Hl S.
    destruct (decide (l `prefix_of` (rev rl ++ [s]))) as [X|X]; [|by apply T'].
    destruct (prefix_snoc_inv _ _ _ X) as [->|[k Ek]].
    + by destruct (node_remove_child n (rev rl) s m _ E S) as [[] _].
    + rewrite Ek in Vp, Fr. apply Forall_app in Fr as [[_ Fk]%Forall_app _]. by apply (has_value_prefix _ _ k).
Qed.

Lemma node_delete_tidy n l : l <> [] -> node_wf n -> tidy n -> steps_ok l -> tidy (node_delete n l).
Proof.
  intros N W T F. unfold node_delete.
  destruct (rev l) as [|s rl] eqn:R; [by apply (f_equal (@rev _)) in R; rewrite rev_involutive in R|].
  destruct (node_from_path n (rev rl)) as [m|] eqn:E.
  - apply delete_loop_tidy; [done|done|rewrite <- R; by apply Forall_rev| |by cbn [tail]; rewrite E].
    intros q Fq S P Q. destruct q as [|t q]; [by destruct Q; apply prefix_nil|]. by apply T.
  - cbn [node_delete_loop]. by rewrite mut_insert, E.
Qed.

(** ** What exists *)

Lemma has_children_exact n l :
  node_wf n -> tidy n -> steps_ok l ->
  has_children n l = true <-> exists k, k <> [] /\ steps_ok k /\ is_Some (maybe_get_value n (l ++ k)).
Proof.
  intros W T F. split; [|by intros (k & N & Fk & V); apply (value_below_child n l k); [|apply Forall_app|..]].
  unfold has_children, has_entry. destruct (node_from_path n l) as [m|] eqn:E; [|done]. intros S%Z.ltb_lt.
  destruct (W l m F E) as [A K].
  assert (X : exists t c, inner m !! t = Some c /\ t <> VALUE_NAME).
  { destruct (decide (delete VALUE_NAME (inner m) = ∅)) as [D|D].
    - exfalso. destruct (value m) as [v|] eqn:V.
      + destruct (proj2 A (mk_is_Some _ v eq_refl)) as [c Hc].
        rewrite <- (insert_delete_id _ _ _ Hc), D, map_size_insert_None in S by by rewrite lookup_empty.
        rewrite map_size_empty in S. cbn in S. lia.
      + rewrite delete_id in D; [|destruct (inner m !! VALUE_NAME) eqn:Hc; [|done]; by destruct (proj1 A) as [? ?]].
        rewrite D, map_size_empty in S. cbn in S. lia.
    - apply map_choose in D as (t & c & [N Hc]%lookup_delete_Some). by exists t, c. }
  destruct X as (t & c & Hc & N). destruct (K t) as [?|Ft]; [by exists c|done|].
  destruct (T (l ++ [t])) as (r & Fr & V).
  - by destruct l.
  - apply Forall_app. split; [done|by constructor].
  - rewrite node_from_path_app, E. simpl. by rewrite Hc.
  - exists (t :: r). split_and!; [done|by constructor|]. by rewrite <- app_assoc in V.
Qed.

(** The operations that change a tree, but for the deletion of a value. *)
Inductive store_op : Type :=
| SWrite (l : list (list Z)) (offset : Z) (bytes : list Z)
| SDelete (l : list (list Z))
| SMove (l k : list (list Z))
| SCopy (l k : list (list Z)).

Definition exec_store (o : store_op) (n : Node) : Z * Node :=
  match o with
  | SWrite l offset bytes => core_store_write n (path_join l) offset bytes
  | SDelete l => core_store_delete n (path_join l)
  | SMove l k => core_store_move n (path_join l) (path_join k)
  | SCopy l k => core_store_copy n (path_join l) (path_join k)
  end.

Definition store_op_ok (o : store_op) : Prop :=
  match o with
  | SWrite l _ _ | SDelete l => writable l (path_join l)
  | SMove l k | SCopy l k => writable l (path_join l) /\ writable k (path_join k)
  end.

(** A node that is moved or copied. *)
Lemma source_tidy n l m :
  node_wf n -> tidy n -> steps_ok l -> l <> [] -> node_from_path n l = Some m -> node_wf m /\ tidy m /\ has_value_at m [].
Proof.
  intros W T F N M. split_and!; [by apply (node_wf_child n l)|by apply (tidy_child n l)|].
  destruct (T l N F (mk_is_Some _ _ M)) as (r & Fr & V). exists r. split; [done|]. by rewrite value_app, M in V.
Qed.

Lemma exec_store_tidy o n :
  store_op_ok o -> node_wf n -> tidy n -> node_wf (exec_store o n).2 /\ tidy (exec_store o n).2.
Proof.
  intros K W T. destruct o as [l offset bytes|l|l k|l k]; cbn [exec_store store_op_ok] in *.
  - destruct (store_validate_ok l _ (proj1 K) (proj2 K)) as [V E], (writable_steps _ _ K) as [F _]. cbn.
    unfold handle_store_write. destruct (_ <? _); [done|]. rewrite V. cbn [result_bind]. rewrite E.
    destruct (_ <? _); [done|]. cbn. split; [by apply set_value_wf|by apply set_value_tidy].
  - destruct (store_validate_ok l _ (proj1 K) (proj2 K)) as [V E], (writable_steps _ _ K) as [F N]. cbn.
    unfold handle_store_delete. rewrite V. cbn [result_bind]. rewrite E. cbn.
    split; [by apply node_delete_wf|by apply node_delete_tidy].
  - destruct K as [Kl Kk]. destruct (store_validate_ok l _ (proj1 Kl) (proj2 Kl)) as [V E], (writable_steps _ _ Kl) as [F N].
    destruct (store_validate_ok k _ (proj1 Kk) (proj2 Kk)) as [V' E'], (writable_steps _ _ Kk) as [F' _]. cbn.
    unfold handle_store_move. rewrite V, V'. cbn [result_bind]. rewrite E, E'.
    destruct (node_from_path n l) as [m|] eqn:M; [|done]. cbn.
    destruct (source_tidy n l m W T F N M) as (Wm & Tm & Vm).
    split; [apply node_insert_wf|apply node_insert_tidy]; auto using node_delete_wf, node_delete_tidy.
  - destruct K as [Kl Kk]. destruct (store_validate_ok l _ (proj1 Kl) (proj2 Kl)) as [V E], (writable_steps _ _ Kl) as [F N].
    destruct (store_validate_ok k _ (proj1 Kk) (proj2 Kk)) as [V' E'], (writable_steps _ _ Kk) as [F' _]. cbn.
    unfold handle_store_copy. rewrite V, V'. cbn [result_bind]. rewrite E, E'.
    destruct (node_from_path n l) as [m|] eqn:M; [|done]. cbn.
    destruct (source_tidy n l m W T F N M) as (Wm & Tm & Vm).
    split; [apply node_insert_wf|apply node_insert_tidy]; auto using node_delete_wf, node_delete_tidy.
Qed.

(** C28. What the storage says about existence is true: in a tree that grows
    from the empty one by writing, deleting, moving and copying, [store_has]
    reports a value exactly at the paths with a value, and a subtree exactly at
    the paths with a value strictly below them - deleting and moving leave no
    empty branches. *)
Theorem store_has_exact ops l :
  Forall store_op_ok ops -> writable l (path_join l) ->
  let n := fold_left (fun n o => (exec_store o n).2) ops Node_default in
  exists below, core_store_has n (path_join l) = value_type (has_val (maybe_get_value n l)) below /\
    (below = true <-> exists k, k <> [] /\ steps_ok k /\ is_Some (maybe_get_value n (l ++ k))).
Proof.
  intros K P n. assert (I : node_wf n /\ tidy n).
  { unfold n. generalize Node_default_wf Node_default_tidy. generalize Node_default.
    induction K as [|o ops Ko _ IH]; intros n0 W T; [done|]. cbn [fold_left].
    destruct (exec_store_tidy o n0 Ko W T). by apply IH. }
  destruct I as [W T]. exists (has_children n l). split; [by apply has_children_code|].
  apply has_children_exact; [done..|]. by destruct (writable_steps _ _ P).
Qed.

(** [/a/b] is written and moved to [/c]. *)
Lemma store_has_exact_witness :
  core_store_has (exec_store (SMove [[97]] [[99]]) (exec_store (SWrite [[97]; [98]] 0 [1]) Node_default).2).2 [47; 97] =
    VALUE_TYPE_NONE /\
  exists below, core_store_has (exec_store (SMove [[97]] [[99]]) (exec_store (SWrite [[97]; [98]] 0 [1]) Node_default).2).2
    [47; 99] = value_type false below.
Proof.
  assert (Pa : writable [[97]] (path_join [[97]])) by (split; [split_and!; [done..|repeat constructor|]; done|done]).
  assert (Pc : writable [[99]] (path_join [[99]])) by (split; [split_and!; [done..|repeat constructor|]; done|done]).
  assert (Pab : writable [[97]; [98]] (path_join [[97]; [98]])) by (split; [split_and!; [done..|repeat constructor|]; done|done]).
  split; [reflexivity|].
  destruct (store_has_exact [SWrite [[97]; [98]] 0 [1]; SMove [[97]] [[99]]] [[99]]) as (below & E & _); [|exact Pc|].
  - repeat constructor; try exact Pab; done.
  - exists below. exact E.
Defined.

(** Deleting a value is different: [delete_value] leaves the node of its path
    behind, so a parent whose only value was deleted is still reported as a
    subtree, which the documentation calls a prefix to further values. *)
Theorem delete_value_leaves_branch v :
  let n := set_value Node_default [[97]; [98]] v in
  let n' := delete_value n [[97]; [98]] in
  core_store_delete_value n [47; 97; 47; 98] = (0, n') /\
  (forall q, steps_ok q -> maybe_get_value n' q = None) /\
  core_store_has n' [47; 97] = VALUE_TYPE_SUBTREE /\ core_store_list_size n' [47; 97] = 1 /\
  core_store_has (node_delete n [[97]; [98]]) [47; 97] = VALUE_TYPE_NONE.
Proof.
  split_and!; [reflexivity| |reflexivity..]. intros q F. rewrite value_delete_value, value_set_value by done.
  destruct (decide (q = [[97]; [98]])); [done|]. apply default_no_value.
Qed.
