(* ===== verification/Runtime.v ===== *)
(** The runtime of kernels ([src/kernel_sdk/host/src/runtime.rs]): the safe
    storage interface over the host functions of [SmartRollupCore], with large
    values read and written in chunks. *)
From S2P Require Import Prelude Path DurableStore.
#[local] Open Scope Z_scope.

(* kernel_sdk/host/src/runtime.rs:35-44 RuntimeError *)
Inductive RuntimeError : Set :=
| PathNotFound
| StoreListIndexOutOfBounds
| HostErr (e : HostError)
| DecodingError.

(* kernel_sdk/host/src/runtime.rs:70-77 ValueType *)
Inductive ValueType : Set := Value | Subtree | ValueWithSubtree.

(** [Error::wrap] with the error in [HostErr]. *)
Definition wrap_err (code : Z) : result Z RuntimeError := result_map_err HostErr (HostError_wrap code).

(** The result of a host function that changes the storage. *)
Definition wrap_unit {H} (r : Z * H) : result unit RuntimeError * H :=
  (result_map (fun _ => tt) (wrap_err r.1), r.2).

(** The paths that the runtime names: [/kernel/env/reboot] and the read-only
    [/readonly/kernel/env/stuck], [/readonly/kernel/env/upgrade_error],
    [/readonly/kernel/env/too_many_reboot], [/readonly/kernel/env/reboot_counter]
    and [/readonly/wasm_version]. *)
(* kernel_sdk/host/src/runtime.rs:247-247 REBOOT_PATH *)
Definition REBOOT_PATH : list Z :=
  [47; 107; 101; 114; 110; 101; 108; 47; 101; 110; 118; 47; 114; 101; 98; 111; 111; 116].

(** [/readonly/kernel/env/] *)
Definition READONLY_ENV : list Z :=
  READONLY ++ [47; 107; 101; 114; 110; 101; 108; 47; 101; 110; 118; 47].

(* kernel_sdk/host/src/runtime.rs:682-683 PATH_STUCK_FLAG *)
Definition PATH_STUCK_FLAG : list Z := READONLY_ENV ++ [115; 116; 117; 99; 107].

(* kernel_sdk/host/src/runtime.rs:689-690 PATH_UPGRADE_ERROR_FLAG *)
Definition PATH_UPGRADE_ERROR_FLAG : list Z :=
  READONLY_ENV ++ [117; 112; 103; 114; 97; 100; 101; 95; 101; 114; 114; 111; 114].

(* kernel_sdk/host/src/runtime.rs:697-698 PATH_TOO_MANY_REBOOT_FLAG *)
Definition PATH_TOO_MANY_REBOOT_FLAG : list Z :=
  READONLY_ENV ++ [116; 111; 111; 95; 109; 97; 110; 121; 95; 114; 101; 98; 111; 111; 116].

(* kernel_sdk/host/src/runtime.rs:705-706 PATH_REBOOT_COUNTER *)
Definition PATH_REBOOT_COUNTER : list Z :=
  READONLY_ENV ++ [114; 101; 98; 111; 111; 116; 95; 99; 111; 117; 110; 116; 101; 114].

(* kernel_sdk/host/src/runtime.rs:718-719 PATH_VERSION *)
Definition PATH_VERSION : list Z :=
  READONLY ++ [47; 119; 97; 115; 109; 95; 118; 101; 114; 115; 105; 111; 110].

Section runtime.
Context {H : Type} `{SRC : SmartRollupCore H}.

Abbreviation hostM := (stM H RuntimeError).

(* kernel_sdk/host/src/runtime.rs:302-317 store_has *)
Definition store_has (h : H) (path : list Z) : result (option ValueType) RuntimeError :=
  let? value_type := wrap_err (core_store_has h path) in
  if value_type =? VALUE_TYPE_NONE then Ok None
  else if value_type =? VALUE_TYPE_VALUE then Ok (Some Value)
  else if value_type =? VALUE_TYPE_SUBTREE then Ok (Some Subtree)
  else if value_type =? VALUE_TYPE_VALUE_WITH_SUBTREE then Ok (Some ValueWithSubtree)
  else Err (HostErr GenericInvalidAccess).

(* kernel_sdk/host/src/runtime.rs:728-739 check_path_has_value *)
Definition check_path_has_value (h : H) (path : list Z) : result unit RuntimeError :=
  match store_has h path with
  | Ok (Some (Value | ValueWithSubtree)) => Ok tt
  | _ => Err PathNotFound
  end.

(* kernel_sdk/host/src/runtime.rs:741-750 check_path_exists *)
Definition check_path_exists (h : H) (path : list Z) : result unit RuntimeError :=
  match store_has h path with
  | Ok (Some _) => Ok tt
  | _ => Err PathNotFound
  end.

(** The size that was read and the bytes that were written to the buffer. *)
(* kernel_sdk/host/src/runtime.rs:355-375 store_read_slice *)
Definition store_read_slice (h : H) (path : list Z) (from_offset buffer_len : Z) :
  result (Z * list Z) RuntimeError :=
  let '(code, bytes) := core_store_read h path from_offset buffer_len in
  result_map (fun size => (size, bytes)) (wrap_err code).

(* kernel_sdk/host/src/runtime.rs:320-353 store_read *)
Definition store_read (h : H) (path : list Z) (from_offset max_bytes : Z) : result (list Z) RuntimeError :=
  let? _ := check_path_has_value h path in
  let? r := store_read_slice h path from_offset (Z.min MAX_FILE_CHUNK_SIZE max_bytes) in
  Ok (take (Z.to_nat r.1) r.2).

(* kernel_sdk/host/src/runtime.rs:666-675 store_value_size *)
Definition store_value_size (h : H) (path : list Z) : result Z RuntimeError :=
  let? _ := check_path_exists h path in wrap_err (core_store_value_size h path).

(** The loop over the chunks; it may not end when the host reads nothing. *)
(* kernel_sdk/host/src/runtime.rs:389-418 store_read_all *)
Fixpoint read_all_loop (fuel : nat) (h : H) (path : list Z) (length : Z) (buffer : list Z) :
  outcome (result (list Z) RuntimeError) :=
  let offset := Z.of_nat (List.length buffer) in
  if offset <? length then
    match fuel with
    | O => OutOfFuel
    | S fuel =>
        let max_length := Z.min MAX_FILE_CHUNK_SIZE (length - offset) in
        let '(code, bytes) := core_store_read h path offset max_length in
        match wrap_err code with
        | Err e => Done (Err e)
        | Ok chunk_size => read_all_loop fuel h path length (buffer ++ take (Z.to_nat chunk_size) bytes)
        end
    end
  else Done (Ok buffer).

(* kernel_sdk/host/src/runtime.rs:378-419 store_read_all *)
Definition store_read_all (fuel : nat) (h : H) (path : list Z) : outcome (result (list Z) RuntimeError) :=
  match store_value_size h path with
  | Err e => Done (Err e)
  | Ok length => read_all_loop fuel h path length []
  end.

(* kernel_sdk/host/src/runtime.rs:429-444 store_write *)
Definition write_chunk (path bytes : list Z) (offset : Z) : hostM unit := fun h =>
  wrap_unit (core_store_write h path offset bytes).

(** Each turn drops a chunk of [MAX_FILE_CHUNK_SIZE] bytes from [src]: the
    length of [src] is enough fuel. *)
(* kernel_sdk/host/src/runtime.rs:450-461 store_write *)
Fixpoint write_loop (fuel : nat) (path src : list Z) (at_offset : Z) : hostM unit :=
  if MAX_FILE_CHUNK_SIZE <? Z.of_nat (length src) then
    match fuel with
    | O => st_ret tt
    | S fuel =>
        let! _ := write_chunk path (take (Z.to_nat MAX_FILE_CHUNK_SIZE) src) at_offset in
        write_loop fuel path (drop (Z.to_nat MAX_FILE_CHUNK_SIZE) src) (at_offset + MAX_FILE_CHUNK_SIZE)
    end
  else
    match src with
    | [] => st_ret tt
    | _ => write_chunk path src at_offset
    end.

(* kernel_sdk/host/src/runtime.rs:421-462 store_write *)
Definition store_write (path src : list Z) (at_offset : Z) : hostM unit :=
  if Z.of_nat (length src) <=? MAX_FILE_CHUNK_SIZE then write_chunk path src at_offset
  else write_loop (length src) path src at_offset.

(* kernel_sdk/host/src/runtime.rs:497-505 store_delete_value *)
Definition store_delete_value (path : list Z) : hostM unit := fun h => wrap_unit (core_store_delete_value h path).

(* kernel_sdk/host/src/runtime.rs:464-484 store_write_all *)
Definition store_write_all (path value : list Z) : hostM unit :=
  let! _ := store_delete_value path in store_write path value 0.

(* kernel_sdk/host/src/runtime.rs:486-495 store_delete *)
Definition store_delete (path : list Z) : hostM unit := fun h =>
  match check_path_exists h path with
  | Err e => (Err e, h)
  | Ok _ => wrap_unit (core_store_delete h path)
  end.

(* kernel_sdk/host/src/runtime.rs:507-516 store_count_subkeys *)
Definition store_count_subkeys (h : H) (path : list Z) : result Z RuntimeError :=
  let count := core_store_list_size h path in
  if 0 <=? count then Ok count else Err (HostErr (HostError_from_i64 count)).

(* kernel_sdk/host/src/runtime.rs:518-538 store_move *)
Definition store_move (from_path to_path : list Z) : hostM unit := fun h =>
  match check_path_exists h from_path with
  | Err e => (Err e, h)
  | Ok _ => wrap_unit (core_store_move h from_path to_path)
  end.

(* kernel_sdk/host/src/runtime.rs:540-560 store_copy *)
Definition store_copy (from_path to_path : list Z) : hostM unit := fun h =>
  match check_path_exists h from_path with
  | Err e => (Err e, h)
  | Ok _ => wrap_unit (core_store_copy h from_path to_path)
  end.

(* kernel_sdk/host/src/runtime.rs:677-679 mark_for_reboot *)
Definition mark_for_reboot : hostM unit := store_write REBOOT_PATH [0] 0.

(** [store_has(..)?.is_some()] *)
Definition flag (h : H) (path : list Z) : result bool RuntimeError :=
  let? v := store_has h path in Ok (match v with Some _ => true | None => false end).

(* kernel_sdk/host/src/runtime.rs:681-686 last_run_aborted *)
Definition last_run_aborted (h : H) : result bool RuntimeError := flag h PATH_STUCK_FLAG.

(* kernel_sdk/host/src/runtime.rs:688-694 upgrade_failed *)
Definition upgrade_failed (h : H) : result bool RuntimeError := flag h PATH_UPGRADE_ERROR_FLAG.

(* kernel_sdk/host/src/runtime.rs:696-702 restart_forced *)
Definition restart_forced (h : H) : result bool RuntimeError := flag h PATH_TOO_MANY_REBOOT_FLAG.

(** A little-endian number of four bytes; bytes that were not read are zero. *)
(* kernel_sdk/host/src/runtime.rs:704-714 reboot_left *)
Definition reboot_left (h : H) : result Z RuntimeError :=
  let? r := store_read_slice h PATH_REBOOT_COUNTER 0 4 in
  let bytes := take 4 (r.2 ++ replicate 4 0) in
  Ok (foldr (fun b acc => b + 256 * acc) 0 bytes).

(* kernel_sdk/host/src/runtime.rs:717-724 runtime_version *)
Definition runtime_version (h : H) : result (list Z) RuntimeError := store_read h PATH_VERSION 0 9.
End runtime.
