(* ===== verification/RuntimeSpec.v ===== *)
(** The runtime over any storage that keeps the laws: writing and reading in
    chunks is writing and reading at once, a value that is written whole is
    read back whole, and moving, copying and deleting act on the values as
    documented. *)
From S2P Require Import Prelude Path PathSpec DurableStore DurableStoreSpec Runtime.
#[local] Open Scope Z_scope.

(** ** Splicing *)

(** The result of a write is the same in both cases of the source. *)
Lemma splice_eq v offset bytes :
  0 <= offset -> splice v offset bytes = take (Z.to_nat offset) v ++ bytes ++ drop (Z.to_nat offset + length bytes) v.
Proof.
  intros O. unfold splice. destruct (_ && _) eqn:C.
  - do 3 f_equal. lia.
  - rewrite (drop_ge v); [by rewrite app_nil_r|].
    apply andb_false_iff in C as [C|C]; lia.
Qed.

(** Writing two adjacent pieces one after the other. *)
Lemma splice_splice v offset a b :
  0 <= offset <= Z.of_nat (length v) ->
  splice (splice v offset a) (offset + Z.of_nat (length a)) b = splice v offset (a ++ b).
Proof.
  intros O. rewrite !splice_eq by lia. set (o := Z.to_nat offset).
  assert (Lo : length (take o v) = o) by (rewrite length_take; lia).
  replace (Z.to_nat (offset + Z.of_nat (length a))) with (o + length a)%nat by lia.
  rewrite (assoc_L (++) (take o v) a). set (x := take o v ++ a).
  assert (Lx : length x = (o + length a)%nat) by (unfold x; rewrite length_app; lia).
  rewrite take_app_length' by done. rewrite drop_app_ge by lia. rewrite drop_drop, length_app, Lx.
  unfold x. rewrite <- !(assoc_L (++)). do 3 f_equal. f_equal. lia.
Qed.

Lemma length_splice v offset bytes :
  0 <= offset <= Z.of_nat (length v) ->
  Z.of_nat (length (splice v offset bytes)) = Z.max (Z.of_nat (length v)) (offset + Z.of_nat (length bytes)).
Proof. intros O. rewrite splice_eq, !length_app, length_take, length_drop by lia. lia. Qed.

(** A host function does not answer that a path was not found. *)
Lemma wrap_unit_found {H} (r : Z * H) h : wrap_unit r <> (Err PathNotFound, h).
Proof. unfold wrap_unit, wrap_err. by destruct (HostError_wrap r.1). Qed.

(** What every call of the host keeps, writing in chunks keeps. *)
Lemma store_write_keeps {H} `{SmartRollupCore H} (Q : H -> Prop) p :
  (forall h offset bytes, Q h -> Q (core_store_write h p offset bytes).2) ->
  forall bytes offset, keeps Q (store_write p bytes offset).
Proof.
  intros C. assert (W : forall b k, keeps Q (write_chunk p b k)) by (intros b k h; apply C).
  intros bytes offset. unfold store_write. apply keeps_if; [apply W|]. generalize (length bytes). intros fuel.
  revert bytes offset. induction fuel as [|fuel IH]; intros bytes offset; cbn [write_loop]; apply keeps_if.
  - apply keeps_ret.
  - destruct bytes; [apply keeps_ret|apply W].
  - by apply keeps_bind.
  - destruct bytes; [apply keeps_ret|apply W].
Qed.

Section runtime.
Context {H : Type} `{SL : StoreLaws H}.
Implicit Types (h : H) (l k : list (list Z)) (p : list Z).

(** ** Existence *)

Lemma store_has_spec h l p :
  store_wf h -> writable l p ->
  exists below, store_has h p = Ok (match val h l, below with
    | None, false => None
    | None, true => Some Subtree
    | Some _, false => Some Value
    | Some _, true => Some ValueWithSubtree
    end) /\
    forall k, k <> [] -> steps_ok k -> is_Some (val h (l ++ k)) -> below = true.
Proof.
  intros W P. destruct (law_has h l p W P) as (below & E & B). exists below. split; [|done].
  unfold store_has. rewrite E. by destruct (val h l), below.
Qed.

(** No value at or below the path. *)
Definition empty_at h l : Prop := forall r, steps_ok r -> val h (l ++ r) = None.

Lemma check_path_exists_spec h l p :
  store_wf h -> writable l p ->
  check_path_exists h p = Ok tt \/ check_path_exists h p = Err PathNotFound /\ empty_at h l.
Proof.
  intros W P. destruct (store_has_spec h l p W P) as (below & E & B). unfold check_path_exists. rewrite E.
  destruct (val h l) eqn:V; destruct below; [by left..|]. right. split; [done|]. intros r Hr.
  destruct (val h (l ++ r)) as [w|] eqn:X; [|done]. destruct r as [|s r]; [rewrite app_nil_r in X; congruence|].
  by discriminate (B (s :: r) ltac:(done) Hr (mk_is_Some _ _ X)).
Qed.

Lemma check_path_exists_value h l p v :
  store_wf h -> writable l p -> val h l = Some v -> check_path_exists h p = Ok tt.
Proof.
  intros W P V. destruct (store_has_spec h l p W P) as (below & E & _). unfold check_path_exists.
  rewrite E, V. by destruct below.
Qed.

(** ** Writing *)

(** The values after a change at one path. *)
Definition updated h h' l (v : option (list Z)) : Prop :=
  forall q, steps_ok q -> val h' q = if decide (q = l) then v else val h q.

Lemma write_chunk_spec h l p bytes offset :
  store_wf h -> writable l p -> 0 <= offset <= Z.of_nat (length (default [] (val h l))) ->
  Z.of_nat (length bytes) <= MAX_FILE_CHUNK_SIZE ->
  exists h', write_chunk p bytes offset h = (Ok tt, h') /\ store_wf h' /\
    updated h h' l (Some (splice (default [] (val h l)) offset bytes)).
Proof.
  intros W P O B. pose proof (law_write h l p offset bytes W P ltac:(lia) B) as L. cbv zeta in L.
  rewrite (proj2 (Z.ltb_ge _ _)) in L by lia. destruct L as (h' & E & W' & U). exists h'. split; [|done].
  unfold write_chunk, wrap_unit. by rewrite E.
Qed.

Lemma updated_at h h' l v : steps_ok l -> updated h h' l v -> val h' l = v.
Proof. intros F U. by rewrite U, decide_True. Qed.

Lemma updated_trans h1 h2 h3 l v w : updated h1 h2 l v -> updated h2 h3 l w -> updated h1 h3 l w.
Proof. intros U V q F. rewrite V by done. destruct (decide (q = l)); [done|]. by rewrite U, decide_False. Qed.

Lemma write_loop_spec fuel : forall h l p src offset,
  store_wf h -> writable l p -> 0 <= offset <= Z.of_nat (length (default [] (val h l))) ->
  src <> [] -> (length src <= fuel)%nat ->
  exists h', write_loop fuel p src offset h = (Ok tt, h') /\ store_wf h' /\
    updated h h' l (Some (splice (default [] (val h l)) offset src)).
Proof.
  induction fuel as [|fuel IH]; intros h l p src offset W P O N F; [destruct src; simpl in *; [done|lia]|].
  cbn [write_loop]. destruct (Z.ltb_spec MAX_FILE_CHUNK_SIZE (Z.of_nat (length src))) as [L|L].
  - set (c := Z.to_nat MAX_FILE_CHUNK_SIZE). assert (Hc : c = 2048%nat) by done. unfold MAX_FILE_CHUNK_SIZE in *.
    assert (Lt : length (take c src) = c) by (rewrite length_take; lia).
    destruct (write_chunk_spec h l p (take c src) offset W P O) as (h1 & E1 & W1 & U1); [unfold MAX_FILE_CHUNK_SIZE; lia|].
    pose proof (updated_at _ _ _ _ (proj1 (writable_steps _ _ P)) U1) as V1.
    destruct (IH h1 l p (drop c src) (offset + 2048) W1 P) as (h2 & E2 & W2 & U2).
    + rewrite V1. cbn [from_option id]. rewrite length_splice by done. lia.
    + intros D. apply (f_equal length) in D. rewrite length_drop in D. simpl in D. lia.
    + rewrite length_drop. lia.
    + exists h2. split; [unfold st_bind; by rewrite E1, E2|]. split; [done|].
      rewrite V1 in U2. cbn [from_option id] in U2. eapply updated_trans; [done|].
      replace (offset + 2048) with (offset + Z.of_nat (length (take c src))) in U2 by lia.
      by rewrite splice_splice, take_drop in U2 by done.
  - destruct src as [|b src]; [done|]. by apply write_chunk_spec.
Qed.

(** Writing any number of bytes is one splice. *)
Lemma store_write_ok h l p src offset :
  store_wf h -> writable l p -> 0 <= offset <= Z.of_nat (length (default [] (val h l))) ->
  exists h', store_write p src offset h = (Ok tt, h') /\ store_wf h' /\
    updated h h' l (Some (splice (default [] (val h l)) offset src)).
Proof.
  intros W P O. unfold store_write. destruct (Z.leb_spec (Z.of_nat (length src)) MAX_FILE_CHUNK_SIZE) as [L|L].
  - by apply write_chunk_spec.
  - apply write_loop_spec; try done. intros ->. by vm_compute in L.
Qed.

(** An offset after the end of the value is refused, whatever the size. *)
Lemma store_write_err h l p src offset :
  store_wf h -> writable l p -> Z.of_nat (length (default [] (val h l))) < offset ->
  store_write p src offset h = (Err (HostErr StoreInvalidAccess), h).
Proof.
  intros W P O. assert (C : forall bytes, Z.of_nat (length bytes) <= MAX_FILE_CHUNK_SIZE ->
    write_chunk p bytes offset h = (Err (HostErr StoreInvalidAccess), h)).
  { intros bytes B. pose proof (law_write h l p offset bytes W P ltac:(lia) B) as L. cbv zeta in L.
    rewrite (proj2 (Z.ltb_lt _ _) O) in L. unfold write_chunk, wrap_unit. by rewrite L. }
  unfold store_write. destruct (Z.leb_spec (Z.of_nat (length src)) MAX_FILE_CHUNK_SIZE) as [L|L]; [by apply C|].
  destruct src as [|b src]; [by vm_compute in L|]. cbn [write_loop length]. cbn [length] in L.
  rewrite (proj2 (Z.ltb_lt _ _) L). unfold st_bind. rewrite C; [done|]. rewrite length_take. unfold MAX_FILE_CHUNK_SIZE. lia.
Qed.

(** Writing in chunks: [store_write] of any number of bytes gives the value
    that a single splice at the offset gives, and changes no other value; an
    offset after the end of the value is refused and changes nothing. *)
Theorem store_write_spec h l p src offset :
  store_wf h -> writable l p -> 0 <= offset ->
  let v := default [] (val h l) in
  if decide (offset <= Z.of_nat (length v))
  then exists h', store_write p src offset h = (Ok tt, h') /\ store_wf h' /\
         updated h h' l (Some (take (Z.to_nat offset) v ++ src ++ drop (Z.to_nat offset + length src) v))
  else store_write p src offset h = (Err (HostErr StoreInvalidAccess), h).
Proof.
  intros W P O v. destruct (decide _) as [L|L].
  - rewrite <- splice_eq by done. by apply store_write_ok.
  - apply store_write_err with l; [done..|subst v; lia].
Qed.

(** ** Reading *)

Lemma core_read_value h l p v offset max_bytes :
  store_wf h -> writable l p -> val h l = Some v -> 0 <= offset <= Z.of_nat (length v) -> 0 <= max_bytes ->
  core_store_read h p offset max_bytes =
  let k := Z.min MAX_FILE_CHUNK_SIZE (Z.min max_bytes (Z.of_nat (length v) - offset)) in
  (k, take (Z.to_nat k) (drop (Z.to_nat offset) v)).
Proof.
  intros W P V O M. rewrite (law_read h l p) by (done || lia). rewrite V. by rewrite (proj2 (Z.ltb_ge _ _)) by lia.
Qed.

Lemma wrap_err_ok (c : Z) : 0 <= c -> wrap_err c = Ok c.
Proof. intros K. unfold wrap_err, HostError_wrap. by rewrite (proj2 (Z.leb_le _ _) K). Qed.

Lemma read_all_loop_spec h l p v : store_wf h -> writable l p -> val h l = Some v -> forall fuel o,
  (o <= length v)%nat -> (length v - o <= fuel)%nat ->
  read_all_loop fuel h p (Z.of_nat (length v)) (take o v) = Done (Ok v).
Proof.
  intros W P V. induction fuel as [|fuel IH]; intros o O F; cbn [read_all_loop];
    rewrite length_take, Nat.min_l by done;
    (destruct (Z.ltb_spec (Z.of_nat o) (Z.of_nat (length v))) as [L|L]; [|by rewrite take_ge by lia]); [lia|].
  rewrite (core_read_value h l p v) by (done || (unfold MAX_FILE_CHUNK_SIZE; lia)). cbn zeta.
  set (k := Z.min _ (Z.min _ _)). assert (K : 0 < k <= Z.of_nat (length v) - Z.of_nat o)
    by (unfold k, MAX_FILE_CHUNK_SIZE; lia).
  cbn match. rewrite wrap_err_ok by lia. rewrite take_take, Nat.min_id, Nat2Z.id.
  replace (take o v ++ take (Z.to_nat k) (drop o v)) with (take (o + Z.to_nat k) v).
  - apply IH; lia.
  - by rewrite take_take_drop.
Qed.

Lemma as_i32_size (v : list Z) : Z.of_nat (length v) < 2 ^ 31 -> as_i32 (Z.of_nat (length v)) = Z.of_nat (length v).
Proof. intros B. apply swrap_small; [lia|]. unfold is_i. change (2 ^ (32 - 1)) with (2 ^ 31). lia. Qed.

Lemma store_read_all_value h l p v fuel :
  store_wf h -> writable l p -> val h l = Some v -> Z.of_nat (length v) < 2 ^ 31 -> (length v <= fuel)%nat ->
  store_read_all fuel h p = Done (Ok v).
Proof.
  intros W P V B F. unfold store_read_all, store_value_size. rewrite (check_path_exists_value h l p v) by done.
  cbn [result_bind]. rewrite (law_value_size h l p W P), V, as_i32_size, wrap_err_ok by (done || lia).
  apply (read_all_loop_spec h l p v W P V fuel 0%nat); lia.
Qed.

Lemma store_read_all_none h l p fuel :
  store_wf h -> writable l p -> val h l = None ->
  store_read_all fuel h p = Done (Err PathNotFound) \/ store_read_all fuel h p = Done (Err (HostErr StoreNotAValue)).
Proof.
  intros W P V. unfold store_read_all, store_value_size.
  destruct (check_path_exists_spec h l p W P) as [->|[-> _]]; [right|by left].
  cbn [result_bind]. by rewrite (law_value_size h l p W P), V.
Qed.

Lemma store_delete_value_ok h l p :
  store_wf h -> writable l p ->
  exists h', store_delete_value p h = (Ok tt, h') /\ store_wf h' /\ updated h h' l None.
Proof.
  intros W P. destruct (law_delete_value h l p W P) as (h1 & E1 & W1 & U1). exists h1. split; [|done].
  unfold store_delete_value, wrap_unit. by rewrite E1.
Qed.

Lemma store_write_all_ok h l p v :
  store_wf h -> writable l p ->
  exists h', store_write_all p v h = (Ok tt, h') /\ store_wf h' /\ updated h h' l (Some v).
Proof.
  intros W P. destruct (store_delete_value_ok h l p W P) as (h1 & D & W1 & U1).
  pose proof (updated_at _ _ _ _ (proj1 (writable_steps _ _ P)) U1) as V1.
  destruct (store_write_ok h1 l p v 0 W1 P) as (h2 & E2 & W2 & U2); [rewrite V1; simpl; lia|].
  rewrite V1, splice_eq in U2 by done. cbn in U2. rewrite drop_nil, app_nil_r in U2.
  exists h2. split; [unfold store_write_all, st_bind; by rewrite D|]. split; [done|]. by eapply updated_trans.
Qed.

(** C20. What is written whole is read whole, whatever was there before:
    [store_write_all] replaces the value of its path and no other, and
    [store_read_all] then gives the bytes back, in chunks; where there is no
    value, it fails.  As many turns as the value has bytes are enough. *)
Theorem store_write_read_all h l p v fuel :
  store_wf h -> writable l p -> Z.of_nat (length v) < 2 ^ 31 -> (length v <= fuel)%nat ->
  (exists h', store_write_all p v h = (Ok tt, h') /\ store_wf h' /\ updated h h' l (Some v) /\
     store_read_all fuel h' p = Done (Ok v)) /\
  (exists h', store_delete_value p h = (Ok tt, h') /\ store_wf h' /\ updated h h' l None /\
     exists e, store_read_all fuel h' p = Done (Err e)).
Proof.
  intros W P B F. pose proof (proj1 (writable_steps _ _ P)) as Fl. split.
  - destruct (store_write_all_ok h l p v W P) as (h' & E & W' & U). exists h'. split_and!; [done..|].
    eapply store_read_all_value; [done..| |done|done]. by eapply updated_at.
  - destruct (store_delete_value_ok h l p W P) as (h' & E & W' & U). exists h'. split_and!; [done..|].
    destruct (store_read_all_none h' l p fuel W' P (updated_at _ _ _ _ Fl U)) as [->| ->]; eauto.
Qed.

(** ** Moving, copying and deleting *)

(** The values below [k] are those that were below [l], and the others are
    given by a function. *)
Definition transferred h h' l k (others : list (list Z) -> option (list Z)) : Prop :=
  (forall r, steps_ok r -> val h' (k ++ r) = val h (l ++ r)) /\
  (forall r, steps_ok r -> ~ k `prefix_of` r -> val h' r = others r).

Lemma store_copy_spec h l p k q :
  store_wf h -> writable l p -> writable k q ->
  (exists h', store_copy p q h = (Ok tt, h') /\ store_wf h' /\ transferred h h' l k (val h)) \/
  store_copy p q h = (Err PathNotFound, h) /\ empty_at h l.
Proof.
  intros W P Q. unfold store_copy. destruct (check_path_exists_spec h l p W P) as [C|[-> E]]; [left|by right].
  rewrite C. destruct (law_copy h l p k q W P Q) as [(h' & -> & W' & T)|[_ N]]; [by exists h'|].
  unfold check_path_exists, store_has in C. by rewrite N in C.
Qed.

Lemma store_move_spec h l p k q :
  store_wf h -> writable l p -> writable k q ->
  (exists h', store_move p q h = (Ok tt, h') /\ store_wf h' /\
     transferred h h' l k (fun r => if decide (l `prefix_of` r) then None else val h r)) \/
  store_move p q h = (Err PathNotFound, h) /\ empty_at h l.
Proof.
  intros W P Q. unfold store_move. destruct (check_path_exists_spec h l p W P) as [C|[-> E]]; [left|by right].
  rewrite C. destruct (law_move h l p k q W P Q) as [(h' & -> & W' & T)|[_ N]]; [by exists h'|].
  unfold check_path_exists, store_has in C. by rewrite N in C.
Qed.

Lemma store_delete_spec h l p :
  store_wf h -> writable l p ->
  (exists h', store_delete p h = (Ok tt, h') /\ store_wf h' /\
     forall q, steps_ok q -> val h' q = if decide (l `prefix_of` q) then None else val h q) \/
  store_delete p h = (Err PathNotFound, h) /\ empty_at h l.
Proof.
  intros W P. unfold store_delete. destruct (check_path_exists_spec h l p W P) as [->|[-> E]]; [left|by right].
  destruct (law_delete h l p W P) as (h' & -> & W' & T). by exists h'.
Qed.
End runtime.

(** ** The in-memory storage *)

Lemma reboot_left_value n v :
  maybe_get_value n (path_steps PATH_REBOOT_COUNTER) = Some v -> (length v = 4)%nat ->
  reboot_left n = Ok (foldr (fun b acc => b + 256 * acc) 0 v).
Proof.
  intros V L. unfold reboot_left, store_read_slice. cbn [core_store_read InMemoryStore].
  unfold handle_store_read.
  change (validate_path_maybe_readonly PATH_REBOOT_COUNTER) with (Ok (E := HostError) PATH_REBOOT_COUNTER).
  cbn [result_bind]. rewrite V. do 5 (destruct v as [|? v]; try discriminate L). reflexivity.
Qed.

(** The flags of the runtime are out of reach on the in-memory storage: it
    looks for a path with [store_has], which refuses every path under
    [/readonly], so the runtime fails to tell whether the last run was aborted,
    an upgrade failed or a restart was forced, and never finds its version,
    whatever the storage holds; only the reboot counter, which is read without
    asking whether it exists, can be had. *)
Theorem readonly_flags_unavailable n :
  last_run_aborted n = Err (HostErr StoreInvalidKey) /\
  upgrade_failed n = Err (HostErr StoreInvalidKey) /\
  restart_forced n = Err (HostErr StoreInvalidKey) /\
  runtime_version n = Err PathNotFound /\
  (forall v, maybe_get_value n (path_steps PATH_REBOOT_COUNTER) = Some v -> (length v = 4)%nat ->
     reboot_left n = Ok (foldr (fun b acc => b + 256 * acc) 0 v)).
Proof.
  split_and!; [reflexivity..|]. apply reboot_left_value.
Qed.

(** ** Examples *)

(** [/a/b] *)
Lemma writable_example : writable [[97]; [98]] [47; 97; 47; 98].
Proof. split; [split_and!; [done..|repeat constructor|]; done|done]. Qed.

Lemma Node_default_store_wf : store_wf Node_default.
Proof. exact Node_default_wf. Qed.

Lemma store_write_spec_witness :
  exists h', store_write [47; 97; 47; 98] [1; 2; 3] 0 Node_default = (Ok tt, h') /\
    updated Node_default h' [[97]; [98]] (Some [1; 2; 3]).
Proof.
  destruct (store_write_spec Node_default [[97]; [98]] [47; 97; 47; 98] [1; 2; 3] 0
    Node_default_store_wf writable_example ltac:(lia)) as (h' & E & _ & U).
  exists h'. split; [exact E|exact U].
Defined.

Lemma store_write_read_all_witness :
  exists h', store_write_all [47; 97; 47; 98] (replicate 5000 7) Node_default = (Ok tt, h') /\
    store_read_all 5000 h' [47; 97; 47; 98] = Done (Ok (replicate 5000 7)).
Proof.
  destruct (store_write_read_all Node_default [[97]; [98]] [47; 97; 47; 98] (replicate 5000 7) 5000
    Node_default_store_wf writable_example) as [(h' & E & _ & _ & R) _].
  - rewrite length_replicate. vm_compute. reflexivity.
  - rewrite length_replicate. lia.
  - exists h'. split; [exact E|exact R].
Defined.
