(* ===== verification/Transactions.v ===== *)
(** Transactional storage of kernels ([src/kernel_sdk/storage/src]): layers of
    the durable storage ([layer.rs]) and the stack of nested transactions
    ([storage.rs]). *)
From S2P Require Import Prelude Path DurableStore Runtime.
From stdpp Require Import strings pretty.
#[local] Open Scope Z_scope.

(* kernel_sdk/storage/src/lib.rs:18-45 StorageError *)
Inductive KernelStorageError : Set :=
| InvalidAccountsPath
| StorageInUse
| NoStorage
| NoCurrentTransaction
| PathErr (e : PathError)
| RuntimeErr (e : RuntimeError).

(* kernel_sdk/storage/src/layer.rs:23-26 Layer *)
Record Layer : Type := { layer_path : list Z }.

(* kernel_sdk/storage/src/layer.rs:28-32 has_subtree_res *)
Definition has_subtree_res (v : result (option ValueType) RuntimeError) : bool :=
  match v with
  | Ok (Some (Subtree | ValueWithSubtree)) => true
  | _ => false
  end.

(* kernel_sdk/storage/src/storage.rs:16-19 Storage *)
Record Storage : Type := { prefix : list Z; layers : list Layer }.

Definition set_layers (s : Storage) (l : list Layer) : Storage := {| prefix := s.(prefix); layers := l |}.

(** The bytes of a string of the source. *)
Definition string_bytes (s : string) : list Z :=
  map (fun a => Z.of_N (Ascii.N_of_ascii a)) (String.list_ascii_of_string s).

(** [format!("{}.{}", prefix, index)] *)
(* kernel_sdk/storage/src/storage.rs:105-105 begin_transaction *)
Definition layer_name (prefix : list Z) (index : nat) : list Z :=
  prefix ++ 46 :: string_bytes (pretty index).

Section storage.
Context {H : Type} `{SRC : SmartRollupCore H}.

(** ** Layers *)

(* kernel_sdk/storage/src/layer.rs:42-47 with_path *)
Definition Layer_with_path (name : list Z) : Layer := {| layer_path := name |}.

(* kernel_sdk/storage/src/layer.rs:57-71 force_make_copy *)
Definition force_make_copy (self : Layer) (name : list Z) : stM H KernelStorageError Layer := fun h =>
  let copy := {| layer_path := name |} in
  match store_copy self.(layer_path) copy.(layer_path) h with
  | (Ok _, h) | (Err PathNotFound, h) => (Ok copy, h)
  | (Err e, h) => (Err (RuntimeErr e), h)
  end.

(** The error of the runtime as an error of the storage. *)
Definition runtime_err {A} (r : result A RuntimeError * H) : result A KernelStorageError * H :=
  (result_map_err RuntimeErr r.1, r.2).

(* kernel_sdk/storage/src/layer.rs:78-95 consume *)
Definition consume (self layer : Layer) : stM H KernelStorageError unit := fun h =>
  match store_has h layer.(layer_path) with
  | Ok (Some _) => runtime_err (store_move layer.(layer_path) self.(layer_path) h)
  | _ =>
      match store_has h self.(layer_path) with
      | Ok (Some _) => runtime_err (store_delete self.(layer_path) h)
      | _ => (Ok tt, h)
      end
  end.

(* kernel_sdk/storage/src/layer.rs:166-172 discard *)
Definition discard (self : Layer) : stM H KernelStorageError unit := fun h =>
  match store_has h self.(layer_path) with
  | Ok (Some _) => runtime_err (store_delete self.(layer_path) h)
  | _ => (Ok tt, h)
  end.

(** [T] is the type of stored objects and [from] builds one from its path. *)
Context {T : Type} (from : list Z -> T).

(* kernel_sdk/storage/src/layer.rs:101-113 create_new *)
Definition Layer_create_new (self : Layer) (h : H) (id : list Z) : result (option T) KernelStorageError :=
  let? account_path := result_map_err PathErr (path_concat self.(layer_path) id) in
  if has_subtree_res (store_has h account_path) then Ok None else Ok (Some (from account_path)).

(* kernel_sdk/storage/src/layer.rs:119-131 get *)
Definition Layer_get (self : Layer) (h : H) (id : list Z) : result (option T) KernelStorageError :=
  let? account_path := result_map_err PathErr (path_concat self.(layer_path) id) in
  if has_subtree_res (store_has h account_path) then Ok (Some (from account_path)) else Ok None.

(* kernel_sdk/storage/src/layer.rs:137-146 get_or_create *)
Definition Layer_get_or_create (self : Layer) (id : list Z) : result T KernelStorageError :=
  let? account_path := result_map_err PathErr (path_concat self.(layer_path) id) in
  Ok (from account_path).

(* kernel_sdk/storage/src/layer.rs:152-160 delete *)
Definition Layer_delete (self : Layer) (id : list Z) : stM H KernelStorageError unit := fun h =>
  match path_concat self.(layer_path) id with
  | Err e => (Err (PathErr e), h)
  | Ok account_path => runtime_err (store_delete account_path h)
  end.

(** ** The stack *)

(** The bytes of a path are ASCII, so [String::from_utf8] succeeds. *)
(* kernel_sdk/storage/src/storage.rs:23-31 init *)
Definition Storage_init (name : list Z) : Storage := {| prefix := name; layers := [Layer_with_path name] |}.

(* kernel_sdk/storage/src/storage.rs:35-45 get *)
Definition Storage_get (s : Storage) (h : H) (id : list Z) : result (option T) KernelStorageError :=
  match last s.(layers) with
  | Some top_layer => Layer_get top_layer h id
  | None => Err NoStorage
  end.

(* kernel_sdk/storage/src/storage.rs:48-58 get_original *)
Definition Storage_get_original (s : Storage) (h : H) (id : list Z) : result (option T) KernelStorageError :=
  match head s.(layers) with
  | Some bottom_layer => Layer_get bottom_layer h id
  | None => Err NoStorage
  end.

(* kernel_sdk/storage/src/storage.rs:61-71 create_new *)
Definition Storage_create_new (s : Storage) (h : H) (id : list Z) : result (option T) KernelStorageError :=
  match last s.(layers) with
  | Some top_layer => Layer_create_new top_layer h id
  | None => Err NoStorage
  end.

(* kernel_sdk/storage/src/storage.rs:73-83 get_or_create *)
Definition Storage_get_or_create (s : Storage) (id : list Z) : result T KernelStorageError :=
  match last s.(layers) with
  | Some top_layer => Layer_get_or_create top_layer id
  | None => Err NoStorage
  end.

(* kernel_sdk/storage/src/storage.rs:86-96 delete *)
Definition Storage_delete (s : Storage) (id : list Z) : stM H KernelStorageError unit := fun h =>
  match last s.(layers) with
  | Some top_layer => Layer_delete top_layer id h
  | None => (Err NoStorage, h)
  end.

(* kernel_sdk/storage/src/storage.rs:99-113 begin_transaction *)
Definition begin_transaction (s : Storage) (h : H) : result unit KernelStorageError * Storage * H :=
  let new_layer_index := (length s.(layers) + 1)%nat in
  match last s.(layers) with
  | None => (Err NoStorage, s, h)
  | Some top =>
      match path_try_from (layer_name s.(prefix) new_layer_index) with
      | Err e => (Err (PathErr e), s, h)
      | Ok new_layer_path =>
          match force_make_copy top new_layer_path h with
          | (Err e, h) => (Err e, s, h)
          | (Ok new_top, h) => (Ok tt, set_layers s (s.(layers) ++ [new_top]), h)
          end
      end
  end.

(** [pop] takes the top off, whatever [consume] then answers. *)
(* kernel_sdk/storage/src/storage.rs:116-129 commit_transaction *)
Definition commit_transaction (s : Storage) (h : H) : outcome (result unit KernelStorageError * Storage * H) :=
  if (1 <? length s.(layers))%nat then
    let rest := removelast s.(layers) in
    match last s.(layers), last rest with
    | Some top, Some last => let '(r, h) := consume last top h in Done (r, set_layers s rest, h)
    | _, _ => Panicked
    end
  else Done (Err NoCurrentTransaction, s, h).

(* kernel_sdk/storage/src/storage.rs:132-145 rollback_transaction *)
Definition rollback_transaction (s : Storage) (h : H) : outcome (result unit KernelStorageError * Storage * H) :=
  if (1 <? length s.(layers))%nat then
    match last s.(layers) with
    | Some top => let '(r, h) := discard top h in Done (r, set_layers s (removelast s.(layers)), h)
    | None => Panicked
    end
  else Done (Err NoCurrentTransaction, s, h).

(* kernel_sdk/storage/src/storage.rs:151-153 stack_depth *)
Definition stack_depth (s : Storage) : Z := Z.of_nat (length s.(layers)) - 1.
End storage.
