(* ===== verification/TransactionsSpec.v ===== *)
(** Transactions refine a stack of contents: beginning one copies the top,
    committing replaces the layer below by it, rolling back drops it, and
    nothing else changes. *)
From S2P Require Import Prelude Path PathSpec DurableStore DurableStoreSpec Runtime RuntimeSpec.
From S2P Require Import Transactions.
From stdpp Require Import strings pretty.
#[local] Open Scope Z_scope.

(** ** Names of layers *)

Lemma digit_allowed x : is_allowed_step_byte (Z.of_N (Ascii.N_of_ascii (pretty_N_char x))) = true.
Proof. unfold pretty_N_char. by repeat case_match. Qed.

Lemma string_bytes_cons a s : string_bytes (String a s) = Z.of_N (Ascii.N_of_ascii a) :: string_bytes s.
Proof. done. Qed.

Abbreviation allowed := (Forall (fun b => is_allowed_step_byte b = true)).

Lemma pretty_go_allowed x : forall s, allowed (string_bytes s) -> allowed (string_bytes (pretty_N_go x s)).
Proof.
  induction (N.lt_wf_0 x) as [x _ IH]. intros s F. destruct (decide (x = 0)%N) as [->|N]; [by rewrite pretty_N_go_0|].
  rewrite pretty_N_go_step by lia. apply IH; [apply N.div_lt; lia|].
  rewrite string_bytes_cons. constructor; [apply digit_allowed|done].
Qed.

Lemma pretty_allowed (i : nat) : allowed (string_bytes (pretty i)).
Proof.
  unfold pretty, pretty_nat, pretty, pretty_N. destruct (decide _); [by repeat constructor|].
  apply pretty_go_allowed. constructor.
Qed.

Lemma string_bytes_inj s t : string_bytes s = string_bytes t -> s = t.
Proof.
  revert t. induction s as [|a s IH]; intros [|b t] E; [done..|]. rewrite !string_bytes_cons in E.
  injection E as E1 E2. f_equal; [|by apply IH].
  rewrite <- (Ascii.ascii_N_embedding a), <- (Ascii.ascii_N_embedding b). f_equal. lia.
Qed.

(** The steps of the path of layer [i], counted from the bottom: the bottom
    has the path of the storage itself. *)
Definition layer_steps (init : list (list Z)) (name : list Z) (i : nat) : list (list Z) :=
  match i with
  | O => init ++ [name]
  | S _ => init ++ [name ++ 46 :: string_bytes (pretty (S i))]
  end.

Lemma layer_steps_inj init name i j : layer_steps init name i = layer_steps init name j -> i = j.
Proof.
  intros E. destruct i as [|i], j as [|j]; [done|..]; apply app_inv_head in E; injection E as E.
  - apply (f_equal length) in E. rewrite length_app in E. simpl in E. lia.
  - apply (f_equal length) in E. rewrite length_app in E. simpl in E. lia.
  - apply app_inv_head in E. injection E as E. apply string_bytes_inj in E. apply (inj pretty) in E. lia.
Qed.

Lemma layer_steps_length init name i : length (layer_steps init name i) = S (length init).
Proof. destruct i; simpl; rewrite length_app; simpl; lia. Qed.

(** Different layers share no path. *)
Lemma layer_steps_disjoint init name i j r :
  layer_steps init name i `prefix_of` layer_steps init name j ++ r -> i = j.
Proof.
  intros [k E]. apply (layer_steps_inj init name). symmetry.
  assert (L : length (layer_steps init name j) = length (layer_steps init name i)) by by rewrite !layer_steps_length.
  by apply app_inj_1 in E as [E _].
Qed.

Section refine.
Context {H : Type} `{SL : StoreLaws H}.
Context (init : list (list Z)) (name : list Z) (P0 : writable (init ++ [name]) (path_join (init ++ [name]))).

Abbreviation L := (layer_steps init name).

Definition fits (steps : list (list Z)) : Prop := Z.of_nat (length (path_join steps)) <= PATH_MAX_SIZE.
#[local] Instance fits_dec steps : Decision (fits steps) := _.

(** ** Paths of layers *)

Lemma layer_steps_ok i : steps_ok (L i) /\ L i <> [] /\ head (L i) <> Some readonly_step.
Proof.
  destruct P0 as [(_ & _ & F & _) R]. apply Forall_app in F as [Fi Fn]. inversion_clear Fn as [|?? [Nn Fn'] _].
  destruct i as [|i]; cbn [layer_steps].
  { split_and!; [|by destruct init|done]. apply Forall_app. split; [done|]. by repeat constructor. }
  split_and!; [|by destruct init|].
  - apply Forall_app. split; [done|]. constructor; [|done]. split; [by destruct name|].
    apply Forall_app. split; [done|]. constructor; [done|apply pretty_allowed].
  - destruct init as [|s init']; [|done]. simpl. intros [= E].
    assert (D : 46 ∈ readonly_step) by (rewrite <- E; apply elem_of_app; right; by left).
    revert D. unfold readonly_step. simpl. rewrite !elem_of_cons, elem_of_nil. naive_solver lia.
Qed.

Lemma layer_writable i k : steps_ok k -> fits (L i ++ k) -> writable (L i ++ k) (path_join (L i ++ k)).
Proof.
  intros Fk B. destruct (layer_steps_ok i) as (F & N & R). split.
  - split_and!; [done|by destruct (L i)|by apply Forall_app|done].
  - by destruct (L i).
Qed.

Lemma layer_name_join i : layer_name (path_join (init ++ [name])) (S (S i)) = path_join (L (S i)).
Proof.
  unfold layer_name. cbn [layer_steps]. rewrite !path_join_app, <- app_assoc. f_equal.
  cbn [path_join map concat]. by rewrite !app_nil_r.
Qed.

Lemma layer_try_from i :
  path_try_from (path_join (L i)) = if decide (fits (L i)) then Ok (path_join (L i)) else Err PathTooLong.
Proof.
  unfold path_try_from. destruct (layer_steps_ok i) as (F & N & R). destruct (decide (fits (L i))) as [B|B].
  - assert (V : validate_path (path_join (L i)) = Ok tt) by (apply validate_path_ok; exists (L i); by split_and!).
    by rewrite V.
  - rewrite validate_path_too_long; [done..|]. unfold fits in B. lia.
Qed.

Lemma layer_concat i k :
  path_concat (path_join (L i)) (path_join k) = if decide (fits (L i ++ k)) then Ok (path_join (L i ++ k)) else Err PathTooLong.
Proof.
  unfold path_concat. rewrite <- path_join_app. unfold fits.
  destruct (decide _) as [B|B]; [by rewrite (proj2 (Z.leb_le _ _) B)|by rewrite (proj2 (Z.leb_nle _ _) B)].
Qed.

(** ** The abstract stack *)

(** A content gives the values below the path of a layer. *)
Abbreviation content := (list (list Z) -> option (list Z)).

(** A storage with [d] layers. *)
Definition storage_of (d : nat) : Storage :=
  {| Transactions.prefix := path_join (init ++ [name]); layers := map (fun i => {| layer_path := path_join (L i) |}) (seq 0 d) |}.

(** The storage and the host represent a stack of contents, bottom first: the
    layers hold them, no path of a higher layer has a value, and [out] gives
    the values that belong to no layer. *)
Record represents (st : list content) (out : content) (s : Storage) (h : H) : Prop := {
  rep_storage : s = storage_of (length st);
  rep_depth : st <> [];
  rep_wf : store_wf h;
  rep_fits i : (i < length st)%nat -> fits (L i);
  rep_content i f : st !! i = Some f -> forall r, steps_ok r -> val h (L i ++ r) = f r;
  rep_fresh i : (length st <= i)%nat -> empty_at h (L i);
  rep_outside q : steps_ok q -> (forall i, ~ L i `prefix_of` q) -> val h q = out q;
}.

Inductive tx_op : Type :=
| TBegin
| TCommit
| TRollback
| TPut (id : list (list Z)) (v : list Z)
| TDelete (id : list (list Z)).

(** The operations of the storage; an object is written through its path. *)
Definition exec_tx (o : tx_op) (s : Storage) (h : H) : outcome (result unit KernelStorageError * Storage * H) :=
  match o with
  | TBegin => Done (begin_transaction s h)
  | TCommit => commit_transaction s h
  | TRollback => rollback_transaction s h
  | TPut id v =>
      match Storage_get_or_create (fun p => p) s (path_join id) with
      | Err e => Done (Err e, s, h)
      | Ok p => let '(r, h) := store_write_all p v h in Done (result_map_err RuntimeErr r, s, h)
      end
  | TDelete id => let '(r, h) := Storage_delete s (path_join id) h in Done (r, s, h)
  end.

Definition top (st : list content) : content := default (fun _ => None) (last st).
Definition set_top (st : list content) (f : content) : list content := removelast st ++ [f].

(** The stack after an operation. *)
Definition abs_tx (o : tx_op) (st : list content) : list content :=
  match o with
  | TBegin => if decide (fits (L (length st))) then st ++ [top st] else st
  | TCommit => if decide (1 < length st)%nat then set_top (removelast st) (top st) else st
  | TRollback => if decide (1 < length st)%nat then removelast st else st
  | TPut id v =>
      if decide (fits (L (length st - 1) ++ id))
      then set_top st (fun r => if decide (r = id) then Some v else top st r) else st
  | TDelete id =>
      if decide (fits (L (length st - 1) ++ id))
      then set_top st (fun r => if decide (id `prefix_of` r) then None else top st r) else st
  end.

(** The answer of an operation; deleting may report that there was nothing. *)
Definition tx_answer (o : tx_op) (st : list content) (r : result unit KernelStorageError) : Prop :=
  match o with
  | TBegin => r = if decide (fits (L (length st))) then Ok tt else Err (PathErr PathTooLong)
  | TCommit | TRollback => r = if decide (1 < length st)%nat then Ok tt else Err NoCurrentTransaction
  | TPut id _ => r = if decide (fits (L (length st - 1) ++ id)) then Ok tt else Err (PathErr PathTooLong)
  | TDelete id =>
      if decide (fits (L (length st - 1) ++ id))
      then r = Ok tt \/ r = Err (RuntimeErr PathNotFound) /\ forall k, steps_ok k -> top st (id ++ k) = None
      else r = Err (PathErr PathTooLong)
  end.

Definition tx_ok (o : tx_op) : Prop :=
  match o with
  | TPut id v => steps_ok id
  | TDelete id => steps_ok id
  | _ => True
  end.

(** ** What the operations of layers do *)

Implicit Types (h : H) (st : list content).

Abbreviation layer i := {| layer_path := path_join (L i) |}.

(** Only values below the layers of [X] differ. *)
Definition same_but (X : nat -> Prop) h h' : Prop :=
  forall q, steps_ok q -> (forall i, X i -> ~ L i `prefix_of` q) -> val h' q = val h q.

Lemma same_but_layer X h h' i r :
  same_but X h h' -> ~ X i -> steps_ok r -> val h' (L i ++ r) = val h (L i ++ r).
Proof.
  intros S N F. apply S.
  - apply Forall_app. split; [apply layer_steps_ok|done].
  - intros j Xj Q. apply N. by apply layer_steps_disjoint in Q as <-.
Qed.

Lemma layer_fits_writable i : fits (L i) -> writable (L i) (path_join (L i)).
Proof. intros B. rewrite <- (app_nil_r (L i)) at 1. rewrite <- (app_nil_r (L i)) at 2. apply layer_writable; by rewrite ?app_nil_r. Qed.

Lemma layer_app_ok i r : steps_ok r -> steps_ok (L i ++ r).
Proof. intros F. apply Forall_app. split; [apply layer_steps_ok|done]. Qed.

Lemma not_below i j r : i <> j -> ~ L i `prefix_of` L j ++ r.
Proof. intros N Q. by apply layer_steps_disjoint in Q. Qed.

(** The top copied to a path without values. *)
Lemma force_make_copy_spec h i j :
  store_wf h -> fits (L i) -> fits (L j) -> i <> j -> empty_at h (L j) ->
  exists h', force_make_copy (layer i) (path_join (L j)) h = (Ok (layer j), h') /\ store_wf h' /\
    (forall r, steps_ok r -> val h' (L j ++ r) = val h (L i ++ r)) /\ same_but (fun n => n = j) h h'.
Proof.
  intros W Bi Bj N E. unfold force_make_copy. cbn [layer_path].
  destruct (store_copy_spec h (L i) _ (L j) _ W (layer_fits_writable i Bi) (layer_fits_writable j Bj))
    as [(h' & -> & W' & T & O)|[-> Ei]].
  - exists h'. split_and!; [done..|]. intros q Fq Q. apply O; [done|]. by apply Q.
  - exists h. split_and!; [done..| |done]. intros r F. by rewrite E, Ei.
Qed.

(** What [store_has] says of a layer, and its deletion. *)
Lemma layer_has h i : store_wf h -> fits (L i) ->
  (exists t, store_has h (path_join (L i)) = Ok (Some t)) \/ store_has h (path_join (L i)) = Ok None /\ empty_at h (L i).
Proof.
  intros W B. pose proof (check_path_exists_spec h (L i) _ W (layer_fits_writable i B)) as C.
  destruct (store_has_spec h (L i) _ W (layer_fits_writable i B)) as (below & E & _).
  unfold check_path_exists in C. rewrite E in C |- *. destruct C as [C|[C Em]].
  - left. by destruct (val h (L i)), below; eauto.
  - right. split; [|done]. by destruct (val h (L i)), below.
Qed.

Lemma layer_delete h i t : store_wf h -> fits (L i) -> store_has h (path_join (L i)) = Ok (Some t) ->
  exists h', store_delete (path_join (L i)) h = (Ok tt, h') /\ store_wf h' /\ empty_at h' (L i) /\
    same_but (fun n => n = i) h h'.
Proof.
  intros W B E. destruct (store_delete_spec h (L i) _ W (layer_fits_writable i B)) as [(h' & -> & W' & V)|[D _]].
  - exists h'. split_and!; [done..| |].
    + intros r F. rewrite V by by apply layer_app_ok. by rewrite decide_True by by exists r.
    + intros q F Q. rewrite V by done. rewrite decide_False; [done|]. by apply Q.
  - unfold store_delete, check_path_exists in D. rewrite E in D. by apply wrap_unit_found in D.
Qed.

Lemma discard_spec h j : store_wf h -> fits (L j) ->
  exists h', discard (layer j) h = (Ok tt, h') /\ store_wf h' /\ empty_at h' (L j) /\ same_but (fun n => n = j) h h'.
Proof.
  intros W B. unfold discard. cbn [layer_path]. destruct (layer_has h j W B) as [[t E]|[E Em]]; rewrite E; [|by exists h].
  destruct (layer_delete h j t W B E) as (h' & D & R). exists h'. split; [|done]. unfold runtime_err. by rewrite D.
Qed.

(** The lower layer becomes the upper one, and that is gone. *)
Lemma consume_spec h i j : store_wf h -> fits (L i) -> fits (L j) -> i <> j ->
  exists h', consume (layer i) (layer j) h = (Ok tt, h') /\ store_wf h' /\ empty_at h' (L j) /\
    (forall r, steps_ok r -> val h' (L i ++ r) = val h (L j ++ r)) /\ same_but (fun n => n = i \/ n = j) h h'.
Proof.
  intros W Bi Bj N. unfold consume. cbn [layer_path].
  destruct (layer_has h j W Bj) as [[t E]|[E Em]]; rewrite E.
  - destruct (store_move_spec h (L j) _ (L i) _ W (layer_fits_writable j Bj) (layer_fits_writable i Bi))
      as [(h' & M & W' & T & O)|[M _]].
    + exists h'. unfold runtime_err. rewrite M. split_and!; [done..| |done|].
      * intros r F. rewrite O by (by apply layer_app_ok || by apply not_below).
        by rewrite decide_True by by exists r.
      * intros q F Q. rewrite O by (done || (apply Q; by left)). rewrite decide_False; [done|]. apply Q. by right.
    + unfold store_move, check_path_exists in M. rewrite E in M. by apply wrap_unit_found in M.
  - destruct (layer_has h i W Bi) as [[t Ei]|[Ei Emi]]; rewrite Ei.
    + destruct (layer_delete h i t W Bi Ei) as (h' & D & W' & Emi & S). exists h'. unfold runtime_err. rewrite D.
      split_and!; [done..| | |].
      * intros r F. rewrite (same_but_layer _ h h' j r S) by (done || congruence). by apply Em.
      * intros r F. by rewrite Emi, Em.
      * intros q F Q. apply S; [done|]. intros n ->. apply Q. by left.
    + exists h. split_and!; [done..| |done]. intros r F. by rewrite Emi, Em.
Qed.

(** ** The operations refine those of the stack *)

Lemma storage_of_S d :
  layers (storage_of (S d)) = layers (storage_of d) ++ [layer d].
Proof. unfold storage_of. cbn [layers]. by rewrite seq_S, map_app. Qed.

Lemma storage_of_length d : length (layers (storage_of d)) = d.
Proof. unfold storage_of. cbn [layers]. by rewrite length_map, length_seq. Qed.

Lemma set_layers_storage d d' : set_layers (storage_of d) (layers (storage_of d')) = storage_of d'.
Proof. done. Qed.

Lemma outside_same X out h h' :
  same_but X h h' -> (forall q, steps_ok q -> (forall i, ~ L i `prefix_of` q) -> val h q = out q) ->
  forall q, steps_ok q -> (forall i, ~ L i `prefix_of` q) -> val h' q = out q.
Proof. intros S O q F Q. rewrite S by (done || intros ? _; done). by apply O. Qed.

(** A stack is represented after a change of some layers when these have the
    right contents, and the others are those of the stack before. *)
Lemma represents_change (X : nat -> Prop) `{forall i, Decision (X i)} st st' out s h h' :
  represents st out s h -> same_but X h h' -> store_wf h' -> st' <> [] ->
  (forall i, (i < length st')%nat -> fits (L i)) ->
  (forall i f, X i -> st' !! i = Some f -> forall r, steps_ok r -> val h' (L i ++ r) = f r) ->
  (forall i, X i -> (length st' <= i)%nat -> empty_at h' (L i)) ->
  (forall i f, ~ X i -> st' !! i = Some f -> st !! i = Some f) ->
  (forall i, ~ X i -> (length st' <= i)%nat -> (length st <= i)%nat) ->
  represents st' out (storage_of (length st')) h'.
Proof.
  intros R Sm W N B C E C0 E0. split; [done..| | |].
  - intros i f Hf r F. destruct (decide (X i)); [by eapply C|].
    rewrite (same_but_layer X h h' i r Sm) by done. apply (rep_content _ _ _ _ R i f); [by apply C0|done].
  - intros i Hi. destruct (decide (X i)); [by apply E|]. intros r F.
    rewrite (same_but_layer X h h' i r Sm) by done. apply (rep_fresh _ _ _ _ R); [by apply E0|done].
  - exact (outside_same X out h h' Sm (rep_outside _ _ _ _ R)).
Qed.

(** The parts of a stack that is not empty. *)
Lemma stack_last st : st <> [] -> exists st0, st = st0 ++ [top st] /\ removelast st = st0 /\ length st = S (length st0).
Proof.
  intros N. destruct (exists_last N) as (st0 & f & ->). exists st0. unfold top.
  rewrite last_snoc, removelast_last, length_app. cbn [from_option id length]. split_and!; [done..|lia].
Qed.

Lemma set_top_length st f : st <> [] -> length (set_top st f) = length st.
Proof. intros (st0 & _ & R & ->)%stack_last. unfold set_top. rewrite R, length_app. simpl. lia. Qed.

Lemma set_top_lookup st f i : st <> [] -> (S i < length st)%nat -> set_top st f !! i = st !! i.
Proof.
  intros (st0 & E & R & Len)%stack_last Hi. unfold set_top. rewrite R, E, !lookup_app_l by lia. done.
Qed.

Lemma set_top_top st f i : st <> [] -> length st = S i -> set_top st f !! i = Some f.
Proof.
  intros (st0 & E & R & Len)%stack_last Hi. unfold set_top. rewrite R, lookup_app_r by lia.
  by replace (i - length st0)%nat with O by lia.
Qed.

Lemma top_lookup st i : st <> [] -> length st = S i -> st !! i = Some (top st).
Proof.
  intros (st0 & E & R & Len)%stack_last Hi. rewrite E at 1. rewrite lookup_app_r by lia.
  by replace (i - length st0)%nat with O by lia.
Qed.

Lemma begin_refines st out s h : represents st out s h ->
  exists r s' h', begin_transaction s h = (r, s', h') /\ tx_answer TBegin st r /\ represents (abs_tx TBegin st) out s' h'.
Proof.
  intros R. pose proof R as [-> N W B C Fr O]. destruct (stack_last st N) as (st0 & _ & _ & En).
  cbn [abs_tx tx_answer]. unfold begin_transaction. rewrite storage_of_length.
  assert (La : last (layers (storage_of (length st))) = Some (layer (length st0))) by by rewrite En, storage_of_S, last_snoc.
  rewrite La. change (Transactions.prefix (storage_of (length st))) with (path_join (init ++ [name])).
  replace (length st + 1)%nat with (S (S (length st0))) by lia. rewrite layer_name_join, layer_try_from, <- En.
  destruct (decide (fits (L (length st)))) as [Bn|Bn]; [|by eexists _, _, _].
  destruct (force_make_copy_spec h (length st0) (length st) W) as (h' & -> & W' & T & Sm);
    [apply B; lia|done|lia|by apply Fr|].
  eexists _, _, _. split; [done|]. split; [done|]. rewrite <- storage_of_S.
  change (set_layers _ _) with (storage_of (S (length st))).
  assert (Len : length (st ++ [top st]) = S (length st)) by (rewrite length_app; simpl; lia). rewrite <- Len.
  apply (represents_change (fun n => n = length st) st _ out _ h h' R); rewrite ?Len; [done..| | | | | |].
  - by destruct st.
  - intros i Hi. destruct (decide (i = length st)) as [->|]; [done|]. apply B. lia.
  - intros i f -> Hf r F. rewrite lookup_app_r, Nat.sub_diag in Hf by done. injection Hf as <-. rewrite T by done.
    apply C; [|done]. by apply top_lookup.
  - intros i -> Hi. lia.
  - intros i f Hi [Hf|[Hl Hf]]%lookup_app_Some; [done|]. apply list_lookup_singleton_Some in Hf. lia.
  - lia.
Qed.

Lemma commit_refines st out s h : represents st out s h ->
  exists r s' h', commit_transaction s h = Done (r, s', h') /\ tx_answer TCommit st r /\
    represents (abs_tx TCommit st) out s' h'.
Proof.
  intros R. pose proof R as [-> N W B C Fr O]. cbn [abs_tx tx_answer]. unfold commit_transaction.
  rewrite storage_of_length. destruct (decide (1 < length st)%nat) as [D|D].
  2: { rewrite (proj2 (Nat.ltb_ge _ _)) by lia. by eexists _, _, _. }
  rewrite (proj2 (Nat.ltb_lt _ _) D). destruct (stack_last st N) as (st1 & E1 & R1 & En).
  assert (N1 : st1 <> []) by (intros ->; simpl in En; lia). destruct (stack_last st1 N1) as (st0 & E0 & R0 & En0).
  rewrite En, storage_of_S, last_snoc, removelast_last, En0, storage_of_S, last_snoc, R1.
  destruct (consume_spec h (length st0) (S (length st0)) W) as (h' & -> & W' & Em & T & Sm); [apply B; lia..|lia|].
  eexists _, _, _. split; [done|]. split; [done|]. rewrite <- storage_of_S.
  change (set_layers _ _) with (storage_of (S (length st0))). rewrite <- En0, <- (set_top_length st1 (top st)) by done.
  apply (represents_change (fun n => n = length st0 \/ n = S (length st0)) st _ out _ h h' R);
    rewrite ?set_top_length by done; [done..| | | | | |].
  - by intros X%(f_equal length); rewrite set_top_length in X; [|done]; rewrite En0 in X.
  - intros i Hi. apply B. lia.
  - intros i f Hi Hf r F. pose proof (lookup_lt_Some _ _ _ Hf) as Li. rewrite set_top_length in Li by done.
    assert (i = length st0) as -> by lia. rewrite set_top_top in Hf by done. injection Hf as <-. rewrite T by done.
    apply C; [|done]. apply top_lookup; [done|lia].
  - intros i Hi Li. by assert (i = S (length st0)) as -> by lia.
  - intros i f Hi Hf. pose proof (lookup_lt_Some _ _ _ Hf) as Li. rewrite set_top_length in Li by done.
    rewrite set_top_lookup in Hf by (done || lia). rewrite E1. by apply lookup_app_l_Some.
  - lia.
Qed.

Lemma rollback_refines st out s h : represents st out s h ->
  exists r s' h', rollback_transaction s h = Done (r, s', h') /\ tx_answer TRollback st r /\
    represents (abs_tx TRollback st) out s' h'.
Proof.
  intros R. pose proof R as [-> N W B C Fr O]. cbn [abs_tx tx_answer]. unfold rollback_transaction.
  rewrite storage_of_length. destruct (decide (1 < length st)%nat) as [D|D].
  2: { rewrite (proj2 (Nat.ltb_ge _ _)) by lia. by eexists _, _, _. }
  rewrite (proj2 (Nat.ltb_lt _ _) D). destruct (stack_last st N) as (st0 & E0 & R0 & En).
  rewrite En, storage_of_S, last_snoc, removelast_last, R0.
  destruct (discard_spec h (length st0) W) as (h' & -> & W' & Em & Sm); [apply B; lia|].
  eexists _, _, _. split; [done|]. split; [done|]. change (set_layers _ _) with (storage_of (length st0)).
  apply (represents_change (fun n => n = length st0) st _ out _ h h' R); [done..| | | | | |].
  - intros ->. simpl in En. lia.
  - intros i Hi. apply B. lia.
  - intros i f -> Hf%lookup_lt_Some. lia.
  - by intros i -> _.
  - intros i f _ Hf. rewrite E0. by apply lookup_app_l_Some.
  - lia.
Qed.

(** A change of the top alone, through paths below it. *)
Lemma represents_top st out s h h' f :
  represents st out s h -> store_wf h' -> same_but (fun n => n = (length st - 1)%nat) h h' ->
  (forall r, steps_ok r -> val h' (L (length st - 1) ++ r) = f r) ->
  represents (set_top st f) out s h'.
Proof.
  intros R W Sm T. pose proof R as [-> N _ B C Fr O]. destruct (stack_last st N) as (st0 & _ & _ & En).
  rewrite <- (set_top_length st f) by done.
  apply (represents_change (fun n => n = (length st - 1)%nat) st _ out _ h h' R); rewrite ?set_top_length by done; [done..| | | | | |].
  - by intros X%(f_equal length); rewrite set_top_length, En in X.
  - done.
  - intros i g -> Hg. rewrite set_top_top in Hg by (done || lia). by injection Hg as <-.
  - lia.
  - intros i g Hi Hg. pose proof (lookup_lt_Some _ _ _ Hg) as Li. rewrite set_top_length in Li by done.
    by rewrite set_top_lookup in Hg by (done || lia).
  - done.
Qed.

Lemma top_content st out s h r :
  represents st out s h -> steps_ok r -> val h (L (length st - 1) ++ r) = top st r.
Proof.
  intros R F. apply (rep_content _ _ _ _ R); [|done]. pose proof (rep_depth _ _ _ _ R) as N. apply top_lookup; [done|].
  destruct st; simpl in *; [done|lia].
Qed.

Lemma last_storage st : st <> [] -> last (layers (storage_of (length st))) = Some (layer (length st - 1)).
Proof.
  intros (st0 & _ & _ & En)%stack_last. rewrite En, storage_of_S, last_snoc.
  by replace (S (length st0) - 1)%nat with (length st0) by lia.
Qed.

Lemma put_refines st out s h id v : steps_ok id -> represents st out s h ->
  exists r s' h', exec_tx (TPut id v) s h = Done (r, s', h') /\ tx_answer (TPut id v) st r /\
    represents (abs_tx (TPut id v) st) out s' h'.
Proof.
  intros Hid R. pose proof R as [-> N W B C Fr O]. cbn [exec_tx abs_tx tx_answer].
  unfold Storage_get_or_create, Layer_get_or_create. rewrite last_storage by done. cbn [layer_path]. rewrite layer_concat.
  destruct (decide (fits _)) as [Bi|Bi]; cbn [result_map_err result_bind]; [|by eexists _, _, _].
  pose proof (layer_writable _ id Hid Bi) as P.
  destruct (store_write_all_ok h _ _ v W P) as (h' & -> & W' & U). eexists _, _, _. split; [done|]. split; [done|].
  apply represents_top with h; [done..| |].
  - intros q F Q. rewrite U by done. rewrite decide_False; [done|]. intros ->. by eapply Q, prefix_app_r.
  - intros r F. rewrite U by by apply layer_app_ok. rewrite (top_content _ _ _ _ _ R F).
    destruct (decide (r = id)) as [->|Nr]; [by rewrite decide_True|].
    rewrite decide_False; [done|]. intros E. apply Nr. by apply app_inv_head in E.
Qed.

Lemma delete_refines st out s h id : steps_ok id -> represents st out s h ->
  exists r s' h', exec_tx (TDelete id) s h = Done (r, s', h') /\ tx_answer (TDelete id) st r /\
    represents (abs_tx (TDelete id) st) out s' h'.
Proof.
  intros Hid R. pose proof R as [-> N W B C Fr O]. cbn [exec_tx abs_tx tx_answer].
  unfold Storage_delete, Layer_delete. rewrite last_storage by done. cbn [layer_path]. rewrite layer_concat.
  destruct (decide (fits _)) as [Bi|Bi]; [|by eexists _, _, _].
  pose proof (layer_writable _ id Hid Bi) as P.
  destruct (store_delete_spec h _ _ W P) as [(h' & E & W' & V)|[E Em]]; unfold runtime_err; rewrite E; cbn [fst snd];
    eexists _, _, _; (split; [done|]).
  - split; [by left|]. apply represents_top with h; [done..| |].
    + intros q F Q. rewrite V by done. rewrite decide_False; [done|]. intros X. eapply Q; [done|].
      by etransitivity; [apply prefix_app_r|].
    + intros r F. rewrite V by by apply layer_app_ok. rewrite (top_content _ _ _ _ _ R F).
      destruct (decide (id `prefix_of` r)) as [X|X].
      * by rewrite decide_True by by apply prefix_app.
      * rewrite decide_False; [done|]. intros Y. apply X. by apply prefix_app_inv in Y.
  - assert (Z0 : forall k, steps_ok k -> top st (id ++ k) = None).
    { intros k F. rewrite <- (top_content _ _ _ _ _ R) by by apply Forall_app. rewrite app_assoc. by apply Em. }
    split; [by right|]. apply represents_top with h; [done|done|done|].
    intros r F. cbn beta. rewrite (top_content st out _ h r R F). destruct (decide _) as [[k ->]|]; [|done].
    apply Z0. by apply Forall_app in F as [_ F].
Qed.

Lemma exec_tx_refines o st out s h : tx_ok o -> represents st out s h ->
  exists r s' h', exec_tx o s h = Done (r, s', h') /\ tx_answer o st r /\ represents (abs_tx o st) out s' h'.
Proof.
  intros K R. destruct o as [| | |id v|id].
  - destruct (begin_refines st out s h R) as (r & s' & h' & E & A). exists r, s', h'. split; [|done].
    cbn [exec_tx]. by rewrite E.
  - by apply commit_refines.
  - by apply rollback_refines.
  - by apply put_refines.
  - by apply delete_refines.
Qed.

(** Many operations, with their answers. *)
Fixpoint exec_txs (ops : list tx_op) (s : Storage) (h : H) : outcome (list (result unit KernelStorageError) * Storage * H) :=
  match ops with
  | [] => Done ([], s, h)
  | o :: ops =>
      match exec_tx o s h with
      | Done (r, s, h) => outcome_map (fun '(rs, s, h) => (r :: rs, s, h)) (exec_txs ops s h)
      | Panicked => Panicked
      | OutOfFuel => OutOfFuel
      end
  end.

Fixpoint tx_answers (ops : list tx_op) st (rs : list (result unit KernelStorageError)) : Prop :=
  match ops, rs with
  | [], [] => True
  | o :: ops, r :: rs => tx_answer o st r /\ tx_answers ops (abs_tx o st) rs
  | _, _ => False
  end.

Definition abs_txs (ops : list tx_op) st : list content := fold_left (fun st o => abs_tx o st) ops st.

Lemma exec_txs_refines ops : forall st out s h, Forall tx_ok ops -> represents st out s h ->
  exists rs s' h', exec_txs ops s h = Done (rs, s', h') /\ tx_answers ops st rs /\ represents (abs_txs ops st) out s' h'.
Proof.
  induction ops as [|o ops IH]; intros st out s h K R; [by exists [], s, h|]. inversion_clear K as [|?? Ko Ks].
  destruct (exec_tx_refines o st out s h Ko R) as (r & s1 & h1 & E & A & R1).
  destruct (IH _ out s1 h1 Ks R1) as (rs & s2 & h2 & E2 & A2 & R2).
  exists (r :: rs), s2, h2. cbn [exec_txs]. rewrite E, E2. by split_and!.
Qed.

(** C13. Transactions are a stack of contents.  From a new storage whose layer
    paths are not in use, any sequence of operations - beginning, committing and
    rolling back nested transactions, writing and deleting objects - succeeds
    or fails as on the stack and leaves the layers with its contents: beginning
    copies the top, committing replaces the content below it, rolling back
    drops it, writes and deletions change the top only, and values outside the
    layers never change. *)
Theorem transactions_refine ops h :
  Forall tx_ok ops -> store_wf h -> (forall i, empty_at h (L (S i))) ->
  exists rs s' h',
    exec_txs ops (Storage_init (path_join (init ++ [name]))) h = Done (rs, s', h') /\
    tx_answers ops [fun r => val h ((init ++ [name]) ++ r)] rs /\
    represents (abs_txs ops [fun r => val h ((init ++ [name]) ++ r)]) (val h) s' h'.
Proof.
  intros K W E. apply exec_txs_refines; [done|]. split; [done..| | | |done].
  - intros [|i] Hi; [|simpl in Hi; lia]. by destruct P0 as [(_ & _ & _ & B) _].
  - intros [|i] f; simpl; [by intros [= <-]|by rewrite lookup_nil].
  - intros [|i] Hi; [simpl in Hi; lia|apply E].
Qed.
End refine.

(** ** Example *)

(** [/w]: an object is written, changed in a transaction that is rolled back,
    and changed in one that is committed. *)
Lemma transactions_refine_witness :
  exists rs s' h',
    exec_txs [TPut [[97]] [1]; TBegin; TPut [[97]] [2]; TRollback; TBegin; TPut [[98]] [3]; TCommit; TCommit]
      (Storage_init [47; 119]) Node_default = Done (rs, s', h') /\
    rs = [Ok tt; Ok tt; Ok tt; Ok tt; Ok tt; Ok tt; Ok tt; Err NoCurrentTransaction] /\
    maybe_get_value h' [[119]; [97]] = Some [1] /\ maybe_get_value h' [[119]; [98]] = Some [3].
Proof.
  assert (P0 : writable ([] ++ [[119]]) (path_join ([] ++ [[119]]))).
  { split; [split_and!; [done..|repeat constructor|]; done|done]. }
  set (ops := [_; _; _; _; _; _; _; _]).
  destruct (transactions_refine [] [119] P0 ops Node_default) as (rs & s' & h' & E & A & R).
  - repeat constructor; done.
  - exact Node_default_wf.
  - intros i r F. apply default_no_value.
  - exists rs, s', h'. split; [exact E|].
    pose proof (rep_content _ _ _ _ _ _ R 0 _ eq_refl) as C. cbn [layer_steps app] in C.
    split; [|split; (etransitivity; [apply (C [_]); repeat constructor; done|]); reflexivity].
    destruct (exec_txs ops _ Node_default) as [[[rs0 s0] h0]| |] eqn:X; try discriminate E.
    injection E as <- <- <-. assert (Y : outcome_map (fun '(rs, _, _) => rs) (exec_txs ops (Storage_init (path_join ([] ++ [[119]]))) Node_default) =
      Done [Ok tt; Ok tt; Ok tt; Ok tt; Ok tt; Ok tt; Ok tt; Err NoCurrentTransaction]) by (vm_compute; reflexivity).
    rewrite X in Y. by injection Y.
Defined.
