(* ===== verification/Dac.v ===== *)
(** Data pages of kernels ([src/kernel_sdk/encoding/src/dac]): splitting a
    payload into a tree of pages that are revealed by their hashes
    ([pages.rs]), and certificates that reveal one to the storage
    ([certificate.rs]).

    The binary encoding of a page is derived by a macro of tezos_data_encoding:
    it is an interface here, as are the hash function and the signatures. *)
From S2P Require Import Prelude Path DurableStore Runtime Hash.
From stdpp Require Import strings.
#[local] Open Scope Z_scope.

(** ** Sizes *)

(* kernel_sdk/constants/src/core.rs:20-20 PREIMAGE_HASH_SIZE *)
Definition PREIMAGE_HASH_SIZE : nat := 33.

(* kernel_sdk/encoding/src/dac/pages.rs:38-38 MAX_PAGE_SIZE *)
Definition MAX_PAGE_SIZE : nat := 4096.

(* kernel_sdk/encoding/src/dac/pages.rs:41-47 PAGE_PREFIX_SIZE *)
Definition PAGE_PREFIX_SIZE : nat := 1 + 4.

(* kernel_sdk/encoding/src/dac/pages.rs:50-50 MAX_USABLE_PAGE_SIZE *)
Definition MAX_USABLE_PAGE_SIZE : nat := MAX_PAGE_SIZE - PAGE_PREFIX_SIZE.

(* kernel_sdk/encoding/src/dac/pages.rs:252-252 MAX_CONTENT_SIZE *)
Definition MAX_CONTENT_SIZE : nat := MAX_USABLE_PAGE_SIZE.

(* kernel_sdk/encoding/src/dac/pages.rs:289-289 MAX_HASHES_PER_PAGE *)
Definition MAX_HASHES_PER_PAGE : nat := MAX_USABLE_PAGE_SIZE / PREIMAGE_HASH_SIZE.

(** ** Pages *)

(** A page with its contents or its hashes. *)
(* kernel_sdk/encoding/src/dac/pages.rs:100-115 Page *)
Inductive Page : Type :=
| V0ContentPage (contents : list Z)
| V0HashPage (hashes : list (list Z)).

(** The derived [BinWriter]; [None] is an error. *)
Class PageWriter := { bin_write : Page -> option (list Z) }.

(* kernel_sdk/encoding/src/dac/pages.rs:61-65 PreimageHashError *)
Inductive PreimageHashError : Set := InputLengthTooLarge.

(** Sizes are unbounded numbers; in the source they are [usize] of the target. *)
(* kernel_sdk/encoding/src/dac/pages.rs:122-127 V0ContentPage::new_pages *)
Definition V0ContentPage_new_pages (input : list Z) : list Page := map V0ContentPage (chunks MAX_CONTENT_SIZE input).

(* kernel_sdk/encoding/src/dac/pages.rs:153-161 V0HashPage::new_pages *)
Definition V0HashPage_new_pages (hashes : list (list Z)) : list Page :=
  map V0HashPage (chunks MAX_HASHES_PER_PAGE hashes).

Section prepare.
Context `{B2 : Blake2b} `{PW : PageWriter}.

(* kernel_sdk/encoding/src/dac/pages.rs:71-82 make_preimage_hash *)
Definition make_preimage_hash (content : list Z) : result (list Z) PreimageHashError :=
  if (MAX_PAGE_SIZE <? length content)%nat then Err InputLengthTooLarge
  else Ok (0 :: digest_256 content).

(** The body of both loops: a page is encoded, hashed, and handed to the
    callback; [calls] are the arguments of the calls so far. *)
(* kernel_sdk/encoding/src/dac/pages.rs:171-184 prepare_preimages *)
Fixpoint hash_pages (pages : list Page) (calls : list (list Z * list Z)) :
  outcome (result (list (list Z)) PreimageHashError * list (list Z * list Z)) :=
  match pages with
  | [] => Done (Ok [], calls)
  | page :: pages =>
      match bin_write page with
      | None => Panicked
      | Some encoded =>
          match make_preimage_hash encoded with
          | Err e => Done (Err e, calls)
          | Ok hash =>
              outcome_map (fun '(r, calls) => (result_map (cons hash) r, calls))
                (hash_pages pages (calls ++ [(hash, encoded)]))
          end
      end
  end.

(* kernel_sdk/encoding/src/dac/pages.rs:186-204 prepare_preimages *)
Fixpoint hash_levels (fuel : nat) (hashes : list (list Z)) (calls : list (list Z * list Z)) :
  outcome (result (list (list Z)) PreimageHashError * list (list Z * list Z)) :=
  if (1 <? length hashes)%nat then
    match fuel with
    | O => OutOfFuel
    | S fuel =>
        match hash_pages (map V0HashPage (chunks MAX_HASHES_PER_PAGE hashes)) calls with
        | Done (Ok hashes, calls) => hash_levels fuel hashes calls
        | r => r
        end
    end
  else Done (Ok hashes, calls).

(** The hash of the root, and the calls of [handle] in order; [remove] panics
    when there are no hashes. *)
(* kernel_sdk/encoding/src/dac/pages.rs:165-207 prepare_preimages *)
Definition prepare_preimages (fuel : nat) (content : list Z) :
  outcome (result (list Z) PreimageHashError * list (list Z * list Z)) :=
  match hash_pages (map V0ContentPage (chunks MAX_CONTENT_SIZE content)) [] with
  | Done (Err e, calls) => Done (Err e, calls)
  | Done (Ok hashes, calls) =>
      match hash_levels fuel hashes calls with
      | Done (Err e, calls) => Done (Err e, calls)
      | Done (Ok (hash :: _), calls) => Done (Ok hash, calls)
      | Done (Ok [], _) | Panicked => Panicked
      | OutOfFuel => OutOfFuel
      end
  | Panicked => Panicked
  | OutOfFuel => OutOfFuel
  end.
End prepare.

(** ** Parsing pages *)

(* kernel_sdk/encoding/src/dac/pages.rs:212-217 SlicePageError *)
Inductive SlicePageError : Set :=
| InvalidTag (tag : option Z)
| InvalidSizePrefix.

(** The bytes of the contents, or of all the hashes. *)
(* kernel_sdk/encoding/src/dac/pages.rs:223-228 SlicePage *)
Inductive SlicePage : Type :=
| SliceContentPage (inner : list Z)
| SliceHashPage (inner : list Z).

(** [u32::from_be_bytes] *)
Definition from_be_bytes (l : list Z) : Z := fold_left (fun acc b => acc * 256 + b) l 0.

(* kernel_sdk/encoding/src/dac/pages.rs:255-271 V0SliceContentPage::parse *)
Definition parse_content_page (slice : list Z) : result (list Z) SlicePageError :=
  if (length slice <? 4)%nat then Err InvalidSizePrefix
  else
    let size := from_be_bytes (take 4 slice) in
    if Z.of_nat (length slice) <? 4 + size then Err InvalidSizePrefix
    else Ok (take (Z.to_nat size) (drop 4 slice)).

(* kernel_sdk/encoding/src/dac/pages.rs:302-318 V0SliceHashPage::parse *)
Definition parse_hash_page (slice : list Z) : result (list Z) SlicePageError :=
  if (length slice <? 4)%nat then Err InvalidSizePrefix
  else
    let size := from_be_bytes (take 4 slice) in
    if (Z.of_nat (length slice) <? 4 + size) || negb (size mod Z.of_nat PREIMAGE_HASH_SIZE =? 0)
    then Err InvalidSizePrefix
    else Ok (take (Z.to_nat size) (drop 4 slice)).

(* kernel_sdk/encoding/src/dac/pages.rs:233-241 try_from *)
Definition SlicePage_try_from (value : list Z) : result SlicePage SlicePageError :=
  match value with
  | 0 :: rest => result_map SliceContentPage (parse_content_page rest)
  | 1 :: rest => result_map SliceHashPage (parse_hash_page rest)
  | _ => Err (InvalidTag (head value))
  end.

(** [chunks_exact] leaves out a shorter last chunk. *)
(* kernel_sdk/encoding/src/dac/pages.rs:292-299 hashes *)
Definition slice_hashes (inner : list Z) : list (list Z) :=
  filter (fun c => length c = PREIMAGE_HASH_SIZE) (chunks PREIMAGE_HASH_SIZE inner).

(** ** Revealing *)

(** The reveal channel of a host: status and the bytes written to the buffer. *)
(* kernel_sdk/core/src/smart_rollup_core.rs:265-271 reveal_preimage *)
Class RevealHost (H : Type) : Type := { core_reveal_preimage : H -> list Z -> Z -> Z * list Z }.

Section reveal.
Context {H : Type} `{RH : RevealHost H}.

(* kernel_sdk/host/src/runtime.rs:562-580 reveal_preimage *)
Definition reveal_preimage (h : H) (hash : list Z) (buffer_len : Z) : result (Z * list Z) RuntimeError :=
  let '(code, bytes) := core_reveal_preimage h hash buffer_len in
  result_map (fun size => (size, bytes)) (wrap_err code).

(** The page, and the length of the rest of the buffer. *)
(* kernel_sdk/encoding/src/dac/pages.rs:323-332 fetch_page_raw *)
Definition fetch_page_raw (h : H) (hash : list Z) (buffer_len : Z) : result (list Z * Z) RuntimeError :=
  let? r := reveal_preimage h hash buffer_len in
  Ok (take (Z.to_nat r.1) r.2, buffer_len - r.1).

(** [save_content] acts on the host, and what else it captures is part of it. *)
Context (save_content : list Z -> stM H string unit).

(** The recursion is on the levels that are left, [max_dac_levels - level]. *)
(* kernel_sdk/encoding/src/dac/pages.rs:342-369 reveal_loop *)
Fixpoint reveal_loop (levels : nat) (hash : list Z) (buffer_len : Z) : stM H string unit := fun h =>
  match levels with
  | O => (Err "DAC preimage tree contains too many levels."%string, h)
  | S levels =>
      match fetch_page_raw h hash buffer_len with
      | Err _ => (Err "Failed to retrieve preimage"%string, h)
      | Ok (page, rest) =>
          match SlicePage_try_from page with
          | Err _ => (Err "Unable to decode DAC page: Decode into SlicePage failed"%string, h)
          | Ok (SliceHashPage inner) =>
              foldr (fun hash (k : stM H string unit) => st_bind (reveal_loop levels hash rest) (fun _ => k))
                (st_ret tt) (slice_hashes inner) h
          | Ok (SliceContentPage content) => save_content content h
          end
      end
  end.
End reveal.

(** ** Certificates *)

(** BLS signatures: keys, signatures, errors, and the check of an aggregated
    signature against messages with their keys. *)
Class Bls := {
  PublicKeyBls : Type; BlsSignature : Type; CryptoError : Type;
  aggregate_verify : BlsSignature -> list (list Z * PublicKeyBls) -> result bool CryptoError;
}.

Section certificate.
Context `{BL : Bls}.

(* kernel_sdk/encoding/src/dac/certificate.rs:37-66 CertificateError *)
Inductive CertificateError : Type :=
| InsufficientNumberOfSignatures (threshold actual : Z)
| SignatureVerificationFailed (e : CryptoError)
| InvalidAggregateSignature
| CertStorageError (path : list Z) (e : RuntimeError)
| RevealError (hash : list Z) (e : RuntimeError)
| PageError (e : SlicePageError)
| PayloadTooLarge.

(** The witnesses are a bit set, as a number. *)
(* kernel_sdk/encoding/src/dac/certificate.rs:87-96 V0Certificate *)
Record V0Certificate : Type := { root_hash : list Z; aggregated_signature : BlsSignature; witnesses : Z }.

(* kernel_sdk/encoding/src/dac/certificate.rs:117-130 verify *)
Definition signing_members (c : V0Certificate) (pks : list PublicKeyBls) : list (list Z * PublicKeyBls) :=
  omap (fun '(i, member) => if Z.testbit c.(witnesses) (Z.of_nat i) then Some (c.(root_hash), member) else None)
    (imap pair pks).

(* kernel_sdk/encoding/src/dac/certificate.rs:105-150 verify *)
Definition Certificate_verify (c : V0Certificate) (committee_members_pks : list PublicKeyBls) (threshold : Z) :
  result unit CertificateError :=
  let members := signing_members c committee_members_pks in
  let num_of_signatures := Z.of_nat (length members) in
  if num_of_signatures <? threshold then Err (InsufficientNumberOfSignatures threshold num_of_signatures)
  else
    let? is_valid_signature :=
      result_map_err SignatureVerificationFailed (aggregate_verify c.(aggregated_signature) members) in
    if is_valid_signature : bool then Ok tt else Err InvalidAggregateSignature.

(* kernel_sdk/encoding/src/dac/certificate.rs:173-173 MAX_TOP_LEVEL_HASHES *)
Definition MAX_TOP_LEVEL_HASHES : nat := 20.

(* kernel_sdk/encoding/src/dac/certificate.rs:183-185 MAX_REVEALS *)
Definition MAX_REVEALS : nat := 1 + MAX_TOP_LEVEL_HASHES + MAX_HASHES_PER_PAGE * MAX_TOP_LEVEL_HASHES.

Context {H : Type} `{RH : RevealHost H} `{SRC : SmartRollupCore H}.

(* kernel_sdk/encoding/src/dac/certificate.rs:235-243 fetch_page *)
Definition fetch_page (h : H) (hash : list Z) : result SlicePage CertificateError :=
  let? r := result_map_err (RevealError hash) (fetch_page_raw h hash (Z.of_nat MAX_PAGE_SIZE)) in
  result_map_err PageError (SlicePage_try_from r.1).

(** Each turn reveals one hash; [hashes] never holds more than [MAX_REVEALS]. *)
(* kernel_sdk/encoding/src/dac/certificate.rs:209-229 reveal_to_store *)
Fixpoint reveal_store_loop (fuel : nat) (path : list Z) (hashes : list (list Z)) (revealed : nat) (written : Z) (h : H) :
  outcome (result Z CertificateError * H) :=
  match hashes !! revealed with
  | None => Done (Ok written, h)
  | Some hash =>
      match fuel with
      | O => OutOfFuel
      | S fuel =>
          match fetch_page h hash with
          | Err e => Done (Err e, h)
          | Ok (SliceHashPage inner) =>
              let num_allowed := (MAX_REVEALS - length hashes)%nat in
              if (num_allowed * PREIMAGE_HASH_SIZE <? length inner)%nat then Done (Err PayloadTooLarge, h)
              else reveal_store_loop fuel path (hashes ++ slice_hashes inner) (S revealed) written h
          | Ok (SliceContentPage content) =>
              match store_write path content written h with
              | (Err e, h) => Done (Err (CertStorageError path e), h)
              | (Ok _, h) =>
                  reveal_store_loop fuel path hashes (S revealed) (written + Z.of_nat (length content)) h
              end
          end
      end
  end.

(* kernel_sdk/encoding/src/dac/certificate.rs:168-232 reveal_to_store *)
Definition reveal_to_store (c : V0Certificate) (path : list Z) (h : H) : outcome (result Z CertificateError * H) :=
  match store_delete_value path h with
  | (Err e, h) => Done (Err (CertStorageError path e), h)
  | (Ok _, h) => reveal_store_loop (S MAX_REVEALS) path [c.(root_hash)] 0 0 h
  end.
End certificate.
