(* ===== verification/DacSpec.v ===== *)
(** Data pages: what is split into pages is revealed again, by the recursive
    loop and by certificates, and how deep the tree of pages is. *)
From S2P Require Import Prelude Path PathSpec DurableStore DurableStoreSpec Runtime RuntimeSpec.
From S2P Require Import Hash HashSpec Dac.
From stdpp Require Import strings.
#[local] Open Scope Z_scope.

(** ** Chunks *)

Lemma chunks_map {A B} (f : A -> B) n (l : list A) : (0 < n)%nat -> chunks n (map f l) = map (map f) (chunks n l).
Proof.
  intros P. induction l as [|l N IH] using (chunks_ind n P); [done|].
  rewrite (chunks_cons n (map f l)), (chunks_cons n l) by (done || by destruct l). cbn [map]. by rewrite firstn_map, skipn_map, IH.
Qed.

Lemma chunks_bounds {A} n (l : list A) :
  (0 < n)%nat -> Forall (fun c => c <> [] /\ (length c <= n)%nat) (chunks n l).
Proof.
  intros P. induction l as [|l N IH] using (chunks_ind n P); [constructor|].
  rewrite chunks_cons by done. constructor; [|done]. rewrite length_take. split; [|lia].
  destruct n; [lia|]. by destruct l.
Qed.

Lemma chunks_Forall {A} (P : A -> Prop) n (l : list A) : (0 < n)%nat -> Forall P l -> Forall (Forall P) (chunks n l).
Proof.
  intros Pn. induction l as [|l N IH] using (chunks_ind n Pn); [constructor|]. intros F.
  rewrite chunks_cons by done. constructor; [by apply Forall_take|]. apply IH. by apply Forall_drop.
Qed.

(** The number of chunks, rounded up. *)
Lemma chunks_count {A} n (l : list A) : (0 < n)%nat -> (n * (length (chunks n l)) < length l + n /\ length l <= n * length (chunks n l))%nat.
Proof.
  intros P. induction l as [|l N IH] using (chunks_ind n P); [simpl; lia|].
  rewrite chunks_cons by done. cbn [length]. rewrite Nat.mul_succ_r.
  assert (length l <> 0)%nat by by destruct l. destruct (decide (n <= length l)%nat).
  - rewrite length_drop in IH. lia.
  - rewrite drop_ge by lia. cbn [chunks chunks_from length]. lia.
Qed.

Lemma chunks_exact_concat (hs : list (list Z)) n :
  (0 < n)%nat -> Forall (fun h => length h = n) hs -> chunks n (concat hs) = hs.
Proof.
  intros P. induction 1 as [|h hs L _ IH]; [done|]. cbn [concat]. by rewrite chunks_app, IH.
Qed.

Lemma concat_map_concat {A} (l : list (list (list A))) : concat (map (@concat A) l) = concat (concat l).
Proof. induction l as [|x l IH]; [done|]. cbn [map concat]. by rewrite concat_app, IH. Qed.

(** ** Encoding of pages *)

(** [u32::to_be_bytes] *)
Definition be_u32 (z : Z) : list Z := [z / 2 ^ 24 mod 256; z / 2 ^ 16 mod 256; z / 2 ^ 8 mod 256; z mod 256].

Lemma from_be_u32 z : is_u 32 z -> from_be_bytes (be_u32 z) = z.
Proof.
  unfold is_u, from_be_bytes, be_u32. cbn [fold_left]. intros U.
  change (2 ^ 24) with 16777216. change (2 ^ 16) with 65536. change (2 ^ 8) with 256. change (2 ^ 32) with 4294967296 in U.
  Z.to_euclidean_division_equations. lia.
Qed.

(** A page is a tag, the size of the rest in four bytes, and the rest. *)
Class PageWriterLaws `{PW : PageWriter} : Prop := {
  bin_write_content c : (length c <= MAX_CONTENT_SIZE)%nat ->
    bin_write (V0ContentPage c) = Some (0 :: be_u32 (Z.of_nat (length c)) ++ c);
  bin_write_hashes hs : Forall (fun h => length h = PREIMAGE_HASH_SIZE) hs -> (length hs <= MAX_HASHES_PER_PAGE)%nat ->
    bin_write (V0HashPage hs) = Some (1 :: be_u32 (Z.of_nat (length (concat hs))) ++ concat hs);
}.


Lemma parse_content c :
  Z.of_nat (length c) < 2 ^ 32 -> parse_content_page (be_u32 (Z.of_nat (length c)) ++ c) = Ok c.
Proof.
  intros B. unfold parse_content_page. rewrite (take_app_length' _ _ 4), (drop_app_length' _ _ 4), from_be_u32 by (done || (unfold is_u; lia)).
  rewrite length_app. change (length (be_u32 _)) with 4%nat.
  rewrite (proj2 (Nat.ltb_ge _ _)) by lia. rewrite (proj2 (Z.ltb_ge _ _)) by lia. by rewrite Nat2Z.id, take_ge.
Qed.

Lemma length_concat_hashes (hs : list (list Z)) :
  Forall (fun h => length h = PREIMAGE_HASH_SIZE) hs -> length (concat hs) = (length hs * PREIMAGE_HASH_SIZE)%nat.
Proof. induction 1 as [|h hs L _ IH]; [done|]. cbn [concat length]. rewrite length_app. lia. Qed.

Lemma parse_hashes hs :
  Forall (fun h => length h = PREIMAGE_HASH_SIZE) hs -> Z.of_nat (length (concat hs)) < 2 ^ 32 ->
  parse_hash_page (be_u32 (Z.of_nat (length (concat hs))) ++ concat hs) = Ok (concat hs).
Proof.
  intros F B. unfold parse_hash_page. rewrite (take_app_length' _ _ 4), (drop_app_length' _ _ 4), from_be_u32 by (done || (unfold is_u; lia)).
  rewrite length_app. change (length (be_u32 _)) with 4%nat.
  rewrite (proj2 (Nat.ltb_ge _ _)) by lia. rewrite (proj2 (Z.ltb_ge _ _)) by lia.
  rewrite length_concat_hashes, Nat2Z.inj_mul, Z_mod_mult by done. cbn [Z.eqb negb orb].
  rewrite <- Nat2Z.inj_mul, <- length_concat_hashes by done. by rewrite Nat2Z.id, take_ge.
Qed.

Lemma slice_hashes_concat hs :
  Forall (fun h => length h = PREIMAGE_HASH_SIZE) hs -> slice_hashes (concat hs) = hs.
Proof.
  intros F. unfold slice_hashes. rewrite chunks_exact_concat by (done || (unfold PREIMAGE_HASH_SIZE; lia)).
  induction F as [|h hs L _ IH]; [done|]. by rewrite filter_cons_True, IH.
Qed.

(** ** Sizes *)

Lemma hash_size_Z : Z.of_nat PREIMAGE_HASH_SIZE = 33. Proof. done. Qed.
Lemma page_size_Z : Z.of_nat MAX_PAGE_SIZE = 4096. Proof. done. Qed.
Lemma content_size_Z : Z.of_nat MAX_CONTENT_SIZE = 4091. Proof. done. Qed.
Lemma hashes_per_page_Z : Z.of_nat MAX_HASHES_PER_PAGE = 123. Proof. done. Qed.
Lemma max_reveals_Z : Z.of_nat MAX_REVEALS = 2481. Proof. done. Qed.

#[local] Opaque PREIMAGE_HASH_SIZE MAX_PAGE_SIZE MAX_CONTENT_SIZE MAX_HASHES_PER_PAGE MAX_REVEALS.

Ltac sizes :=
  pose proof hash_size_Z; pose proof page_size_Z; pose proof content_size_Z; pose proof hashes_per_page_Z;
  pose proof max_reveals_Z; lia.

Lemma chunks_Forall2 {A B} (R : A -> B -> Prop) n (l : list A) (l' : list B) :
  (0 < n)%nat -> Forall2 R l l' -> Forall2 (Forall2 R) (chunks n l) (chunks n l').
Proof.
  intros P. revert l'. induction l as [|l N IH] using (chunks_ind n P).
  - intros l' F. apply Forall2_nil_inv_l in F as ->. constructor.
  - intros l' F. assert (l' <> []) by (intros ->; by apply Forall2_nil_inv_r in F).
    rewrite (chunks_cons n l), (chunks_cons n l') by done.
    constructor; [by apply Forall2_take|]. apply IH. by apply Forall2_drop.
Qed.

(** ** Pages and their hashes *)

Section pages.
Context `{BO : Blake2bOk} `{PWL : PageWriterLaws}.

Definition encode (p : Page) : list Z := default [] (bin_write p).
Definition page_hash (p : Page) : list Z := 0 :: digest_256 (encode p).

(** The page as the callback gets it. *)
Definition page_call (p : Page) : list Z * list Z := (page_hash p, encode p).

Definition is_hash (h : list Z) : Prop := length h = PREIMAGE_HASH_SIZE.

Definition page_fits (p : Page) : Prop :=
  match p with
  | V0ContentPage c => (length c <= MAX_CONTENT_SIZE)%nat
  | V0HashPage hs => Forall is_hash hs /\ (length hs <= MAX_HASHES_PER_PAGE)%nat
  end.

Definition slice_of (p : Page) : SlicePage :=
  match p with
  | V0ContentPage c => SliceContentPage c
  | V0HashPage hs => SliceHashPage (concat hs)
  end.

Lemma page_hash_size p : is_hash (page_hash p).
Proof. unfold is_hash, page_hash. cbn [length]. rewrite digest_size. done. Qed.

Lemma encode_ok p :
  page_fits p ->
  bin_write p = Some (encode p) /\ (length (encode p) <= MAX_PAGE_SIZE)%nat /\
  SlicePage_try_from (encode p) = Ok (slice_of p).
Proof.
  unfold encode. destruct p as [c|hs]; cbn [page_fits].
  - intros L. rewrite bin_write_content by done. split; [done|]. cbn [from_option id length]. rewrite length_app.
    change (length (be_u32 _)) with 4%nat. split; [sizes|]. unfold SlicePage_try_from. rewrite parse_content by sizes. done.
  - intros [F L]. rewrite bin_write_hashes by done. split; [done|]. cbn [from_option id length]. rewrite length_app.
    change (length (be_u32 _)) with 4%nat. pose proof (length_concat_hashes hs F) as C.
    assert (Bd : Z.of_nat (length (concat hs)) <= 4059).
    { rewrite C, Nat2Z.inj_mul, hash_size_Z. sizes. }
    split; [sizes|]. unfold SlicePage_try_from. rewrite parse_hashes by (done || lia). done.
Qed.

Lemma make_preimage_hash_ok p : page_fits p -> make_preimage_hash (encode p) = Ok (page_hash p).
Proof.
  intros F. unfold make_preimage_hash. destruct (encode_ok p F) as (_ & L & _).
  by rewrite (proj2 (Nat.ltb_ge _ _)).
Qed.

Lemma hash_pages_ok pages : forall calls,
  Forall page_fits pages -> hash_pages pages calls = Done (Ok (map page_hash pages), calls ++ map page_call pages).
Proof.
  induction pages as [|p pages IH]; intros calls F; cbn [hash_pages map]; [by rewrite app_nil_r|].
  apply Forall_cons_1 in F as [Fp F]. rewrite (proj1 (encode_ok p Fp)), make_preimage_hash_ok, IH by done.
  cbn [outcome_map result_map]. by rewrite <- (assoc_L (++)).
Qed.

(** ** Levels of a tree of pages *)

Definition stored (calls : list (list Z * list Z)) (h : list Z) (p : Page) : Prop :=
  h = page_hash p /\ page_fits p /\ page_call p ∈ calls.

(** The hashes of level [j] over the contents [cs]: each level hashes the one
    below it in groups. *)
Fixpoint tower (calls : list (list Z * list Z)) (j : nat) (hs cs : list (list Z)) : Prop :=
  match j with
  | O => Forall2 (fun h c => stored calls h (V0ContentPage c)) hs cs
  | S j => exists below, tower calls j below cs /\
      Forall2 (fun h g => stored calls h (V0HashPage g)) hs (chunks MAX_HASHES_PER_PAGE below)
  end.

Lemma page_stored_mono calls calls' h p : calls ⊆ calls' -> stored calls h p -> stored calls' h p.
Proof. intros S (E & F & I). split_and!; auto. Qed.

Lemma tower_mono calls calls' j : forall hs cs, calls ⊆ calls' -> tower calls j hs cs -> tower calls' j hs cs.
Proof.
  induction j as [|j IH]; intros hs cs S; cbn [tower].
  - intros F. eapply Forall2_impl; [done|]. intros; by eapply page_stored_mono.
  - intros (below & T & F). exists below. split; [by apply IH|].
    eapply Forall2_impl; [done|]. intros; by eapply page_stored_mono.
Qed.

Lemma stored_map {A} (f : A -> Page) calls cs :
  Forall (fun c => page_fits (f c)) cs ->
  Forall2 (fun h c => stored (calls ++ map page_call (map f cs)) h (f c)) (map page_hash (map f cs)) cs.
Proof.
  intros F. rewrite !map_map. apply (Forall2_fmap_l (fun c => page_hash (f c))), Forall_Forall2_diag.
  apply Forall_forall. intros c I. split_and!; [done|by eapply Forall_forall in F|].
  apply elem_of_app. right. by apply (list_elem_of_fmap_2 (fun c => page_call (f c))).
Qed.

Lemma tower_sizes calls j hs cs : tower calls j hs cs -> Forall is_hash hs.
Proof.
  destruct j as [|j]; cbn [tower]; [intros F|intros (below & _ & F)];
    (eapply Forall2_Forall_l; [done|]; apply Forall_forall; intros c _ h (-> & _); apply page_hash_size).
Qed.

(** The number of levels over [n] hashes: the least one that is enough. *)
Definition height_of (k n : nat) : Prop :=
  (n <= MAX_HASHES_PER_PAGE ^ k /\ (k = 0 \/ MAX_HASHES_PER_PAGE ^ (k - 1) < n))%nat.

Lemma height_step k n m :
  (1 < n)%nat -> (MAX_HASHES_PER_PAGE * m < n + MAX_HASHES_PER_PAGE)%nat -> (n <= MAX_HASHES_PER_PAGE * m)%nat ->
  height_of k m -> height_of (S k) n.
Proof.
  intros N U L [A C]. split; [rewrite Nat.pow_succ_r'; nia|right]. replace (S k - 1)%nat with k by lia.
  destruct C as [->|C]; [simpl; lia|]. destruct k as [|k]; [simpl; lia|].
  replace (S k - 1)%nat with k in C by lia. rewrite Nat.pow_succ_r'. nia.
Qed.

(** As many turns as there are hashes are enough. *)
Lemma hash_levels_ok fuel : forall calls j hs cs,
  tower calls j hs cs -> hs <> [] -> (length hs <= S fuel)%nat ->
  exists k root calls', hash_levels fuel hs calls = Done (Ok [root], calls') /\
    tower calls' (k + j) [root] cs /\ height_of k (length hs).
Proof.
  induction fuel as [|fuel IH]; intros calls j hs cs T N L; cbn [hash_levels].
  - destruct hs as [|h [|]]; simpl in *; [done| |lia]. exists 0%nat, h, calls. split_and!; [done..|].
    split; [simpl; lia|by left].
  - destruct (Nat.ltb_spec 1 (length hs)) as [G|G].
    + assert (P : (2 <= MAX_HASHES_PER_PAGE)%nat) by sizes. set (gs := chunks MAX_HASHES_PER_PAGE hs).
      pose proof (tower_sizes _ _ _ _ T) as Z. assert (F : Forall page_fits (map V0HashPage gs)).
      { apply Forall_fmap, Forall_and. split; [apply chunks_Forall; [lia|done]|].
        apply (Forall_impl _ _ _ (chunks_bounds MAX_HASHES_PER_PAGE hs ltac:(lia))). by intros g [_ ?]. }
      rewrite hash_pages_ok by done.
      destruct (IH (calls ++ map page_call (map V0HashPage gs)) (S j) (map page_hash (map V0HashPage gs)) cs)
        as (k & root & calls' & E & T' & Ht).
      * exists hs. split; [eapply tower_mono; [|done]; set_solver|]. apply stored_map. exact (proj1 (Forall_fmap V0HashPage _ _) F).
      * unfold gs. by rewrite chunks_cons by (done || lia).
      * rewrite !length_map. assert (length gs < length hs)%nat by by apply chunks_shrink. lia.
      * exists (S k), root, calls'. split; [done|]. split; [by rewrite Nat.add_succ_comm|].
        rewrite !length_map in Ht. destruct (chunks_count MAX_HASHES_PER_PAGE hs ltac:(lia)). by eapply height_step.
    + destruct hs as [|h [|]]; simpl in *; [done| |lia]. exists 0%nat, h, calls. split_and!; [done..|].
      split; [simpl; lia|by left].
Qed.

(** Content that is not empty is split into a tree of pages, as high as the
    number of leaves asks for. *)
Lemma prepare_ok content :
  content <> [] ->
  let leaves := chunks MAX_CONTENT_SIZE content in
  exists k root calls, prepare_preimages (length content) content = Done (Ok root, calls) /\
    tower calls k [root] leaves /\ height_of k (length leaves).
Proof.
  intros N leaves. assert (P : (0 < MAX_CONTENT_SIZE)%nat) by sizes. unfold prepare_preimages.
  assert (F : Forall page_fits (map V0ContentPage leaves)).
  { apply Forall_fmap, (Forall_impl _ _ _ (chunks_bounds MAX_CONTENT_SIZE content P)). by intros c [_ ?]. }
  change (chunks MAX_CONTENT_SIZE content) with leaves. rewrite hash_pages_ok by done. cbn [app].
  destruct (hash_levels_ok (length content) (map page_call (map V0ContentPage leaves)) 0
    (map page_hash (map V0ContentPage leaves)) leaves) as (k & root & calls & E & T & Ht).
  - apply (stored_map V0ContentPage []). exact (proj1 (Forall_fmap V0ContentPage _ _) F).
  - unfold leaves. by rewrite chunks_cons.
  - rewrite !length_map. assert (length leaves <= length content)%nat by by apply length_chunks. lia.
  - exists k, root, calls. rewrite E, Nat.add_0_r in *. rewrite !length_map in Ht. done.
Qed.
End pages.

(** ** Revealing a tree *)

Section reveal.
Context `{BO : Blake2bOk} `{PWL : PageWriterLaws} {H : Type} `{RH : RevealHost H}.
Context (calls : list (list Z * list Z)).

(** The host reveals each page that was handed out, up to the length of the buffer. *)
Definition available (h : H) : Prop :=
  forall hash page n, (hash, page) ∈ calls -> 0 <= n ->
    core_reveal_preimage h hash n = (Z.min (Z.of_nat (length page)) n, take (Z.to_nat n) page).

Lemma fetch_page_raw_ok h hash p n :
  available h -> stored calls hash p -> Z.of_nat MAX_PAGE_SIZE <= n ->
  fetch_page_raw h hash n = Ok (encode p, n - Z.of_nat (length (encode p))).
Proof.
  intros A (-> & F & I) N. pose proof page_size_Z. destruct (encode_ok p F) as (_ & L & _).
  unfold fetch_page_raw, reveal_preimage. rewrite (A _ _ n I) by lia. rewrite wrap_err_ok by lia.
  cbn [result_bind result_map fst snd]. rewrite Z.min_l by lia. by rewrite (take_ge _ (Z.to_nat n)), Nat2Z.id, firstn_all by lia.
Qed.

Context (save_content : list Z -> stM H string unit) (save_keeps : forall c, keeps available (save_content c)).

(** Saving the contents one after the other. *)
Definition saves (cs : list (list Z)) : stM H string unit :=
  foldr (fun c k => let! _ := save_content c in k) (st_ret tt) cs.

Lemma saves_app a b h : saves (a ++ b) h = (let! _ := saves a in saves b) h.
Proof.
  revert h. induction a as [|c a IH]; intros h; [done|]. cbn [app]. unfold saves in *. cbn [foldr].
  unfold st_bind in *. destruct (save_content c h) as [[]?]; [apply IH|done].
Qed.

Lemma saves_keeps cs : keeps available (saves cs).
Proof. induction cs; [apply keeps_ret|]. by apply keeps_bind. Qed.

(** The contents under one hash of level [j]. *)
Fixpoint holds (j : nat) (hash : list Z) (cs : list (list Z)) : Prop :=
  match j with
  | O => exists c, cs = [c] /\ stored calls hash (V0ContentPage c)
  | S j => exists hs css, cs = concat css /\ hs <> [] /\ Forall2 (holds j) hs css /\ stored calls hash (V0HashPage hs)
  end.

Lemma tower_holds j : forall hs cs, tower calls j hs cs -> exists css, cs = concat css /\ Forall2 (holds j) hs css.
Proof.
  assert (P : (0 < MAX_HASHES_PER_PAGE)%nat) by sizes. induction j as [|j IH]; intros hs cs; cbn [tower holds].
  - intros F. exists (map (fun c => [c]) cs). split; [clear F; induction cs; simpl; by f_equal|].
    apply Forall2_fmap_r. eapply Forall2_impl; [done|]. intros h c S. by exists c.
  - intros (below & T & F). destruct (IH _ _ T) as (css & -> & G).
    exists (map (@concat _) (chunks MAX_HASHES_PER_PAGE css)). split.
    { by rewrite concat_map_concat, chunks_concat. }
    apply Forall2_fmap_r. pose proof (chunks_Forall2 _ MAX_HASHES_PER_PAGE _ _ P G) as C.
    pose proof (chunks_bounds MAX_HASHES_PER_PAGE below P) as Bd.
    clear IH T G. revert F C Bd. generalize (chunks MAX_HASHES_PER_PAGE below) (chunks MAX_HASHES_PER_PAGE css).
    intros gs ccs F. revert ccs. induction F as [|h g hs gs S F IH]; intros ccs C; inversion C; subst; constructor.
    + apply Forall_cons_1 in Bd as [[] _]. by exists g, y.
    + apply IH; [done|]. by apply Forall_cons_1 in Bd as [_ ?].
Qed.

(** One hash page: the hashes are revealed in turn. *)
Lemma reveal_children (f : list Z -> stM H string unit) hs css : 
  Forall2 (fun hash cs => forall h, available h -> f hash h = saves cs h) hs css ->
  forall h, available h -> foldr (fun hash k => let! _ := f hash in k) (st_ret tt) hs h = saves (concat css) h.
Proof.
  induction 1 as [|hash cs hs css E _ IH]; intros h A; [done|]. cbn [foldr concat]. rewrite saves_app.
  unfold st_bind. rewrite E by done. pose proof (saves_keeps cs h A) as K.
  destruct (saves cs h) as [[]?]; [by apply IH|done].
Qed.

Lemma reveal_loop_page levels hash p n h :
  available h -> stored calls hash p -> Z.of_nat MAX_PAGE_SIZE <= n ->
  exists rest, n - Z.of_nat MAX_PAGE_SIZE <= rest /\
    reveal_loop save_content (S levels) hash n h =
    match p with
    | V0HashPage hs => foldr (fun hash k => let! _ := reveal_loop save_content levels hash rest in k) (st_ret tt) hs h
    | V0ContentPage c => save_content c h
    end.
Proof.
  intros A S N. exists (n - Z.of_nat (length (encode p))). pose proof S as (_ & F & _).
  destruct (encode_ok p F) as (_ & L & E). split; [lia|]. cbn [reveal_loop].
  rewrite (fetch_page_raw_ok h hash p n) by done. rewrite E. destruct p as [c|hs]; [done|]. cbn [slice_of].
  by rewrite slice_hashes_concat by apply F.
Qed.

(** With enough levels and room for a page at each, the contents are saved in order. *)
Lemma reveal_holds j : forall hash cs levels n h,
  holds j hash cs -> (j < levels)%nat -> Z.of_nat MAX_PAGE_SIZE * (Z.of_nat j + 1) <= n -> available h ->
  reveal_loop save_content levels hash n h = saves cs h.
Proof.
  pose proof page_size_Z as PZ. induction j as [|j IH]; intros hash cs [|levels] n h; cbn [holds]; try lia.
  - intros (c & -> & S) _ N A. destruct (reveal_loop_page levels hash _ n h A S) as (rest & _ & ->); [lia|].
    unfold saves. cbn [foldr]. unfold st_bind. by destruct (save_content c h) as [[[]|]?].
  - intros (hs & css & -> & _ & F & S) L N A.
    destruct (reveal_loop_page levels hash _ n h A S) as (rest & R & ->); [lia|].
    apply reveal_children; [|done]. eapply Forall2_impl; [done|]. intros h' cs' Hh' s As.
    apply (IH h' cs'); (done || lia).
Qed.

(** With fewer levels, nothing is saved. *)
Lemma reveal_deep j : forall hash cs levels n h,
  holds j hash cs -> (levels <= j)%nat -> Z.of_nat MAX_PAGE_SIZE * Z.of_nat levels <= n -> available h ->
  reveal_loop save_content levels hash n h = (Err "DAC preimage tree contains too many levels."%string, h).
Proof.
  pose proof page_size_Z as PZ. induction j as [|j IH]; intros hash cs [|levels] n h; cbn [holds]; try done || lia.
  intros (hs & css & -> & Ne & F & S) L N A.
  destruct (reveal_loop_page levels hash _ n h A S) as (rest & R & ->); [lia|].
  destruct F as [|h' cs' hs css Hh' F]; [done|]. cbn [foldr]. unfold st_bind.
  by rewrite (IH h' cs' levels rest h) by (done || lia).
Qed.
End reveal.

Section roundtrip.
Context `{BO : Blake2bOk} `{PWL : PageWriterLaws} {H : Type} `{RH : RevealHost H}.

(** The height of the tree in bytes of content. *)
Lemma height_bytes k (content : list Z) :
  height_of k (length (chunks MAX_CONTENT_SIZE content)) ->
  Z.of_nat (length content) <= 4091 * 123 ^ Z.of_nat k /\
  (k = 0%nat \/ 4091 * 123 ^ (Z.of_nat k - 1) < Z.of_nat (length content)).
Proof.
  pose proof hashes_per_page_Z as HZ. pose proof content_size_Z as CZ. intros [U L].
  destruct (chunks_count MAX_CONTENT_SIZE content ltac:(lia)) as [A C].
  apply Nat2Z.inj_le in U. rewrite Nat2Z.inj_pow, HZ in U. split; [nia|].
  destruct L as [->|L]; [by left|]. destruct k as [|k]; [by left|right].
  apply Nat2Z.inj_lt in L. rewrite Nat2Z.inj_pow, HZ in L. replace (Z.of_nat (S k - 1)) with (Z.of_nat (S k) - 1) in L by lia. nia.
Qed.

(** C19. Splitting and revealing: [prepare_preimages] splits any content that is
    not empty into a tree of pages whose height is the least one that is
    enough, with at most 4091 bytes in a leaf and 123 hashes in a branch, and
    where the host reveals the pages it was handed, [reveal_loop] saves the
    chunks of the content in their order and nothing else, if it may descend
    more levels than the height and the buffer has room for a page at each;
    with fewer levels it fails before it saves anything.  Empty content makes
    [prepare_preimages] panic. *)
Theorem prepare_reveal content :
  (forall fuel, prepare_preimages fuel [] = Panicked) /\
  (content <> [] -> exists k root calls,
    prepare_preimages (length content) content = Done (Ok root, calls) /\
    Z.of_nat (length content) <= 4091 * 123 ^ Z.of_nat k /\
    (k = 0%nat \/ 4091 * 123 ^ (Z.of_nat k - 1) < Z.of_nat (length content)) /\
    forall save_content levels buffer_len (h : H),
      (forall c, keeps (available calls) (save_content c)) -> available calls h ->
      4096 * Z.of_nat (Nat.min levels (k + 1)) <= buffer_len ->
      reveal_loop save_content levels root buffer_len h =
      if (k <? levels)%nat then saves save_content (chunks MAX_CONTENT_SIZE content) h
      else (Err "DAC preimage tree contains too many levels."%string, h)).
Proof.
  split; [by intros []|]. intros N. destruct (prepare_ok content N) as (k & root & calls & E & T & Ht).
  exists k, root, calls. destruct (height_bytes _ _ Ht) as [U L]. split_and!; [done..|].
  intros save_content levels n h K A R. pose proof page_size_Z as PZ.
  destruct (tower_holds calls k _ _ T) as (css & Ec & F). rewrite Ec.
  apply Forall2_cons_inv_l in F as (cs & ? & Hh & ->%Forall2_nil_inv_l & ->). cbn [concat]. rewrite app_nil_r.
  destruct (Nat.ltb_spec k levels).
  - eapply reveal_holds; try done. lia.
  - eapply reveal_deep; try done. lia.
Qed.
End roundtrip.

(** ** Examples *)

(** The encoding that the macro derives. *)
#[export] Instance toy_pages : PageWriter := {|
  bin_write p := Some match p with
    | V0ContentPage c => 0 :: be_u32 (Z.of_nat (length c)) ++ c
    | V0HashPage hs => 1 :: be_u32 (Z.of_nat (length (concat hs))) ++ concat hs
    end;
|}.
#[export] Instance toy_pages_laws : PageWriterLaws.
Proof. by split. Qed.

(** A short digest. *)
#[export] Instance toy_digest : Blake2b := {|
  blake2b_error := unit;
  digest_256 l := replicate 31 0 ++ [foldl (fun acc x => (acc * 257 + x + 1) mod (2 ^ 61 - 1)) 0 l];
|}.
#[export] Instance toy_digest_ok : Blake2bOk.
Proof. split. intros l. cbn [digest_256 toy_digest]. by rewrite length_app, length_replicate. Qed.

(** Two leaves under one page of hashes. *)
Definition toy_content : list Z := replicate 5000 7.

Definition toy_prepared : list Z * list (list Z * list Z) :=
  Eval vm_compute in
    match prepare_preimages (length toy_content) toy_content with
    | Done (Ok root, calls) => (root, calls)
    | _ => ([], [])
    end.

(** A host that reveals those pages. *)
Definition toy_reveal (H : Type) : RevealHost H := {|
  core_reveal_preimage _ hash n :=
    match List.find (fun e => bool_decide (e.1 = hash)) toy_prepared.2 with
    | Some (_, page) => (Z.min (Z.of_nat (length page)) n, take (Z.to_nat n) page)
    | None => (HostError_code GenericInvalidAccess, [])
    end;
|}.

Lemma toy_available {H} (h : H) : available (RH := toy_reveal H) toy_prepared.2 h.
Proof.
  assert (C : forallb (fun e => bool_decide (List.find (fun e' => bool_decide (e'.1 = e.1)) toy_prepared.2 = Some e))
    toy_prepared.2 = true) by (vm_compute; reflexivity).
  intros hash page n I _. rewrite forallb_forall in C. specialize (C _ (proj1 (list_elem_of_In _ _) I)).
  apply bool_decide_eq_true in C. cbn [fst] in C. cbn [core_reveal_preimage toy_reveal]. by rewrite C.
Qed.

Lemma prepare_reveal_witness :
  exists root calls, prepare_preimages (length toy_content) toy_content = Done (Ok root, calls) /\
    reveal_loop (RH := toy_reveal _) (fun c saved => (Ok tt, saved ++ [c])) 2 root 8192 [] =
    (Ok tt, chunks MAX_CONTENT_SIZE toy_content).
Proof.
  destruct (proj2 (prepare_reveal (RH := toy_reveal (list (list Z))) toy_content) ltac:(done)) as (k & root & calls & E & U & L & R).
  exists root, calls. split; [exact E|].
  assert (K : k = 1%nat).
  { unfold toy_content in U, L. rewrite length_replicate in U, L. destruct k as [|[|k]]; [by vm_compute in U|done|].
    destruct L as [L|L]; [done|]. rewrite Nat2Z.inj_succ, Z.sub_1_r, Z.pred_succ, Nat2Z.inj_succ, Z.pow_succ_r in L by lia. nia. }
  assert (E' : prepare_preimages (length toy_content) toy_content = Done (Ok toy_prepared.1, toy_prepared.2)) by (vm_compute; reflexivity).
  assert (C : calls = toy_prepared.2) by (rewrite E in E'; congruence).
  rewrite (R _ 2%nat 8192 []); subst.
  - vm_compute. reflexivity.
  - intros c h _. apply toy_available.
  - apply toy_available.
  - done.
Defined.
