(* ===== verification/CertificateSpec.v ===== *)
(** Certificates: revealing one to the storage, breadth first, writes the
    content that was prepared, up to the documented size, and refuses more
    before it writes anything; and which certificates verify. *)
From S2P Require Import Prelude Path PathSpec DurableStore DurableStoreSpec Runtime RuntimeSpec.
From S2P Require Import Hash HashSpec Dac DacSpec.
From stdpp Require Import strings.
#[local] Open Scope Z_scope.
#[local] Opaque PREIMAGE_HASH_SIZE MAX_PAGE_SIZE MAX_CONTENT_SIZE MAX_HASHES_PER_PAGE MAX_REVEALS.

(** ** Counting the pages *)

(** The hashes of level [j] over [n] leaves, and those below it. *)
Fixpoint level_count (n j : nat) : nat :=
  match j with
  | O => n
  | S j => (level_count n j + 122) / 123
  end.

Fixpoint count_below (n j : nat) : nat :=
  match j with
  | O => 0
  | S j => level_count n j + count_below n j
  end.

Lemma length_groups {A} (l : list A) : length (chunks MAX_HASHES_PER_PAGE l) = ((length l + 122) / 123)%nat.
Proof.
  destruct (chunks_count MAX_HASHES_PER_PAGE l ltac:(sizes)) as [U L].
  assert (E : MAX_HASHES_PER_PAGE = 123%nat) by sizes. rewrite E in *.
  pose proof (Nat.div_mod_eq (length l + 122) 123). pose proof (Nat.mod_upper_bound (length l + 122) 123 ltac:(done)). lia.
Qed.

Lemma count_below_mono n i j : (i <= j)%nat -> (count_below n i <= count_below n j)%nat.
Proof. induction 1; simpl; lia. Qed.

(** The tree over [n] leaves has at most [MAX_REVEALS] pages exactly when it
    has at most [20 * 123] leaves. *)
Lemma tree_pages n k :
  (1 <= n)%nat -> height_of k n -> (1 + count_below n k <= MAX_REVEALS)%nat <-> (n <= 2460)%nat.
Proof.
  assert (E : MAX_HASHES_PER_PAGE = 123%nat) by sizes. assert (R : MAX_REVEALS = 2481%nat) by sizes.
  intros P [U L]. rewrite E in *. rewrite R. clear E R.
  assert (C2 : count_below n 2 = ((n + 122) / 123 + n)%nat) by (simpl; lia).
  pose proof (Nat.div_mod_eq (n + 122) 123) as D. pose proof (Nat.mod_upper_bound (n + 122) 123 ltac:(done)).
  destruct k as [|[|[|k]]].
  - simpl in *. lia.
  - cbn [count_below level_count] in *. simpl Nat.pow in *. lia.
  - rewrite C2. lia.
  - pose proof (count_below_mono n 2 (S (S (S k))) ltac:(lia)). destruct L as [L|L]; [done|].
    replace (S (S (S k)) - 1)%nat with (S (S k)) in L by lia. rewrite !Nat.pow_succ_r' in L.
    pose proof (Nat.pow_nonzero 123 k ltac:(done)). nia.
Qed.

(** The reveal channel does not depend on the storage. *)
Class RevealLaws (H : Type) `{RH : RevealHost H} `{SC : SmartRollupCore H} : Prop := {
  reveal_write h path offset bytes hash n :
    core_reveal_preimage (core_store_write h path offset bytes).2 hash n = core_reveal_preimage h hash n;
  reveal_delete_value h path hash n :
    core_reveal_preimage (core_store_delete_value h path).2 hash n = core_reveal_preimage h hash n;
  reveal_copy h from to hash n :
    core_reveal_preimage (core_store_copy h from to).2 hash n = core_reveal_preimage h hash n;
}.

Section certificate.
Context `{BO : Blake2bOk} `{PWL : PageWriterLaws} `{BL : Bls}.
Context {H : Type} `{RH : RevealHost H} `{SL : StoreLaws H} {RL : RevealLaws H}.

Lemma tower_count calls j : forall hs cs, tower calls j hs cs -> length hs = level_count (length cs) j.
Proof.
  induction j as [|j IH]; intros hs cs; cbn [tower level_count].
  - apply Forall2_length.
  - intros (below & T & F). by rewrite (Forall2_length _ _ _ F), length_groups, (IH _ _ T).
Qed.

Section loop.
Context (calls : list (list Z * list Z)) (path : list Z).

Lemma fetch_page_ok (h : H) hash p : available calls h -> stored calls hash p -> fetch_page h hash = Ok (slice_of p).
Proof.
  intros A S. unfold fetch_page. rewrite (fetch_page_raw_ok calls h hash p) by done. cbn [result_map_err result_bind fst].
  by rewrite (proj2 (proj2 (encode_ok p (proj1 (proj2 S))))).
Qed.

Lemma lookup_middle {A} (l k : list A) x : (l ++ x :: k) !! length l = Some x.
Proof. by rewrite lookup_app_r, Nat.sub_diag. Qed.

(** The hash pages of a level: their hashes are queued, unless that is too many. *)
Lemma hash_level (h : H) todo gs : available calls h ->
  Forall2 (fun hash g => stored calls hash (V0HashPage g)) todo gs ->
  forall fuel seen next written,
  (length (seen ++ todo ++ next) <= MAX_REVEALS)%nat ->
  reveal_store_loop (length todo + fuel) path (seen ++ todo ++ next) (length seen) written h =
  if (length (seen ++ todo ++ next) + length (concat gs) <=? MAX_REVEALS)%nat
  then reveal_store_loop fuel path ((seen ++ todo) ++ next ++ concat gs) (length (seen ++ todo)) written h
  else Done (Err PayloadTooLarge, h).
Proof.
  intros A. induction 1 as [|hash g todo gs St F IH]; intros fuel seen next written Q.
  - cbn [app length concat] in *. rewrite Nat.add_0_r, (proj2 (Nat.leb_le _ _)) by done. by rewrite !app_nil_r.
  - cbn [length app concat] in *. cbn [Nat.add reveal_store_loop]. rewrite lookup_middle, (fetch_page_ok h hash _ A St). cbn [slice_of].
    pose proof St as (_ & [Fh Lh] & _). rewrite length_concat_hashes, slice_hashes_concat by done.
    rewrite (length_app g). assert (P : (0 < PREIMAGE_HASH_SIZE)%nat) by sizes.
    destruct (Nat.ltb_spec ((MAX_REVEALS - length (seen ++ hash :: todo ++ next)) * PREIMAGE_HASH_SIZE)
      (length g * PREIMAGE_HASH_SIZE)) as [C|C].
    + rewrite (proj2 (Nat.leb_gt _ _)); [done|]. apply Nat.mul_lt_mono_pos_r in C; lia.
    + apply Nat.mul_le_mono_pos_r in C; [|done].
      assert (E : (seen ++ hash :: todo ++ next) ++ g = (seen ++ [hash]) ++ todo ++ (next ++ g))
        by (rewrite <- !(assoc_L (++)); cbn [app]; by rewrite <- !(assoc_L (++))).
      assert (El : (length (seen ++ hash :: todo ++ next) + length g = length ((seen ++ [hash]) ++ todo ++ next ++ g))%nat).
      { by rewrite <- E, (length_app _ g). }
      specialize (IH fuel (seen ++ [hash]) (next ++ g) written ltac:(lia)).
      rewrite E. replace (S (length seen)) with (length (seen ++ [hash])) by (rewrite length_app; simpl; lia).
      rewrite IH, Nat.add_assoc, El. by rewrite <- !(assoc_L (++)).
Qed.

Lemma store_write_available bytes offset : keeps (available calls) (store_write path bytes offset).
Proof. apply store_write_keeps. intros h k b A hash page n I N. rewrite reveal_write. by apply A. Qed.

(** The content pages: each is written after the ones before it. *)
Lemma content_level l hs cs : writable l path ->
  Forall2 (fun hash c => stored calls hash (V0ContentPage c)) hs cs ->
  forall fuel seen (h : H) (v := default [] (val h l)),
  available calls h -> store_wf h ->
  exists h', reveal_store_loop (length hs + fuel) path (seen ++ hs) (length seen) (Z.of_nat (length v)) h =
      Done (Ok (Z.of_nat (length (v ++ concat cs))), h') /\
    store_wf h' /\ updated h h' l (match cs with [] => val h l | _ => Some (v ++ concat cs) end).
Proof.
  intros P. induction 1 as [|hash c hs cs St F IH]; intros fuel seen h v A W.
  - exists h. cbn [concat]. rewrite !app_nil_r. split_and!; [|done|by intros q _; destruct (decide (q = l)) as [->|]].
    destruct fuel; cbn [length Nat.add reveal_store_loop]; by rewrite lookup_ge_None_2.
  - cbn [length Nat.add reveal_store_loop]. rewrite lookup_middle, (fetch_page_ok h hash _ A St). cbn [slice_of].
    destruct (store_write_ok h l path c (Z.of_nat (length v)) W P) as (h1 & E1 & W1 & U1); [fold v; lia|].
    pose proof (store_write_available c (Z.of_nat (length v)) h A) as A1. rewrite E1 in A1 |- *. cbn [snd] in A1.
    fold v in U1. rewrite splice_eq, Nat2Z.id, drop_ge, take_ge, app_nil_r in U1 by lia.
    pose proof (updated_at _ _ _ _ (proj1 (writable_steps _ _ P)) U1) as V1.
    destruct (IH fuel (seen ++ [hash]) h1 A1 W1) as (h' & E & W' & U). rewrite V1 in E, U. cbn [from_option id] in E, U.
    exists h'. rewrite <- Nat2Z.inj_add, <- length_app. replace (S (length seen)) with (length (seen ++ [hash])) by (rewrite length_app; simpl; lia).
    rewrite <- (assoc_L (++) seen) in E. cbn [app] in E. rewrite E. cbn [concat]. rewrite (assoc_L (++) v).
    split_and!; [done..|]. eapply updated_trans; [done|]. destruct cs; [|done]. cbn [concat]. by rewrite app_nil_r.
Qed.

(** All levels, from the top. *)
Lemma reveal_levels l j : writable l path -> forall hs cs fuel seen (h : H) (v := default [] (val h l)),
  tower calls j hs cs -> cs <> [] -> available calls h -> store_wf h ->
  (length (seen ++ hs) <= MAX_REVEALS)%nat -> (MAX_REVEALS <= length seen + fuel)%nat ->
  if (length (seen ++ hs) + count_below (length cs) j <=? MAX_REVEALS)%nat
  then exists h', reveal_store_loop fuel path (seen ++ hs) (length seen) (Z.of_nat (length v)) h =
         Done (Ok (Z.of_nat (length (v ++ concat cs))), h') /\ store_wf h' /\ updated h h' l (Some (v ++ concat cs))
  else reveal_store_loop fuel path (seen ++ hs) (length seen) (Z.of_nat (length v)) h = Done (Err PayloadTooLarge, h).
Proof.
  intros P. assert (G : (0 < MAX_HASHES_PER_PAGE)%nat) by sizes. induction j as [|j IH]; intros hs cs fuel seen h v T N A W Q Fu;
    assert (Lf : (length hs <= fuel)%nat) by (rewrite length_app in Q; lia);
    replace fuel with (length hs + (fuel - length hs))%nat by lia; cbn [tower count_below] in *.
  - rewrite Nat.add_0_r, (proj2 (Nat.leb_le _ _) Q).
    destruct (content_level l hs cs P T (fuel - length hs) seen h A W) as (h' & E & W' & U).
    exists h'. split; [done|]. by destruct cs.
  - destruct T as (below & T & F). pose proof (hash_level h hs _ A F (fuel - length hs) seen [] (Z.of_nat (length v))) as L.
    rewrite !app_nil_r, chunks_concat, (tower_count _ _ _ _ T) in L by done. cbn [app] in L. specialize (L Q). rewrite L.
    specialize (IH below cs (fuel - length hs)%nat (seen ++ hs) h T N A W). fold v in IH.
    rewrite (length_app (seen ++ hs)), (tower_count _ _ _ _ T), <- Nat.add_assoc in IH.
    destruct (Nat.leb_spec (length (seen ++ hs) + level_count (length cs) j) MAX_REVEALS) as [C|C].
    + apply IH; [done|]. rewrite length_app. lia.
    + by rewrite (proj2 (Nat.leb_gt _ _)) by lia.
Qed.
End loop.

Lemma leaf_count (content : list Z) :
  content <> [] ->
  (1 <= length (chunks MAX_CONTENT_SIZE content))%nat /\
  ((length (chunks MAX_CONTENT_SIZE content) <= 2460)%nat <-> Z.of_nat (length content) <= 10063860).
Proof.
  intros N. pose proof content_size_Z as CZ. destruct (chunks_count MAX_CONTENT_SIZE content ltac:(lia)) as [U L].
  assert (length content <> 0)%nat by by destruct content. split; [nia|]. split; intros; nia.
Qed.

(** C18. A certificate over prepared content: where the host reveals the pages
    that [prepare_preimages] handed out, [reveal_to_store] replaces the value of
    the path by the content, whatever was there, and answers its length, if
    the content has at most the documented 10,063,860 bytes; more is refused as
    too large before anything of it is written, with the old value deleted.
    Every other value stays. *)
Theorem reveal_to_store_spec (c : V0Certificate) l path content calls (h : H) :
  store_wf h -> writable l path -> content <> [] ->
  prepare_preimages (length content) content = Done (Ok c.(root_hash), calls) -> available calls h ->
  exists h', store_wf h' /\
    if decide (Z.of_nat (length content) <= 10063860)
    then reveal_to_store c path h = Done (Ok (Z.of_nat (length content)), h') /\ updated h h' l (Some content)
    else reveal_to_store c path h = Done (Err PayloadTooLarge, h') /\ updated h h' l None.
Proof.
  intros W P N E A. destruct (prepare_ok content N) as (k & root & calls' & E' & T & Ht).
  rewrite E in E'. injection E' as <- <-. destruct (leaf_count content N) as [L1 L2].
  pose proof (tree_pages _ _ L1 Ht) as C. set (leaves := chunks MAX_CONTENT_SIZE content) in *.
  assert (EC : concat leaves = content) by (apply chunks_concat; sizes).
  destruct (store_delete_value_ok h l path W P) as (h1 & D & W1 & U1).
  pose proof (updated_at _ _ _ _ (proj1 (writable_steps _ _ P)) U1) as V1.
  assert (A1 : available calls h1).
  { intros hash page n I Nn. replace h1 with (core_store_delete_value h path).2 by (by injection D). rewrite reveal_delete_value. by apply A. }
  pose proof (reveal_levels calls path l k P [c.(root_hash)] leaves (S MAX_REVEALS) [] h1 T) as R.
  rewrite V1 in R. cbn [from_option id app length] in R. rewrite EC in R.
  specialize (R ltac:(intros E0; by rewrite E0 in L1; simpl in L1; lia) A1 W1 ltac:(sizes) ltac:(lia)).
  unfold reveal_to_store. rewrite D. change (Z.of_nat 0) with 0 in R.
  destruct (Nat.leb_spec (1 + count_below (length leaves) k) MAX_REVEALS) as [G|G].
  - destruct R as (h' & R & W' & U'). exists h'. rewrite decide_True by tauto. split_and!; [done..|]. by eapply updated_trans.
  - exists h1. rewrite decide_False by (rewrite <- L2, <- C; lia). done.
Qed.
End certificate.

(** ** Examples *)

(** Signatures that are never checked, and the revealed pages next to the
    in-memory storage. *)
#[export] Instance toy_bls : Bls := {| PublicKeyBls := unit; BlsSignature := unit; CryptoError := unit; aggregate_verify _ _ := Ok true |}.
#[export] Instance toy_node_reveal : RevealHost Node := toy_reveal Node.
#[export] Instance toy_reveal_laws : RevealLaws Node.
Proof. by split. Qed.

Definition toy_certificate : V0Certificate :=
  {| root_hash := toy_prepared.1; aggregated_signature := tt; witnesses := 0 |}.

Lemma reveal_to_store_spec_witness :
  exists h', reveal_to_store toy_certificate [47; 97; 47; 98] Node_default = Done (Ok 5000, h') /\
    updated Node_default h' [[97]; [98]] (Some toy_content).
Proof.
  destruct (reveal_to_store_spec toy_certificate [[97]; [98]] [47; 97; 47; 98] toy_content toy_prepared.2 Node_default
    Node_default_store_wf writable_example) as (h' & _ & R).
  - done.
  - vm_compute. reflexivity.
  - apply toy_available.
  - rewrite decide_True in R by (unfold toy_content; rewrite length_replicate; lia). exists h'. exact R.
Defined.

