(* ===== verification/Outbox.v ===== *)
(** The outbox queue of kernels ([src/kernel_sdk/sdk/src/outbox.rs]): messages
    are kept in the storage in a circular queue of 32-bit indices and written to
    the outbox of the rollup later. *)
From S2P Require Import Prelude Path DurableStore Runtime.
#[local] Open Scope Z_scope.

(** The output function of a host: status and the changed host. *)
(* kernel_sdk/core/src/smart_rollup_core.rs:139-139 write_output *)
Class OutputHost (H : Type) : Type := { core_write_output : H -> list Z -> Z * H }.

(** [hex::encode_to_slice], with a buffer of the right size. *)
Class Hex := { hex_bytes : list Z -> list Z }.

(* kernel_sdk/constants/src/core.rs:14-14 MAX_OUTPUT_SIZE *)
Definition MAX_OUTPUT_SIZE : Z := 4096.

(** [u32::to_le_bytes] and [u32::from_le_bytes]. *)
Definition u32_to_le_bytes (z : Z) : list Z := [z mod 256; z / 256 mod 256; z / 65536 mod 256; z / 16777216 mod 256].
Definition u32_from_le_bytes (l : list Z) : Z := foldr (fun b acc => b + 256 * acc) 0 l.

(** The bytes of [/__sdk/outbox]. *)
(* kernel_sdk/sdk/src/outbox.rs:87-87 OUTBOX_QUEUE_ROOT *)
Definition OUTBOX_QUEUE_ROOT : list Z := [47; 95; 95; 115; 100; 107; 47; 111; 117; 116; 98; 111; 120].

(** The bytes of [/__sdk/outbox/meta]. *)
(* kernel_sdk/sdk/src/outbox.rs:88-88 OUTBOX_QUEUE_META *)
Definition OUTBOX_QUEUE_META : list Z :=
  [47; 95; 95; 115; 100; 107; 47; 111; 117; 116; 98; 111; 120; 47; 109; 101; 116; 97].

(** The bytes of [/meta]. *)
(* kernel_sdk/sdk/src/outbox.rs:89-89 META_SUFFIX *)
Definition META_SUFFIX : list Z := [47; 109; 101; 116; 97].

(* kernel_sdk/sdk/src/outbox.rs:107-112 OutboxQueue *)
Record OutboxQueue : Type := { queue_root : list Z; queue_meta : option (list Z); queue_max : Z }.

(* kernel_sdk/sdk/src/outbox.rs:98-102 OUTBOX_QUEUE *)
Definition OUTBOX_QUEUE : OutboxQueue :=
  {| queue_root := OUTBOX_QUEUE_ROOT; queue_meta := None; queue_max := 65535 |}.

(* kernel_sdk/sdk/src/outbox.rs:119-133 new *)
Definition OutboxQueue_new (root : list Z) (max : Z) : result OutboxQueue PathError :=
  if PATH_MAX_SIZE - 2 * 4 + 1 <? Z.of_nat (length root) then Err PathTooLong
  else
    let? meta := path_concat root META_SUFFIX in
    Ok {| queue_root := root; queue_meta := Some meta; queue_max := max |}.

(** The path of the number and length of the queue. *)
(* kernel_sdk/sdk/src/outbox.rs:242-246 read_meta *)
Definition meta_path (q : OutboxQueue) : list Z := default OUTBOX_QUEUE_META q.(queue_meta).

Section outbox.
Context {H : Type} `{SRC : SmartRollupCore H} `{OH : OutputHost H} `{HX : Hex}.

(* kernel_sdk/host/src/runtime.rs:253-261 write_output *)
Definition write_output (output : list Z) : stM H RuntimeError unit := fun h => wrap_unit (core_write_output h output).

(** [None] is a panic of [assert_from] or of [unwrap]. *)
(* kernel_sdk/sdk/src/outbox.rs:225-235 message_path *)
Definition message_path (q : OutboxQueue) (idx : Z) : option (list Z) :=
  match assert_from (PATH_SEPARATOR :: hex_bytes (u32_to_le_bytes idx)) with
  | None => None
  | Some path =>
      match path_concat q.(queue_root) path with
      | Ok path => Some path
      | Err _ => None
      end
  end.

(* kernel_sdk/sdk/src/outbox.rs:238-254 read_meta *)
Definition read_meta (q : OutboxQueue) (h : H) : Z * Z :=
  match store_read_slice h (meta_path q) 0 8 with
  | Ok (size, bytes) =>
      if size =? 8 then (u32_from_le_bytes (take 4 bytes), u32_from_le_bytes (take 4 (drop 4 bytes)))
      else (0, 0)
  | Err _ => (0, 0)
  end.

(** The result of [store_delete] is ignored. *)
(* kernel_sdk/sdk/src/outbox.rs:257-274 save_meta *)
Definition save_meta (q : OutboxQueue) (start len : Z) (h : H) : outcome H :=
  if len =? 0 then Done (store_delete q.(queue_root) h).2
  else
    match store_write (meta_path q) (u32_to_le_bytes start ++ u32_to_le_bytes len) 0 h with
    | (Ok _, h) => Done h
    | (Err _, _) => Panicked
    end.

(** [buffer] is the encoded message; the encoding of a message is derived by a
    macro and does not fail. *)
(* kernel_sdk/sdk/src/outbox.rs:141-173 queue_message *)
Definition queue_message (q : OutboxQueue) (buffer : list Z) (h : H) : outcome (result Z RuntimeError * H) :=
  let '(start, len) := read_meta q h in
  if q.(queue_max) <=? len then Done (Err (HostErr FullOutbox), h)
  else
    let end_ := wrapping_add 32 start len in
    if MAX_OUTPUT_SIZE <? Z.of_nat (length buffer) then Done (Err (HostErr InputOutputTooLarge), h)
    else
      match message_path q end_ with
      | None => Panicked
      | Some path =>
          match store_write_all path buffer h with
          | (Err e, h) => Done (Err e, h)
          | (Ok _, h) =>
              let len := Z.min (2 ^ 32 - 1) (len + 1) in
              outcome_map (fun h => (Ok len, h)) (save_meta q start len h)
          end
      end.

(** Each turn writes one message; the length of the queue is enough [fuel], and
    that of the messages enough [read_fuel]. *)
(* kernel_sdk/sdk/src/outbox.rs:191-219 flush_queue *)
Fixpoint flush_loop (fuel read_fuel : nat) (q : OutboxQueue) (num_flushed start len : Z) (h : H) : outcome (Z * H) :=
  if len =? 0 then Done (num_flushed, h)
  else
    match fuel with
    | O => OutOfFuel
    | S fuel =>
        match message_path q start with
        | None => Panicked
        | Some next =>
            match store_read_all read_fuel h next with
            | Done (Ok read) =>
                match write_output read h with
                | (Err _, h) => Done (num_flushed, h)
                | (Ok _, h) =>
                    let num_flushed := num_flushed + 1 in
                    let len := Z.max 0 (len - 1) in
                    let start := wrapping_add 32 start 1 in
                    match store_delete next h with
                    | (Err _, _) => Panicked
                    | (Ok _, h) =>
                        match save_meta q start len h with
                        | Done h => flush_loop fuel read_fuel q num_flushed start len h
                        | Panicked => Panicked
                        | OutOfFuel => OutOfFuel
                        end
                    end
                end
            | Done (Err _) | Panicked => Panicked
            | OutOfFuel => OutOfFuel
            end
        end
    end.

(* kernel_sdk/sdk/src/outbox.rs:186-220 flush_queue *)
Definition flush_queue (fuel read_fuel : nat) (q : OutboxQueue) (h : H) : outcome (Z * H) :=
  let '(start, len) := read_meta q h in flush_loop fuel read_fuel q 0 start len h.
End outbox.
