(* ===== verification/OutboxSpec.v ===== *)
(** The outbox queue is a queue: over any storage that keeps the laws, messages
    leave it once, in the order in which they were accepted, whatever the outbox
    accepts, and no operation panics for the roots that have room for the names
    of the messages. *)
From S2P Require Import Prelude Path PathSpec DurableStore DurableStoreSpec Runtime RuntimeSpec.
From S2P Require Import Outbox.
#[local] Open Scope Z_scope.

(** ** Numbers of four bytes *)

Lemma u32_le_roundtrip z : is_u 32 z -> u32_from_le_bytes (u32_to_le_bytes z) = z.
Proof.
  unfold is_u, u32_from_le_bytes, u32_to_le_bytes. cbn [foldr]. change (2 ^ 32) with 4294967296. intros U.
  Z.to_euclidean_division_equations. lia.
Qed.

Lemma u32_to_le_bytes_range z : Forall (is_u 8) (u32_to_le_bytes z).
Proof. unfold u32_to_le_bytes, is_u. change (2 ^ 8) with 256. repeat apply Forall_cons_2; try apply Forall_nil_2; by apply Z.mod_pos_bound. Qed.

(** ** Interfaces *)

(** Hexadecimal digits: two per byte, in lower case, and different for different bytes. *)
Class HexLaws `{HX : Hex} : Prop := {
  hex_length l : length (hex_bytes l) = (2 * length l)%nat;
  hex_digits l : Forall (fun b => 48 <= b <= 57 \/ 97 <= b <= 102) (hex_bytes l);
  hex_inj l l' : Forall (is_u 8) l -> Forall (is_u 8) l' -> hex_bytes l = hex_bytes l' -> l = l';
}.

(** An outbox takes a message at its end, or refuses it and changes nothing; it
    does not touch the storage, nor the storage the outbox. *)
Class OutputLaws (H : Type) `{SL : StoreLaws H} `{OH : OutputHost H} : Type := {
  outbox : H -> list (list Z);
  law_output h msg : store_wf h ->
    (exists h', core_write_output h msg = (0, h') /\ store_wf h' /\ outbox h' = outbox h ++ [msg] /\
       forall k, steps_ok k -> val h' k = val h k) \/
    (exists code, code < 0 /\ core_write_output h msg = (code, h));
  outbox_write h p offset bytes : outbox (core_store_write h p offset bytes).2 = outbox h;
  outbox_delete h p : outbox (core_store_delete h p).2 = outbox h;
  outbox_delete_value h p : outbox (core_store_delete_value h p).2 = outbox h;
}.

Section queue.
Context {H : Type} `{OL : OutputLaws H} `{HL : HexLaws}.

(** [store_write], [store_write_all] and [store_delete] leave the outbox alone. *)
Lemma store_write_outbox p bytes offset o : keeps (fun h => outbox h = o) (store_write p bytes offset).
Proof. apply store_write_keeps. intros h k b <-. apply outbox_write. Qed.

Lemma store_write_all_outbox p bytes o : keeps (fun h => outbox h = o) (store_write_all p bytes).
Proof.
  apply keeps_bind; [|intros _; apply store_write_outbox]. intros h <-. apply outbox_delete_value.
Qed.

Lemma store_delete_outbox p o : keeps (fun h => outbox h = o) (store_delete p).
Proof. intros h <-. unfold store_delete. destruct (check_path_exists h p); [apply outbox_delete|done]. Qed.

(** ** Paths of the queue *)

(** A queue at the steps [l], with room for the names of the messages, which
    [OutboxQueue_new] does not quite ensure ([OutboxQueue_new_spec]). *)
Record queue_ok (q : OutboxQueue) (l : list (list Z)) : Prop := {
  root_writable : writable l q.(queue_root);
  root_room : Z.of_nat (length q.(queue_root)) + 9 <= PATH_MAX_SIZE;
  meta_is : meta_path q = q.(queue_root) ++ META_SUFFIX;
  max_range : 0 <= q.(queue_max) < 2 ^ 32;
}.

Definition meta_step : list Z := drop 1 META_SUFFIX.
Definition msg_step (idx : Z) : list Z := hex_bytes (u32_to_le_bytes idx).

Lemma msg_step_length idx : length (msg_step idx) = 8%nat.
Proof. unfold msg_step. by rewrite hex_length. Qed.

Lemma step_ok_meta : step_ok meta_step.
Proof. split; [done|]. repeat constructor. Qed.

Lemma step_ok_msg idx : step_ok (msg_step idx).
Proof.
  split; [intros E; by pose proof (msg_step_length idx) as L; rewrite E in L|].
  eapply Forall_impl; [apply hex_digits|]. intros b A. unfold is_allowed_step_byte, is_ascii_alphanumeric. cbv beta in A. lia.
Qed.

Lemma msg_step_inj i j : is_u 32 i -> is_u 32 j -> msg_step i = msg_step j -> i = j.
Proof.
  intros I J E%hex_inj; [|apply u32_to_le_bytes_range..].
  by rewrite <- (u32_le_roundtrip i), <- (u32_le_roundtrip j), E.
Qed.

Lemma msg_not_meta idx : msg_step idx <> meta_step.
Proof. intros E. by pose proof (msg_step_length idx) as L; rewrite E in L. Qed.

Section with_queue.
Context (q : OutboxQueue) (l : list (list Z)) (Q : queue_ok q l).

Lemma child_writable s :
  step_ok s -> (length s <= 8)%nat -> writable (l ++ [s]) (q.(queue_root) ++ PATH_SEPARATOR :: s) /\
  path_concat q.(queue_root) (PATH_SEPARATOR :: s) = Ok (q.(queue_root) ++ PATH_SEPARATOR :: s).
Proof.
  destruct Q as [[P R] Rm _ _]. intros S L.
  assert (Ps : path_of [s] (PATH_SEPARATOR :: s)).
  { split_and!; [by rewrite path_join_cons, app_nil_r|done|by constructor|cbn [length]; unfold PATH_MAX_SIZE; simpl length; lia]. }
  pose proof (path_concat_spec l [s] _ _ P Ps) as C. rewrite decide_True in C by (rewrite length_app; cbn [length]; lia).
  destruct C as (E & Pl & _). split; [split; [done|]|done]. destruct P as (_ & N & _). by destruct l.
Qed.

Lemma message_path_ok idx :
  message_path q idx = Some (q.(queue_root) ++ PATH_SEPARATOR :: msg_step idx) /\
  writable (l ++ [msg_step idx]) (q.(queue_root) ++ PATH_SEPARATOR :: msg_step idx).
Proof.
  destruct (child_writable (msg_step idx) (step_ok_msg idx)) as [W E]; [by rewrite msg_step_length|]. split; [|done].
  unfold message_path, assert_from. assert (V : validate_path (PATH_SEPARATOR :: msg_step idx) = Ok tt).
  { apply validate_path_ok. exists [msg_step idx]. split.
    - split_and!; [by rewrite path_join_cons, app_nil_r|done|repeat constructor; apply step_ok_msg|].
      cbn [length]. rewrite msg_step_length. done.
    - intros [= X]. pose proof (hex_digits (u32_to_le_bytes idx)) as D. fold (msg_step idx) in D. rewrite X in D.
      apply Forall_inv in D. lia. }
  fold (msg_step idx). by rewrite V, E.
Qed.

Lemma meta_writable : writable (l ++ [meta_step]) (meta_path q).
Proof. rewrite (meta_is q l Q). apply (child_writable meta_step step_ok_meta). simpl. lia. Qed.

(** ** The queue in the storage *)

Definition msg_at (start : Z) (i : nat) : list (list Z) := l ++ [msg_step (wrap 32 (start + Z.of_nat i))].
Definition meta_at : list (list Z) := l ++ [meta_step].

(** The value at [meta_at]; the storage has none for an empty queue. *)
Definition meta_value (start : Z) (msgs : list (list Z)) : option (list Z) :=
  match msgs with
  | [] => None
  | _ => Some (u32_to_le_bytes start ++ u32_to_le_bytes (Z.of_nat (length msgs)))
  end.

Record queue_at (h : H) (start : Z) (msgs : list (list Z)) : Prop := {
  qa_wf : store_wf h;
  qa_start : is_u 32 start;
  qa_empty : msgs = [] -> start = 0;
  qa_length : Z.of_nat (length msgs) <= q.(queue_max);
  qa_sizes : Forall (fun m => Z.of_nat (length m) <= MAX_OUTPUT_SIZE) msgs;
  qa_meta : val h meta_at = meta_value start msgs;
  qa_msgs i m : msgs !! i = Some m -> val h (msg_at start i) = Some m;
}.

(** The values outside of the queue stay. *)
Definition framed (h h' : H) : Prop := forall k, steps_ok k -> ~ l `prefix_of` k -> val h' k = val h k.

Lemma root_steps_ok : steps_ok l.
Proof. apply (writable_steps l q.(queue_root)), Q. Qed.

Lemma msg_at_ok start i : steps_ok (msg_at start i).
Proof. apply Forall_app. split; [apply root_steps_ok|]. repeat constructor; apply step_ok_msg. Qed.

Lemma meta_at_ok : steps_ok meta_at.
Proof. apply Forall_app. split; [apply root_steps_ok|]. repeat constructor; apply step_ok_meta. Qed.

Lemma msg_at_meta start i : msg_at start i <> meta_at.
Proof. intros [_ E]%app_inj_tail. by apply msg_not_meta in E. Qed.

Lemma msg_at_inj start i j :
  Z.of_nat i < 2 ^ 32 -> Z.of_nat j < 2 ^ 32 -> msg_at start i = msg_at start j -> i = j.
Proof.
  intros I J [_ E]%app_inj_tail. apply msg_step_inj in E; [|apply wrap_range; lia..].
  unfold wrap in E. change (2 ^ 32) with 4294967296 in *. Z.to_euclidean_division_equations. lia.
Qed.

Lemma not_prefix_child k s : ~ l `prefix_of` k -> k <> l ++ [s].
Proof. intros N ->. apply N. by exists [s]. Qed.

Lemma framed_trans h1 h2 h3 : framed h1 h2 -> framed h2 h3 -> framed h1 h3.
Proof. intros A B k F N. rewrite B by done. by apply A. Qed.

Lemma updated_framed h h' s v : updated h h' (l ++ [s]) v -> framed h h'.
Proof. intros U k F N. rewrite U by done. by rewrite decide_False by by apply not_prefix_child. Qed.

Lemma u32_bytes_length z : length (u32_to_le_bytes z) = 4%nat.
Proof. done. Qed.

Lemma read_meta_ok h start msgs :
  queue_at h start msgs -> read_meta q h = (start, Z.of_nat (length msgs)).
Proof.
  intros A. unfold read_meta, store_read_slice. pose proof (max_range q l Q) as M. pose proof (qa_length _ _ _ A) as L.
  pose proof (qa_meta _ _ _ A) as V. destruct msgs as [|m msgs].
  - rewrite (law_read h meta_at) by (apply A || apply meta_writable || lia). rewrite V. cbn.
    by rewrite (qa_empty _ _ _ A).
  - rewrite (core_read_value h meta_at _ _ 0 8 (qa_wf _ _ _ A) meta_writable V) by (rewrite ?length_app, ?u32_bytes_length; lia).
    rewrite length_app, !u32_bytes_length. cbv beta iota zeta. change (Z.min _ (Z.min _ _)) with 8. rewrite wrap_err_ok by lia.
    cbn [result_map]. change (8 =? 8) with true. cbn match. change (drop (Z.to_nat 0) ?x) with x.
    rewrite (take_ge _ (Z.to_nat 8)) by (rewrite length_app, !u32_bytes_length; lia).
    rewrite (take_app_length' _ _ 4), (drop_app_length' _ _ 4), (take_ge _ 4) by done.
    rewrite !u32_le_roundtrip; [done| |apply A]. unfold is_u. lia.
Qed.

Lemma meta_value_length h start msgs : queue_at h start msgs -> (length (default [] (val h meta_at)) <= 8)%nat.
Proof. intros A. rewrite (qa_meta _ _ _ A). destruct msgs; simpl; lia. Qed.

Lemma save_meta_ok h start n :
  store_wf h -> n <> 0 -> (length (default [] (val h meta_at)) <= 8)%nat ->
  exists h', save_meta q start n h = Done h' /\ store_wf h' /\ outbox h' = outbox h /\
    updated h h' meta_at (Some (u32_to_le_bytes start ++ u32_to_le_bytes n)).
Proof.
  intros W N L. unfold save_meta. rewrite (proj2 (Z.eqb_neq _ _) N). set (b := _ ++ _).
  destruct (store_write_ok h meta_at (meta_path q) b 0 W meta_writable) as (h' & E & W' & U); [lia|].
  pose proof (store_write_outbox (meta_path q) b 0 (outbox h) h eq_refl) as O. rewrite E in O |- *. exists h'.
  split_and!; [done..|]. rewrite splice_eq in U by done. cbn [Z.to_nat take app Nat.add] in U.
  rewrite drop_ge in U by (unfold b; rewrite length_app, !u32_bytes_length; simpl; lia). by rewrite app_nil_r in U.
Qed.

(** Queueing: full, too large, or accepted at the end. *)
Lemma queue_message_ok h start msgs buffer :
  queue_at h start msgs ->
  if decide (q.(queue_max) <= Z.of_nat (length msgs)) then queue_message q buffer h = Done (Err (HostErr FullOutbox), h)
  else if decide (MAX_OUTPUT_SIZE < Z.of_nat (length buffer))
  then queue_message q buffer h = Done (Err (HostErr InputOutputTooLarge), h)
  else exists h', queue_message q buffer h = Done (Ok (Z.of_nat (length msgs) + 1), h') /\
    queue_at h' start (msgs ++ [buffer]) /\ outbox h' = outbox h /\ framed h h'.
Proof.
  intros A. unfold queue_message. rewrite (read_meta_ok _ _ _ A). pose proof (max_range q l Q) as M.
  destruct (decide _) as [F|F]; [by rewrite (proj2 (Z.leb_le _ _) F)|rewrite (proj2 (Z.leb_nle _ _) F)].
  destruct (decide _) as [T|T]; [by rewrite (proj2 (Z.ltb_lt _ _) T)|rewrite (proj2 (Z.ltb_nlt _ _) T)].
  set (n := length msgs) in *. change (wrapping_add 32 start (Z.of_nat n)) with (wrap 32 (start + Z.of_nat n)).
  destruct (message_path_ok (wrap 32 (start + Z.of_nat n))) as [-> W]. fold (msg_at start n) in W.
  destruct (store_write_all_ok h (msg_at start n) _ buffer (qa_wf _ _ _ A) W) as (h1 & E1 & W1 & U1).
  pose proof (store_write_all_outbox (queue_root q ++ PATH_SEPARATOR :: msg_step (wrap 32 (start + Z.of_nat n))) buffer
    (outbox h) h eq_refl) as O1. rewrite E1 in O1 |- *. cbn [snd] in O1. rewrite Z.min_r by lia.
  destruct (save_meta_ok h1 start (Z.of_nat n + 1) W1) as (h2 & E2 & W2 & O2 & U2); [lia| |].
  { rewrite U1 by apply meta_at_ok. rewrite decide_False by (symmetry; apply msg_at_meta). by eapply meta_value_length. }
  rewrite E2. exists h2. split; [done|]. split_and!; [|congruence|].
  - assert (V : forall i, (i <= n)%nat -> val h2 (msg_at start i) = if decide (i = n) then Some buffer else val h (msg_at start i)).
    { intros i Hi. rewrite U2, decide_False, U1 by (apply msg_at_ok || apply msg_at_meta).
      destruct (decide (i = n)) as [->|Ni]; [by rewrite decide_True|]. rewrite decide_False; [done|].
      intros X%msg_at_inj; lia. }
    constructor; [done|apply A|by destruct msgs|rewrite length_app; simpl; lia| | |].
    + apply Forall_app. split; [apply A|]. repeat constructor. lia.
    + rewrite U2, decide_True by (apply meta_at_ok || done). unfold meta_value. destruct (msgs ++ [buffer]) eqn:Eb; [by destruct msgs|].
      rewrite <- Eb, length_app. do 3 f_equal. simpl. lia.
    + intros i m Hi. apply lookup_app_Some in Hi as [Hi|[Hn Hi]].
      * pose proof (lookup_lt_Some _ _ _ Hi). rewrite V, decide_False by lia. by apply A.
      * apply list_lookup_singleton_Some in Hi as [Hi ->]. rewrite V, decide_True by lia. done.
  - eapply framed_trans; eapply updated_framed; done.
Qed.

(** ** Flushing *)

Lemma msg_not_below start i k :
  k = meta_at \/ (exists j, k = msg_at start j /\ j <> i /\ Z.of_nat i < 2 ^ 32 /\ Z.of_nat j < 2 ^ 32) ->
  ~ msg_at start i `prefix_of` k.
Proof.
  intros K [r E]. assert (r = []) as ->.
  { apply (f_equal length) in E. apply nil_length_inv.
    destruct K as [->|(j & -> & _)]; unfold meta_at, msg_at in E; rewrite !length_app in E; simpl in E; lia. }
  rewrite app_nil_r in E. destruct K as [->|(j & -> & N & I & J)]; [by apply (msg_at_meta start i)|].
  apply msg_at_inj in E; lia.
Qed.

Lemma wrap_next start i : wrap 32 (wrapping_add 32 start 1 + Z.of_nat i) = wrap 32 (start + Z.of_nat (S i)).
Proof. unfold wrapping_add, wrap. rewrite Zplus_mod_idemp_l. f_equal. lia. Qed.

(** Taking the first message away: the loop's two writes after the output. *)
Lemma pop_ok h start m msgs :
  queue_at h start (m :: msgs) ->
  exists h1 h2, store_delete (q.(queue_root) ++ PATH_SEPARATOR :: msg_step start) h = (Ok tt, h1) /\
    save_meta q (wrapping_add 32 start 1) (Z.of_nat (length msgs)) h1 = Done h2 /\
    queue_at h2 (if decide (msgs = []) then 0 else wrapping_add 32 start 1) msgs /\
    outbox h2 = outbox h /\ framed h h2.
Proof.
  intros A. pose proof (max_range q l Q) as M. pose proof (qa_length _ _ _ A) as L. cbn [length] in L.
  pose proof (qa_start _ _ _ A) as S. pose proof (qa_meta _ _ _ A) as Vm.
  destruct (message_path_ok start) as [_ W]. assert (E0 : l ++ [msg_step start] = msg_at start 0).
  { unfold msg_at. by rewrite Z.add_0_r, wrap_small. }
  rewrite E0 in W. pose proof (qa_msgs _ _ _ A 0%nat m eq_refl) as V0.
  destruct (store_delete_spec h (msg_at start 0) _ (qa_wf _ _ _ A) W) as [(h1 & D & W1 & U1)|[_ X]].
  2: { specialize (X [] ltac:(constructor)). rewrite app_nil_r in X. congruence. }
  pose proof (store_delete_outbox (queue_root q ++ PATH_SEPARATOR :: msg_step start) (outbox h) h eq_refl) as O1.
  rewrite D in O1. cbn [snd] in O1.
  assert (F1 : framed h h1).
  { intros k K N. rewrite U1 by done. rewrite decide_False; [done|]. intros P. apply N.
    etrans; [|exact P]. by exists [msg_step (wrap 32 (start + Z.of_nat 0))]. }
  assert (Vm1 : val h1 meta_at = val h meta_at).
  { rewrite U1 by apply meta_at_ok. rewrite decide_False; [done|]. apply msg_not_below. by left. }
  exists h1. destruct msgs as [|m' msgs].
  - unfold save_meta. change (Z.of_nat (length []) =? 0) with true. cbn match. eexists. split; [done|]. split; [done|].
    pose proof (store_delete_outbox q.(queue_root) (outbox h1) h1 eq_refl) as O2. rewrite decide_True by done.
    destruct (store_delete_spec h1 l q.(queue_root) W1 (root_writable q l Q)) as [(h2 & D2 & W2 & U2)|[D2 X]];
      rewrite D2 in O2 |- *; cbn [snd] in *.
    + split_and!; [|congruence|].
      * constructor; try done; [lia|]. rewrite U2 by apply meta_at_ok. rewrite decide_True; [done|]. by exists [meta_step].
      * intros k K N. rewrite U2, decide_False by done. by apply F1.
    + split_and!; [|congruence|done]. constructor; try done; [lia|]. apply X. repeat constructor; apply step_ok_meta.
  - destruct (save_meta_ok h1 (wrapping_add 32 start 1) (Z.of_nat (length (m' :: msgs))) W1) as (h2 & E2 & W2 & O2 & U2).
    { simpl. lia. }
    { rewrite Vm1. by eapply meta_value_length. }
    exists h2. split; [done|]. split; [done|]. rewrite decide_False by done. split_and!; [|congruence|].
    + constructor; [done|apply wrap_range; lia|done|simpl in *; lia| | |].
      * by pose proof (qa_sizes _ _ _ A) as [_ ?]%Forall_cons_1.
      * by rewrite U2, decide_True by (apply meta_at_ok || done).
      * intros i x Hi. pose proof (lookup_lt_Some _ _ _ Hi) as Li. cbn [length] in *. assert (E : msg_at (wrapping_add 32 start 1) i = msg_at start (1 + i)).
        { unfold msg_at. by rewrite wrap_next. }
        rewrite E, U2, decide_False, U1, decide_False; [|apply msg_not_below; right; exists (1 + i)%nat; split_and!; (done || lia)|apply msg_at_ok|apply msg_at_meta|apply msg_at_ok].
        by apply A.
    + eapply framed_trans; [done|]. by eapply updated_framed.
Qed.

(** A host with the same values. *)
Lemma queue_at_same h h' start msgs :
  store_wf h' -> (forall k, steps_ok k -> val h' k = val h k) -> queue_at h start msgs -> queue_at h' start msgs.
Proof.
  intros W E [_ S Em L Sz V Ms]. constructor; try done.
  - by rewrite E by apply meta_at_ok.
  - intros i m Hi. rewrite E by apply msg_at_ok. by apply Ms.
Qed.

(** The host refuses this message. *)
Definition refuses (h : H) (m : list Z) : Prop := exists e, write_output m h = (Err e, h).

Lemma write_output_cases h m :
  store_wf h ->
  (exists h', write_output m h = (Ok tt, h') /\ store_wf h' /\ outbox h' = outbox h ++ [m] /\
     forall k, steps_ok k -> val h' k = val h k) \/ refuses h m.
Proof.
  intros W. unfold refuses, write_output, wrap_unit. destruct (law_output h m W) as [(h' & E & R)|(code & N & E)]; rewrite E.
  - left. by exists h'.
  - right. cbn [fst snd]. unfold wrap_err, HostError_wrap. rewrite (proj2 (Z.leb_gt _ _) N). by eexists.
Qed.

Lemma flush_loop_ok read_fuel : MAX_OUTPUT_SIZE <= Z.of_nat read_fuel -> forall fuel h start msgs n,
  queue_at h start msgs -> (length msgs <= fuel)%nat ->
  exists k h' start', flush_loop fuel read_fuel q n start (Z.of_nat (length msgs)) h = Done (n + Z.of_nat k, h') /\
    (k <= length msgs)%nat /\ queue_at h' start' (drop k msgs) /\ outbox h' = outbox h ++ take k msgs /\
    framed h h' /\ (forall m, msgs !! k = Some m -> refuses h' m).
Proof.
  intros Rf. induction fuel as [|fuel IH]; intros h start msgs n A F; (destruct msgs as [|m msgs];
    [exists 0%nat, h, start; rewrite Z.add_0_r, app_nil_r; by split_and!|]); cbn [length] in F; [lia|].
  cbn [flush_loop]. rewrite (proj2 (Z.eqb_neq _ _)) by (simpl; lia). destruct (message_path_ok start) as [-> W].
  assert (E0 : l ++ [msg_step start] = msg_at start 0).
  { unfold msg_at. rewrite Z.add_0_r, wrap_small; [done|apply A]. }
  rewrite E0 in W. pose proof (qa_msgs _ _ _ A 0%nat m eq_refl) as V0.
  pose proof (qa_sizes _ _ _ A) as [Sz _]%Forall_cons_1. change (2 ^ 31) with 2147483648 in *. unfold MAX_OUTPUT_SIZE in *.
  rewrite (store_read_all_value h _ _ m read_fuel (qa_wf _ _ _ A) W V0) by lia.
  destruct (write_output_cases h m (qa_wf _ _ _ A)) as [(h1 & E1 & W1 & O1 & V1)|[e E1]]; rewrite E1.
  - destruct (pop_ok h1 start m msgs) as (h2 & h3 & E2 & E3 & A3 & O3 & F3); [by eapply queue_at_same|].
    rewrite E2. replace (Z.max 0 (Z.of_nat (length (m :: msgs)) - 1)) with (Z.of_nat (length msgs)) by (simpl; lia).
    rewrite E3. assert (F1 : framed h h3).
    { intros k K N. rewrite F3 by done. by apply V1. }
    destruct (decide (msgs = [])) as [->|Ne].
    + exists 1%nat, h3, 0. cbn [length drop take]. split; [by destruct fuel|]. split_and!; try done; congruence.
    + destruct (IH h3 _ msgs (n + 1) A3 ltac:(lia)) as (k & h' & start' & E & K & A' & O & F' & R).
      exists (S k), h', start'. split; [rewrite E; do 2 f_equal; lia|]. cbn [length drop take]. split_and!; [lia|done| | |done].
      * rewrite O, O3, O1. by rewrite <- (assoc_L (++)).
      * by eapply framed_trans.
  - exists 0%nat, h, start. rewrite Z.add_0_r, app_nil_r. split_and!; [done|lia|done..|]. intros x [= <-]. by exists e.
Qed.

(** ** Sequences of operations *)

(** One operation on the queue, with the messages that it accepts; between them
    the rest of the kernel and the host may do anything that touches neither
    the queue nor the outbox. *)
Inductive queue_step : H -> list (list Z) -> H -> Prop :=
| step_queue h buffer r h' :
    queue_message q buffer h = Done (r, h') ->
    queue_step h (match r with Ok _ => [buffer] | Err _ => [] end) h'
| step_flush h fuel read_fuel n h' :
    flush_queue fuel read_fuel q h = Done (n, h') -> MAX_OUTPUT_SIZE <= Z.of_nat read_fuel -> queue_step h [] h'
| step_other h h' :
    store_wf h' -> (forall k, steps_ok k -> l `prefix_of` k -> val h' k = val h k) -> outbox h' = outbox h ->
    queue_step h [] h'.

Inductive queue_steps : H -> list (list Z) -> H -> Prop :=
| steps_none h : queue_steps h [] h
| steps_more h1 a h2 b h3 : queue_steps h1 a h2 -> queue_step h2 b h3 -> queue_steps h1 (a ++ b) h3.

(** More fuel gives the same result. *)
Lemma flush_loop_fuel read_fuel : forall fuel fuel' n start len h r,
  flush_loop fuel read_fuel q n start len h = Done r -> (fuel <= fuel')%nat ->
  flush_loop fuel' read_fuel q n start len h = Done r.
Proof.
  induction fuel as [|fuel IH]; intros [|fuel'] n start len h r E L; try done || lia;
    cbn [flush_loop] in *; destruct (len =? 0); try done.
  destruct (message_path q start); [|done]. destruct (store_read_all _ _ _) as [[]| |]; try done.
  destruct (write_output _ h) as [[] h1]; [|done]. destruct (store_delete _ h1) as [[] h2]; [|done].
  destruct (save_meta _ _ _ h2); [|done..]. apply IH; [done|lia].
Qed.

Lemma flush_queue_ok h start msgs fuel read_fuel :
  queue_at h start msgs -> (length msgs <= fuel)%nat -> MAX_OUTPUT_SIZE <= Z.of_nat read_fuel ->
  exists k h' start', flush_queue fuel read_fuel q h = Done (Z.of_nat k, h') /\
    (k <= length msgs)%nat /\ queue_at h' start' (drop k msgs) /\ outbox h' = outbox h ++ take k msgs /\
    framed h h' /\ (forall m, msgs !! k = Some m -> refuses h' m).
Proof.
  intros A F Rf. unfold flush_queue. rewrite (read_meta_ok _ _ _ A).
  destruct (flush_loop_ok read_fuel Rf fuel h start msgs 0 A F) as (k & h' & start' & E & R). by exists k, h', start'.
Qed.

Lemma queue_step_ok h a h' start msgs :
  queue_at h start msgs -> queue_step h a h' ->
  exists start' k, (k <= length msgs)%nat /\ queue_at h' start' (drop k msgs ++ a) /\ outbox h' = outbox h ++ take k msgs.
Proof.
  intros A S. destruct S as [h buffer r h' E|h fuel rf n h' E Rf|h h' W V O].
  - exists start, 0%nat. rewrite app_nil_r. pose proof (queue_message_ok h start msgs buffer A) as R. split; [lia|].
    destruct (decide _) in R; [rewrite R in E; injection E as <- <-; by rewrite app_nil_r|].
    destruct (decide _) in R; [rewrite R in E; injection E as <- <-; by rewrite app_nil_r|].
    destruct R as (h2 & R & A2 & O2 & _). rewrite R in E. by injection E as <- <-.
  - destruct (flush_queue_ok h start msgs (fuel + length msgs) rf A ltac:(lia) Rf) as (k & h2 & start' & E2 & K & A2 & O2 & _).
    exists start', k. unfold flush_queue in E, E2. rewrite (read_meta_ok _ _ _ A) in E, E2.
    apply flush_loop_fuel with (fuel' := (fuel + length msgs)%nat) in E; [|lia]. rewrite E in E2. injection E2 as -> ->.
    by rewrite app_nil_r.
  - exists start, 0%nat. split; [lia|]. rewrite !app_nil_r. split; [|done]. destruct A as [_ S Em L Sz V0 Ms]. constructor; try done.
    + rewrite V; [done|apply meta_at_ok|]. by exists [meta_step].
    + intros i m Hi. rewrite V; [by apply Ms|apply msg_at_ok|]. by exists [msg_step (wrap 32 (start + Z.of_nat i))].
Qed.

(** C14. The outbox queue refines a queue of messages, for the default queue and
    every queue whose root is a valid path of at most 233 bytes (the rest of a
    path holds a message name; [OutboxQueue::new] accepts 234 and 235 bytes
    too, where queueing panics).  On a host with the laws of storage and outbox,
    after any operations on an empty queue, while nothing else touches queue or
    outbox, the messages written to the outbox followed by those still queued
    are those that were accepted, in order, across the wrap-around of indices;
    no operation panics; a message is accepted unless the queue is at its
    maximum (65535 by default; the doc says 65536) or the message is too large;
    flushing stops only at the end of the queue or at a message the outbox
    refuses, which stays queued (the documented limit of 100 is the host's).
    Other values stay.  Fuel: one unit per queued message, and per byte. *)
Theorem outbox_queue_refines h accepted h' :
  store_wf h -> val h meta_at = None -> queue_steps h accepted h' ->
  exists sent rest, accepted = sent ++ rest /\ outbox h' = outbox h ++ sent /\
    (forall buffer, exists r h2, queue_message q buffer h' = Done (r, h2) /\ framed h' h2 /\
       r = if decide (q.(queue_max) <= Z.of_nat (length rest)) then Err (HostErr FullOutbox)
           else if decide (MAX_OUTPUT_SIZE < Z.of_nat (length buffer)) then Err (HostErr InputOutputTooLarge)
           else Ok (Z.of_nat (length rest) + 1)) /\
    (forall fuel read_fuel, (length rest <= fuel)%nat -> MAX_OUTPUT_SIZE <= Z.of_nat read_fuel ->
       exists k h2, flush_queue fuel read_fuel q h' = Done (Z.of_nat k, h2) /\ framed h' h2 /\
         outbox h2 = outbox h' ++ take k rest /\ (forall m, rest !! k = Some m -> refuses h2 m)).
Proof.
  intros W V S. assert (G : exists start sent rest, accepted = sent ++ rest /\ outbox h' = outbox h ++ sent /\ queue_at h' start rest).
  { assert (A : queue_at h 0 []) by (constructor; try done; cbn [length]; pose proof (max_range q l Q); lia).
    induction S as [h|h1 a h2 b h3 S IH Hs]; [exists 0, [], []; split_and!; [done|by rewrite app_nil_r|done]|].
    destruct (IH W V A) as (start & sent & rest & -> & O & A2).
    destruct (queue_step_ok _ _ _ _ _ A2 Hs) as (start' & k & K & A3 & O3).
    exists start', (sent ++ take k rest), (drop k rest ++ b). rewrite O3, O. split_and!; [|by rewrite (assoc_L (++))|done].
    rewrite <- (take_drop k rest) at 1. by rewrite !(assoc_L (++)). }
  destruct G as (start & sent & rest & E & O & A). exists sent, rest. split_and!; [done..| |].
  - intros buffer. pose proof (queue_message_ok h' start rest buffer A) as R.
    assert (Fr : framed h' h') by by intros k.
    destruct (decide _); [by eexists _, _|]. destruct (decide _); [by eexists _, _|].
    destruct R as (h2 & R & _ & _ & F). by eexists _, h2.
  - intros fuel rf F Rf. destruct (flush_queue_ok h' start rest fuel rf A F Rf) as (k & h2 & s2 & E2 & _ & _ & O2 & F2 & R2).
    by exists k, h2.
Qed.
End with_queue.

Lemma message_path_too_long q idx :
  PATH_MAX_SIZE < Z.of_nat (length q.(queue_root)) + 9 -> message_path q idx = None.
Proof.
  intros L. unfold message_path, assert_from. destruct (validate_path _); [|done]. unfold path_concat.
  rewrite (proj2 (Z.leb_gt _ _)); [done|]. rewrite length_app. cbn [length]. rewrite hex_length. simpl length. lia.
Qed.

(** C15. Which roots a queue can have, among the valid paths: one of at most 233
    bytes gives a queue that works ([queue_ok]); a longer one should be refused,
    since the nine bytes of the name of a message do not fit behind it, but one
    of 234 or 235 bytes is accepted: no message has a path, and queueing a
    message of a legal size while there is room panics.  From 236 bytes on the
    root is refused. *)
Theorem OutboxQueue_new_spec root l max :
  writable l root -> 0 <= max < 2 ^ 32 ->
  let n := Z.of_nat (length root) in
  if decide (n <= 233) then
    exists q, OutboxQueue_new root max = Ok q /\ queue_ok q l /\ q.(queue_root) = root /\ q.(queue_max) = max
  else if decide (n <= 235) then
    exists q, OutboxQueue_new root max = Ok q /\ (forall idx, message_path q idx = None) /\
      forall (h : H) buffer, (read_meta q h).2 < max -> Z.of_nat (length buffer) <= MAX_OUTPUT_SIZE ->
        queue_message q buffer h = Panicked
  else OutboxQueue_new root max = Err PathTooLong.
Proof.
  intros W M n. unfold OutboxQueue_new. change (PATH_MAX_SIZE - 2 * 4 + 1) with 235. fold n.
  assert (E : n <= 235 -> path_concat root META_SUFFIX = Ok (root ++ META_SUFFIX)).
  { intros L. unfold path_concat. rewrite length_app. change (length META_SUFFIX) with 5%nat.
    change PATH_MAX_SIZE with 242. by rewrite (proj2 (Z.leb_le _ _)) by lia. }
  destruct (decide (n <= 233)); [|destruct (decide (n <= 235))].
  - rewrite (proj2 (Z.ltb_ge _ _)), E by lia. eexists. split; [reflexivity|]. split_and!; [|done..].
    constructor; try done. change PATH_MAX_SIZE with 242. cbn [queue_root]. lia.
  - rewrite (proj2 (Z.ltb_ge _ _)), E by lia. eexists. split; [reflexivity|]. set (q := Build_OutboxQueue _ _ _).
    assert (N : forall idx, message_path q idx = None).
    { intros idx. apply message_path_too_long. change PATH_MAX_SIZE with 242. cbn [queue_root q]. lia. }
    split; [done|]. intros h buffer Lm Lb. unfold queue_message. destruct (read_meta q h) as [start len]. cbn [snd] in Lm.
    change (queue_max q) with max. rewrite (proj2 (Z.leb_gt _ _)), (proj2 (Z.ltb_ge _ _)) by lia. by rewrite N.
  - by rewrite (proj2 (Z.ltb_lt _ _)) by lia.
Qed.
End queue.

(** The default queue. *)
Lemma OUTBOX_QUEUE_ok : queue_ok OUTBOX_QUEUE (path_steps OUTBOX_QUEUE_ROOT).
Proof.
  constructor; [|done..]. split; [|done]. cbn [queue_root OUTBOX_QUEUE].
  assert (V : validate_path_internal OUTBOX_QUEUE_ROOT = Ok tt) by (vm_compute; reflexivity).
  apply validate_path_internal_spec in V as (steps & P). by rewrite (path_of_steps _ _ P).
Qed.

(** ** Examples *)

(** Hexadecimal in lower case. *)
Definition hex_digit (d : Z) : Z := if d <? 10 then 48 + d else 87 + d.

#[export] Instance lower_hex : Hex := {|
  hex_bytes l := concat (map (fun b => [hex_digit (b / 16 mod 16); hex_digit (b mod 16)]) l);
|}.

Lemma hex_digit_inj a b : 0 <= a < 16 -> 0 <= b < 16 -> hex_digit a = hex_digit b -> a = b.
Proof. unfold hex_digit. intros A B. destruct (Z.ltb_spec a 10), (Z.ltb_spec b 10); lia. Qed.

Lemma hex_digit_range d : 0 <= d < 16 -> 48 <= hex_digit d <= 57 \/ 97 <= hex_digit d <= 102.
Proof. unfold hex_digit. intros D. destruct (Z.ltb_spec d 10); lia. Qed.

#[export] Instance lower_hex_laws : HexLaws.
Proof.
  split; cbn [hex_bytes lower_hex].
  - intros l. induction l as [|b l IH]; [done|]. cbn [map concat app length]. lia.
  - intros l. induction l as [|b l IH]; cbn [map concat app]; [constructor|].
    constructor; [|constructor; [|done]]; apply hex_digit_range; by apply Z.mod_pos_bound.
  - intros l. induction l as [|b l IH]; intros [|b' l'] F F' E; cbn [map concat app] in E; [done..|].
    apply Forall_cons_1 in F as [B F], F' as [B' F']. injection E as E1 E2 E3.
    apply hex_digit_inj in E1, E2; try by apply Z.mod_pos_bound. f_equal; [|by apply IH].
    unfold is_u in *. change (2 ^ 8) with 256 in *. Z.to_euclidean_division_equations. lia.
Qed.

(** A root of 234 bytes. *)
Lemma OutboxQueue_new_spec_witness :
  exists q, OutboxQueue_new (47 :: replicate 233 97) 10 = Ok q /\ queue_message q [7] Node_default = Panicked.
Proof.
  pose proof (OutboxQueue_new_spec (H := Node) (47 :: replicate 233 97) [replicate 233 97] 10) as S. cbv zeta in S.
  rewrite decide_False, decide_True in S by (vm_compute; done). destruct S as (q & E & _ & P).
  - split; [|done]. split_and!; [done..| |by vm_compute]. constructor; [split; [done|by apply Forall_replicate]|constructor].
  - lia.
  - exists q. split; [exact E|]. apply P; [|vm_compute; congruence]. injection E as <-. vm_compute. reflexivity.
Defined.
