(* ===== verification/MockHost.v ===== *)
(** The host for running kernels outside of a rollup
    ([src/kernel_sdk/mock/src]): storage, inbox, outbox, preimages and DAL slots,
    and the loop that runs a kernel at a level, with its reboots.  Where to
    write the debug log is not part of the state.

    First come input and reveals of the runtime
    ([src/kernel_sdk/host/src/runtime.rs]), with the formats of what is revealed
    ([metadata.rs], [dal_parameters.rs]). *)
From S2P Require Import Prelude Path DurableStore Runtime Hash Dac Outbox.
#[local] Open Scope Z_scope.

(** ** Input and reveals *)

(** [to_be_bytes] of an integer of [n] bytes. *)
Fixpoint to_be_bytes (n : nat) (z : Z) : list Z :=
  match n with
  | O => []
  | S n => z / 256 ^ Z.of_nat n mod 256 :: to_be_bytes n z
  end.

(** The length of a buffer that starts as zeros and is filled from the left. *)
Definition filled (n : nat) (bytes : list Z) : list Z := take n (bytes ++ replicate n 0).

(** ** Host functions *)

(** Code, level and number, bytes, and the changed host. *)
(* kernel_sdk/core/src/smart_rollup_core.rs:121-126 read_input *)
Class InputHost (H : Type) : Type := { core_read_input : H -> Z -> Z * (Z * Z) * list Z * H }.

(** Status and bytes; [None] is a host that panics. *)
(* kernel_sdk/core/src/smart_rollup_core.rs:74-79 reveal *)
Class GenericReveal (H : Type) : Type := {
  core_reveal_metadata : H -> Z -> Z * list Z;
  core_reveal : H -> list Z -> Z -> option (Z * list Z);
}.

(** ** Formats *)

(* kernel_sdk/constants/src/core.rs:11-11 MAX_INPUT_MESSAGE_SIZE *)
Definition MAX_INPUT_BYTES : Z := 4096.

(* kernel_sdk/host/src/input.rs:15-22 Message *)
Record Message : Set := { msg_level : Z; msg_id : Z; msg_payload : list Z }.

(* kernel_sdk/host/src/metadata.rs:14-14 METADATA_SIZE *)
Definition METADATA_SIZE : nat := 20 + 4.

(* kernel_sdk/host/src/metadata.rs:22-28 RollupMetadata *)
Record RollupMetadata : Set := { raw_rollup_address : list Z; origination_level : Z }.

(* kernel_sdk/host/src/metadata.rs:39-52 from *)
Definition RollupMetadata_from (value : list Z) : RollupMetadata :=
  {| raw_rollup_address := take 20 value;
     origination_level := wrap 32 (as_i32 (from_be_bytes (take 4 (drop 20 value)))) |}.

(* kernel_sdk/host/src/metadata.rs:54-62 from *)
Definition RollupMetadata_into (value : RollupMetadata) : list Z :=
  value.(raw_rollup_address) ++ to_be_bytes 4 (as_i32 value.(origination_level)).

(* kernel_sdk/host/src/dal_parameters.rs:11-11 DAL_PARAMETERS_SIZE *)
Definition DAL_PARAMETERS_SIZE : nat := 4 * 8.

(* kernel_sdk/host/src/dal_parameters.rs:16-26 RollupDalParameters *)
Record RollupDalParameters : Set := {
  number_of_slots : Z; attestation_lag : Z; slot_size : Z; page_size : Z;
}.

(** An [i64] that is converted to [u64]: [None] when it is negative. *)
(* kernel_sdk/host/src/dal_parameters.rs:42-45 try_from *)
Definition dal_u64 (bytes : list Z) : option Z :=
  let z := as_i64 (from_be_bytes bytes) in if 0 <=? z then Some z else None.

(* kernel_sdk/host/src/dal_parameters.rs:31-53 try_from *)
Definition RollupDalParameters_try_from (value : list Z) : option RollupDalParameters :=
  let field i := take 8 (drop (8 * i) value) in
  match dal_u64 (field 0%nat), dal_u64 (field 1%nat), dal_u64 (field 2%nat), dal_u64 (field 3%nat) with
  | Some n, Some lag, Some slot, Some page =>
      Some {| number_of_slots := n; attestation_lag := lag; slot_size := slot; page_size := page |}
  | _, _, _, _ => None
  end.

(* kernel_sdk/host/src/dal_parameters.rs:56-65 from *)
Definition RollupDalParameters_into (value : RollupDalParameters) : list Z :=
  to_be_bytes 8 (as_i64 value.(number_of_slots)) ++ to_be_bytes 8 (as_i64 value.(attestation_lag)) ++
  to_be_bytes 8 (as_i64 value.(slot_size)) ++ to_be_bytes 8 (as_i64 value.(page_size)).

(** ** The runtime *)

Section calls.
Context {H : Type} `{IH : InputHost H} `{GR : GenericReveal H}.

(** A result of zero bytes is the end of the input. *)
(* kernel_sdk/host/src/runtime.rs:268-300 read_input *)
Definition read_input : stM H RuntimeError (option Message) := fun h =>
  let '(code, (level, id), buffer, h) := core_read_input h MAX_INPUT_BYTES in
  match wrap_err code with
  | Err e => (Err e, h)
  | Ok size =>
      if size =? 0 then (Ok None, h)
      else (Ok (Some {| msg_level := wrap 32 level; msg_id := wrap 32 id; msg_payload := take (Z.to_nat size) buffer |}), h)
  end.

(* kernel_sdk/host/src/runtime.rs:582-598 reveal_metadata *)
Definition reveal_metadata (h : H) : RollupMetadata :=
  let '(_, bytes) := core_reveal_metadata h (Z.of_nat METADATA_SIZE) in
  RollupMetadata_from (filled METADATA_SIZE bytes).

(* kernel_sdk/host/src/runtime.rs:601-631 reveal_dal_page *)
Definition reveal_dal_page (h : H) (published_level slot_index page_index buffer_len : Z) :
  option (result (Z * list Z) RuntimeError) :=
  let payload := [2] ++ to_be_bytes 4 published_level ++ [slot_index] ++ to_be_bytes 2 page_index in
  match core_reveal h payload buffer_len with
  | None => None
  | Some (res, bytes) => Some (result_map (fun size => (size, bytes)) (wrap_err res))
  end.

(** [unreachable!] when the parameters cannot be decoded. *)
(* kernel_sdk/host/src/runtime.rs:633-664 reveal_dal_parameters *)
Definition reveal_dal_parameters (h : H) : option RollupDalParameters :=
  match core_reveal h [3] (Z.of_nat DAL_PARAMETERS_SIZE) with
  | None => None
  | Some (_, bytes) => RollupDalParameters_try_from (filled DAL_PARAMETERS_SIZE bytes)
  end.
End calls.


(** ** State *)

(** The field [inbox] of the source is never used. *)
(* kernel_sdk/mock/src/state/store.rs:13-19 Store *)
Record MockStore : Type := {
  durable : Node;
  preimages : gmap (list Z) (list Z);
  dal_slots : gmap (Z * Z) (list Z);
  store_outbox : gmap Z (list (list Z));
}.

Definition with_durable (s : MockStore) (n : Node) : MockStore :=
  {| durable := n; preimages := s.(preimages); dal_slots := s.(dal_slots); store_outbox := s.(store_outbox) |}.

(* kernel_sdk/mock/src/state/store.rs:54-56 outbox_at *)
Definition outbox_at (s : MockStore) (level : Z) : list (list Z) := default [] (s.(store_outbox) !! level).

(* kernel_sdk/mock/src/state/store.rs:58-64 outbox_insert *)
Definition outbox_insert (s : MockStore) (level : Z) (message : list Z) : MockStore :=
  {| durable := s.(durable); preimages := s.(preimages); dal_slots := s.(dal_slots);
     store_outbox :=
       match s.(store_outbox) !! level with
       | Some l => <[level := l ++ [message]]> s.(store_outbox)
       | None => <[level := [message]]> s.(store_outbox)
       end |}.

(* kernel_sdk/mock/src/state/mod.rs:32-42 HostState *)
Record HostState : Type := {
  hs_store : MockStore;
  hs_metadata : RollupMetadata;
  hs_dal_parameters : RollupDalParameters;
  curr_level : Z;
  curr_input_id : nat;
  hs_input : list (list Z);
}.

Definition with_store (s : HostState) (st : MockStore) : HostState :=
  {| hs_store := st; hs_metadata := s.(hs_metadata); hs_dal_parameters := s.(hs_dal_parameters);
     curr_level := s.(curr_level); curr_input_id := s.(curr_input_id); hs_input := s.(hs_input) |}.

(* kernel_sdk/mock/src/state/mod.rs:22-22 MAX_OUTPUTS_PER_LEVEL *)
Definition MAX_OUTPUTS_PER_LEVEL : nat := 100.

(** ** Messages *)

(* kernel_sdk/encoding/src/inbox.rs:110-115 InfoPerLevel *)
Record InfoPerLevel : Set := { predecessor_timestamp : Z; predecessor : list Z }.

(** Hashes and addresses are their bytes. *)
(* kernel_sdk/encoding/src/inbox.rs:87-96 Transfer *)
Record Transfer (Expr : Type) : Type := {
  tr_payload : Expr; tr_sender : list Z; tr_source : list Z; tr_destination : list Z;
}.
Arguments Build_Transfer {_}.

(* kernel_sdk/encoding/src/inbox.rs:129-138 InternalInboxMessage *)
Inductive InternalInboxMessage (Expr : Type) : Type :=
| TransferMessage (transfer : Transfer Expr)
| StartOfLevel
| EndOfLevel
| InfoPerLevelMessage (info : InfoPerLevel).
Arguments TransferMessage {_}.
Arguments StartOfLevel {_}.
Arguments EndOfLevel {_}.
Arguments InfoPerLevelMessage {_}.

(* kernel_sdk/encoding/src/inbox.rs:40-49 InboxMessage *)
Inductive InboxMessage (Expr : Type) : Type :=
| Internal (message : InternalInboxMessage Expr)
| External (payload : list Z).
Arguments Internal {_}.
Arguments External {_}.

(* kernel_sdk/encoding/src/inbox.rs:31-36 InboxMessageRepr *)
Inductive InboxMessageRepr (Expr : Type) : Type :=
| ReprInternal (message : InternalInboxMessage Expr)
| ReprExternal.
Arguments ReprInternal {_}.
Arguments ReprExternal {_}.

(** The reader and writer that are derived by a macro; [None] is an error.  The
    reader gives the rest of the bytes too. *)
Class InboxCodec (Expr : Type) := {
  repr_bin_write : InboxMessageRepr Expr -> option (list Z);
  repr_nom_read : list Z -> option (list Z * InboxMessageRepr Expr);
}.

(* kernel_sdk/encoding/src/inbox.rs:70-82 serialize *)
Definition InboxMessage_serialize {Expr} `{IC : InboxCodec Expr} (m : InboxMessage Expr) : option (list Z) :=
  match m with
  | Internal m => repr_bin_write (ReprInternal m)
  | External payload => (fun bytes => bytes ++ payload) <$> repr_bin_write ReprExternal
  end.

(** [rest] takes everything that is left. *)
(* kernel_sdk/encoding/src/inbox.rs:59-66 parse *)
Definition InboxMessage_parse {Expr} `{IC : InboxCodec Expr} (input : list Z) : option (list Z * InboxMessage Expr) :=
  match repr_nom_read input with
  | None => None
  | Some (remaining, ReprInternal i) => Some (remaining, Internal i)
  | Some (remaining, ReprExternal) => Some ([], External remaining)
  end.

(* kernel_sdk/mock/src/lib.rs:52-57 MockHost *)
Record MockHost : Type := { mock_state : HostState; mock_info : InfoPerLevel; keep_going : bool }.

Definition with_state (h : MockHost) (s : HostState) : MockHost :=
  {| mock_state := s; mock_info := h.(mock_info); keep_going := h.(keep_going) |}.

Definition mock_durable (h : MockHost) : Node := h.(mock_state).(hs_store).(durable).

Definition with_mock_durable (h : MockHost) (n : Node) : MockHost :=
  with_state h (with_store h.(mock_state) (with_durable h.(mock_state).(hs_store) n)).

(** ** Operations of the state *)

(* kernel_sdk/mock/src/state/mod.rs:85-96 handle_write_output *)
Definition handle_write_output (s : HostState) (output : list Z) : result HostState HostError :=
  if MAX_OUTPUT_SIZE <? Z.of_nat (length output) then Err InputOutputTooLarge
  else if (length (outbox_at s.(hs_store) s.(curr_level)) <? MAX_OUTPUTS_PER_LEVEL)%nat
  then Ok (with_store s (outbox_insert s.(hs_store) s.(curr_level) output))
  else Err FullOutbox.

(** A message that is too big is a panic. *)
(* kernel_sdk/mock/src/state/mod.rs:98-108 add_input *)
Definition add_input (s : HostState) (input : list Z) : option HostState :=
  if MAX_INPUT_BYTES <? Z.of_nat (length input) then None
  else Some {| hs_store := s.(hs_store); hs_metadata := s.(hs_metadata); hs_dal_parameters := s.(hs_dal_parameters);
    curr_level := s.(curr_level); curr_input_id := s.(curr_input_id); hs_input := s.(hs_input) ++ [input] |}.

(* kernel_sdk/mock/src/state/mod.rs:25-29 NextInput *)
Record NextInput : Set := { ni_level : Z; ni_id : Z; ni_payload : list Z }.

(* kernel_sdk/mock/src/state/mod.rs:110-125 handle_read_input *)
Definition handle_read_input (s : HostState) (max_bytes : Z) : option NextInput * HostState :=
  let next :=
    match s.(hs_input) !! s.(curr_input_id) with
    | Some m => Some {| ni_level := s.(curr_level); ni_id := wrap 32 (Z.of_nat s.(curr_input_id));
                        ni_payload := take (Z.to_nat (Z.min max_bytes (Z.of_nat (length m)))) m |}
    | None => None
    end in
  (next, {| hs_store := s.(hs_store); hs_metadata := s.(hs_metadata); hs_dal_parameters := s.(hs_dal_parameters);
    curr_level := s.(curr_level); curr_input_id := S s.(curr_input_id); hs_input := s.(hs_input) |}).

(** A preimage that was not set is a panic. *)
(* kernel_sdk/mock/src/state/mod.rs:127-138 handle_reveal_preimage *)
Definition handle_reveal_preimage (s : HostState) (hash : list Z) (max_bytes : Z) : option (list Z) :=
  match s.(hs_store).(preimages) !! hash with
  | None => None
  | Some preimage =>
      Some (if Z.of_nat (length preimage) <? max_bytes then preimage else take (Z.to_nat max_bytes) preimage)
  end.

Section preimage.
Context `{B2 : Blake2b}.

(** A preimage that is too large is a panic. *)
(* kernel_sdk/mock/src/state/store.rs:176-183 add_preimage *)
Definition set_preimage (h : MockHost) (preimage : list Z) : option (list Z * MockHost) :=
  match make_preimage_hash preimage with
  | Err _ => None
  | Ok hash =>
      let s := h.(mock_state).(hs_store) in
      Some (hash, with_state h (with_store h.(mock_state)
        {| durable := s.(durable); preimages := <[hash := preimage]> s.(preimages); dal_slots := s.(dal_slots);
           store_outbox := s.(store_outbox) |}))
  end.
End preimage.

(** Data that is too large is a panic; shorter data is padded. *)
(* kernel_sdk/mock/src/lib.rs:338-350 set_dal_slot *)
Definition set_dal_slot (h : MockHost) (published_level slot_index : Z) (data : list Z) : option MockHost :=
  let size := h.(mock_state).(hs_dal_parameters).(slot_size) in
  if size <? Z.of_nat (length data) then None
  else
    let slot := data ++ replicate (Z.to_nat size - length data) 0 in
    let s := h.(mock_state).(hs_store) in
    Some (with_state h (with_store h.(mock_state)
      {| durable := s.(durable); preimages := s.(preimages);
         dal_slots := <[(published_level, slot_index) := slot]> s.(dal_slots); store_outbox := s.(store_outbox) |})).

(** ** Host functions *)

(* kernel_sdk/mock/src/host.rs:125-227 MockHost *)
#[export] Instance MockStorage : SmartRollupCore MockHost := {|
  core_store_has h := core_store_has (mock_durable h);
  core_store_read h := core_store_read (mock_durable h);
  core_store_write h path offset src :=
    let '(code, n) := core_store_write (mock_durable h) path offset src in (code, with_mock_durable h n);
  core_store_delete h path := let '(code, n) := core_store_delete (mock_durable h) path in (code, with_mock_durable h n);
  core_store_delete_value h path :=
    let '(code, n) := core_store_delete_value (mock_durable h) path in (code, with_mock_durable h n);
  core_store_list_size h := core_store_list_size (mock_durable h);
  core_store_move h from to :=
    let '(code, n) := core_store_move (mock_durable h) from to in (code, with_mock_durable h n);
  core_store_copy h from to :=
    let '(code, n) := core_store_copy (mock_durable h) from to in (code, with_mock_durable h n);
  core_store_value_size h := core_store_value_size (mock_durable h);
|}.

(* kernel_sdk/mock/src/host.rs:115-123 write_output *)
#[export] Instance MockOutput : OutputHost MockHost := {|
  core_write_output h output :=
    match handle_write_output h.(mock_state) output with
    | Ok s => (0, with_state h s)
    | Err e => (HostError_code e, h)
    end;
|}.

(* kernel_sdk/mock/src/host.rs:84-107 read_input *)
#[export] Instance MockInput : InputHost MockHost := {|
  core_read_input h max_bytes :=
    match handle_read_input h.(mock_state) max_bytes with
    | (Some i, s) =>
        (Z.of_nat (length i.(ni_payload)), (as_i32 i.(ni_level), as_i32 i.(ni_id)), i.(ni_payload), with_state h s)
    | (None, s) => (0, (0, 0), [], with_state h s)
    end;
|}.

(** A hash of the wrong length is a panic. *)
(* kernel_sdk/mock/src/host.rs:199-223 reveal_preimage *)
Definition mock_reveal_preimage (h : MockHost) (hash : list Z) (max_bytes : Z) : option (Z * list Z) :=
  if (length hash =? PREIMAGE_HASH_SIZE)%nat then
    (fun bytes => (Z.of_nat (length bytes), bytes)) <$> handle_reveal_preimage h.(mock_state) hash max_bytes
  else None.

(** [min], and a copy of a prefix. *)
Definition copied (bytes : list Z) (max_bytes : Z) : Z * list Z :=
  let len := Z.min max_bytes (Z.of_nat (length bytes)) in (len, take (Z.to_nat len) bytes).

(* kernel_sdk/mock/src/host.rs:229-236 reveal_metadata *)
Definition mock_reveal_metadata (h : MockHost) (max_bytes : Z) : Z * list Z :=
  copied (RollupMetadata_into h.(mock_state).(hs_metadata)) max_bytes.

(* kernel_sdk/mock/src/host.rs:43-54 reveal_dal_parameters *)
Definition mock_reveal_dal_parameters (h : MockHost) (max_bytes : Z) : Z * list Z :=
  copied (RollupDalParameters_into h.(mock_state).(hs_dal_parameters)) max_bytes.

(** Slicing out of the slot is a panic. *)
(* kernel_sdk/mock/src/host.rs:56-81 reveal_dal_page *)
Definition mock_reveal_dal_page (h : MockHost) (published_level slot_index page_index max_bytes : Z) :
  option (Z * list Z) :=
  let params := h.(mock_state).(hs_dal_parameters) in
  if h.(mock_state).(curr_level) <? wrapping_add 64 (wrap 64 published_level) params.(attestation_lag) then Some (0, [])
  else
    let len := Z.min max_bytes params.(page_size) in
    let start := wrap 64 (wrap 64 page_index * params.(page_size)) in
    match h.(mock_state).(hs_store).(dal_slots) !! (published_level, slot_index) with
    | None => Some (0, [])
    | Some slot =>
        let stop := wrapping_add 64 start len in
        if (start <=? stop) && (stop <=? Z.of_nat (length slot))
        then Some (as_i32 len, take (Z.to_nat len) (drop (Z.to_nat start) slot))
        else None
    end.

(** The request is decoded by its tag; other tags are unimplemented. *)
(* kernel_sdk/mock/src/host.rs:238-300 reveal *)
Definition mock_reveal (h : MockHost) (payload : list Z) (max_bytes : Z) : option (Z * list Z) :=
  match payload with
  | [] => Some (0, [])
  | 0 :: payload => mock_reveal_preimage h payload max_bytes
  | 1 :: _ => Some (mock_reveal_metadata h max_bytes)
  | 2 :: payload =>
      if (length payload <? 7)%nat then Some (0, [])
      else
        let published_level := as_i32 (from_be_bytes (take 4 payload)) in
        let slot_index := default 0 (payload !! 4%nat) in
        let page_index := as_i16 (from_be_bytes (take 2 (drop 5 payload))) in
        mock_reveal_dal_page h published_level slot_index page_index max_bytes
  | 3 :: _ => Some (mock_reveal_dal_parameters h max_bytes)
  | _ => None
  end.

#[export] Instance MockReveal : GenericReveal MockHost := {|
  core_reveal_metadata := mock_reveal_metadata;
  core_reveal := mock_reveal;
|}.

(** ** Levels *)

(* kernel_sdk/mock/src/lib.rs:32-32 MAXIMUM_REBOOTS_PER_INPUT *)
Definition MAXIMUM_REBOOTS_PER_INPUT : nat := 1000.

(** The steps of [/kernel/env/reboot], [/readonly/kernel/env/too_many_reboot]
    and [/readonly/kernel/env/reboot_counter]. *)
(* kernel_sdk/mock/src/lib.rs:36-36 REBOOT_FLAG_KEY *)
Definition REBOOT_FLAG_KEY : list (list Z) := path_steps REBOOT_PATH.

(* kernel_sdk/mock/src/lib.rs:38-38 TOO_MANY_REBOOT_FLAG_KEY *)
Definition TOO_MANY_REBOOT_FLAG_KEY : list (list Z) := path_steps PATH_TOO_MANY_REBOOT_FLAG.

(* kernel_sdk/mock/src/lib.rs:42-42 REBOOT_COUNTER_KEY *)
Definition REBOOT_COUNTER_KEY : list (list Z) := path_steps PATH_REBOOT_COUNTER.

(* kernel_sdk/mock/src/lib.rs:44-44 NAIROBI_ACTIVATION_LEVEL *)
Definition NAIROBI_ACTIVATION_LEVEL : Z := 3760129.

Section levels.
Context `{B2 : Blake2b} {Expr : Type} `{IC : InboxCodec Expr}.

(** [i64::to_le_bytes] is the reverse of [to_be_bytes]. *)
(* kernel_sdk/mock/src/lib.rs:353-364 info_for_level *)
Definition info_for_level (level : Z) : InfoPerLevel :=
  let timestamp := (level - 1 - NAIROBI_ACTIVATION_LEVEL) * 15 + 1687561630 in
  {| predecessor_timestamp := timestamp; predecessor := digest_256 (rev (to_be_bytes 8 timestamp)) |}.

(* kernel_sdk/mock/src/lib.rs:327-334 add_inbox_message *)
Definition add_inbox_message (h : MockHost) (message : InboxMessage Expr) : option MockHost :=
  match InboxMessage_serialize message with
  | None => None
  | Some inbox_message => with_state h <$> add_input h.(mock_state) inbox_message
  end.

(* kernel_sdk/mock/src/lib.rs:203-212 add_external *)
Definition add_external (h : MockHost) (payload : list Z) : option MockHost := add_inbox_message h (External payload).

(* kernel_sdk/mock/src/lib.rs:109-113 TransferMetadata *)
Record TransferMetadata : Set := { tm_sender : list Z; tm_source : list Z; tm_destination : option (list Z) }.

(* kernel_sdk/mock/src/lib.rs:178-200 add_transfer *)
Definition add_transfer (h : MockHost) (payload : Expr) (metadata : TransferMetadata) : option MockHost :=
  let destination := default h.(mock_state).(hs_metadata).(raw_rollup_address) metadata.(tm_destination) in
  let transfer := Build_Transfer payload metadata.(tm_sender) metadata.(tm_source) destination in
  add_inbox_message h (Internal (TransferMessage transfer)).

(* kernel_sdk/mock/src/lib.rs:298-317 bump_level *)
Definition bump_level (h : MockHost) : option MockHost :=
  let s := h.(mock_state) in
  let level := wrapping_add 32 s.(curr_level) 1 in
  let s := {| hs_store := s.(hs_store); hs_metadata := s.(hs_metadata); hs_dal_parameters := s.(hs_dal_parameters);
    curr_level := level; curr_input_id := 0; hs_input := [] |} in
  let curr_info := info_for_level (as_i32 level) in
  match add_inbox_message (with_state h s) (Internal StartOfLevel) with
  | None => None
  | Some h =>
      match add_inbox_message h (Internal (InfoPerLevelMessage curr_info)) with
      | None => None
      | Some h => Some {| mock_state := h.(mock_state); mock_info := curr_info; keep_going := h.(keep_going) |}
      end
  end.

(* kernel_sdk/mock/src/lib.rs:319-325 finalise_inputs *)
Definition finalise_inputs (h : MockHost) : option MockHost := add_inbox_message h (Internal EndOfLevel).

(** The state of a new host, with the address and the default parameters. *)
(* kernel_sdk/mock/src/state/mod.rs:44-83 default_with_metadata *)
Definition HostState_default (raw_rollup_address : list Z) : HostState :=
  {| hs_store := {| durable := Node_default; preimages := ∅; dal_slots := ∅; store_outbox := ∅ |};
     hs_metadata := {| raw_rollup_address := raw_rollup_address; origination_level := NAIROBI_ACTIVATION_LEVEL |};
     hs_dal_parameters := {| number_of_slots := 16; attestation_lag := 8; slot_size := 126944; page_size := 3967 |};
     curr_level := NAIROBI_ACTIVATION_LEVEL; curr_input_id := 0; hs_input := [] |}.

(* kernel_sdk/mock/src/lib.rs:229-230 run_level *)
Definition set_reboot_counter (h : MockHost) (reboots : nat) : MockHost :=
  with_mock_durable h (set_value (mock_durable h) REBOOT_COUNTER_KEY (u32_to_le_bytes (Z.of_nat reboots))).

(* kernel_sdk/mock/src/lib.rs:137-170 with_address *)
Definition with_address (raw_rollup_address : list Z) : option MockHost :=
  bump_level (set_reboot_counter
    {| mock_state := HostState_default raw_rollup_address; mock_info := info_for_level NAIROBI_ACTIVATION_LEVEL;
       keep_going := true |} MAXIMUM_REBOOTS_PER_INPUT).

Definition delete_key (h : MockHost) (key : list (list Z)) : MockHost :=
  with_mock_durable h (node_delete (mock_durable h) key).

(** The kernel may panic; the recursion is on the reboots that are left. *)
(* kernel_sdk/mock/src/lib.rs:228-257 run_level *)
Fixpoint run_loop (kernel_run : MockHost -> option MockHost) (reboots : nat) (h : MockHost) : option MockHost :=
  match reboots with
  | O => Some h
  | S rest =>
      match kernel_run (set_reboot_counter h reboots) with
      | None => None
      | Some h =>
          let h := delete_key h TOO_MANY_REBOOT_FLAG_KEY in
          match maybe_get_value (mock_durable h) REBOOT_FLAG_KEY with
          | None => Some h
          | Some _ =>
              let h := delete_key h REBOOT_FLAG_KEY in
              if (0 <? rest)%nat then run_loop kernel_run rest h
              else Some (with_mock_durable h (set_value (mock_durable h) TOO_MANY_REBOOT_FLAG_KEY []))
          end
      end
  end.

(* kernel_sdk/mock/src/lib.rs:223-263 run_level *)
Definition run_level (kernel_run : MockHost -> option MockHost) (h : MockHost) : option (Z * MockHost) :=
  match finalise_inputs h with
  | None => None
  | Some h =>
      match run_loop kernel_run MAXIMUM_REBOOTS_PER_INPUT h with
      | None => None
      | Some h =>
          let level_ran_at := h.(mock_state).(curr_level) in
          (fun h => (level_ran_at, h)) <$> bump_level h
      end
  end.

(** ** Running natively *)

(* kernel_sdk/mock/src/lib.rs:284-291 should_quit *)
Definition should_quit (h : MockHost) : bool :=
  if h.(keep_going) then true else (length h.(mock_state).(hs_input) <=? h.(mock_state).(curr_input_id))%nat.

(** The loop of a kernel for the native architecture, after the options were applied. *)
(* kernel_sdk/entrypoint/src/kernel_entrypoint/native.rs:12-15 kernel_entrypoint_fn *)
Fixpoint native_loop (fuel : nat) (user_kernel_fn : MockHost -> option MockHost) (h : MockHost) : outcome MockHost :=
  if should_quit h then Done h
  else
    match fuel with
    | O => OutOfFuel
    | S fuel =>
        match user_kernel_fn h with
        | None => Panicked
        | Some h => native_loop fuel user_kernel_fn h
        end
    end.
End levels.
