(* ===== verification/MockHostSpec.v ===== *)
(** The mock host keeps the laws of storage and outbox, gives input in order,
    reveals what was set through the formats of the runtime, and runs a kernel as
    often as it asks, up to a limit. *)
From S2P Require Import Prelude Path PathSpec DurableStore DurableStoreSpec Runtime RuntimeSpec.
From S2P Require Import Hash HashSpec Dac DacSpec Outbox OutboxSpec MockHost.
#[local] Open Scope Z_scope.

(** ** Formats *)

Lemma length_to_be_bytes n z : length (to_be_bytes n z) = n.
Proof. induction n; simpl; congruence. Qed.

Lemma fold_be l : forall acc, fold_left (fun acc b => acc * 256 + b) l acc = acc * 256 ^ Z.of_nat (length l) + from_be_bytes l.
Proof.
  unfold from_be_bytes. induction l as [|b l IH]; intros acc; cbn [fold_left length]; [simpl; lia|].
  rewrite IH, (IH (0 * 256 + b)), Nat2Z.inj_succ, Z.pow_succ_r by lia. lia.
Qed.

Lemma from_to_be_bytes n z : from_be_bytes (to_be_bytes n z) = z mod 256 ^ Z.of_nat n.
Proof.
  induction n as [|n IH]; [by rewrite Z.mod_1_r|]. cbn [to_be_bytes]. unfold from_be_bytes. cbn [fold_left].
  rewrite fold_be, length_to_be_bytes, IH, Nat2Z.inj_succ, Z.pow_succ_r by lia.
  pose proof (Z.pow_pos_nonneg 256 (Z.of_nat n) ltac:(lia) ltac:(lia)). rewrite (Z.mul_comm 256), Z.rem_mul_r by lia. lia.
Qed.

(** A signed integer of [n] bytes, written and read. *)
Lemma signed_be_bytes n z :
  (0 < n)%nat -> is_i (8 * Z.of_nat n) z -> swrap (8 * Z.of_nat n) (from_be_bytes (to_be_bytes n z)) = z.
Proof.
  intros P I. rewrite from_to_be_bytes. replace (256 ^ Z.of_nat n) with (2 ^ (8 * Z.of_nat n)) by (rewrite Z.pow_mul_r by lia; done).
  change (z mod 2 ^ (8 * Z.of_nat n)) with (wrap (8 * Z.of_nat n) z). rewrite swrap_wrap by lia. apply swrap_small; [lia|done].
Qed.

Lemma be_bytes_app n z l : take n (to_be_bytes n z ++ l) = to_be_bytes n z /\ drop n (to_be_bytes n z ++ l) = l.
Proof. by rewrite take_app_length', drop_app_length' by by rewrite length_to_be_bytes. Qed.

Lemma metadata_roundtrip m :
  (length m.(raw_rollup_address) = 20)%nat -> is_u 32 m.(origination_level) -> RollupMetadata_from (RollupMetadata_into m) = m.
Proof.
  destruct m as [a l]. cbn [raw_rollup_address origination_level]. intros L U. unfold RollupMetadata_from, RollupMetadata_into.
  cbn [raw_rollup_address origination_level]. rewrite take_app_length', drop_app_length' by done.
  rewrite (take_ge _ 4) by by rewrite length_to_be_bytes.
  rewrite (signed_be_bytes 4) by (lia || (apply swrap_range; lia)). by rewrite wrap_swrap, wrap_small by (done || lia).
Qed.

Definition dal_field_ok (z : Z) : Prop := 0 <= z < 2 ^ 63.

Lemma dal_u64_be z : is_u 64 z -> dal_u64 (to_be_bytes 8 (as_i64 z)) = if decide (z < 2 ^ 63) then Some z else None.
Proof.
  intros U. unfold dal_u64. rewrite (signed_be_bytes 8) by (lia || (apply swrap_range; lia)). destruct (decide _) as [L|L].
  - rewrite swrap_small by (lia || (unfold is_u, is_i in *; change (2 ^ (64 - 1)) with (2 ^ 63); lia)).
    by rewrite (proj2 (Z.leb_le _ _)) by apply U.
  - unfold swrap. rewrite (Z.mod_small z) by apply U. cbv zeta. change (2 ^ (64 - 1)) with (2 ^ 63).
    rewrite (proj2 (Z.ltb_ge _ _)) by lia. rewrite (proj2 (Z.leb_gt _ _)); [done|]. destruct U. lia.
Qed.

(** The parameters survive exactly when they fit [i64]. *)
Lemma dal_parameters_roundtrip p :
  is_u 64 p.(number_of_slots) -> is_u 64 p.(attestation_lag) -> is_u 64 p.(slot_size) -> is_u 64 p.(page_size) ->
  RollupDalParameters_try_from (RollupDalParameters_into p) =
  if decide (p.(number_of_slots) < 2 ^ 63 /\ p.(attestation_lag) < 2 ^ 63 /\ p.(slot_size) < 2 ^ 63 /\ p.(page_size) < 2 ^ 63)
  then Some p else None.
Proof.
  destruct p as [n lag slot page]. cbn [number_of_slots attestation_lag slot_size page_size]. intros U1 U2 U3 U4.
  unfold RollupDalParameters_try_from, RollupDalParameters_into. cbn [number_of_slots attestation_lag slot_size page_size].
  change (8 * 0)%nat with 0%nat. change (8 * 1)%nat with 8%nat. change (8 * 2)%nat with (8 + 8)%nat. change (8 * 3)%nat with (8 + (8 + 8))%nat.
  rewrite <- !drop_drop. change (drop 0 ?x) with x. rewrite !(proj1 (be_bytes_app 8 _ _)), !(proj2 (be_bytes_app 8 _ _)).
  rewrite !(proj1 (be_bytes_app 8 _ _)), (take_ge _ 8) by by rewrite length_to_be_bytes.
  rewrite !dal_u64_be by done. repeat (destruct (decide _); try tauto).
Qed.

(** ** Messages *)

(** Reading undoes writing, whatever follows; there is a tag at least. *)
Class InboxCodecLaws (Expr : Type) `{IC : InboxCodec Expr} : Prop := {
  repr_read_write m bytes rest : repr_bin_write m = Some bytes -> repr_nom_read (bytes ++ rest) = Some (rest, m);
  repr_tagged m bytes : repr_bin_write m = Some bytes -> bytes <> [];
}.

(** A message that was serialised is parsed again: an internal one leaves
    the bytes behind it, an external one takes them as part of its payload. *)
Theorem parse_serialize {Expr} `{ICL : InboxCodecLaws Expr} (m : InboxMessage Expr) bytes rest :
  InboxMessage_serialize m = Some bytes ->
  InboxMessage_parse (bytes ++ rest) =
  match m with
  | Internal i => Some (rest, Internal i)
  | External payload => Some ([], External (payload ++ rest))
  end.
Proof.
  unfold InboxMessage_serialize, InboxMessage_parse. destruct m as [i|payload].
  - intros E. by rewrite (repr_read_write _ _ _ E).
  - destruct (repr_bin_write ReprExternal) as [b|] eqn:E; intros [= <-]. rewrite <- (assoc_L (++)).
    by rewrite (repr_read_write _ _ _ E).
Qed.

Lemma serialize_nonempty {Expr} `{ICL : InboxCodecLaws Expr} (m : InboxMessage Expr) bytes :
  InboxMessage_serialize m = Some bytes -> bytes <> [].
Proof.
  unfold InboxMessage_serialize. destruct m as [i|payload]; [apply repr_tagged|].
  destruct (repr_bin_write ReprExternal) as [b|] eqn:E; intros [= <-]. apply repr_tagged in E. by destruct b.
Qed.

(** ** Storage and outbox *)

Lemma mock_durable_with h n : mock_durable (with_mock_durable h n) = n.
Proof. done. Qed.

(** A function of the tree, as a function of the host. *)
Ltac lift_law L :=
  let n := fresh "n" in let E := fresh "E" in
  destruct L as (n & E & ? & ?); rewrite E; eexists; split; [reflexivity|]; done.

#[export] Instance MockStorageLaws : StoreLaws MockHost.
Proof.
  refine {| store_wf h := node_wf (mock_durable h); val h := maybe_get_value (mock_durable h) |};
    cbn [core_store_has core_store_read core_store_write core_store_delete core_store_delete_value core_store_move
         core_store_copy core_store_value_size MockStorage]; intros.
  - by apply (@law_has Node _ InMemoryStoreLaws (mock_durable h)).
  - by apply (@law_read Node _ InMemoryStoreLaws (mock_durable h) l p).
  - pose proof (@law_write Node _ InMemoryStoreLaws (mock_durable h) l p offset bytes) as L. cbv zeta in *. destruct (_ <? _).
    + rewrite L by done. destruct h as [[[] ? ? ? ? ?] ? ?]. done.
    + lift_law (L ltac:(done) ltac:(done) ltac:(done) ltac:(done)).
  - lift_law (@law_delete Node _ InMemoryStoreLaws (mock_durable h) l p ltac:(done) ltac:(done)).
  - lift_law (@law_delete_value Node _ InMemoryStoreLaws (mock_durable h) l p ltac:(done) ltac:(done)).
  - destruct (@law_copy Node _ InMemoryStoreLaws (mock_durable h) l p k q) as [L|[E N]]; try done.
    + left. lift_law L.
    + right. rewrite E. split; [|done]. destruct h as [[[] ? ? ? ? ?] ? ?]. done.
  - destruct (@law_move Node _ InMemoryStoreLaws (mock_durable h) l p k q) as [L|[E N]]; try done.
    + left. lift_law L.
    + right. rewrite E. split; [|done]. destruct h as [[[] ? ? ? ? ?] ? ?]. done.
  - by apply (@law_value_size Node _ InMemoryStoreLaws (mock_durable h)).
Defined.

Lemma outbox_at_insert s level m : outbox_at (outbox_insert s level m) level = outbox_at s level ++ [m].
Proof. unfold outbox_at, outbox_insert. cbn [store_outbox]. destruct (store_outbox s !! level); by rewrite lookup_insert_eq. Qed.

(** The outbox of the current level. *)
#[export] Instance MockOutputLaws : OutputLaws MockHost.
Proof.
  refine {| outbox h := outbox_at h.(mock_state).(hs_store) h.(mock_state).(curr_level) |};
    cbn [core_write_output core_store_write core_store_delete core_store_delete_value MockOutput MockStorage]; intros.
  - unfold handle_write_output. destruct (_ <? _); [right; by exists (-7)|]. destruct (_ <? _)%nat; [left|right; by exists (-11)].
    eexists. split; [reflexivity|]. split_and!; [done| |done]. apply outbox_at_insert.
  - by case (core_store_write (mock_durable h) p offset bytes).
  - by case (core_store_delete (mock_durable h) p).
  - by case (core_store_delete_value (mock_durable h) p).
Defined.

(** ** Input *)

(** Reading [n] times. *)
Fixpoint read_inputs (n : nat) (h : MockHost) : list (result (option Message) RuntimeError) * MockHost :=
  match n with
  | O => ([], h)
  | S n => let '(r, h) := read_input h in let '(rs, h) := read_inputs n h in (r :: rs, h)
  end.

(** What the messages from number [id] on are read as. *)
Definition messages_from (level : Z) (id : nat) (msgs : list (list Z)) : list (result (option Message) RuntimeError) :=
  imap (fun i m => Ok (Some {| msg_level := level; msg_id := Z.of_nat (id + i); msg_payload := m |})) msgs.

Definition input_ok (m : list Z) : Prop := m <> [] /\ Z.of_nat (length m) <= MAX_INPUT_BYTES.

Lemma read_input_cases h m :
  h.(mock_state).(hs_input) !! h.(mock_state).(curr_input_id) = Some m -> input_ok m ->
  is_u 32 h.(mock_state).(curr_level) -> Z.of_nat h.(mock_state).(curr_input_id) < 2 ^ 32 ->
  (read_input h).1 = Ok (Some {| msg_level := h.(mock_state).(curr_level);
    msg_id := Z.of_nat h.(mock_state).(curr_input_id); msg_payload := m |}).
Proof.
  intros E [N L] U I. unfold read_input. cbn [core_read_input MockInput]. unfold handle_read_input. rewrite E.
  cbn [ni_payload ni_level ni_id]. rewrite (Z.min_r MAX_INPUT_BYTES) by lia.
  rewrite Nat2Z.id, firstn_all, wrap_err_ok by lia.
  rewrite (proj2 (Z.eqb_neq _ _)) by (destruct m; simpl in *; done || lia). cbn [fst].
  rewrite Nat2Z.id, firstn_all, !wrap_swrap, (wrap_wrap_le 32 32), (wrap_small 32 (curr_level _)), wrap_small by (done || lia || (unfold is_u; lia)).
  done.
Qed.

Lemma read_input_state h : (read_input h).2 = with_state h (handle_read_input h.(mock_state) MAX_INPUT_BYTES).2.
Proof.
  unfold read_input. cbn [core_read_input MockInput]. destruct (handle_read_input _ _) as [[i|] s]; [|done].
  destruct (wrap_err _); [|done]. by destruct (_ =? 0).
Qed.

Lemma read_input_end h :
  h.(mock_state).(hs_input) !! h.(mock_state).(curr_input_id) = None -> (read_input h).1 = Ok None.
Proof. intros E. unfold read_input. cbn [core_read_input MockInput]. unfold handle_read_input. by rewrite E. Qed.

(** Reading what is in the inbox. *)
Lemma read_inputs_ok h extra :
  Forall input_ok h.(mock_state).(hs_input) -> is_u 32 h.(mock_state).(curr_level) ->
  Z.of_nat (length h.(mock_state).(hs_input)) < 2 ^ 32 ->
  let id := h.(mock_state).(curr_input_id) in
  let rest := drop id h.(mock_state).(hs_input) in
  (read_inputs (length rest + extra) h).1 =
  messages_from h.(mock_state).(curr_level) id rest ++ replicate extra (Ok None).
Proof.
  cbv zeta. intros F U B. remember (drop (curr_input_id (mock_state h)) (hs_input (mock_state h))) as rest eqn:E.
  revert h F U B E. induction rest as [|m rest IH]; intros h F U B E.
  - cbn [messages_from imap length Nat.add app]. revert h F U B E. induction extra as [|extra IHe]; intros h F U B E; [done|].
    cbn [read_inputs replicate]. pose proof (read_input_end h) as R. pose proof (read_input_state h) as S.
    assert (Lk : hs_input (mock_state h) !! curr_input_id (mock_state h) = None).
    { rewrite <- (Nat.add_0_r (curr_input_id _)), <- lookup_drop, <- E. done. }
    specialize (R Lk). destruct (read_input h) as [r h1]. cbn [fst snd] in R, S. subst r h1.
    specialize (IHe (with_state h (handle_read_input (mock_state h) MAX_INPUT_BYTES).2) F U B).
    destruct (read_inputs extra _) as [rs h2]. cbn [fst] in *. rewrite IHe; [done|].
    cbn [mock_state with_state handle_read_input snd curr_input_id hs_input].
    by rewrite <- (Nat.add_1_r (curr_input_id _)), <- drop_drop, <- E.
  - assert (Lk : hs_input (mock_state h) !! curr_input_id (mock_state h) = Some m).
    { rewrite <- (Nat.add_0_r (curr_input_id _)), <- lookup_drop, <- E. done. }
    cbn [length Nat.add read_inputs]. pose proof (lookup_lt_Some _ _ _ Lk) as Li.
    pose proof (read_input_cases h m Lk) as R. pose proof (read_input_state h) as S.
    specialize (R ltac:(by eapply Forall_lookup_1) U ltac:(lia)).
    destruct (read_input h) as [r h1]. cbn [fst snd] in R, S. subst r h1.
    specialize (IH (with_state h (handle_read_input (mock_state h) MAX_INPUT_BYTES).2) F U B).
    destruct (read_inputs _ _) as [rs h2]. cbn [fst] in *. rewrite IH.
    + unfold messages_from. cbn [imap app]. rewrite Nat.add_0_r. f_equal. f_equal. apply imap_ext. intros i x _. cbn. do 4 f_equal. lia.
    + cbn [mock_state with_state handle_read_input snd curr_input_id hs_input].
      by rewrite <- (Nat.add_1_r (curr_input_id _)), <- drop_drop, <- E.
Qed.

Section added.
Context {Expr : Type} `{ICL : InboxCodecLaws Expr}.

(** Adding messages one after the other. *)
Fixpoint add_messages (h : MockHost) (msgs : list (InboxMessage Expr)) : option MockHost :=
  match msgs with
  | [] => Some h
  | m :: msgs => match add_inbox_message h m with Some h => add_messages h msgs | None => None end
  end.

Lemma add_messages_ok msgs : forall h h', add_messages h msgs = Some h' ->
  exists payloads, Forall2 (fun m p => InboxMessage_serialize m = Some p) msgs payloads /\ Forall input_ok payloads /\
    h'.(mock_state).(hs_input) = h.(mock_state).(hs_input) ++ payloads /\
    h'.(mock_state).(curr_input_id) = h.(mock_state).(curr_input_id) /\
    h'.(mock_state).(curr_level) = h.(mock_state).(curr_level).
Proof.
  induction msgs as [|m msgs IH]; intros h h'; cbn [add_messages].
  - intros [= <-]. exists []. by rewrite app_nil_r.
  - unfold add_inbox_message at 1. destruct (InboxMessage_serialize m) as [p|] eqn:E; [|done].
    unfold add_input. destruct (Z.ltb_spec MAX_INPUT_BYTES (Z.of_nat (length p))) as [|L]; [done|].
    cbn [fmap option_fmap option_map]. intros A. destruct (IH _ _ A) as (ps & F & Ok' & I & Id & Lv).
    exists (p :: ps). cbn [mock_state with_state hs_input curr_input_id curr_level] in *. rewrite I, <- (assoc_L (++)).
    split_and!; try done; constructor; try done. split; [by eapply serialize_nonempty|done].
Qed.

(** C32. Messages are read in the order in which they were added: when messages
    are added to the inbox of a level that was not read beyond its end, the
    reads that follow give the messages that were pending, then the added ones
    in the order of the calls, serialised so that each parses back to the
    message that was added (by the laws of the encoding), all once, with
    consecutive numbers and the level, and then none.  Pending messages are not
    empty and of a legal size, the level is a 32-bit number, and there are less
    than 2^32 messages.  A read at the end counts too, so that a message added
    after it would be skipped; this case is excluded. *)
Theorem inputs_in_order h msgs h' extra :
  let id := h.(mock_state).(curr_input_id) in
  let pending := drop id h.(mock_state).(hs_input) in
  (id <= length h.(mock_state).(hs_input))%nat -> Forall input_ok h.(mock_state).(hs_input) ->
  is_u 32 h.(mock_state).(curr_level) -> Z.of_nat (length h.(mock_state).(hs_input) + length msgs) < 2 ^ 32 ->
  add_messages h msgs = Some h' ->
  exists payloads, Forall2 (fun m p => InboxMessage_serialize m = Some p /\ InboxMessage_parse p = Some ([], m)) msgs payloads /\
    (read_inputs (length pending + length msgs + extra) h').1 =
    messages_from h.(mock_state).(curr_level) id (pending ++ payloads) ++ replicate extra (Ok None).
Proof.
  intros id pending Le Fo U Bd A. destruct (add_messages_ok msgs h h' A) as (ps & F & Fp & I & Id & Lv).
  exists ps. pose proof (Forall2_length _ _ _ F) as Lp. split.
  - eapply Forall2_impl; [exact F|]. intros m p E. split; [done|]. pose proof (parse_serialize m p [] E) as P.
    rewrite app_nil_r in P. rewrite P. destruct m; [done|by rewrite app_nil_r].
  - pose proof (read_inputs_ok h' extra) as R. cbv zeta in R. rewrite I, Id, Lv in R. fold id in R.
    rewrite drop_app_le in R by done. fold pending in R. rewrite !length_app, <- Lp in R. by apply R; [apply Forall_app|..].
Qed.
End added.

(** ** Reboots *)

Lemma path_steps_ok p : validate_path_internal p = Ok tt -> steps_ok (path_steps p).
Proof. intros (steps & P)%validate_path_internal_spec. rewrite (path_of_steps _ _ P). apply P. Qed.

Lemma core_read_mock (h : MockHost) : core_store_read h = core_store_read (mock_durable h).
Proof. done. Qed.

Lemma reboot_left_mock (h : MockHost) : reboot_left h = reboot_left (mock_durable h).
Proof. unfold reboot_left, store_read_slice. by rewrite core_read_mock. Qed.

Lemma value_set_path n p v : validate_path_internal p = Ok tt -> maybe_get_value (set_value n (path_steps p) v) (path_steps p) = Some v.
Proof. intros V. rewrite value_set_value by by apply path_steps_ok. by rewrite decide_True. Qed.

Lemma reboot_counter_valid : validate_path_internal PATH_REBOOT_COUNTER = Ok tt.
Proof. vm_compute. reflexivity. Qed.

(** The number of reboots that a kernel sees is the one that was set. *)
Lemma reboot_left_counter h n : Z.of_nat n < 2 ^ 32 -> reboot_left (set_reboot_counter h n) = Ok (Z.of_nat n).
Proof.
  intros B. rewrite reboot_left_mock. unfold set_reboot_counter, REBOOT_COUNTER_KEY. rewrite mock_durable_with.
  rewrite (reboot_left_value _ _ (value_set_path _ _ _ reboot_counter_valid)) by apply u32_bytes_length.
  f_equal. apply u32_le_roundtrip. unfold is_u. lia.
Qed.

Section reboots.
Context (kernel_run : MockHost -> option MockHost).

(** One run with [n] reboots left. *)
Definition one_run (n : nat) (h : MockHost) : option MockHost :=
  (fun h => delete_key h TOO_MANY_REBOOT_FLAG_KEY) <$> kernel_run (set_reboot_counter h n).

Definition asks_reboot (h : MockHost) : bool := has_val (maybe_get_value (mock_durable h) REBOOT_FLAG_KEY).

(** [k] runs from [n] reboots on, after each of which a reboot was asked for. *)
Fixpoint reboots (k n : nat) (h : MockHost) : option MockHost :=
  match k with
  | O => Some h
  | S k =>
      match one_run n h with
      | Some h => if asks_reboot h then reboots k (pred n) (delete_key h REBOOT_FLAG_KEY) else None
      | None => None
      end
  end.

(** Where the runs end: after one that asks for no reboot, or at the limit. *)
Definition runs_end (n : nat) (h h' : MockHost) : Prop :=
  (exists k h1, (k < n)%nat /\ reboots k n h = Some h1 /\ one_run (n - k) h1 = Some h' /\ asks_reboot h' = false) \/
  (exists h1, reboots n n h = Some h1 /\ h' = with_mock_durable h1 (set_value (mock_durable h1) TOO_MANY_REBOOT_FLAG_KEY [])).

Lemma run_loop_spec n : forall h h', (0 < n)%nat -> run_loop kernel_run n h = Some h' <-> runs_end n h h'.
Proof.
  induction n as [|n IH]; intros h h' P; [lia|]. cbn [run_loop].
  assert (E : kernel_run (set_reboot_counter h (S n)) = None /\ one_run (S n) h = None \/
    exists h1, kernel_run (set_reboot_counter h (S n)) = Some h1 /\ one_run (S n) h = Some (delete_key h1 TOO_MANY_REBOOT_FLAG_KEY)).
  { unfold one_run. destruct (kernel_run _) as [h1|]; [right; by exists h1|by left]. }
  destruct E as [[-> E]|(h1 & -> & E)].
  { split; [done|]. intros [(k & h1 & L & R & O & _)|(h1 & R & _)]; [|by cbn [reboots] in R; rewrite E in R].
    destruct k as [|k]; cbn [reboots] in R; [injection R as ->; by rewrite Nat.sub_0_r, E in O|by rewrite E in R]. }
  cbv zeta. set (h2 := delete_key h1 _) in *. unfold runs_end. assert (A : asks_reboot h2 = has_val (maybe_get_value (mock_durable h2) REBOOT_FLAG_KEY)) by done.
  destruct (maybe_get_value (mock_durable h2) REBOOT_FLAG_KEY) as [v|]; cbn [has_val] in A.
  - assert (Rs : forall k, reboots (S k) (S n) h = reboots k n (delete_key h2 REBOOT_FLAG_KEY)) by (intros k; cbn [reboots]; by rewrite E, A).
    destruct n as [|n].
    + cbn [Nat.ltb Nat.leb]. split.
      * intros [= <-]. right. eexists. by rewrite Rs.
      * intros [(k & h3 & L & R & O & N)|(h3 & R & ->)].
        { assert (k = 0%nat) as -> by lia. injection R as ->. rewrite Nat.sub_0_r, E in O. injection O as <-. congruence. }
        rewrite Rs in R. by injection R as <-.
    + cbn [Nat.ltb Nat.leb]. rewrite (IH _ _ ltac:(lia)). unfold runs_end. split.
      * intros [(k & h3 & L & R & O & N)|(h3 & R & ->)]; [left; exists (S k), h3; rewrite Rs; split_and!; [lia|done..]|right; exists h3; by rewrite Rs].
      * intros [(k & h3 & L & R & O & N)|(h3 & R & ->)]; [|right; exists h3; by rewrite Rs in R].
        destruct k as [|k]; [injection R as ->; rewrite Nat.sub_0_r, E in O; injection O as <-; congruence|].
        left. exists k, h3. rewrite Rs in R. split_and!; [lia|done..].
  - split.
    + intros [= <-]. left. exists 0%nat, h. rewrite Nat.sub_0_r. split_and!; [lia|done..].
    + intros [(k & h3 & L & R & O & N)|(h3 & R & ->)]; [|by cbn [reboots] in R; rewrite E, A in R].
      destruct k as [|k]; [injection R as ->; rewrite Nat.sub_0_r, E in O; congruence|by cbn [reboots] in R; rewrite E, A in R].
Qed.
End reboots.

Section levels.
Context `{B2 : Blake2b} {Expr : Type} `{IC : InboxCodec Expr}.

(** C31. Running a kernel at a level: after the end of the level is added, which
    is assumed to succeed, the kernel runs again as long as it leaves the reboot flag behind, for at most
    1000 runs, that is 999 reboots; before each run the counter is set to the
    number of runs left, the one that starts included; if the last of them still
    asks for a reboot, the flag that says so is set for the next level.  Then
    the level is the next one.  The result is the level at which the kernel ran.
    (The README speaks of up to 1000 reboots per level, and the runtime of the
    number of reboots that remain: both are one more than what the mock host
    grants.) *)
Theorem run_level_spec kernel_run (h h0 h' : MockHost) level :
  finalise_inputs h = Some h0 ->
  (run_level kernel_run h = Some (level, h') <->
   exists h1, runs_end kernel_run MAXIMUM_REBOOTS_PER_INPUT h0 h1 /\
     level = h1.(mock_state).(curr_level) /\ bump_level h1 = Some h') /\
  (forall n h1, (n <= MAXIMUM_REBOOTS_PER_INPUT)%nat -> reboot_left (set_reboot_counter h1 n) = Ok (Z.of_nat n)).
Proof.
  intros F. assert (M : Z.of_nat MAXIMUM_REBOOTS_PER_INPUT = 1000) by done.
  split; [|intros n h1 L; apply reboot_left_counter; lia].
  unfold run_level. rewrite F. pose proof (run_loop_spec kernel_run MAXIMUM_REBOOTS_PER_INPUT h0) as R. split.
  - destruct (run_loop _ _ h0) as [h1|] eqn:E; [|done]. destruct (bump_level h1) eqn:B; [|done]. intros [= <- <-].
    exists h1. split; [|done]. apply R; [lia|done].
  - intros (h1 & E & -> & B). apply R in E; [|lia]. by rewrite E, B.
Qed.

(** A kernel that is run natively with [--keep-going] is never run: the
    loop asks [should_quit], which answers that it should exactly when it was
    told to keep going.  Without the option the loop ends when the inbox has
    been drained. *)
Theorem native_keep_going user_kernel_fn h fuel :
  (h.(keep_going) = true -> native_loop fuel user_kernel_fn h = Done h) /\
  (forall h', h.(keep_going) = false -> native_loop fuel user_kernel_fn h = Done h' ->
     h'.(keep_going) = false -> (length h'.(mock_state).(hs_input) <= h'.(mock_state).(curr_input_id))%nat).
Proof.
  split.
  - intros K. destruct fuel; cbn [native_loop]; unfold should_quit; by rewrite K.
  - intros h' _. revert h. induction fuel as [|fuel IH]; intros h; cbn [native_loop]; destruct (should_quit h) eqn:S.
    1, 3: intros [= <-] K; unfold should_quit in S; rewrite K in S; by apply Nat.leb_le.
    + done.
    + destruct (user_kernel_fn h) as [h1|]; [apply IH|done].
Qed.
End levels.

(** ** Reveals *)

Lemma filled_exact n bytes : length bytes = n -> filled n bytes = bytes.
Proof. intros <-. unfold filled. by rewrite take_app_length. Qed.

Lemma copied_all bytes n : Z.of_nat (length bytes) = n -> copied bytes n = (n, bytes).
Proof. intros <-. unfold copied. by rewrite Z.min_id, Nat2Z.id, firstn_all. Qed.

Lemma length_dal_parameters p : length (RollupDalParameters_into p) = DAL_PARAMETERS_SIZE.
Proof. unfold RollupDalParameters_into. by rewrite !length_app, !length_to_be_bytes. Qed.

(** The request for a page is decoded to its arguments. *)
Lemma dal_page_request h published_level slot_index page_index n :
  is_i 32 published_level -> is_i 16 page_index ->
  core_reveal h ([2] ++ to_be_bytes 4 published_level ++ [slot_index] ++ to_be_bytes 2 page_index) n =
  mock_reveal_dal_page h published_level slot_index page_index n.
Proof.
  intros L P. cbn [core_reveal MockReveal app mock_reveal]. set (r := to_be_bytes 4 published_level ++ _).
  assert (Lr : length r = 7%nat) by (unfold r; rewrite length_app; cbn [length]; by rewrite !length_to_be_bytes).
  rewrite (proj2 (Nat.ltb_ge _ _)) by lia. unfold r. rewrite (proj1 (be_bytes_app 4 _ _)).
  rewrite (signed_be_bytes 4) by (lia || done). rewrite lookup_app_r by by rewrite length_to_be_bytes.
  rewrite length_to_be_bytes, Nat.sub_diag. cbn [lookup list_lookup default].
  change 5%nat with (4 + 1)%nat. rewrite <- drop_drop, (proj2 (be_bytes_app 4 _ _)). change (drop 1 (slot_index :: ?x)) with x.
  rewrite (take_ge _ 2) by by rewrite length_to_be_bytes. rewrite (signed_be_bytes 2) by (lia || done). done.
Qed.

Section reveals.
Context `{B2 : Blake2b}.

(** What is set on the host is what the runtime reveals, through the
    encodings of requests and answers: the metadata, the DAL parameters, a
    preimage under the hash it was given, and each page of a DAL slot, padded
    with zeros, once the slot is old enough to be attested. *)
Theorem reveals_what_was_set h :
  ((length h.(mock_state).(hs_metadata).(raw_rollup_address) = 20)%nat ->
   is_u 32 h.(mock_state).(hs_metadata).(origination_level) -> reveal_metadata h = h.(mock_state).(hs_metadata)) /\
  (let p := h.(mock_state).(hs_dal_parameters) in
   dal_field_ok p.(number_of_slots) -> dal_field_ok p.(attestation_lag) -> dal_field_ok p.(slot_size) ->
   dal_field_ok p.(page_size) -> reveal_dal_parameters h = Some p) /\
  (forall preimage hash h', set_preimage h preimage = Some (hash, h') -> (length hash = PREIMAGE_HASH_SIZE)%nat ->
     forall n, Z.of_nat (length preimage) <= n -> core_reveal h' (0 :: hash) n = Some (Z.of_nat (length preimage), preimage)) /\
  (forall level slot page data h', set_dal_slot h level slot data = Some h' ->
     let p := h.(mock_state).(hs_dal_parameters) in
     is_i 32 level -> 0 <= level -> level + p.(attestation_lag) <= h.(mock_state).(curr_level) < 2 ^ 32 ->
     0 <= p.(attestation_lag) -> 0 <= page < 2 ^ 15 -> 0 < p.(page_size) < 2 ^ 31 -> 0 <= p.(slot_size) < 2 ^ 63 ->
     (page + 1) * p.(page_size) <= p.(slot_size) ->
     reveal_dal_page h' level slot page p.(page_size) =
     Some (Ok (p.(page_size), take (Z.to_nat p.(page_size)) (drop (Z.to_nat (page * p.(page_size)))
       (data ++ replicate (Z.to_nat p.(slot_size) - length data) 0))))).
Proof.
  split_and!.
  - intros L U. unfold reveal_metadata. cbn [core_reveal_metadata MockReveal]. unfold mock_reveal_metadata.
    assert (Lm : length (RollupMetadata_into (hs_metadata (mock_state h))) = METADATA_SIZE).
    { unfold RollupMetadata_into. by rewrite length_app, length_to_be_bytes, L. }
    rewrite copied_all, filled_exact by by rewrite Lm. by apply metadata_roundtrip.
  - cbv zeta. intros F1 F2 F3 F4. unfold reveal_dal_parameters. cbn [core_reveal MockReveal mock_reveal].
    unfold mock_reveal_dal_parameters. rewrite copied_all, filled_exact by by rewrite length_dal_parameters.
    unfold dal_field_ok in *. rewrite dal_parameters_roundtrip by (unfold is_u; lia). by rewrite decide_True by tauto.
  - intros preimage hash h' E Lh n N. unfold set_preimage in E. destruct (make_preimage_hash preimage); [|done].
    injection E as -> <-. cbn [core_reveal MockReveal mock_reveal]. unfold mock_reveal_preimage.
    rewrite Lh, Nat.eqb_refl. unfold handle_reveal_preimage. cbn [mock_state with_state hs_store with_store preimages].
    rewrite lookup_insert_eq. cbn [fmap option_fmap option_map]. destruct (Z.ltb_spec (Z.of_nat (length preimage)) n); [done|].
    by rewrite take_ge by lia.
  - intros level slot page data h' E. cbv zeta. set (p := hs_dal_parameters (mock_state h)).
    intros Il Pl La Pa Pg Ps Sl Fit. unfold set_dal_slot in E. fold p in E.
    destruct (Z.ltb_spec (slot_size p) (Z.of_nat (length data))) as [D|D]; [done|]. injection E as <-.
    unfold reveal_dal_page. rewrite dal_page_request by (done || (unfold is_i; change (2 ^ (16 - 1)) with (2 ^ 15); lia)).
    unfold mock_reveal_dal_page. cbn [mock_state with_state with_store hs_dal_parameters hs_store dal_slots curr_level]. fold p.
    rewrite lookup_insert_eq. assert (A63 : 2 ^ 63 = 9223372036854775808) by done.
    assert (Sm : forall z, 0 <= z < 2 ^ 63 -> wrap 64 z = z) by (intros z Z; apply wrap_small; unfold is_u; change (2 ^ 64) with 18446744073709551616; lia).
    change (2 ^ 32) with 4294967296 in *. change (2 ^ 31) with 2147483648 in *. change (2 ^ 15) with 32768 in *.
    unfold wrapping_add. rewrite !(Sm level), (Sm page), Z.min_id by lia. rewrite (Sm (level + _)) by lia.
    rewrite (proj2 (Z.ltb_ge _ _)) by lia. rewrite (Sm (page * _)) by nia. rewrite (Sm (page * _ + _)) by nia.
    rewrite (proj2 (Z.leb_le _ _)) by nia. rewrite length_app, length_replicate.
    rewrite (proj2 (Z.leb_le _ _)) by nia. cbn [andb]. rewrite swrap_small by (lia || (unfold is_i; change (2 ^ (32 - 1)) with 2147483648; lia)).
    by rewrite wrap_err_ok by lia.
Qed.
End reveals.

(** ** Examples *)

(** Messages without transfers, by their tags. *)
#[export] Instance toy_inbox : InboxCodec Empty_set := {|
  repr_bin_write m :=
    match m with
    | ReprExternal => Some [1]
    | ReprInternal StartOfLevel => Some [0; 1]
    | ReprInternal EndOfLevel => Some [0; 2]
    | ReprInternal (InfoPerLevelMessage i) => Some (0 :: 3 :: i.(predecessor_timestamp) :: Z.of_nat (length i.(predecessor)) :: i.(predecessor))
    | ReprInternal (TransferMessage _) => None
    end;
  repr_nom_read bytes :=
    match bytes with
    | 1 :: rest => Some (rest, ReprExternal)
    | 0 :: 1 :: rest => Some (rest, ReprInternal StartOfLevel)
    | 0 :: 2 :: rest => Some (rest, ReprInternal EndOfLevel)
    | 0 :: 3 :: t :: n :: rest =>
        Some (drop (Z.to_nat n) rest,
          ReprInternal (InfoPerLevelMessage {| predecessor_timestamp := t; predecessor := take (Z.to_nat n) rest |}))
    | _ => None
    end;
|}.
#[export] Instance toy_inbox_laws : InboxCodecLaws Empty_set.
Proof.
  split; [|by intros [[tr| | |[t p]]|] bytes [= <-]].
  intros [[tr| | |[t p]]|] bytes rest E; [done|by injection E as <-..| |by injection E as <-]. injection E as <-.
  cbn [repr_nom_read toy_inbox app]. by rewrite Nat2Z.id, take_app_length, drop_app_length.
Qed.

Definition toy_host : MockHost :=
  {| mock_state := HostState_default (replicate 20 1); mock_info := {| predecessor_timestamp := 0; predecessor := [] |};
     keep_going := false |}.

Lemma parse_serialize_witness :
  InboxMessage_parse (Expr := Empty_set) [1; 5; 6] = Some ([], External [5; 6]).
Proof. exact (parse_serialize (Expr := Empty_set) (External [5]) [1; 5] [6] eq_refl). Defined.

(** That host with the given messages. *)
Definition toy_with (input : list (list Z)) : MockHost :=
  with_state toy_host {| hs_store := toy_host.(mock_state).(hs_store); hs_metadata := toy_host.(mock_state).(hs_metadata);
    hs_dal_parameters := toy_host.(mock_state).(hs_dal_parameters); curr_level := NAIROBI_ACTIVATION_LEVEL;
    curr_input_id := 0; hs_input := input |}.

Lemma inputs_in_order_witness :
  exists h, add_messages (Expr := Empty_set) (toy_with [[0; 1]]) [External [5; 6]; External [7]; Internal EndOfLevel] = Some h /\
  (read_inputs 5 h).1 =
    [Ok (Some {| msg_level := NAIROBI_ACTIVATION_LEVEL; msg_id := 0; msg_payload := [0; 1] |});
     Ok (Some {| msg_level := NAIROBI_ACTIVATION_LEVEL; msg_id := 1; msg_payload := [1; 5; 6] |});
     Ok (Some {| msg_level := NAIROBI_ACTIVATION_LEVEL; msg_id := 2; msg_payload := [1; 7] |});
     Ok (Some {| msg_level := NAIROBI_ACTIVATION_LEVEL; msg_id := 3; msg_payload := [0; 2] |}); Ok None].
Proof.
  destruct (add_messages (Expr := Empty_set) (toy_with [[0; 1]]) [External [5; 6]; External [7]; Internal EndOfLevel])
    as [h|] eqn:E; [|discriminate E].
  exists h. split; [reflexivity|].
  destruct (inputs_in_order (Expr := Empty_set) (toy_with [[0; 1]]) [External [5; 6]; External [7]; Internal EndOfLevel] h 1)
    as (ps & F & R).
  - vm_compute. lia.
  - repeat constructor; done.
  - vm_compute. split; congruence.
  - vm_compute. reflexivity.
  - exact E.
  - apply Forall2_cons_inv_l in F as (p1 & ps1 & [E1 _] & F & ->). apply Forall2_cons_inv_l in F as (p2 & ps2 & [E2 _] & F & ->).
    apply Forall2_cons_inv_l in F as (p3 & ps3 & [E3 _] & ->%Forall2_nil_inv_l & ->).
    apply Some_inj in E1 as <-, E2 as <-, E3 as <-. exact R.
Defined.

(** A kernel that never asks for a reboot. *)
Lemma run_level_spec_witness :
  exists h', run_level (Expr := Empty_set) Some toy_host = Some (NAIROBI_ACTIVATION_LEVEL, h').
Proof.
  set (h1 := delete_key (set_reboot_counter (toy_with [[0; 2]]) MAXIMUM_REBOOTS_PER_INPUT) TOO_MANY_REBOOT_FLAG_KEY).
  destruct (bump_level (Expr := Empty_set) h1) as [h'|] eqn:E; [|by vm_compute in E]. exists h'.
  assert (F : finalise_inputs (Expr := Empty_set) toy_host = Some (toy_with [[0; 2]])) by reflexivity.
  apply (proj1 (run_level_spec Some toy_host (toy_with [[0; 2]]) h' NAIROBI_ACTIVATION_LEVEL F)).
  exists h1. split; [|split; [reflexivity|exact E]].
  left. exists 0%nat, (toy_with [[0; 2]]). split; [vm_compute; lia|]. split; [reflexivity|]. split; [reflexivity|]. vm_compute. reflexivity.
Defined.

Lemma native_keep_going_witness :
  native_loop 0 (fun _ => None) {| mock_state := toy_host.(mock_state); mock_info := toy_host.(mock_info); keep_going := true |} =
  Done {| mock_state := toy_host.(mock_state); mock_info := toy_host.(mock_info); keep_going := true |}.
Proof. apply (native_keep_going (fun _ => None) _ 0). reflexivity. Defined.

(** Two messages are queued, and flushed. *)
Lemma outbox_queue_refines_witness :
  exists h h', queue_message OUTBOX_QUEUE [7] toy_host = Done (Ok 1, h) /\
    flush_queue 5 (Z.to_nat MAX_OUTPUT_SIZE) OUTBOX_QUEUE h = Done (1, h') /\
    exists sent rest, [[7]] = sent ++ rest /\ outbox h' = sent.
Proof.
  destruct (queue_message OUTBOX_QUEUE [7] toy_host) as [[[n|] h]| |] eqn:E1; try (by vm_compute in E1).
  destruct (flush_queue 5 (Z.to_nat MAX_OUTPUT_SIZE) OUTBOX_QUEUE h) as [[k h']| |] eqn:E2;
    [|exfalso; vm_compute in E1; injection E1 as <- <-; by vm_compute in E2..].
  exists h, h'. assert (n = 1) as -> by (vm_compute in E1; by injection E1). split; [reflexivity|].
  assert (k = 1) as -> by (vm_compute in E1; injection E1 as <-; vm_compute in E2; by injection E2). split; [exact E2|].
  destruct (outbox_queue_refines OUTBOX_QUEUE (path_steps OUTBOX_QUEUE_ROOT) OUTBOX_QUEUE_ok toy_host [[7]] h')
    as (sent & rest & A & O & _).
  - exact Node_default_wf.
  - vm_compute. reflexivity.
  - change [[7]] with (([] ++ [[7]]) ++ []). eapply steps_more; [|eapply step_flush; [exact E2|lia]].
    eapply steps_more; [constructor|]. exact (step_queue _ _ _ _ (Ok 1) _ E1).
  - exists sent, rest. split; [exact A|exact O].
Defined.
