(* ===== verification/Installer.v ===== *)
(** The installer of kernels ([src/kernel_sdk/installer-config/src/binary],
    [src/kernel_sdk/installer-kernel/src]): configuration instructions, their
    binary format at the end of the installer's own code, and the loop that
    reads and evaluates them.

    The nom crate is an interface: its readers of numbers and of slices. *)
From S2P Require Import Prelude Path DurableStore Runtime Dac Outbox.
From stdpp Require Import strings.
#[local] Open Scope Z_scope.

(** ** Instructions *)

(** Owned and borrowed paths and bytes are their bytes. *)
(* kernel_sdk/installer-config/src/binary/instr.rs:47-51 ConfigInstruction *)
Inductive ConfigInstruction : Set :=
| InstrReveal (hash to : list Z)
| InstrMove (from to : list Z)
| InstrSet (value to : list Z).

(** ** Writing *)

(** [None] is an error. *)
(* kernel_sdk/installer-config/src/binary/bin.rs:18-28 put_le_size *)
Definition put_le_size (size : nat) : option (list Z) :=
  if Z.of_nat size <? 2 ^ 32 then Some (u32_to_le_bytes (Z.of_nat size)) else None.

(* kernel_sdk/installer-config/src/binary/bin.rs:31-38 path_dynamic *)
Definition path_dynamic (p : list Z) : list Z := wrap 8 (Z.of_nat (length p)) :: p.

(* kernel_sdk/installer-config/src/binary/bin.rs:40-44 bytes_dynamic *)
Definition bytes_dynamic (b : list Z) : option (list Z) := (fun size => size ++ b) <$> put_le_size (length b).

(** The instruction after its tag. *)
(* kernel_sdk/installer-config/src/binary/bin.rs:52-84 bin_write *)
Definition instr_fields (i : ConfigInstruction) : option (list Z) :=
  match i with
  | InstrReveal hash to => (fun bytes => bytes ++ path_dynamic to) <$> bytes_dynamic hash
  | InstrMove from to => Some (path_dynamic from ++ path_dynamic to)
  | InstrSet value to => (fun bytes => bytes ++ path_dynamic to) <$> bytes_dynamic value
  end.

(* kernel_sdk/installer-config/src/binary/bin.rs:86-109 bin_write *)
Definition ConfigInstruction_bin_write (i : ConfigInstruction) : option (list Z) :=
  let tag := match i with InstrReveal _ _ => 0 | InstrMove _ _ => 1 | InstrSet _ _ => 2 end in
  cons tag <$> instr_fields i.

(** Each instruction after its size. *)
(* kernel_sdk/installer-config/src/binary/bin.rs:117-124 bin_write *)
Fixpoint write_instructions (program : list ConfigInstruction) : option (list Z) :=
  match program with
  | [] => Some []
  | i :: program =>
      match ConfigInstruction_bin_write i with
      | None => None
      | Some current_instr =>
          match put_le_size (length current_instr), write_instructions program with
          | Some size, Some rest => Some (size ++ current_instr ++ rest)
          | _, _ => None
          end
      end
  end.

(* kernel_sdk/installer-config/src/binary/bin.rs:114-128 bin_write *)
Definition OwnedConfigProgram_bin_write (program : list ConfigInstruction) : option (list Z) :=
  match write_instructions program with
  | None => None
  | Some output => (fun size => output ++ size) <$> put_le_size (length output)
  end.

(** ** Reading *)

(** The rest of the input and a value, or an error. *)
Class Nom := {
  nom_u8 : list Z -> option (list Z * Z);
  nom_u32_le : list Z -> option (list Z * Z);
  nom_take : nat -> list Z -> option (list Z * list Z);
}.

Section read.
Context `{N : Nom}.

(** [length_data]: a number, then that many bytes. *)
Definition length_data (length : list Z -> option (list Z * Z)) (input : list Z) : option (list Z * list Z) :=
  match length input with
  | None => None
  | Some (input, size) => nom_take (Z.to_nat size) input
  end.

(* kernel_sdk/installer-config/src/binary/nom.rs:42-54 bounded_size *)
Definition bounded_size (max : Z) (input : list Z) : option (list Z * Z) :=
  match nom_u32_le input with
  | None => None
  | Some (input, size) => if size <=? max then Some (input, size) else None
  end.

(* kernel_sdk/installer-config/src/binary/nom.rs:56-68 bounded_u8_size *)
Definition bounded_u8_size (max : Z) (input : list Z) : option (list Z * Z) :=
  match nom_u8 input with
  | None => None
  | Some (input, size) => if size <=? max then Some (input, size) else None
  end.

(** Readers that may panic: [assert_from] does, on an invalid path. *)
Definition readM (A : Type) : Type := list Z -> outcome (option (list Z * A)).

Definition read_bind {A B} (m : readM A) (k : A -> readM B) : readM B := fun input =>
  match m input with
  | Done (Some (rest, a)) => k a rest
  | Done None => Done None
  | Panicked => Panicked
  | OutOfFuel => OutOfFuel
  end.

Definition read_ret {A} (a : A) : readM A := fun input => Done (Some (input, a)).

(* kernel_sdk/installer-config/src/binary/nom.rs:70-75 nom_read_ref_path *)
Definition nom_read_ref_path : readM (list Z) := fun input =>
  match length_data (bounded_u8_size PATH_MAX_SIZE) input with
  | None => Done None
  | Some (rest, bytes) =>
      match assert_from bytes with
      | None => Panicked
      | Some path => Done (Some (rest, path))
      end
  end.

(* kernel_sdk/installer-config/src/binary/nom.rs:98-105 nom_read *)
Definition nom_read_ref_bytes : readM (list Z) := fun input => Done (length_data (bounded_size MAX_FILE_CHUNK_SIZE) input).

(* kernel_sdk/installer-config/src/binary/nom.rs:107-165 nom_read *)
Definition ConfigInstruction_nom_read : readM ConfigInstruction := fun bytes =>
  match nom_u8 bytes with
  | None => Done None
  | Some (input, tag) =>
      if tag =? 0 then
        read_bind nom_read_ref_bytes (fun hash => read_bind nom_read_ref_path (fun to => read_ret (InstrReveal hash to))) input
      else if tag =? 1 then
        read_bind nom_read_ref_path (fun from => read_bind nom_read_ref_path (fun to => read_ret (InstrMove from to))) input
      else if tag =? 2 then
        read_bind nom_read_ref_bytes (fun value => read_bind nom_read_ref_path (fun to => read_ret (InstrSet value to))) input
      else Done None
  end.
End read.

(** ** Evaluation *)

(* kernel_sdk/installer-config/src/binary/preimage.rs:14-14 MAX_DAC_LEVELS *)
Definition MAX_DAC_LEVELS : nat := 4.

Section evaluation.
Context {H : Type} `{RH : RevealHost H} `{SRC : SmartRollupCore H}.

(** The host, and the size of what was written so far, which the closure
    [write_kernel_page] captures. *)
#[local] Instance CapturedReveal : RevealHost (H * Z) := {|
  core_reveal_preimage s := core_reveal_preimage s.1;
|}.

(* kernel_sdk/installer-config/src/binary/preimage.rs:40-62 write_kernel_page *)
Definition write_kernel_page (reveal_to content : list Z) : stM (H * Z) string unit := fun '(h, kernel_size) =>
  match store_write reveal_to content kernel_size h with
  | (Err _, h) => (Err "Failed to write kernel content page"%string, (h, kernel_size))
  | (Ok _, h) => (Ok tt, (h, kernel_size + Z.of_nat (length content)))
  end.

(* kernel_sdk/installer-config/src/binary/preimage.rs:20-37 reveal_root_hash_to_store *)
Definition reveal_root_hash_to_store (root_hash reveal_to : list Z) : stM H string unit := fun h =>
  let '(r, (h, _)) :=
    reveal_loop (write_kernel_page reveal_to) MAX_DAC_LEVELS root_hash (Z.of_nat (MAX_PAGE_SIZE * MAX_DAC_LEVELS)) (h, 0) in
  (r, h).

(* kernel_sdk/installer-config/src/binary/instr.rs:151-172 eval_config_instr *)
Definition eval_config_instr (i : ConfigInstruction) : stM H string unit := fun h =>
  match i with
  | InstrReveal hash to =>
      if (length hash =? PREIMAGE_HASH_SIZE)%nat then reveal_root_hash_to_store hash to h
      else (Err "Invalid hash conversion."%string, h)
  | InstrMove from to =>
      let '(r, h) := store_move from to h in
      (result_map_err (fun _ => "Couldn't move path during config application"%string) r, h)
  | InstrSet value to =>
      let '(r, h) := store_write to value 0 h in
      (result_map_err (fun _ => "Couldn't set key during config application"%string) r, h)
  end.

(* kernel_sdk/installer-config/src/binary/instr.rs:82-87 evaluate *)
Fixpoint evaluate (program : list ConfigInstruction) : stM H string unit :=
  match program with
  | [] => st_ret tt
  | instruction :: program => let! _ := eval_config_instr instruction in evaluate program
  end.

(** ** Installing *)

(** The bytes of [/kernel/boot.wasm] *)
(* kernel_sdk/installer-kernel/src/lib.rs:36-36 KERNEL_BOOT_PATH *)
Definition KERNEL_BOOT_PATH : list Z := [47; 107; 101; 114; 110; 101; 108; 47; 98; 111; 111; 116; 46; 119; 97; 115; 109].

(** The bytes of [/__installer_kernel/auxiliary/kernel/boot.wasm]. *)
(* kernel_sdk/installer-kernel/src/lib.rs:40-41 AUXILIARY_CONFIG_INTERPRETATION_PATH *)
Definition AUXILIARY_CONFIG_INTERPRETATION_PATH : list Z :=
  [47; 95; 95; 105; 110; 115; 116; 97; 108; 108; 101; 114; 95; 107; 101; 114; 110; 101; 108; 47; 97; 117; 120; 105; 108; 105; 97; 114; 121; 47; 107; 101; 114; 110; 101; 108; 47; 98; 111; 111; 116; 46; 119; 97; 115; 109].

(** The bytes of [/__sdk/installer/reveal]. *)
(* kernel_sdk/installer-config/src/binary/instr.rs:184-184 TMP_REVEAL_PATH *)
Definition TMP_REVEAL_PATH : list Z :=
  [47; 95; 95; 115; 100; 107; 47; 105; 110; 115; 116; 97; 108; 108; 101; 114; 47; 114; 101; 118; 101; 97; 108].

(* kernel_sdk/installer-config/src/binary/instr.rs:186-199 upgrade_reveal_flow *)
Definition upgrade_reveal_flow (root_hash : list Z) : list ConfigInstruction :=
  [InstrReveal root_hash TMP_REVEAL_PATH; InstrMove TMP_REVEAL_PATH KERNEL_BOOT_PATH].

(* kernel_sdk/installer-config/src/binary/size.rs:23-23 MAX_SIZE_REF_PATH *)
Definition MAX_SIZE_REF_PATH : Z := 1 + PATH_MAX_SIZE.

(** The largest of the sizes of a move and of a reveal. *)
(* kernel_sdk/installer-config/src/binary/size.rs:29-43 MAX_SIZE *)
Definition CONFIG_MAX_SIZE : Z :=
  1 + Z.max (MAX_SIZE_REF_PATH * 2) (Z.of_nat PREIMAGE_HASH_SIZE + MAX_SIZE_REF_PATH).

(** The number, and the offset after it; bytes that were not read are zero. *)
(* kernel_sdk/installer-config/src/binary/nom.rs:77-88 read_size *)
Definition read_size (h : H) (path : list Z) (offset : Z) : result (Z * Z) string :=
  match store_read_slice h path offset 4 with
  | Err _ => Err "Couldn't read from kernel boot path"%string
  | Ok (_, bytes) => Ok (u32_from_le_bytes (take 4 (bytes ++ replicate 4 0)), wrapping_add 64 offset 4)
  end.

(* kernel_sdk/installer-kernel/src/instr.rs:11-25 read_config_program_size *)
Definition read_config_program_size (h : H) (path : list Z) : result Z string :=
  match store_value_size h path with
  | Err _ => Err "Couldn't read kernel boot path size"%string
  | Ok kernel_size => result_map fst (read_size h path (wrapping_sub 64 kernel_size 4))
  end.

(** The bytes and the offset after them; the loop does not end when nothing is
    read. *)
(* kernel_sdk/installer-kernel/src/instr.rs:27-40 read_instruction_bytes *)
Fixpoint read_instruction_bytes (fuel : nat) (h : H) (path : list Z) (offset : Z) (n : nat) :
  outcome (result (list Z * Z) string) :=
  match n with
  | O => Done (Ok ([], offset))
  | _ =>
      match fuel with
      | O => OutOfFuel
      | S fuel =>
          match store_read_slice h path offset (Z.of_nat n) with
          | Err _ => Done (Err "Failed to read kernel boot path in read_instruction"%string)
          | Ok (read_size, bytes) =>
              outcome_map (result_map (fun r => (take (Z.to_nat read_size) bytes ++ r.1, r.2)))
                (read_instruction_bytes fuel h path (wrapping_add 64 offset read_size) (n - Z.to_nat read_size))
          end
      end
  end.

Context `{N : Nom}.

(** One turn reads an instruction and evaluates it; slicing the buffer beyond
    its size is a panic. *)
(* kernel_sdk/installer-kernel/src/lib.rs:94-111 install_kernel *)
Fixpoint install_loop (fuel : nat) (instr_offset end_offset : Z) (h : H) : outcome (result unit string * H) :=
  if instr_offset <? end_offset then
    match fuel with
    | O => OutOfFuel
    | S fuel =>
        match read_size h AUXILIARY_CONFIG_INTERPRETATION_PATH instr_offset with
        | Err e => Done (Err e, h)
        | Ok (instr_size, instr_offset) =>
            if CONFIG_MAX_SIZE <? instr_size then Panicked
            else
              match read_instruction_bytes (Z.to_nat instr_size) h AUXILIARY_CONFIG_INTERPRETATION_PATH instr_offset
                      (Z.to_nat instr_size) with
              | Panicked => Panicked
              | OutOfFuel => OutOfFuel
              | Done (Err e) => Done (Err e, h)
              | Done (Ok (bytes, instr_offset)) =>
                  match ConfigInstruction_nom_read bytes with
                  | Panicked => Panicked
                  | OutOfFuel => OutOfFuel
                  | Done None => Done (Err "Couldn't decode config instruction"%string, h)
                  | Done (Some ([], instr)) =>
                      match eval_config_instr instr h with
                      | (Err e, h) => Done (Err e, h)
                      | (Ok _, h) => install_loop fuel instr_offset end_offset h
                      end
                  | Done (Some (_, _)) => Done (Err "Incompleted parsing"%string, h)
                  end
              end
        end
    end
  else Done (Ok tt, h).

(* kernel_sdk/installer-kernel/src/lib.rs:73-122 install_kernel *)
Definition install_kernel (fuel : nat) (config_interpretation_path : list Z) (h : H) : outcome (result unit string * H) :=
  match read_config_program_size h config_interpretation_path with
  | Err _ => Done (Err "Failed to read size of config program"%string, h)
  | Ok config_program_size =>
      match store_value_size h config_interpretation_path with
      | Err _ => Done (Err "Failed to read kernel boot path size"%string, h)
      | Ok kernel_size =>
          match store_copy config_interpretation_path AUXILIARY_CONFIG_INTERPRETATION_PATH h with
          | (Err _, h) => Done (Err "Failed to copy kernel boot before config execution"%string, h)
          | (Ok _, h) =>
              let end_offset := wrapping_sub 64 kernel_size 4 in
              match install_loop fuel (wrapping_sub 64 end_offset config_program_size) end_offset h with
              | Done (Ok _, h) =>
                  let '(r, h) := store_delete AUXILIARY_CONFIG_INTERPRETATION_PATH h in
                  Done (result_map_err
                    (fun _ => "Failed to delete auxiliary kernel boot after config execution"%string) r, h)
              | r => r
              end
          end
      end
  end.

(** The error is written to the debug log; the result of [mark_for_reboot] is ignored. *)
(* kernel_sdk/installer-kernel/src/lib.rs:45-51 installer *)
Definition installer (fuel : nat) (h : H) : outcome H :=
  outcome_map (fun '(r, h) => match r with Err _ => h | Ok _ => (mark_for_reboot h).2 end)
    (install_kernel fuel KERNEL_BOOT_PATH h).
End evaluation.
