(* ===== verification/InstallerSpec.v ===== *)
(** The installer: the format of its instructions is read back as it was
    written, and installing evaluates the program that was appended to the
    kernel, as long as it leaves the auxiliary copy alone.  A kernel that was
    split into pages and named in the program is the one that boots. *)
From S2P Require Import Prelude Path PathSpec DurableStore DurableStoreSpec Runtime RuntimeSpec.
From S2P Require Import Hash HashSpec Dac DacSpec CertificateSpec Outbox OutboxSpec Installer.
From stdpp Require Import strings.
#[local] Open Scope Z_scope.

(** ** The format *)

(** What the readers of nom do where there is enough input. *)
Class NomLaws `{N : Nom} : Prop := {
  nom_u8_cons b rest : nom_u8 (b :: rest) = Some (rest, b);
  nom_u32_app z rest : is_u 32 z -> nom_u32_le (u32_to_le_bytes z ++ rest) = Some (rest, z);
  nom_take_app bytes rest : nom_take (length bytes) (bytes ++ rest) = Some (rest, bytes);
}.

Definition path_ok (p : list Z) : Prop := validate_path p = Ok tt.

(** Valid paths, and values that fit a chunk. *)
Definition instr_ok (i : ConfigInstruction) : Prop :=
  match i with
  | InstrReveal bytes to | InstrSet bytes to => Z.of_nat (length bytes) <= MAX_FILE_CHUNK_SIZE /\ path_ok to
  | InstrMove from to => path_ok from /\ path_ok to
  end.

Lemma path_ok_writable p : path_ok p -> writable (path_steps p) p.
Proof. intros (steps & P & R)%validate_path_ok. rewrite (path_of_steps _ _ P). done. Qed.

Lemma path_ok_length p : path_ok p -> Z.of_nat (length p) <= PATH_MAX_SIZE.
Proof. intros P%path_ok_writable. apply P. Qed.

Section format.
Context `{NL : NomLaws}.

Lemma read_path p rest : path_ok p -> nom_read_ref_path (path_dynamic p ++ rest) = Done (Some (rest, p)).
Proof.
  intros P. pose proof (path_ok_length p P) as L. change PATH_MAX_SIZE with 242 in L.
  unfold nom_read_ref_path, length_data, bounded_u8_size, path_dynamic. cbn [app]. rewrite nom_u8_cons.
  rewrite (wrap_small 8) by (unfold is_u; change (2 ^ 8) with 256; lia). change PATH_MAX_SIZE with 242.
  rewrite (proj2 (Z.leb_le _ _) L), Nat2Z.id, nom_take_app. unfold assert_from. unfold path_ok in P. by rewrite P.
Qed.

Lemma bytes_dynamic_ok b : Z.of_nat (length b) <= MAX_FILE_CHUNK_SIZE ->
  bytes_dynamic b = Some (u32_to_le_bytes (Z.of_nat (length b)) ++ b).
Proof.
  unfold MAX_FILE_CHUNK_SIZE. intros L. unfold bytes_dynamic, put_le_size. change (2 ^ 32) with 4294967296.
  by rewrite (proj2 (Z.ltb_lt _ _)) by lia.
Qed.

Lemma read_bytes b rest : Z.of_nat (length b) <= MAX_FILE_CHUNK_SIZE ->
  nom_read_ref_bytes ((u32_to_le_bytes (Z.of_nat (length b)) ++ b) ++ rest) = Done (Some (rest, b)).
Proof.
  intros L. unfold nom_read_ref_bytes, length_data, bounded_size. rewrite <- (assoc_L (++)).
  rewrite nom_u32_app by (unfold is_u, MAX_FILE_CHUNK_SIZE in *; change (2 ^ 32) with 4294967296; lia).
  by rewrite (proj2 (Z.leb_le _ _) L), Nat2Z.id, nom_take_app.
Qed.

(** The number of bytes of an instruction. *)
Definition instr_size (i : ConfigInstruction) : Z :=
  match i with
  | InstrReveal bytes to | InstrSet bytes to => 6 + Z.of_nat (length bytes) + Z.of_nat (length to)
  | InstrMove from to => 3 + Z.of_nat (length from) + Z.of_nat (length to)
  end.

Lemma bin_write_size i : instr_ok i ->
  exists bytes, ConfigInstruction_bin_write i = Some bytes /\ Z.of_nat (length bytes) = instr_size i.
Proof.
  unfold ConfigInstruction_bin_write, instr_fields.
  destruct i as [b to|from to|b to]; cbn [instr_ok instr_size]; intros [O P]; rewrite ?bytes_dynamic_ok by done;
    (eexists; split; [reflexivity|]); cbn [length]; unfold path_dynamic; rewrite ?length_app; cbn [length]; simpl length; lia.
Qed.

(** What is written is read back, whatever follows. *)
Lemma config_instruction_roundtrip i rest : instr_ok i ->
  exists bytes, ConfigInstruction_bin_write i = Some bytes /\ Z.of_nat (length bytes) = instr_size i /\
    ConfigInstruction_nom_read (bytes ++ rest) = Done (Some (rest, i)).
Proof.
  intros O. destruct (bin_write_size i O) as (bytes & E & L). exists bytes. split; [done|]. split; [done|]. clear L. revert O E.
  unfold ConfigInstruction_bin_write, ConfigInstruction_nom_read, instr_fields.
  destruct i as [b to|from to|b to]; cbn [instr_ok]; intros [O P]; rewrite ?bytes_dynamic_ok by done; cbn [fmap option_fmap option_map];
    intros <-%Some_inj; cbn [app]; rewrite nom_u8_cons; cbn [Z.eqb Pos.eqb]; unfold read_bind;
    rewrite <- ?(assoc_L (++) _ (path_dynamic to)), ?read_bytes, ?read_path by done; done.
Qed.
End format.

(** ** Evaluation leaves other values alone *)

Lemma reveal_loop_keeps {H} `{RH : RevealHost H} (Q : H -> Prop) save_content :
  (forall c, keeps Q (save_content c)) -> forall levels hash n, keeps Q (reveal_loop save_content levels hash n).
Proof.
  intros S. induction levels as [|levels IH]; intros hash n h A; cbn [reveal_loop]; [done|].
  destruct (fetch_page_raw h hash n) as [[page rest]|]; [|done]. destruct (SlicePage_try_from page) as [[c|hs]|]; [by apply S| |done].
  revert A. generalize (slice_hashes hs). intros l. revert h. induction l as [|x l IHl]; intros h A; cbn [foldr]; [done|].
  unfold st_bind. specialize (IH x rest h A). destruct (reveal_loop save_content levels x rest h) as [[] h1]; [by apply IHl|done].
Qed.

(** The paths of an instruction do not reach the steps [k]. *)
Definition instr_avoids (k : list (list Z)) (i : ConfigInstruction) : Prop :=
  match i with
  | InstrReveal _ to | InstrSet _ to => path_steps to <> k
  | InstrMove from to => ~ path_steps from `prefix_of` k /\ ~ path_steps to `prefix_of` k
  end.

Section frame.
Context {H : Type} `{RH : RevealHost H} `{SL : StoreLaws H}.
Context (k : list (list Z)) (Hk : steps_ok k) (v : option (list Z)).

(** The value at [k]. *)
Definition has_at (h : H) : Prop := store_wf h /\ val h k = v.

Lemma store_write_has p bytes offset :
  path_ok p -> path_steps p <> k -> 0 <= offset -> keeps has_at (store_write p bytes offset).
Proof.
  intros P N O h [W V]. pose proof (store_write_spec h (path_steps p) p bytes offset W (path_ok_writable p P) O) as S.
  cbv zeta in S. destruct (decide _); [|by rewrite S]. destruct S as (h' & -> & W' & U). split; [done|].
  cbn [snd]. by rewrite U, decide_False by done.
Qed.

Lemma store_move_has p q :
  path_ok p -> path_ok q -> ~ path_steps p `prefix_of` k -> ~ path_steps q `prefix_of` k -> keeps has_at (store_move p q).
Proof.
  intros P Q Np Nq h [W V].
  destruct (store_move_spec h _ _ _ _ W (path_ok_writable p P) (path_ok_writable q Q)) as [(h' & -> & W' & _ & T)|[-> _]]; [|done].
  split; [done|]. cbn [snd]. by rewrite T, decide_False by done.
Qed.

Lemma eval_has i : instr_ok i -> instr_avoids k i -> keeps has_at (eval_config_instr i).
Proof.
  intros O A h Q. destruct i as [hash to|from to|value to]; cbn [instr_ok instr_avoids eval_config_instr] in *.
  - destruct (_ =? _)%nat; [|done]. unfold reveal_root_hash_to_store.
    pose proof (reveal_loop_keeps (RH := CapturedReveal) (fun s => has_at s.1 /\ 0 <= s.2) (write_kernel_page to)) as K.
    specialize (K ltac:(intros c [h1 n] [Q1 N1]; unfold write_kernel_page;
      pose proof (store_write_has to c n (proj2 O) A N1 h1 Q1); destruct (store_write to c n h1) as [[] h2]; cbn in *; split; (done || lia))).
    specialize (K MAX_DAC_LEVELS hash (Z.of_nat (MAX_PAGE_SIZE * MAX_DAC_LEVELS)) (h, 0) ltac:(done)).
    destruct (reveal_loop _ _ _ _ _) as [r [h2 n2]]. by destruct K.
  - destruct O, A. pose proof (store_move_has from to ltac:(done) ltac:(done) ltac:(done) ltac:(done) h Q) as K.
    by destruct (store_move from to h).
  - pose proof (store_write_has to value 0 (proj2 O) A ltac:(lia) h Q) as K. by destruct (store_write to value 0 h).
Qed.
End frame.

(** ** Installing *)

Definition AUX_STEPS : list (list Z) := path_steps AUXILIARY_CONFIG_INTERPRETATION_PATH.

Lemma aux_path_ok : path_ok AUXILIARY_CONFIG_INTERPRETATION_PATH.
Proof. vm_compute. reflexivity. Qed.

Lemma aux_writable : writable AUX_STEPS AUXILIARY_CONFIG_INTERPRETATION_PATH.
Proof. apply path_ok_writable, aux_path_ok. Qed.

Lemma aux_steps_ok : steps_ok AUX_STEPS.
Proof. apply (writable_steps _ _ aux_writable). Qed.

(** An instruction that the installer can evaluate from its copy. *)
Definition instr_installable (i : ConfigInstruction) : Prop :=
  instr_ok i /\ instr_size i <= CONFIG_MAX_SIZE /\ instr_avoids AUX_STEPS i.

Section install.
Context {H : Type} `{RH : RevealHost H} `{SL : StoreLaws H} `{NL : NomLaws}.

(** Reading a piece of a value. *)
Lemma read_slice_at (h : H) l p v a b c :
  store_wf h -> writable l p -> val h l = Some v -> v = a ++ b ++ c -> Z.of_nat (length b) <= MAX_FILE_CHUNK_SIZE ->
  store_read_slice h p (Z.of_nat (length a)) (Z.of_nat (length b)) = Ok (Z.of_nat (length b), b).
Proof.
  intros W P V E B. unfold store_read_slice. rewrite (core_read_value h l p v) by (done || (subst v; rewrite ?length_app; lia)).
  cbv zeta. replace (Z.min MAX_FILE_CHUNK_SIZE _) with (Z.of_nat (length b)) by (subst v; rewrite !length_app; lia).
  rewrite wrap_err_ok by lia. cbn [result_map]. by rewrite !Nat2Z.id, E, drop_app_length, take_app_length.
Qed.

Lemma read_size_at (h : H) l p v a z c :
  store_wf h -> writable l p -> val h l = Some v -> v = a ++ u32_to_le_bytes z ++ c -> is_u 32 z ->
  Z.of_nat (length v) < 2 ^ 31 -> read_size h p (Z.of_nat (length a)) = Ok (z, Z.of_nat (length (a ++ u32_to_le_bytes z))).
Proof.
  intros W P V E U L. unfold read_size. change 4 with (Z.of_nat (length (u32_to_le_bytes z))) at 1.
  rewrite (read_slice_at h l p v a _ c) by (done || (rewrite u32_bytes_length; vm_compute; congruence)).
  rewrite take_app_length' by done. rewrite u32_le_roundtrip by done. do 2 f_equal. unfold wrapping_add.
  subst v. rewrite !length_app, !u32_bytes_length in *. change (2 ^ 31) with 2147483648 in L.
  rewrite wrap_small by (unfold is_u; change (2 ^ 64) with 18446744073709551616; lia). lia.
Qed.

Lemma read_instruction_at (h : H) l p v a b c :
  store_wf h -> writable l p -> val h l = Some v -> v = a ++ b ++ c -> b <> [] ->
  Z.of_nat (length b) <= CONFIG_MAX_SIZE -> Z.of_nat (length v) < 2 ^ 31 ->
  read_instruction_bytes (length b) h p (Z.of_nat (length a)) (length b) = Done (Ok (b, Z.of_nat (length (a ++ b)))).
Proof.
  intros W P V E N B L. assert (B2 : Z.of_nat (length b) <= MAX_FILE_CHUNK_SIZE) by (etrans; [exact B|by vm_compute]).
  destruct (length b) as [|n] eqn:Lb; [by destruct b|]. cbn [read_instruction_bytes]. rewrite <- Lb.
  rewrite (read_slice_at h l p v a b c) by (done || lia). rewrite Nat2Z.id, Nat.sub_diag.
  assert (X : read_instruction_bytes n h p (wrapping_add 64 (Z.of_nat (length a)) (Z.of_nat (length b))) 0 =
    Done (Ok ([], wrapping_add 64 (Z.of_nat (length a)) (Z.of_nat (length b))))) by by destruct n.
  rewrite X. cbn [outcome_map result_map fst snd]. rewrite firstn_all, app_nil_r.
  unfold wrapping_add. rewrite <- Nat2Z.inj_add, <- length_app. rewrite wrap_small; [done|].
  subst v. rewrite !length_app in *. unfold is_u. change (2 ^ 31) with 2147483648 in L. change (2 ^ 64) with 18446744073709551616. lia.
Qed.

(** The loop evaluates the instructions between its offsets. *)
Lemma install_loop_ok v program : forall fuel (h : H) a enc c,
  write_instructions program = Some enc -> v = a ++ enc ++ c -> Z.of_nat (length v) < 2 ^ 31 ->
  Forall instr_installable program -> (length program <= fuel)%nat -> has_at AUX_STEPS (Some v) h ->
  install_loop fuel (Z.of_nat (length a)) (Z.of_nat (length (a ++ enc))) h = Done (evaluate program h).
Proof.
  induction program as [|i program IH]; intros fuel h a enc c E Ev L F Fu Q.
  - injection E as <-. rewrite app_nil_r. destruct fuel; cbn [install_loop]; by rewrite Z.ltb_irrefl.
  - destruct fuel as [|fuel]; [simpl in Fu; lia|]. apply Forall_cons_1 in F as [(O & S & A) F].
    destruct (config_instruction_roundtrip i [] O) as (b & Eb & Lb & R). rewrite app_nil_r in R.
    assert (Sb : 0 < Z.of_nat (length b) <= 487) by (change CONFIG_MAX_SIZE with 487 in S; destruct i; cbn [instr_size] in *; lia).
    cbn [write_instructions] in E. rewrite Eb in E. unfold put_le_size in E. change (2 ^ 32) with 4294967296 in E.
    rewrite (proj2 (Z.ltb_lt _ _)) in E by lia. destruct (write_instructions program) as [rest|] eqn:Er; [|done].
    assert (Ee : enc = u32_to_le_bytes (Z.of_nat (length b)) ++ b ++ rest) by congruence. subst enc.
    set (size := u32_to_le_bytes (Z.of_nat (length b))) in *. destruct Q as [W V]. cbn [install_loop].
    assert (Ls : length size = 4%nat) by done. rewrite (proj2 (Z.ltb_lt _ _)) by (rewrite !length_app; lia).
    assert (Ub : is_u 32 (Z.of_nat (length b))) by (unfold is_u; change (2 ^ 32) with 4294967296; lia).
    rewrite (read_size_at h AUX_STEPS _ v a (Z.of_nat (length b)) ((b ++ rest) ++ c)) by
      (done || apply aux_writable || (rewrite Ev; by rewrite <- !(assoc_L (++)))). fold size.
    change CONFIG_MAX_SIZE with 487 at 1. rewrite (proj2 (Z.ltb_ge _ _)), Nat2Z.id by lia.
    rewrite (read_instruction_at h AUX_STEPS _ v (a ++ size) b (rest ++ c)) by
      (done || apply aux_writable || (rewrite Ev; by rewrite <- !(assoc_L (++))) || (intros ->; simpl in Sb; lia) || (change CONFIG_MAX_SIZE with 487; lia)).
    rewrite R. cbn [evaluate]. unfold st_bind.
    pose proof (eval_has AUX_STEPS aux_steps_ok (Some v) i O A h (conj W V)) as Q1.
    destruct (eval_config_instr i h) as [[] h1]; [|done]. cbn [snd] in Q1.
    rewrite (assoc_L (++) size), (assoc_L (++) a), (assoc_L (++) a). apply (IH fuel h1 _ rest c); try done; [|simpl in Fu; lia].
    rewrite Ev. by rewrite <- !(assoc_L (++)).
Qed.

Lemma store_value_size_ok (h : H) l p v :
  store_wf h -> writable l p -> val h l = Some v -> Z.of_nat (length v) < 2 ^ 31 ->
  store_value_size h p = Ok (Z.of_nat (length v)).
Proof.
  intros W P V B. unfold store_value_size. rewrite (check_path_exists_value h l p v) by done. cbn [result_bind].
  by rewrite (law_value_size h l p W P), V, as_i32_size, wrap_err_ok by (done || lia).
Qed.

Lemma program_shape program bytes :
  OwnedConfigProgram_bin_write program = Some bytes ->
  exists enc, write_instructions program = Some enc /\ bytes = enc ++ u32_to_le_bytes (Z.of_nat (length enc)) /\
    Z.of_nat (length enc) < 2 ^ 32.
Proof.
  unfold OwnedConfigProgram_bin_write, put_le_size. destruct (write_instructions program) as [enc|]; [|done].
  destruct (Z.ltb_spec (Z.of_nat (length enc)) (2 ^ 32)); intros [= <-]. by exists enc.
Qed.

(** Up to the loop: the installer finds the program and has made its copy. *)
Lemma install_start fuel (h : H) l path kernel program bytes :
  store_wf h -> writable l path -> OwnedConfigProgram_bin_write program = Some bytes ->
  val h l = Some (kernel ++ bytes) -> Z.of_nat (length (kernel ++ bytes)) < 2 ^ 31 ->
  exists h1 enc, write_instructions program = Some enc /\
    store_copy path AUXILIARY_CONFIG_INTERPRETATION_PATH h = (Ok tt, h1) /\
    transferred h h1 l AUX_STEPS (val h) /\ has_at AUX_STEPS (Some (kernel ++ bytes)) h1 /\
    bytes = enc ++ u32_to_le_bytes (Z.of_nat (length enc)) /\
    install_kernel fuel path h =
    match install_loop fuel (Z.of_nat (length kernel)) (Z.of_nat (length (kernel ++ enc))) h1 with
    | Done (Ok _, h) =>
        let '(r, h) := store_delete AUXILIARY_CONFIG_INTERPRETATION_PATH h in
        Done (result_map_err (fun _ => "Failed to delete auxiliary kernel boot after config execution"%string) r, h)
    | r => r
    end.
Proof.
  intros W P E V L. destruct (program_shape _ _ E) as (enc & Ee & -> & Le). set (size := u32_to_le_bytes _) in *.
  assert (Ls : length size = 4%nat) by done. set (v := kernel ++ enc ++ size) in *.
  assert (Lv : Z.of_nat (length v) = Z.of_nat (length (kernel ++ enc)) + 4) by (unfold v; rewrite !length_app; lia).
  destruct (store_copy_spec h l path AUX_STEPS _ W P aux_writable) as [(h1 & C & W1 & T)|[_ X]].
  2: { specialize (X [] ltac:(constructor)). rewrite app_nil_r in X. congruence. }
  exists h1, enc. split_and!; [done..| |done|].
  { split; [done|]. pose proof (proj1 T [] ltac:(constructor)) as T0. rewrite !app_nil_r in T0. congruence. }
  assert (M : forall z, 0 <= z < 2 ^ 31 -> wrap 64 z = z).
  { change (2 ^ 31) with 2147483648. intros z Hz. apply wrap_small. unfold is_u. change (2 ^ 64) with 18446744073709551616. lia. }
  unfold install_kernel, read_config_program_size. rewrite (store_value_size_ok h l path v) by done.
  unfold wrapping_sub. rewrite (M (Z.of_nat (length v) - 4)) by lia.
  replace (Z.of_nat (length v) - 4) with (Z.of_nat (length (kernel ++ enc))) by lia.
  rewrite (read_size_at h l path v (kernel ++ enc) (Z.of_nat (length enc)) []) by
    (done || (unfold is_u; lia) || (unfold v; by rewrite app_nil_r, <- (assoc_L (++)))).
  cbn [result_map fst]. rewrite C. rewrite M by (rewrite !length_app in *; lia).
  replace (Z.of_nat (length (kernel ++ enc)) - Z.of_nat (length enc)) with (Z.of_nat (length kernel)) by (rewrite length_app; lia).
  done.
Qed.

(** The whole program, from the copy. *)
Lemma install_run fuel (h : H) l path kernel program bytes :
  store_wf h -> writable l path -> OwnedConfigProgram_bin_write program = Some bytes ->
  val h l = Some (kernel ++ bytes) -> Z.of_nat (length (kernel ++ bytes)) < 2 ^ 31 ->
  Forall instr_installable program -> (length program <= fuel)%nat ->
  exists h1, store_copy path AUXILIARY_CONFIG_INTERPRETATION_PATH h = (Ok tt, h1) /\
    store_wf h1 /\ transferred h h1 l AUX_STEPS (val h) /\
    match evaluate program h1 with
    | (Err e, h2) => install_kernel fuel path h = Done (Err e, h2) /\ val h2 AUX_STEPS = Some (kernel ++ bytes)
    | (Ok _, h2) => exists h3, install_kernel fuel path h = Done (Ok tt, h3) /\ store_wf h3 /\
        forall q, steps_ok q -> val h3 q = if decide (AUX_STEPS `prefix_of` q) then None else val h2 q
    end.
Proof.
  intros W P E V L F Fu. destruct (install_start fuel h l path kernel program bytes W P E V L) as (h1 & enc & Ee & C & T & Q & Eb & ->).
  exists h1. split; [done|]. split; [apply Q|]. split; [done|].
  rewrite (install_loop_ok (kernel ++ bytes) program fuel h1 kernel enc _ Ee (f_equal (app kernel) Eb) L F Fu Q).
  assert (K : keeps (has_at AUX_STEPS (Some (kernel ++ bytes))) (evaluate (H := H) program)).
  { clear -F SL. induction F as [|i program (O & _ & A) F IH]; [apply keeps_ret|].
    apply keeps_bind; [|done]. by apply eval_has; [apply aux_steps_ok|..]. }
  specialize (K h1 Q). destruct (evaluate program h1) as [[[]|e] h2]; [|by destruct K]. destruct K as [W2 V2]. cbn [snd] in *.
  destruct (store_delete_spec h2 AUX_STEPS _ W2 aux_writable) as [(h3 & D & W3 & U3)|[_ X]].
  - exists h3. by rewrite D.
  - specialize (X [] ltac:(constructor)). rewrite app_nil_r in X. congruence.
Qed.

(** C17. Installing evaluates the program: where the value at the path is any
    bytes followed by an encoded program, below 2^31 bytes in all, and every
    instruction is valid, fits the buffer of 487 bytes and does not reach the
    auxiliary path, [install_kernel] copies that value to the auxiliary path and
    gives the result of evaluating the instructions in order on the state after
    the copy, even if the program overwrites the value it is read from.  When
    the program succeeds the copy is removed, with everything under its path;
    when an instruction fails, its error is returned, the effects of the
    instructions before it stay, and so does the copy.  As many turns as there
    are instructions are enough. *)
Theorem install_kernel_spec fuel (h : H) l path kernel program bytes :
  store_wf h -> writable l path -> OwnedConfigProgram_bin_write program = Some bytes ->
  val h l = Some (kernel ++ bytes) -> Z.of_nat (length (kernel ++ bytes)) < 2 ^ 31 ->
  Forall instr_installable program -> (length program <= fuel)%nat ->
  exists h1, store_copy path AUXILIARY_CONFIG_INTERPRETATION_PATH h = (Ok tt, h1) /\
    transferred h h1 l AUX_STEPS (val h) /\
    match evaluate program h1 with
    | (Err e, h2) => install_kernel fuel path h = Done (Err e, h2) /\ val h2 AUX_STEPS = Some (kernel ++ bytes)
    | (Ok _, h2) => exists h3, install_kernel fuel path h = Done (Ok tt, h3) /\ store_wf h3 /\
        forall q, steps_ok q -> val h3 q = if decide (AUX_STEPS `prefix_of` q) then None else val h2 q
    end.
Proof.
  intros W P E V L F Fu. destruct (install_run fuel h l path kernel program bytes W P E V L F Fu) as (h1 & C & _ & R).
  by exists h1.
Qed.

(** An instruction that does not fit the buffer panics the installer: the
    size of the buffer counts moves and reveals but not sets, although the
    reader takes values of up to 2048 bytes. *)
Theorem install_oversized_panics fuel (h : H) l path kernel i program bytes :
  store_wf h -> writable l path -> OwnedConfigProgram_bin_write (i :: program) = Some bytes ->
  val h l = Some (kernel ++ bytes) -> Z.of_nat (length (kernel ++ bytes)) < 2 ^ 31 ->
  instr_ok i -> CONFIG_MAX_SIZE < instr_size i -> install_kernel (S fuel) path h = Panicked.
Proof.
  intros W P E V L O S. destruct (install_start (Datatypes.S fuel) h l path kernel _ bytes W P E V L) as (h1 & enc & Ee & _ & _ & [W1 V1] & Eb & ->).
  destruct (config_instruction_roundtrip i [] O) as (b & Ei & Lb & _). cbn [write_instructions] in Ee. rewrite Ei in Ee.
  unfold put_le_size in Ee. destruct (Z.ltb_spec (Z.of_nat (length b)) (2 ^ 32)) as [U|]; [|done].
  destruct (write_instructions program) as [rest|]; [|done].
  assert (Ec : enc = u32_to_le_bytes (Z.of_nat (length b)) ++ b ++ rest) by congruence. clear Ee.
  cbn [install_loop]. rewrite (proj2 (Z.ltb_lt _ _)) by (rewrite Ec, !length_app, u32_bytes_length; lia).
  rewrite (read_size_at h1 AUX_STEPS _ (kernel ++ bytes) kernel (Z.of_nat (length b)) ((b ++ rest) ++ u32_to_le_bytes (Z.of_nat (length enc)))).
  - by rewrite (proj2 (Z.ltb_lt _ _)) by lia.
  - done.
  - apply aux_writable.
  - done.
  - rewrite Eb at 1. rewrite Ec at 1. by rewrite <- !(assoc_L (++)).
  - unfold is_u. lia.
  - done.
Qed.
End install.

(** ** Upgrading the kernel *)

#[local] Opaque PREIMAGE_HASH_SIZE MAX_PAGE_SIZE MAX_CONTENT_SIZE MAX_HASHES_PER_PAGE.

Section upgrade.
Context `{BO : Blake2bOk} `{PWL : PageWriterLaws} `{NL : NomLaws}.
Context {H : Type} `{RH : RevealHost H} `{SL : StoreLaws H} {RL : RevealLaws H}.

(** ** Revealing into the storage *)

(** Writing chunks one after the other is one splice. *)
Lemma saves_write l p cs : writable l p -> forall (h : H) n (old := default [] (val h l)),
  store_wf h -> 0 <= n <= Z.of_nat (length old) ->
  exists h', saves (write_kernel_page p) cs (h, n) = (Ok tt, (h', n + Z.of_nat (length (concat cs)))) /\ store_wf h' /\
    updated h h' l (match cs with [] => val h l | _ => Some (splice old n (concat cs)) end).
Proof.
  intros P. induction cs as [|c cs IH]; intros h n old W N.
  - exists h. cbn [concat length]. rewrite Z.add_0_r. split; [done|]. split; [done|].
    intros q _. by destruct (decide (q = l)) as [->|].
  - destruct (store_write_ok h l p c n W P N) as (h1 & E1 & W1 & U1). fold old in U1.
    pose proof (updated_at _ _ _ _ (proj1 (writable_steps _ _ P)) U1) as V1.
    destruct (IH h1 (n + Z.of_nat (length c)) W1) as (h2 & E2 & W2 & U2).
    { rewrite V1. cbn [from_option id]. rewrite length_splice by done. lia. }
    exists h2. unfold saves in *. cbn [foldr]. unfold st_bind at 1. unfold write_kernel_page at 1. rewrite E1, E2.
    cbn [concat]. rewrite length_app, Nat2Z.inj_add, Z.add_assoc. split; [done|]. split; [done|].
    eapply updated_trans; [done|]. rewrite V1 in U2. cbn [from_option id] in U2. destruct cs as [|c' cs].
    + cbn [concat]. by rewrite app_nil_r.
    + by rewrite splice_splice in U2 by done.
Qed.

Lemma write_page_available calls p c :
  keeps (available (RH := CapturedReveal) calls) (write_kernel_page (H := H) p c).
Proof.
  intros [h n] A. unfold write_kernel_page.
  pose proof (store_write_available calls p c n h A) as K. by destruct (store_write p c n h) as [[] h'].
Qed.

Lemma root_size content root calls : content <> [] ->
  prepare_preimages (length content) content = Done (Ok root, calls) -> length root = PREIMAGE_HASH_SIZE.
Proof.
  intros N E. destruct (prepare_ok content N) as (k & root' & calls' & E' & T & _). rewrite E in E'. injection E' as <- <-.
  by pose proof (tower_sizes _ _ _ _ T) as [? _]%Forall_cons_1.
Qed.

(** The tree has at most three levels of hashes. *)
Lemma reveal_root_ok l p content root calls (h : H) :
  store_wf h -> writable l p -> content <> [] -> Z.of_nat (length content) <= 4091 * 123 ^ 3 ->
  prepare_preimages (length content) content = Done (Ok root, calls) -> available calls h ->
  exists h', reveal_root_hash_to_store root p h = (Ok tt, h') /\ store_wf h' /\
    updated h h' l (Some (content ++ drop (length content) (default [] (val h l)))).
Proof.
  intros W P N L E A. destruct (prepare_ok content N) as (k & root' & calls' & E' & T & Ht).
  rewrite E in E'. injection E' as <- <-. destruct (height_bytes _ _ Ht) as [_ Hk].
  assert (K : (k < MAX_DAC_LEVELS)%nat).
  { destruct (decide (k < MAX_DAC_LEVELS)%nat) as [|G]; [done|]. exfalso. unfold MAX_DAC_LEVELS in G.
    destruct Hk as [->|Hk]; [lia|]. pose proof (Z.pow_le_mono_r 123 3 (Z.of_nat k - 1) ltac:(lia) ltac:(lia)). lia. }
  destruct (tower_holds calls k _ _ T) as (css & Ec & F).
  apply Forall2_cons_inv_l in F as (cs & ? & Hh & ->%Forall2_nil_inv_l & ->). cbn [concat] in Ec. rewrite app_nil_r in Ec.
  destruct (saves_write l p (chunks MAX_CONTENT_SIZE content) P h 0 W) as (h' & Es & W' & U); [lia|]. exists h'.
  assert (P0 : (0 < MAX_CONTENT_SIZE)%nat) by (pose proof content_size_Z; lia).
  split; [|split; [done|]].
  - unfold reveal_root_hash_to_store. pose proof page_size_Z as PZ.
    rewrite (reveal_holds (RH := CapturedReveal) calls (write_kernel_page p) (write_page_available calls p) k root cs
      MAX_DAC_LEVELS _ (h, 0) Hh K); [|unfold MAX_DAC_LEVELS in *; lia|done]. by rewrite <- Ec, Es.
  - rewrite chunks_concat, splice_eq in U by done. cbn [Z.to_nat take app Nat.add] in U.
    by rewrite chunks_cons in U by done.
Qed.

(** ** The upgrade *)

Definition BOOT_STEPS : list (list Z) := path_steps KERNEL_BOOT_PATH.
Definition REBOOT_STEPS : list (list Z) := path_steps REBOOT_PATH.

Lemma boot_writable : writable BOOT_STEPS KERNEL_BOOT_PATH.
Proof. apply path_ok_writable. vm_compute. reflexivity. Qed.

Lemma reboot_writable : writable REBOOT_STEPS REBOOT_PATH.
Proof. apply path_ok_writable. vm_compute. reflexivity. Qed.

Lemma boot_disjoint :
  ~ BOOT_STEPS `prefix_of` AUX_STEPS /\ ~ AUX_STEPS `prefix_of` BOOT_STEPS /\ REBOOT_STEPS <> BOOT_STEPS.
Proof. split_and!; [intros [r E]..|intros E]; vm_compute in E; discriminate E. Qed.

(** A kernel is revealed to a temporary path and moved to the boot path. *)
Definition reveal_and_move (tmp root : list Z) : list ConfigInstruction :=
  [InstrReveal root tmp; InstrMove tmp KERNEL_BOOT_PATH].

(** A temporary path apart from the auxiliary path. *)
Definition tmp_ok (tmp : list Z) : Prop :=
  path_ok tmp /\ ~ path_steps tmp `prefix_of` AUX_STEPS /\ ~ AUX_STEPS `prefix_of` path_steps tmp.

Lemma flow_installable tmp root : tmp_ok tmp -> length root = PREIMAGE_HASH_SIZE ->
  Forall instr_installable (reveal_and_move tmp root).
Proof.
  intros (Pt & D & _) L. pose proof (path_ok_length tmp Pt) as Lt. change PATH_MAX_SIZE with 242 in Lt.
  assert (Lb : Z.of_nat (length KERNEL_BOOT_PATH) = 17) by reflexivity. destruct boot_disjoint as (Db & _).
  pose proof hash_size_Z as HZ. unfold instr_installable, reveal_and_move. change CONFIG_MAX_SIZE with 487.
  apply Forall_cons_2; [|apply Forall_singleton]; cbn [instr_ok instr_size instr_avoids].
  - split_and!; [unfold MAX_FILE_CHUNK_SIZE; lia|done|lia|]. intros E. apply D. by rewrite E.
  - split_and!; [done|vm_compute; reflexivity|lia|done|done].
Qed.

Lemma store_copy_available calls p q : keeps (available (H := H) calls) (store_copy p q).
Proof.
  intros h A. unfold store_copy. destruct (check_path_exists h p); [|done]. unfold wrap_unit.
  pose proof (fun hash n => reveal_copy h p q hash n) as K. destruct (core_store_copy h p q) as [c h'].
  cbn [snd] in *. intros hash page n I N. rewrite K. by apply A.
Qed.

(** The prepared content of a root, and a host that reveals its pages. *)
Definition prepared (content root : list Z) (calls : list (list Z * list Z)) : Prop :=
  content <> [] /\ Z.of_nat (length content) <= 4091 * 123 ^ 3 /\
  prepare_preimages (length content) content = Done (Ok root, calls).

(** What is at the boot path after the content was written over the value at
    the temporary path. *)
Definition installed (content : list Z) (old : option (list Z)) : list Z := content ++ drop (length content) (default [] old).

Lemma flow_ok tmp content root calls (h : H) :
  path_ok tmp -> store_wf h -> prepared content root calls -> available calls h ->
  exists h', evaluate (reveal_and_move tmp root) h = (Ok tt, h') /\ store_wf h' /\
    val h' BOOT_STEPS = Some (installed content (val h (path_steps tmp))) /\
    forall q, steps_ok q -> ~ BOOT_STEPS `prefix_of` q ->
      val h' q = if decide (path_steps tmp `prefix_of` q) then None else val h q.
Proof.
  intros Pt%path_ok_writable W (N & L & E) A. set (l := path_steps tmp) in *.
  destruct (reveal_root_ok l _ content root calls h W Pt N L E A) as (h1 & E1 & W1 & U1).
  pose proof (root_size _ _ _ N E) as Lr.
  assert (V1 := updated_at _ _ _ _ (proj1 (writable_steps _ _ Pt)) U1).
  destruct (store_move_spec h1 _ _ _ _ W1 Pt boot_writable) as [(h2 & E2 & W2 & T2 & T3)|[_ X]].
  2: { specialize (X [] ltac:(constructor)). rewrite app_nil_r in X. congruence. }
  exists h2. split_and!; [|done| |].
  - cbn [evaluate reveal_and_move]. unfold st_bind. cbn [eval_config_instr]. by rewrite (proj2 (Nat.eqb_eq _ _) Lr), E1, E2.
  - specialize (T2 [] ltac:(constructor)). rewrite !app_nil_r in T2. by rewrite T2.
  - intros q Q D. rewrite T3 by done. destruct (decide _) as [|D2]; [done|]. by rewrite U1, decide_False by done || (intros ->; by apply D2).
Qed.

(** A kernel that upgrades itself: evaluating [upgrade_reveal_flow] with the
    root hash of a prepared content whose pages can be revealed puts the content
    at the boot path.  After it are the bytes that an older and longer value of
    the temporary path had there; the temporary path is gone and no other value
    outside the boot path changes. *)
Theorem upgrade_reveal_flow_spec content root calls (h : H) :
  store_wf h -> prepared content root calls -> available calls h ->
  exists h', evaluate (upgrade_reveal_flow root) h = (Ok tt, h') /\ store_wf h' /\
    val h' BOOT_STEPS = Some (installed content (val h (path_steps TMP_REVEAL_PATH))) /\
    forall q, steps_ok q -> ~ BOOT_STEPS `prefix_of` q ->
      val h' q = if decide (path_steps TMP_REVEAL_PATH `prefix_of` q) then None else val h q.
Proof. apply flow_ok. vm_compute. reflexivity. Qed.

(** The installer with these instructions at its end. *)
Lemma installer_flow tmp fuel (h : H) kernel bytes content root calls :
  tmp_ok tmp -> store_wf h -> prepared content root calls -> available calls h ->
  OwnedConfigProgram_bin_write (reveal_and_move tmp root) = Some bytes ->
  val h BOOT_STEPS = Some (kernel ++ bytes) -> Z.of_nat (length (kernel ++ bytes)) < 2 ^ 31 -> (2 <= fuel)%nat ->
  exists h', installer fuel h = Done h' /\ store_wf h' /\
    val h' BOOT_STEPS = Some (installed content (val h (path_steps tmp))) /\
    is_Some (val h' REBOOT_STEPS) /\
    forall q, steps_ok q -> ~ BOOT_STEPS `prefix_of` q -> q <> REBOOT_STEPS ->
      val h' q = if decide (path_steps tmp `prefix_of` q \/ AUX_STEPS `prefix_of` q) then None else val h q.
Proof.
  intros T W Pr A Eb V Lb Fu. pose proof T as (Po & D1 & D3). pose proof (path_ok_writable tmp Po) as Pt. pose proof Pr as (N & L & E).
  destruct boot_disjoint as (_ & D4 & D7).
  pose proof (root_size _ _ _ N E) as Lr.
  destruct (install_run fuel h BOOT_STEPS _ kernel _ bytes W boot_writable Eb V Lb (flow_installable tmp root T Lr) Fu) as (h1 & C & W1 & [T1 T2] & R).
  pose proof (store_copy_available calls KERNEL_BOOT_PATH AUXILIARY_CONFIG_INTERPRETATION_PATH h A) as A1.
  rewrite C in A1. cbn [snd] in A1.
  destruct (flow_ok tmp content root calls h1 Po W1 Pr A1) as (h2 & E2 & W2 & V2 & U2). rewrite E2 in R.
  destruct R as (h3 & E3 & W3 & U3).
  destruct (store_write_ok h3 REBOOT_STEPS REBOOT_PATH [0] 0 W3 reboot_writable ltac:(lia)) as (h4 & E4 & W4 & U4).
  pose proof (proj1 (writable_steps _ _ boot_writable)) as Sb. pose proof (proj1 (writable_steps _ _ reboot_writable)) as Sr.
  exists h4. split_and!; [|done| | |].
  - unfold installer. rewrite E3. cbn [outcome_map]. unfold mark_for_reboot. by rewrite E4.
  - rewrite U4, decide_False by done. by rewrite U3, decide_False, V2, T2 by done || apply (writable_steps _ _ Pt).
  - by rewrite (updated_at _ _ _ _ Sr U4).
  - intros q Q D R. rewrite U4, decide_False, U3 by done. repeat case_decide; try (exfalso; tauto); try done.
    + by rewrite U2, decide_True by tauto.
    + by rewrite U2, decide_False, T2 by tauto.
Qed.
End upgrade.

(** ** Examples *)

#[export] Instance toy_nom : Nom := {|
  nom_u8 l := match l with b :: rest => Some (rest, b) | [] => None end;
  nom_u32_le l := if (4 <=? length l)%nat then Some (drop 4 l, u32_from_le_bytes (take 4 l)) else None;
  nom_take n l := if (n <=? length l)%nat then Some (drop n l, take n l) else None;
|}.
#[export] Instance toy_nom_laws : NomLaws.
Proof.
  split; [done|..]; cbn [nom_u32_le nom_take toy_nom].
  - intros z rest U. by rewrite length_app, u32_bytes_length, drop_app_length', take_app_length', u32_le_roundtrip.
  - intros bytes rest. rewrite (proj2 (Nat.leb_le _ _)) by (rewrite length_app; lia). by rewrite drop_app_length, take_app_length.
Qed.

(** A storage with a value at the boot path. *)
Definition toy_boot (bytes : list Z) : Node := (store_write KERNEL_BOOT_PATH bytes 0 Node_default).2.

Lemma toy_boot_ok bytes : writable BOOT_STEPS KERNEL_BOOT_PATH /\ store_wf (toy_boot bytes) /\
  val (toy_boot bytes) BOOT_STEPS = Some bytes.
Proof.
  pose proof boot_writable as P. unfold toy_boot.
  destruct (store_write_ok Node_default BOOT_STEPS KERNEL_BOOT_PATH bytes 0 Node_default_store_wf P) as (h' & E & W & U).
  { split; [done|apply Nat2Z.is_nonneg]. }
  rewrite E. cbn [snd]. split_and!; [done..|]. rewrite (updated_at _ _ _ _ (proj1 (writable_steps _ _ P)) U).
  assert (N : val Node_default BOOT_STEPS = None) by (vm_compute; reflexivity).
  rewrite N. cbn [from_option id]. rewrite splice_eq by done. cbn [Z.to_nat take app]. by rewrite drop_nil, app_nil_r.
Qed.

(** A program that sets a value, and its encoding. *)
Definition toy_set : ConfigInstruction := InstrSet [9; 9] [47; 97; 47; 98].

Definition toy_set_bytes : list Z := default [] (OwnedConfigProgram_bin_write [toy_set]).

Lemma install_kernel_spec_witness :
  exists h, install_kernel 1 KERNEL_BOOT_PATH (toy_boot ([1; 2; 3] ++ toy_set_bytes)) = Done (Ok tt, h) /\
    val h [[97]; [98]] = Some [9; 9] /\ val h AUX_STEPS = None.
Proof.
  destruct (toy_boot_ok ([1; 2; 3] ++ toy_set_bytes)) as (P & W & V).
  destruct (install_kernel_spec 1 (toy_boot ([1; 2; 3] ++ toy_set_bytes)) BOOT_STEPS KERNEL_BOOT_PATH [1; 2; 3] [toy_set] toy_set_bytes W P)
    as (h1 & C & T & R).
  - vm_compute. reflexivity.
  - exact V.
  - vm_compute. reflexivity.
  - repeat constructor; vm_compute; congruence.
  - done.
  - assert (E1 : (store_copy KERNEL_BOOT_PATH AUXILIARY_CONFIG_INTERPRETATION_PATH (toy_boot ([1; 2; 3] ++ toy_set_bytes))).2 = h1) by by rewrite C.
    destruct (evaluate [toy_set] h1) as [[[]|e] h2] eqn:E2; [|rewrite <- E1 in E2; vm_compute in E2; discriminate E2].
    assert (V2 : val h2 [[97]; [98]] = Some [9; 9]).
    { rewrite <- E1 in E2. apply (f_equal (fun r => val r.2 [[97]; [98]])) in E2. cbn [snd] in E2. rewrite <- E2. vm_compute. reflexivity. }
    destruct R as (h3 & E3 & _ & U3). exists h3. split; [exact E3|]. rewrite !U3 by first [apply aux_steps_ok|apply (writable_steps _ _ writable_example)].
    split; [|by rewrite decide_True]. rewrite decide_False; [exact V2|]. intros [r E]. vm_compute in E. discriminate E.
Defined.

(** A value that the reader takes but the buffer does not. *)
Definition toy_big : ConfigInstruction := InstrSet (replicate 500 9) [47; 97; 47; 98].

Definition toy_big_bytes : list Z := default [] (OwnedConfigProgram_bin_write [toy_big]).

Lemma install_oversized_panics_witness : install_kernel 1 KERNEL_BOOT_PATH (toy_boot ([1; 2; 3] ++ toy_big_bytes)) = Panicked.
Proof.
  destruct (toy_boot_ok ([1; 2; 3] ++ toy_big_bytes)) as (P & W & V).
  apply (install_oversized_panics 0 (toy_boot ([1; 2; 3] ++ toy_big_bytes)) BOOT_STEPS KERNEL_BOOT_PATH [1; 2; 3] toy_big [] toy_big_bytes W P);
    [vm_compute; reflexivity|exact V|vm_compute; reflexivity| |vm_compute; reflexivity].
  split; vm_compute; congruence.
Defined.

Lemma toy_is_prepared : prepared toy_content toy_prepared.1 toy_prepared.2.
Proof. split_and!; [done|vm_compute; congruence|vm_compute; reflexivity]. Qed.

Lemma upgrade_reveal_flow_spec_witness :
  exists h, evaluate (upgrade_reveal_flow toy_prepared.1) Node_default = (Ok tt, h) /\ val h BOOT_STEPS = Some toy_content.
Proof.
  destruct (upgrade_reveal_flow_spec toy_content _ _ Node_default Node_default_store_wf toy_is_prepared) as (h & E & _ & B & _).
  - apply toy_available.
  - assert (N : val Node_default (path_steps TMP_REVEAL_PATH) = None) by (vm_compute; reflexivity).
    rewrite N in B. unfold installed in B. cbn [from_option id] in B. rewrite drop_nil, app_nil_r in B. exists h. split; [exact E|exact B].
Defined.
