(* ===== verification/InstallerConfig.v ===== *)
(** The client that makes an installer ([src/kernel_sdk/installer-client/src])
    and the configuration it reads ([src/kernel_sdk/installer-config/src/yaml]):
    the kernel is split into pages that are saved to files, and the instructions
    to reveal it, to move it to the boot path and to set up the storage are
    appended to the code of the installer.

    Strings are their bytes.  The file system, YAML and the crates hex and
    wasm_gen are interfaces. *)
From S2P Require Import Prelude Path Hash Dac Outbox Installer.
#[local] Open Scope Z_scope.

(** ** The configuration *)

(* kernel_sdk/installer-config/src/yaml/config.rs:10-47 Instr *)
Inductive YamlInstr : Set :=
| Instr_Move (from to : list Z)
| Instr_Reveal (reveal to : list Z)
| Instr_Set (value to : list Z).

(** The form that is read and written: at most one field is to be there. *)
(* kernel_sdk/installer-config/src/yaml/config.rs:76-86 InstrSerDeser *)
Record InstrSerDeser : Set := {
  sd_move : option (list Z * list Z);
  sd_reveal : option (list Z * list Z);
  sd_set : option (list Z * list Z);
}.

Definition is_some_u32 {A} (o : option A) : Z := match o with Some _ => 1 | None => 0 end.

(** The error is a text. *)
(* kernel_sdk/installer-config/src/yaml/config.rs:88-113 try_from *)
Definition Instr_try_from (value : InstrSerDeser) : option YamlInstr :=
  let sm := is_some_u32 value.(sd_move) + is_some_u32 value.(sd_reveal) + is_some_u32 value.(sd_set) in
  if sm =? 0 then None
  else if 1 <? sm then None
  else
    match value.(sd_move), value.(sd_reveal), value.(sd_set) with
    | Some (from, to), _, _ => Some (Instr_Move from to)
    | _, Some (reveal, to), _ => Some (Instr_Reveal reveal to)
    | _, _, Some (value, to) => Some (Instr_Set value to)
    | _, _, _ => None
    end.

(* kernel_sdk/installer-config/src/yaml/config.rs:116-138 into *)
Definition Instr_into (i : YamlInstr) : InstrSerDeser :=
  match i with
  | Instr_Move from to => {| sd_move := Some (from, to); sd_reveal := None; sd_set := None |}
  | Instr_Reveal reveal to => {| sd_move := None; sd_reveal := Some (reveal, to); sd_set := None |}
  | Instr_Set value to => {| sd_move := None; sd_reveal := None; sd_set := Some (value, to) |}
  end.

(** ** Conversion *)

(** [hex::decode] *)
Class HexDecode := { FromHexError : Type; hex_decode : list Z -> result (list Z) FromHexError }.

Section convert.
Context `{HD : HexDecode}.

(* kernel_sdk/installer-config/src/yaml/convert.rs:16-26 ConfigConversionError *)
Inductive ConfigConversionError : Type :=
| CC_Hex (e : FromHexError)
| CC_InvalidRevealHashSize (size : nat)
| CC_PathError (e : PathError)
| CC_SetToReveal (to : list Z).

(* kernel_sdk/installer-config/src/yaml/convert.rs:28-44 reveal_instr_hex *)
Definition reveal_instr_hex (hash_hex to : list Z) : result ConfigInstruction ConfigConversionError :=
  let? to := result_map_err CC_PathError (path_try_from to) in
  let? hash := result_map_err CC_Hex (hex_decode hash_hex) in
  if (length hash =? PREIMAGE_HASH_SIZE)%nat then Ok (InstrReveal hash to)
  else Err (CC_InvalidRevealHashSize (length hash)).

(* kernel_sdk/installer-config/src/yaml/convert.rs:46-53 move_instr_str *)
Definition move_instr_str (from to : list Z) : result ConfigInstruction ConfigConversionError :=
  let? from := result_map_err CC_PathError (path_try_from from) in
  let? to := result_map_err CC_PathError (path_try_from to) in
  Ok (InstrMove from to).

(** Conversion may save pages to files, and panic. *)
Context {F : Type}.
Definition clientM (E A : Type) : Type := F -> outcome (result A E * F).

Definition client_lift {E A} (r : result A E) : clientM E A := fun f => Done (r, f).

Definition client_bind {E A B} (m : clientM E A) (k : A -> clientM E B) : clientM E B := fun f =>
  match m f with
  | Done (Ok a, f) => k a f
  | Done (Err e, f) => Done (Err e, f)
  | Panicked => Panicked
  | OutOfFuel => OutOfFuel
  end.

Definition client_map_err {E E' A} (g : E -> E') (m : clientM E A) : clientM E' A := fun f =>
  outcome_map (fun '(r, f) => (result_map_err g r, f)) (m f).

(** An absent hash is the error [tt]. *)
Context (content_to_hash : list Z -> clientM unit (list Z)).

(* kernel_sdk/installer-config/src/yaml/convert.rs:55-70 set_instr_hex *)
Definition set_instr_hex (value to : list Z) : clientM ConfigConversionError ConfigInstruction :=
  client_bind (client_lift (result_map_err CC_PathError (path_try_from to))) (fun to =>
  client_bind (client_lift (result_map_err CC_Hex (hex_decode value))) (fun value =>
  if (PREIMAGE_HASH_SIZE <? length value)%nat then
    client_bind (client_map_err (fun _ => CC_SetToReveal to) (content_to_hash value)) (fun hash =>
    client_lift (Ok (InstrReveal hash to)))
  else client_lift (Ok (InstrSet value to)))).

(* kernel_sdk/installer-config/src/yaml/convert.rs:79-85 to_config_program *)
Definition convert_instr (i : YamlInstr) : clientM ConfigConversionError ConfigInstruction :=
  match i with
  | Instr_Move from to => client_lift (move_instr_str from to)
  | Instr_Reveal reveal to => client_lift (reveal_instr_hex reveal to)
  | Instr_Set value to => set_instr_hex value to
  end.

(** Collecting ends with the first error. *)
(* kernel_sdk/installer-config/src/yaml/convert.rs:73-88 to_config_program *)
Fixpoint to_config_program (instructions : list YamlInstr) : clientM ConfigConversionError (list ConfigInstruction) :=
  match instructions with
  | [] => client_lift (Ok [])
  | i :: instructions =>
      client_bind (convert_instr i) (fun c =>
      client_bind (to_config_program instructions) (fun program => client_lift (Ok (c :: program))))
  end.
End convert.
#[global] Arguments ConfigConversionError {HD}.
#[global] Arguments clientM F E A : clear implicits.

(** ** The client *)

(** The file system: [OsPath] is a path of files, [OpenFile] an open one.  The
    parser of configurations reads one. *)
Class Files (F : Type) := {
  OsPath : Type;
  FileError : Type;
  OpenFile : Type;
  YamlError : Type;
  is_dir : F -> OsPath -> bool;
  create_dir_all : F -> OsPath -> result unit FileError * F;
  file_write : F -> OsPath -> list Z -> result unit FileError * F;
  file_read : F -> OsPath -> result (list Z) FileError;
  file_open : F -> OsPath -> result OpenFile FileError;
  path_join : OsPath -> list Z -> OsPath;
  path_extension : OsPath -> option (list Z);
  yaml_from_reader : F -> OpenFile -> result (list YamlInstr) YamlError;
}.

(** [wasm_gen::write_custom_section]: the module with the section. *)
Class WasmGen := { write_custom_section : list Z -> list Z -> list Z -> list Z }.

Section client.
Context {F : Type} `{FS : Files F} `{HX : Hex} `{HD : HexDecode} `{WG : WasmGen} `{BH : Blake2b} `{PW : PageWriter}.

(** [e.to_string()] is the error [e]. *)
(* kernel_sdk/installer-client/src/preimages.rs:11-19 Error *)
Inductive PreimagesError : Type :=
| PE_ContentFile (e : FileError)
| PE_PreimagesDir (e : FileError)
| PE_Preimage (e : PreimageHashError).

(** A page that cannot be written is only reported. *)
(* kernel_sdk/installer-client/src/preimages.rs:29-36 save_preimages *)
Definition save_preimages (preimage_dir : OsPath) (calls : list (list Z * list Z)) (f : F) : F :=
  foldl (fun f '(hash, preimage) => (file_write f (path_join preimage_dir (hex_bytes hash)) preimage).2) f calls.

(** As many levels as bytes are enough fuel. *)
(* kernel_sdk/installer-client/src/preimages.rs:21-40 content_to_preimages *)
Definition content_to_preimages (content : list Z) (preimage_dir : OsPath) : clientM F PreimagesError (list Z) := fun f =>
  let '(r, f) := if is_dir f preimage_dir then (Ok tt, f) else create_dir_all f preimage_dir in
  match r with
  | Err e => Done (Err (PE_PreimagesDir e), f)
  | Ok _ =>
      outcome_map (fun '(r, calls) => (result_map_err PE_Preimage r, save_preimages preimage_dir calls f))
        (prepare_preimages (length content) content)
  end.

(* kernel_sdk/installer-client/src/config.rs:16-24 ConfigurationError *)
Inductive ConfigurationError : Type :=
| CE_FileNotFound (e : FileError)
| CE_ParseError (e : YamlError)
| CE_YamlConfigInvalid (e : ConfigConversionError).

(** The bytes of [/installer/kernel/boot.wasm]. *)
(* kernel_sdk/installer-client/src/config.rs:27-27 PREPARE_KERNEL_PATH *)
Definition PREPARE_KERNEL_PATH : list Z :=
  [47; 105; 110; 115; 116; 97; 108; 108; 101; 114; 47; 107; 101; 114; 110; 101; 108; 47; 98; 111; 111; 116; 46; 119; 97; 115; 109].

(** [preimages_dir.unwrap()] panics only when a value has to be split. *)
(* kernel_sdk/installer-client/src/config.rs:48-50 create_installer_config *)
Definition content_to_config (preimages_dir : option OsPath) (content : list Z) : clientM F unit (list Z) := fun f =>
  match preimages_dir with
  | None => Panicked
  | Some dir => client_map_err (fun _ => tt) (content_to_preimages content dir) f
  end.

(* kernel_sdk/installer-client/src/config.rs:52-61 create_installer_config *)
Definition setup_program (setup_file : option OsPath) (preimages_dir : option OsPath) :
  clientM F ConfigurationError (list ConfigInstruction) := fun f =>
  match setup_file with
  | None => Done (Ok [], f)
  | Some setup_file =>
      match file_open f setup_file with
      | Err e => Done (Err (CE_FileNotFound e), f)
      | Ok reader =>
          match yaml_from_reader f reader with
          | Err e => Done (Err (CE_ParseError e), f)
          | Ok config => client_map_err CE_YamlConfigInvalid (to_config_program (content_to_config preimages_dir) config) f
          end
      end
  end.

(* kernel_sdk/installer-client/src/config.rs:32-66 create_installer_config *)
Definition create_installer_config (root_hash : list Z) (setup_file preimages_dir : option OsPath) :
  clientM F ConfigurationError (list ConfigInstruction) :=
  client_bind (setup_program setup_file preimages_dir) (fun setup =>
  client_lift (Ok ([InstrReveal root_hash PREPARE_KERNEL_PATH; InstrMove PREPARE_KERNEL_PATH KERNEL_BOOT_PATH] ++ setup))).

(** The code of the installer, a file of the client. *)
Context (INSTALLER_KERNEL : list Z).

(** The name of the section is [config]; [None] is the panic of [unwrap]. *)
(* kernel_sdk/installer-client/src/installer.rs:24-35 with_config_program *)
Definition with_config_program (config_program : list ConfigInstruction) : option (list Z) :=
  (fun encoded => write_custom_section INSTALLER_KERNEL [99; 111; 110; 102; 105; 103] encoded)
    <$> OwnedConfigProgram_bin_write config_program.

(** The extension is [wasm]; otherwise the kernel is written in hexadecimal. *)
(* kernel_sdk/installer-client/src/output.rs:12-23 save_kernel *)
Definition save_kernel (kernel_path : OsPath) (kernel : list Z) : clientM F FileError unit := fun f =>
  Done (if bool_decide (path_extension kernel_path = Some [119; 97; 115; 109]) then file_write f kernel_path kernel
        else file_write f kernel_path (hex_bytes kernel)).

(* kernel_sdk/installer-client/src/main.rs:51-59 ClientError *)
Inductive ClientError : Type :=
| KernelPreimageError (e : PreimagesError)
| ConfigError (e : ConfigurationError)
| SaveInstaller (e : FileError).

(** The command [GetRevealInstaller]; the hash is only printed. *)
(* kernel_sdk/installer-client/src/main.rs:19-49 main *)
Definition get_reveal_installer (upgrade_to output preimages_dir : OsPath) (setup_file : option OsPath) :
  clientM F ClientError unit := fun f =>
  match file_read f upgrade_to with
  | Err e => Done (Err (KernelPreimageError (PE_ContentFile e)), f)
  | Ok kernel =>
      client_bind (client_map_err KernelPreimageError (content_to_preimages kernel preimages_dir)) (fun root_hash =>
      client_bind (client_map_err ConfigError (create_installer_config root_hash setup_file (Some preimages_dir))) (fun config =>
      match with_config_program config with
      | None => fun _ => Panicked
      | Some kernel => client_map_err SaveInstaller (save_kernel output kernel)
      end)) f
  end.
End client.
