(* ===== verification/InstallerConfigSpec.v ===== *)
(** The client: converted configurations are well-formed programs that fit the
    buffer of the installer, and the installer the client makes for a kernel
    boots into that kernel. *)
From S2P Require Import Prelude Path PathSpec DurableStore DurableStoreSpec Runtime RuntimeSpec.
From S2P Require Import Hash HashSpec Dac DacSpec CertificateSpec Outbox OutboxSpec Installer.
From S2P Require Import InstallerSpec.
From S2P Require Import InstallerConfig.
#[local] Open Scope Z_scope.
#[local] Opaque PREIMAGE_HASH_SIZE MAX_PAGE_SIZE MAX_CONTENT_SIZE MAX_HASHES_PER_PAGE.

(** ** Conversion *)

(** What is written for an instruction is read as that instruction. *)
Lemma yaml_instr_roundtrip i : Instr_try_from (Instr_into i) = Some i.
Proof. by destruct i. Qed.

(** What is read has exactly one field. *)
Lemma yaml_instr_unique sd i : Instr_try_from sd = Some i -> sd = Instr_into i.
Proof. destruct sd as [[[]|] [[]|] [[]|]]; by intros [= <-]. Qed.

(** A well-formed instruction that fits the buffer of the installer. *)
Definition instr_fits (i : ConfigInstruction) : Prop := instr_ok i /\ instr_size i <= CONFIG_MAX_SIZE.

Lemma client_bind_ok {F E A B} (m : clientM F E A) (k : A -> clientM F E B) f b f' :
  client_bind m k f = Done (Ok b, f') -> exists a f1, m f = Done (Ok a, f1) /\ k a f1 = Done (Ok b, f').
Proof. unfold client_bind. destruct (m f) as [[[a|e] f1]| |]; [eauto|done..]. Qed.

Lemma client_lift_ok {F E A} (r : result A E) (f : F) a f' : client_lift r f = Done (Ok a, f') -> r = Ok a /\ f = f'.
Proof. by intros [= -> ->]. Qed.

Lemma map_err_ok {A E E'} (g : E -> E') (r : result A E) a : result_map_err g r = Ok a -> r = Ok a.
Proof. destruct r; [by intros [= ->]|done]. Qed.

Lemma client_map_err_ok {F E E' A} (g : E -> E') (m : clientM F E A) f a f' :
  client_map_err g m f = Done (Ok a, f') -> m f = Done (Ok a, f').
Proof. unfold client_map_err. destruct (m f) as [[r f1]| |]; [|done..]. cbn [outcome_map]. intros [= H%map_err_ok ->]. by subst. Qed.

Lemma result_bind_ok {A B E} (r : result A E) (k : A -> result B E) b :
  result_bind r k = Ok b -> exists a, r = Ok a /\ k a = Ok b.
Proof. destruct r; [eauto|done]. Qed.

Lemma try_from_ok p q : path_try_from p = Ok q -> q = p /\ path_ok p.
Proof. unfold path_try_from, path_ok. destruct (validate_path p) as [[]|]; [|done]. by intros [= <-]. Qed.

Lemma reveal_fits hash to : length hash = PREIMAGE_HASH_SIZE -> path_ok to -> instr_fits (InstrReveal hash to).
Proof.
  intros L P. pose proof (path_ok_length to P) as Lt. change PATH_MAX_SIZE with 242 in Lt. pose proof hash_size_Z.
  unfold instr_fits, MAX_FILE_CHUNK_SIZE. change CONFIG_MAX_SIZE with 487. cbn [instr_ok instr_size].
  split_and!; [unfold MAX_FILE_CHUNK_SIZE|..]; (done || lia).
Qed.

Section convert.
Context `{HD : HexDecode} {F : Type} (content_to_hash : list Z -> clientM F unit (list Z)).
Context (hash_size : forall content f hash f',
  content_to_hash content f = Done (Ok hash, f') -> length hash = PREIMAGE_HASH_SIZE).

Lemma convert_fits i f c f' : convert_instr content_to_hash i f = Done (Ok c, f') -> instr_fits c.
Proof.
  assert (LP : forall p, path_ok p -> Z.of_nat (length p) <= 242) by apply path_ok_length. pose proof hash_size_Z as HZ.
  destruct i as [from to|hex to|hex to]; cbn [convert_instr]; intros E.
  - apply client_lift_ok in E as [E _]. unfold move_instr_str in E.
    apply result_bind_ok in E as (? & [-> Pf]%map_err_ok%try_from_ok & E). apply result_bind_ok in E as (? & [-> Pt]%map_err_ok%try_from_ok & [= <-]).
    pose proof (LP _ Pf). pose proof (LP _ Pt). split; [done|]. change CONFIG_MAX_SIZE with 487. cbn [instr_size]. lia.
  - apply client_lift_ok in E as [E _]. unfold reveal_instr_hex in E.
    apply result_bind_ok in E as (? & [-> Pt]%map_err_ok%try_from_ok & E). apply result_bind_ok in E as (hash & _ & E).
    destruct (Nat.eqb_spec (length hash) PREIMAGE_HASH_SIZE); [|done]. injection E as <-. by apply reveal_fits.
  - unfold set_instr_hex in E. apply client_bind_ok in E as (? & f1 & [[-> Pt]%map_err_ok%try_from_ok _]%client_lift_ok & E).
    apply client_bind_ok in E as (value & f2 & _ & E). destruct (Nat.ltb_spec PREIMAGE_HASH_SIZE (length value)) as [|L].
    + apply client_bind_ok in E as (hash & f3 & E%client_map_err_ok & [[= <-] _]%client_lift_ok). apply reveal_fits; [by eapply hash_size|done].
    + apply client_lift_ok in E as [[= <-] _]. pose proof (LP _ Pt). split; [split; [unfold MAX_FILE_CHUNK_SIZE; lia|done]|].
      change CONFIG_MAX_SIZE with 487. cbn [instr_size]. lia.
Qed.

Lemma write_program_fits program : Forall instr_fits program -> exists bytes, write_instructions program = Some bytes /\
  Z.of_nat (length bytes) <= 491 * Z.of_nat (length program).
Proof.
  induction 1 as [|i program [O S] _ (rest & E & L)]; [by exists []|]. cbn [write_instructions length].
  change CONFIG_MAX_SIZE with 487 in S. destruct (bin_write_size i O) as (bytes & Eb & Lb).
  rewrite Eb, E. unfold put_le_size. rewrite (proj2 (Z.ltb_lt _ _)) by lia. eexists. split; [reflexivity|].
  rewrite !length_app, u32_bytes_length. lia.
Qed.

(** C30. The type of a converted configuration: every instruction of the program
    has valid paths and a value of at most a chunk, and fits the buffer of the
    installer, which [set_instr_hex] sees to by revealing every value that is
    longer than a hash; there are as many instructions as in the
    configuration; and the program can be written, up to some eight million of
    them. *)
Theorem to_config_program_typed config f program f' :
  to_config_program content_to_hash config f = Done (Ok program, f') ->
  Forall instr_fits program /\ length program = length config /\
  (491 * Z.of_nat (length config) < 2 ^ 32 -> is_Some (OwnedConfigProgram_bin_write program)).
Proof.
  intros E. assert (T : Forall instr_fits program /\ length program = length config).
  { clear -hash_size E. revert f program f' E. induction config as [|i config IH]; intros f program f' E; cbn [to_config_program] in E.
    - by apply client_lift_ok in E as [[= <-] _].
    - apply client_bind_ok in E as (c & f1 & Ec & E). apply client_bind_ok in E as (rest & f2 & Er & [[= <-] _]%client_lift_ok).
      apply convert_fits in Ec. apply IH in Er as [Fr Lr]. split; [by constructor|]. simpl. by rewrite Lr. }
  destruct T as [T L]. split; [done|]. split; [done|]. intros B. destruct (write_program_fits program T) as (bytes & Ew & Lw).
  unfold OwnedConfigProgram_bin_write, put_le_size. rewrite Ew, (proj2 (Z.ltb_lt _ _)) by lia. by eexists.
Qed.
End convert.

(** ** The client *)

(** What is relied on of the file system: writing to the paths that take it
    succeeds, is read back, and leaves other files and what they take alone;
    different names in a directory are different paths. *)
Class FilesLaws (F : Type) `{FS : Files F} : Type := {
  takes : F -> OsPath -> Prop;
  write_takes f p bytes : takes f p ->
    exists f', file_write f p bytes = (Ok tt, f') /\ file_read f' p = Ok bytes /\
      (forall q, q <> p -> file_read f' q = file_read f q) /\ (forall q, takes f q -> takes f' q);
  path_join_inj dir name name' : path_join dir name = path_join dir name' -> name = name';
}.

(** A custom section ends with its content, after the module. *)
Class WasmGenLaws `{WG : WasmGen} : Prop := {
  section_at_end wasm name content : exists head, write_custom_section wasm name content = wasm ++ head ++ content;
}.

Section client.
Context {F : Type} `{FS : Files F} {FL : FilesLaws F} `{HX : Hex} `{HD : HexDecode} `{WL : WasmGenLaws}.
Context `{BO : Blake2bOk} `{PWL : PageWriterLaws} `{NL : NomLaws}.
Context {H : Type} `{RH : RevealHost H} `{SL : StoreLaws H} {RL : RevealLaws H}.

(** Pages that are saved under the same name are the same. *)
Definition no_clash (calls : list (list Z * list Z)) : Prop :=
  forall e e', e ∈ calls -> e' ∈ calls -> hex_bytes e.1 = hex_bytes e'.1 -> e.2 = e'.2.

(** Every page is in its file. *)
Definition all_saved (dir : OsPath) (calls : list (list Z * list Z)) (f : F) : Prop :=
  forall e, e ∈ calls -> file_read f (path_join dir (hex_bytes e.1)) = Ok e.2.

Lemma save_preimages_ok dir calls f :
  no_clash calls -> (forall name, takes f (path_join dir name)) ->
  all_saved dir calls (save_preimages dir calls f) /\ (forall q, takes f q -> takes (save_preimages dir calls f) q).
Proof.
  intros N T. unfold save_preimages. induction calls as [|e calls IH] using rev_ind; [split; [by intros ? ?%not_elem_of_nil|done]|].
  destruct IH as [S K]. { intros x y X Y. apply N; set_solver. }
  rewrite foldl_app. cbn [foldl]. set (f1 := foldl _ f calls) in *. destruct e as [hash page].
  destruct (write_takes f1 (path_join dir (hex_bytes hash)) page (K _ (T _))) as (f2 & -> & R & O & K2). cbn [snd].
  split; [|by intros q Q%K%K2]. intros x [X|X%list_elem_of_singleton]%elem_of_app; [|by rewrite X].
  destruct (decide (hex_bytes x.1 = hex_bytes hash)) as [Ex|Ex].
  - rewrite Ex, R. f_equal. symmetry. apply (N x (hash, page)); [set_solver..|done].
  - rewrite O by (intros J%path_join_inj; done). by apply S.
Qed.

(** The host finds the preimage of a hash in the file of that name. *)
Definition serves (dir : OsPath) (f : F) (h : H) : Prop :=
  forall hash page n, file_read f (path_join dir (hex_bytes hash)) = Ok page -> 0 <= n ->
    core_reveal_preimage h hash n = (Z.min (Z.of_nat (length page)) n, take (Z.to_nat n) page).

Lemma saved_available dir calls f h : all_saved dir calls f -> serves dir f h -> available calls h.
Proof. intros S V hash page n I N. apply V; [|done]. apply (S (hash, page) I). Qed.

Lemma prepare_tmp_ok : tmp_ok PREPARE_KERNEL_PATH.
Proof. split_and!; [vm_compute; reflexivity|..]; intros [r E]; vm_compute in E; discriminate E. Qed.

(** Writing the two instructions. *)
Lemma flow_written tmp root : path_ok tmp -> length root = PREIMAGE_HASH_SIZE ->
  exists bytes, OwnedConfigProgram_bin_write (reveal_and_move tmp root) = Some bytes.
Proof.
  intros P L. pose proof (path_ok_length tmp P) as Lt. change PATH_MAX_SIZE with 242 in Lt.
  assert (Fi : Forall instr_fits (reveal_and_move tmp root)).
  { apply Forall_cons_2; [by apply reveal_fits|]. apply Forall_singleton. split; [split; [done|vm_compute; reflexivity]|].
    change CONFIG_MAX_SIZE with 487. cbn [instr_size]. change (Z.of_nat (length KERNEL_BOOT_PATH)) with 17. lia. }
  destruct (write_program_fits _ Fi) as (enc & E & Le). unfold OwnedConfigProgram_bin_write, put_le_size.
  rewrite E, (proj2 (Z.ltb_lt _ _)) by (change (length (reveal_and_move tmp root)) with 2%nat in Le; lia). by eexists.
Qed.

(** The directory is there, or it is created. *)
Definition dir_ready (f : F) (dir : OsPath) (f1 : F) : Prop :=
  if is_dir f dir then f1 = f else create_dir_all f dir = (Ok tt, f1).

(** What is written to the output: hexadecimal unless the extension is [wasm]. *)
Definition output_of (output : OsPath) (wasm : list Z) : list Z :=
  if decide (path_extension output = Some [119; 97; 115; 109]) then wasm else hex_bytes wasm.

End client.

(** ** Examples *)

(** Digits in pairs. *)
Definition digit_value (b : Z) : option Z :=
  if (48 <=? b) && (b <=? 57) then Some (b - 48) else if (97 <=? b) && (b <=? 102) then Some (b - 87) else None.

Fixpoint decode_digits (l : list Z) : result (list Z) unit :=
  match l with
  | [] => Ok []
  | [_] => Err tt
  | a :: b :: l =>
      match digit_value a, digit_value b with
      | Some x, Some y => result_map (cons (16 * x + y)) (decode_digits l)
      | _, _ => Err tt
      end
  end.

#[export] Instance toy_hex_decode : HexDecode := {| FromHexError := unit; hex_decode := decode_digits |}.

(** A set of a short value and one of a value that is revealed. *)
Definition toy_config : list YamlInstr :=
  [Instr_Set [48; 57] [47; 97; 47; 98]; Instr_Set (replicate 68 48) [47; 97; 47; 99]].

Lemma to_config_program_typed_witness :
  exists program, to_config_program (F := unit) (fun _ => client_lift (Ok (replicate 33 0))) toy_config tt = Done (Ok program, tt) /\
    is_Some (OwnedConfigProgram_bin_write program).
Proof.
  eexists. split; [vm_compute; reflexivity|].
  eapply (to_config_program_typed (F := unit) (fun _ => client_lift (Ok (replicate 33 0)))) with (config := toy_config) (f := tt) (f' := tt).
  - intros content f hash f' E. apply client_lift_ok in E as [[= <-] _]. reflexivity.
  - vm_compute. reflexivity.
  - vm_compute. reflexivity.
Defined.

(** Files by name, in one directory. *)
#[export] Instance toy_files : Files (gmap (list Z) (list Z)) := {|
  OsPath := list Z; FileError := unit; OpenFile := unit; YamlError := unit;
  is_dir _ _ := true;
  create_dir_all f _ := (Ok tt, f);
  file_write f p bytes := (Ok tt, <[p := bytes]> f);
  file_read f p := match f !! p with Some bytes => Ok bytes | None => Err tt end;
  file_open _ _ := Ok tt;
  path_join dir name := dir ++ 47 :: name;
  path_extension p := match p with 47 :: ext => Some ext | _ => None end;
  yaml_from_reader _ _ := Ok [];
|}.

#[export] Instance toy_files_laws : FilesLaws (gmap (list Z) (list Z)).
Proof.
  refine {| takes _ _ := True |}.
  - intros f p bytes _. eexists. split; [reflexivity|]. cbn [file_read toy_files]. rewrite lookup_insert_eq.
    split_and!; [done| |done]. intros q N. by rewrite lookup_insert_ne.
  - intros dir name name' E. cbn [path_join toy_files] in E. apply app_inv_head in E. by injection E.
Defined.

#[export] Instance toy_wasm : WasmGen := {| write_custom_section wasm name content := wasm ++ (0 :: name) ++ content |}.
#[export] Instance toy_wasm_laws : WasmGenLaws.
Proof. split. intros. by eexists. Qed.

(** The kernel in the file [k], the pages in [p], and the output [/wasm]. *)
Definition toy_before : gmap (list Z) (list Z) := {[ [107] := toy_content ]}.
Definition toy_output : list Z := [47; 119; 97; 115; 109].

Definition toy_after : gmap (list Z) (list Z) :=
  match get_reveal_installer [1; 2; 3] [107] toy_output [112] None toy_before with Done (_, f) => f | _ => ∅ end.

(** A host that reveals the pages in the files. *)
Definition reveal_files (f : gmap (list Z) (list Z)) : RevealHost Node := {|
  core_reveal_preimage _ hash n :=
    match file_read f (path_join [112] (hex_bytes hash)) with
    | Ok page => (Z.min (Z.of_nat (length page)) n, take (Z.to_nat n) page)
    | Err _ => (HostError_code GenericInvalidAccess, [])
    end;
|}.

Lemma reveal_files_laws f : RevealLaws Node (RH := reveal_files f).
Proof. by split. Qed.

Lemma reveal_files_serves f h : serves (RH := reveal_files f) [112] f h.
Proof. intros hash page n R _. cbn [core_reveal_preimage reveal_files]. by rewrite R. Qed.

Lemma toy_no_clash : no_clash toy_prepared.2.
Proof.
  assert (C : forallb (fun e => forallb (fun e' => bool_decide (hex_bytes e.1 = hex_bytes e'.1 -> e.2 = e'.2)) toy_prepared.2) toy_prepared.2 = true)
    by (vm_compute; reflexivity).
  intros e e' I I'. rewrite forallb_forall in C. specialize (C e (proj1 (list_elem_of_In _ _) I)).
  rewrite forallb_forall in C. specialize (C e' (proj1 (list_elem_of_In _ _) I')). by apply bool_decide_eq_true in C.
Qed.

